(** * GPU proxy over the IDM transport: a shallow embedding

    This development embeds the inter-domain messaging transport
    (idm-protocol/idm.h, idm-protocol/transport.c, stub mode over POSIX
    shared memory and named semaphores), the driver-side handle table
    (gpu-proxy/handle_table.c), the driver-side handlers
    (gpu-proxy/handlers.c) and the user-side request/response correlator
    (gpu-proxy/libvgpu/libvgpu.c), and proves properties of them.

    Conventions.
    - C unsigned integers are [Z] values; every wrap-around the C code
      performs is written out with [u16], [u32], [u64].
    - Pointers are [Z] addresses, [0] is NULL.
    - Memory buffers are [list byte].  A packed struct that the code
      reads through a cast of a byte buffer is decoded from the bytes
      (little-endian, the layout of the hosts the code targets); a read
      beyond the end of the buffer is undefined in C and is [None] here.
    - [malloc] may fail: each process carries the outcomes of its coming
      allocations ([heap]).
    - System calls may fail: the shared world carries what the operating
      system refuses ([faults]).
    - Diagnostics written to stdout and stderr are not modelled. *)

From Stdlib Require Import ZArith Lia List Bool.
From Stdlib Require Import Strings.Byte Strings.String.
From stdpp Require Import base option list gmap.

Local Open Scope Z_scope.

(* ====================================================================== *)
(** ** Machine integers and byte buffers *)
(* ====================================================================== *)

Definition u16 (z : Z) : Z := z mod 2 ^ 16.
Definition u32 (z : Z) : Z := z mod 2 ^ 32.
Definition u64 (z : Z) : Z := z mod 2 ^ 64.

Definition byte_of_Z (z : Z) : byte :=
  match Byte.of_N (Z.to_N (z mod 256)) with
  | Some b => b
  | None => x00
  end.

Definition Z_of_byte (b : byte) : Z := Z.of_N (Byte.to_N b).

(** The [n] low bytes of [z], least significant first. *)
Fixpoint encode_le (n : nat) (z : Z) : list byte :=
  match n with
  | O => []
  | S k => byte_of_Z z :: encode_le k (z / 256)
  end.

Fixpoint decode_le (bs : list byte) : Z :=
  match bs with
  | [] => 0
  | b :: rest => Z_of_byte b + 256 * decode_le rest
  end.

(** Read an [n]-byte unsigned field at byte offset [off] of [buf]. *)
Definition read_le (off n : nat) (buf : list byte) : option Z :=
  let bs := take n (drop off buf) in
  if decide (length bs = n) then Some (decode_le bs) else None.

(** [memcpy(dst, src, n)] on buffers: the first [n] bytes of [dst] are
    replaced by the first [n] bytes of [src].  The source is expected to
    hold [n] bytes; C leaves a shorter source undefined. *)
Definition memcpy (dst src : list byte) (n : Z) : list byte :=
  take (Z.to_nat n) src ++ drop (Z.to_nat n) dst.

(** [memset(dst, 0, n)]. *)
Definition memset0 (dst : list byte) (n : Z) : list byte :=
  replicate (Z.to_nat n) x00 ++ drop (Z.to_nat n) dst.

(* ====================================================================== *)
(** ** Wire format (idm.h) *)
(* ====================================================================== *)

Definition IDM_MAGIC : Z := 0x49444D00.
Definition IDM_VERSION_MAJOR : Z := 1.
Definition IDM_VERSION_MINOR : Z := 0.
Definition IDM_VERSION : Z := Z.lor (Z.shiftl IDM_VERSION_MAJOR 8) IDM_VERSION_MINOR.
Definition IDM_MAX_PAYLOAD_SIZE : Z := 4 * 1024 * 1024.
Definition IDM_RING_SIZE : Z := 32.

(** [enum idm_msg_type] *)
Definition IDM_GPU_ALLOC : Z := 0x01.
Definition IDM_GPU_FREE : Z := 0x02.
Definition IDM_GPU_COPY_H2D : Z := 0x10.
Definition IDM_GPU_COPY_D2H : Z := 0x11.
Definition IDM_GPU_COPY_D2D : Z := 0x12.
Definition IDM_GPU_MEMSET : Z := 0x13.
Definition IDM_GPU_LAUNCH_KERNEL : Z := 0x20.
Definition IDM_GPU_SYNC : Z := 0x21.
Definition IDM_GPU_GET_INFO : Z := 0x30.
Definition IDM_GPU_GET_PROPS : Z := 0x31.
Definition IDM_RESPONSE_OK : Z := 0xF0.
Definition IDM_RESPONSE_ERROR : Z := 0xF1.

(** [enum idm_error] *)
Definition IDM_ERROR_NONE : Z := 0.
Definition IDM_ERROR_INVALID_MESSAGE : Z := 1.
Definition IDM_ERROR_INVALID_HANDLE : Z := 2.
Definition IDM_ERROR_PERMISSION_DENIED : Z := 3.
Definition IDM_ERROR_OUT_OF_MEMORY : Z := 4.
Definition IDM_ERROR_INVALID_SIZE : Z := 5.
Definition IDM_ERROR_TIMEOUT : Z := 6.
Definition IDM_ERROR_CONNECTION_LOST : Z := 7.
Definition IDM_ERROR_CUDA_ERROR : Z := 8.
Definition IDM_ERROR_UNKNOWN : Z := 99.

(** [struct idm_header], packed: 4+2+2+4+4+8+4+4 = 32 bytes. *)
Record idm_header := {
  magic : Z;
  version : Z;
  msg_type : Z;
  src_zone : Z;
  dst_zone : Z;
  seq_num : Z;
  payload_len : Z;
  reserved : Z
}.

Definition SIZEOF_HEADER : Z := 32.

(** [struct idm_message]: the header and the bytes of the flexible
    [payload] array that the owner of the message allocated. *)
Record idm_message := {
  header : idm_header;
  payload : list byte
}.

(** A message whose buffer holds exactly the announced payload. *)
Definition msg_wf (m : idm_message) : Prop :=
  Z.of_nat (length (payload m)) = payload_len (header m).

Definition idm_message_size (h : idm_header) : Z :=
  SIZEOF_HEADER + payload_len h.

Definition idm_message_valid (h : idm_header) : bool :=
  (magic h =? IDM_MAGIC) && (version h =? IDM_VERSION)
  && (payload_len h <=? IDM_MAX_PAYLOAD_SIZE).

(** [struct idm_ring_entry]: one page.  The message header sits at the
    start; the payload array and the padding share the other 4064
    bytes ([area]). *)
Record idm_ring_entry := {
  slot_header : idm_header;
  area : list byte
}.

Definition SIZEOF_RING_ENTRY : Z := 4096.
Definition AREA_SIZE : Z := SIZEOF_RING_ENTRY - SIZEOF_HEADER.

(** [struct idm_ring] *)
Record idm_ring := {
  producer : Z;
  consumer : Z;
  entries : list idm_ring_entry
}.

Definition zero_header : idm_header :=
  {| magic := 0; version := 0; msg_type := 0; src_zone := 0; dst_zone := 0;
     seq_num := 0; payload_len := 0; reserved := 0 |}.

Definition zero_entry : idm_ring_entry :=
  {| slot_header := zero_header; area := replicate (Z.to_nat AREA_SIZE) x00 |}.

(** The ring after [memset(ring, 0, sizeof(struct idm_ring))], which is
    also the content of a freshly created shared-memory segment. *)
Definition zero_ring : idm_ring :=
  {| producer := 0; consumer := 0;
     entries := replicate (Z.to_nat IDM_RING_SIZE) zero_entry |}.

Definition set_producer (r : idm_ring) (v : Z) : idm_ring :=
  {| producer := v; consumer := consumer r; entries := entries r |}.

Definition set_consumer (r : idm_ring) (v : Z) : idm_ring :=
  {| producer := producer r; consumer := v; entries := entries r |}.

Definition get_entry (r : idm_ring) (idx : Z) : idm_ring_entry :=
  match entries r !! Z.to_nat idx with
  | Some e => e
  | None => zero_entry
  end.

(** [memcpy(&ring->entries[idx].msg, msg, msg_size)] *)
Definition write_entry (r : idm_ring) (idx : Z) (m : idm_message) : idm_ring :=
  let e := get_entry r idx in
  let e' := {| slot_header := header m;
               area := memcpy (area e) (payload m) (payload_len (header m)) |} in
  {| producer := producer r; consumer := consumer r;
     entries := <[Z.to_nat idx := e']> (entries r) |}.

(** The caller's copy made by [idm_recv]: [memcpy(msg, ring_msg, msg_size)]
    into a buffer of [msg_size] bytes, for a message that lies within
    its slot ([msg_size <= SIZEOF_RING_ENTRY]); [idm_recv] uses it for
    no other. *)
Definition read_entry (e : idm_ring_entry) : idm_message :=
  {| header := slot_header e;
     payload := take (Z.to_nat (payload_len (slot_header e))) (area e) |}.

(** Fixed payload layouts *)
Definition SIZEOF_RESPONSE_OK : Z := 24.
Definition SIZEOF_RESPONSE_ERROR : Z := 272.
Definition SIZEOF_GPU_ALLOC : Z := 16.
Definition SIZEOF_GPU_FREE : Z := 8.
Definition SIZEOF_GPU_COPY_H2D : Z := 24.
Definition SIZEOF_GPU_COPY_D2H : Z := 24.
Definition SIZEOF_GPU_SYNC : Z := 8.

Record idm_gpu_alloc := {
  alloc_size : Z;
  alloc_flags : Z;
  alloc_reserved : Z
}.

Record idm_gpu_free := { free_handle : Z }.

Record idm_gpu_copy_h2d := {
  h2d_dst_handle : Z;
  h2d_dst_offset : Z;
  h2d_size : Z
}.

Record idm_gpu_copy_d2h := {
  d2h_src_handle : Z;
  d2h_src_offset : Z;
  d2h_size : Z
}.

Record idm_gpu_sync := {
  sync_flags : Z;
  sync_reserved : Z
}.

Record idm_response_ok := {
  ok_request_seq : Z;
  ok_result_handle : Z;
  ok_result_value : Z;
  ok_data_len : Z
}.

Record idm_response_error := {
  err_request_seq : Z;
  err_error_code : Z;
  err_cuda_error : Z;
  err_error_msg : list byte
}.

Definition encode_gpu_alloc (r : idm_gpu_alloc) : list byte :=
  encode_le 8 (alloc_size r) ++ encode_le 4 (alloc_flags r)
  ++ encode_le 4 (alloc_reserved r).

Definition encode_gpu_free (r : idm_gpu_free) : list byte :=
  encode_le 8 (free_handle r).

Definition encode_gpu_copy_h2d (r : idm_gpu_copy_h2d) : list byte :=
  encode_le 8 (h2d_dst_handle r) ++ encode_le 8 (h2d_dst_offset r)
  ++ encode_le 8 (h2d_size r).

Definition encode_gpu_copy_d2h (r : idm_gpu_copy_d2h) : list byte :=
  encode_le 8 (d2h_src_handle r) ++ encode_le 8 (d2h_src_offset r)
  ++ encode_le 8 (d2h_size r).

Definition encode_gpu_sync (r : idm_gpu_sync) : list byte :=
  encode_le 4 (sync_flags r) ++ encode_le 4 (sync_reserved r).

Definition encode_response_ok (r : idm_response_ok) : list byte :=
  encode_le 8 (ok_request_seq r) ++ encode_le 8 (ok_result_handle r)
  ++ encode_le 4 (ok_result_value r) ++ encode_le 4 (ok_data_len r).

Definition encode_response_error (r : idm_response_error) : list byte :=
  encode_le 8 (err_request_seq r) ++ encode_le 4 (err_error_code r)
  ++ encode_le 4 (err_cuda_error r) ++ err_error_msg r.

(* ====================================================================== *)
(** ** Transport (transport.c, stub mode) *)
(* ====================================================================== *)

(** [errno] values of <errno.h> on Linux. *)
Definition EAGAIN : Z := 11.
Definition ENOMEM : Z := 12.
Definition EINVAL : Z := 22.
Definition ENOSPC : Z := 28.
Definition ENOTCONN : Z := 107.
Definition EALREADY : Z := 114.

(** What the operating system refuses.  [shmget], [shmat] and
    [sem_open] fail for reasons outside the program (limits,
    permissions), and a blocking [sem_wait] returns early with an
    [errno] when it is interrupted (EINTR on a signal); the sets and the
    map say for which keys and semaphores they do. *)
Record os_faults := {
  shmget_fails : gset Z;
  shmat_fails : gset Z;
  sem_open_fails : gset Z;
  sem_wait_errno : gmap Z positive
}.

Definition no_faults : os_faults :=
  {| shmget_fails := ∅; shmat_fails := ∅; sem_open_fails := ∅;
     sem_wait_errno := ∅ |}.

(** What the zones share: the System V segments, one ring each, by key,
    the named semaphores "/idm_sem_<zone>" with their counts, by zone,
    and the operating system under them.  A segment that was never
    created reads as zeroes, as a segment is on creation. *)
Record world := {
  shm : gmap Z idm_ring;
  sems : gmap Z nat;
  faults : os_faults
}.

Definition get_ring (w : world) (key : Z) : idm_ring :=
  match shm w !! key with
  | Some r => r
  | None => zero_ring
  end.

Definition put_ring (w : world) (key : Z) (r : idm_ring) : world :=
  {| shm := <[key := r]> (shm w); sems := sems w; faults := faults w |}.

(** A successful [shmget(key, size, IPC_CREAT | 0666)] for a key other
    than [IPC_PRIVATE]: the segment is created, zero-filled, unless it
    exists. *)
Definition shmget (w : world) (key : Z) : world :=
  put_ring w key (get_ring w key).

Definition sem_value (w : world) (name : Z) : nat :=
  match sems w !! name with
  | Some n => n
  | None => O
  end.

(** [sem_open(name, O_CREAT, 0666, 0)]: a semaphore that exists keeps
    its count, a new one starts at 0. *)
Definition sem_open (w : world) (name : Z) : world :=
  {| shm := shm w; sems := <[name := sem_value w name]> (sems w);
     faults := faults w |}.

Definition sem_post (w : world) (name : Z) : world :=
  {| shm := shm w; sems := <[name := S (sem_value w name)]> (sems w);
     faults := faults w |}.

(** [struct idm_connection] (stub mode).  The two rings and the two
    semaphores are reached through their key and name, which [init_shm]
    derives from the zone ids. *)
Record idm_connection := {
  local_zone_id : Z;
  remote_zone_id : Z;
  is_server : bool;
  next_seq : Z;
  connected : bool
}.

Definition tx_key (c : idm_connection) : Z := u32 (0x1000 + local_zone_id c).
Definition rx_key (c : idm_connection) : Z := u32 (0x1000 + remote_zone_id c).
Definition tx_sem (c : idm_connection) : Z := remote_zone_id c.
Definition rx_sem (c : idm_connection) : Z := local_zone_id c.

(** The state private to one process: [global_conn] and the C heap. *)
Record process := {
  global_conn : option idm_connection;
  heap : list bool
}.

(** One call of [malloc]: it succeeds or not as the head of [heap] says,
    and always succeeds once [heap] is exhausted. *)
Definition malloc (p : process) : bool * process :=
  match heap p with
  | [] => (true, p)
  | b :: rest => (b, {| global_conn := global_conn p; heap := rest |})
  end.

Definition set_conn (p : process) (c : idm_connection) : process :=
  {| global_conn := Some c; heap := heap p |}.

(** The key for which [shmget] makes a segment of the caller's own
    (<sys/ipc.h>). *)
Definition IPC_PRIVATE : Z := 0.

(** [init_shm]: the two segments, the server's [memset] of both rings,
    then the two semaphores, each step returning -1 when the operating
    system refuses it, with what the earlier steps did left in place.
    With a key equal to [IPC_PRIVATE] the segment would belong to the
    calling process alone, which a connection that reaches its rings by
    key cannot express: there is no result ([None]) for such zone ids. *)
Definition init_shm (conn : idm_connection) (w : world) : option (Z * world) :=
  if (tx_key conn =? IPC_PRIVATE) || (rx_key conn =? IPC_PRIVATE) then None
  else if bool_decide (tx_key conn ∈ shmget_fails (faults w)) then Some (-1, w)
  else
    let w1 := shmget w (tx_key conn) in
    if bool_decide (tx_key conn ∈ shmat_fails (faults w)) then Some (-1, w1)
    else if bool_decide (rx_key conn ∈ shmget_fails (faults w)) then Some (-1, w1)
    else
      let w2 := shmget w1 (rx_key conn) in
      if bool_decide (rx_key conn ∈ shmat_fails (faults w)) then Some (-1, w2)
      else
        let w3 := if is_server conn
                  then put_ring (put_ring w2 (tx_key conn) zero_ring)
                                (rx_key conn) zero_ring
                  else w2 in
        if bool_decide (tx_sem conn ∈ sem_open_fails (faults w)) then Some (-1, w3)
        else
          let w4 := sem_open w3 (tx_sem conn) in
          if bool_decide (rx_sem conn ∈ sem_open_fails (faults w)) then Some (-1, w4)
          else Some (0, sem_open w4 (rx_sem conn)).

(** [idm_init].  When [init_shm] fails the connection is freed again and
    [global_conn] stays null. *)
Definition idm_init (local_zone remote_zone : Z) (server : bool)
    (p : process) (w : world) : option (Z * process * world) :=
  match global_conn p with
  | Some _ => Some (- EALREADY, p, w)
  | None =>
    let '(ok, p1) := malloc p in
    if negb ok then Some (- ENOMEM, p1, w)
    else
      let conn := {| local_zone_id := local_zone; remote_zone_id := remote_zone;
                     is_server := server; next_seq := 1; connected := true |} in
      '(ret, w1) ← init_shm conn w;
      if ret <? 0 then Some (-1, p1, w1)
      else Some (0, set_conn p1 conn, w1)
  end.

(** [idm_send] *)
Definition idm_send (m : idm_message) (p : process) (w : world) : Z * world :=
  match global_conn p with
  | None => (- ENOTCONN, w)
  | Some conn =>
    if negb (connected conn) then (- ENOTCONN, w)
    else
      let ring := get_ring w (tx_key conn) in
      if negb (idm_message_valid (header m)) then (- EINVAL, w)
      else
        let msg_size := idm_message_size (header m) in
        if msg_size >? SIZEOF_RING_ENTRY then (- EINVAL, w)
        else
          let prod := producer ring in
          let cons := consumer ring in
          if u32 (prod - cons) >=? IDM_RING_SIZE then (- ENOSPC, w)
          else
            let idx := prod mod IDM_RING_SIZE in
            let ring1 := write_entry ring idx m in
            let ring2 := set_producer ring1 (u32 (prod + 1)) in
            (0, sem_post (put_ring w (tx_key conn) ring2) (tx_sem conn))
  end.

(** The wait on [rx_sem] at the head of [idm_recv]: [sem_wait] when
    [timeout_ms < 0], [sem_trywait] when it is 0, [sem_timedwait]
    otherwise.  No other zone runs during the call, so a semaphore at
    zero stays at zero: the two bounded waits fail, and the blocking
    wait fails with its [errno] if it is interrupted and never returns
    if it is not.  A semaphore above zero is taken at once, whatever
    the deadline (sem_wait(3)). *)
Inductive wait_result :=
  | Acquired (w : world)
  | TimedOut
  | Interrupted (errno : positive)
  | Blocked.

Definition sem_wait (timeout_ms : Z) (w : world) (name : Z) : wait_result :=
  match sem_value w name with
  | S n => Acquired {| shm := shm w; sems := <[name := n]> (sems w);
                       faults := faults w |}
  | O => if timeout_ms <? 0
         then match sem_wait_errno (faults w) !! name with
              | Some errno => Interrupted errno
              | None => Blocked
              end
         else TimedOut
  end.

(** [idm_recv].  The result is the return value, the message stored in
    [*msg_out] if any, and the new states.  There is none ([None]) when
    the call never returns, and when the slot holds a valid header whose
    message is larger than the slot: [memcpy] then copies [msg_size]
    bytes from a slot of [SIZEOF_RING_ENTRY], reading the slots behind
    it and, from the last slots, memory behind the segment. *)
Definition idm_recv (timeout_ms : Z) (p : process) (w : world)
    : option (Z * option idm_message * process * world) :=
  match global_conn p with
  | None => Some (- ENOTCONN, None, p, w)
  | Some conn =>
    if negb (connected conn) then Some (- ENOTCONN, None, p, w)
    else
      match sem_wait timeout_ms w (rx_sem conn) with
      | Blocked => None
      | Interrupted errno => Some (- Z.pos errno, None, p, w)
      | TimedOut => Some (- EAGAIN, None, p, w)
      | Acquired w1 =>
        let ring := get_ring w1 (rx_key conn) in
        let cons := consumer ring in
        let prod := producer ring in
        if cons =? prod then Some (- EAGAIN, None, p, w1)
        else
          let idx := cons mod IDM_RING_SIZE in
          let ring_msg := get_entry ring idx in
          if negb (idm_message_valid (slot_header ring_msg)) then
            Some (- EINVAL, None, p,
                  put_ring w1 (rx_key conn) (set_consumer ring (u32 (cons + 1))))
          else
            let msg_size := idm_message_size (slot_header ring_msg) in
            let '(ok, p1) := malloc p in
            if negb ok then Some (- ENOMEM, None, p1, w1)
            else if msg_size >? SIZEOF_RING_ENTRY then None
            else
              Some (0, Some (read_entry ring_msg), p1,
                    put_ring w1 (rx_key conn) (set_consumer ring (u32 (cons + 1))))
      end
  end.

(** [idm_build_message].  [payload] is the buffer behind the (non-null)
    payload pointer, which holds at least [payload_len] bytes at every
    call in the code. *)
Definition idm_build_message (dst : Z) (type : Z) (payload_src : list byte)
    (len : Z) (p : process) : option idm_message * process :=
  match global_conn p with
  | None => (None, p)
  | Some conn =>
    let '(ok, p1) := malloc p in
    if negb ok then (None, p1)
    else
      let seq := next_seq conn in
      let conn' := {| local_zone_id := local_zone_id conn;
                      remote_zone_id := remote_zone_id conn;
                      is_server := is_server conn;
                      next_seq := u64 (seq + 1);
                      connected := connected conn |} in
      let h := {| magic := IDM_MAGIC; version := IDM_VERSION;
                  msg_type := u16 type; src_zone := local_zone_id conn;
                  dst_zone := dst; seq_num := seq; payload_len := u32 len;
                  reserved := 0 |} in
      (Some {| header := h;
               payload := if len >? 0 then take (Z.to_nat len) payload_src else [] |},
       set_conn p1 conn')
  end.

(* ====================================================================== *)
(** ** Handle table (handle_table.c) *)
(* ====================================================================== *)

(** [struct handle_entry]; the [next] link is the tail of the chain. *)
Record handle_entry := {
  entry_handle : Z;
  entry_zone_id : Z;
  entry_ptr : Z;
  entry_size : Z
}.

Definition HASH_TABLE_SIZE : Z := 1024.

(** The file-level variables of handle_table.c. *)
Record handle_table := {
  hash_table : list (list handle_entry);
  next_handle : Z;
  total_handles : Z;
  total_memory : Z
}.

Definition hash_handle (handle : Z) : Z := u32 (handle mod HASH_TABLE_SIZE).

Definition get_chain (t : handle_table) (idx : Z) : list handle_entry :=
  match hash_table t !! Z.to_nat idx with
  | Some chain => chain
  | None => []
  end.

(** The table left by [handle_table_init]. *)
Definition handle_table_init : handle_table :=
  {| hash_table := replicate (Z.to_nat HASH_TABLE_SIZE) [];
     next_handle := 1; total_handles := 0; total_memory := 0 |}.

Definition handle_table_insert (zone_id ptr size : Z) (t : handle_table)
    (p : process) : Z * handle_table * process :=
  if ptr =? 0 then (0, t, p)
  else
    let '(ok, p1) := malloc p in
    if negb ok then (0, t, p1)
    else
      let entry := {| entry_handle := next_handle t; entry_zone_id := zone_id;
                      entry_ptr := ptr; entry_size := size |} in
      let idx := hash_handle (entry_handle entry) in
      (entry_handle entry,
       {| hash_table := <[Z.to_nat idx := entry :: get_chain t idx]> (hash_table t);
          next_handle := u64 (next_handle t + 1);
          total_handles := u64 (total_handles t + 1);
          total_memory := u64 (total_memory t + size) |},
       p1).

(** The [while (entry)] loop of [handle_table_lookup]: the returned
    pointer and, when the entry is found and owned, the value stored
    through [size_out]. *)
Fixpoint lookup_chain (zone_id handle : Z) (chain : list handle_entry)
    : Z * option Z :=
  match chain with
  | [] => (0, None)
  | entry :: next =>
    if entry_handle entry =? handle then
      if negb (entry_zone_id entry =? zone_id) then (0, None)
      else (entry_ptr entry, Some (entry_size entry))
    else lookup_chain zone_id handle next
  end.

Definition handle_table_lookup (zone_id handle : Z) (t : handle_table)
    : Z * option Z :=
  lookup_chain zone_id handle (get_chain t (hash_handle handle)).

(** The [while ((entry = *ptr) != NULL)] loop of [handle_table_remove]:
    the unlinked entry, if any, and the chain afterwards. *)
Fixpoint remove_chain (zone_id handle : Z) (chain : list handle_entry)
    : option handle_entry * list handle_entry :=
  match chain with
  | [] => (None, [])
  | entry :: next =>
    if entry_handle entry =? handle then
      if negb (entry_zone_id entry =? zone_id) then (None, chain)
      else (Some entry, next)
    else
      let '(found, next') := remove_chain zone_id handle next in
      (found, entry :: next')
  end.

Definition handle_table_remove (zone_id handle : Z) (t : handle_table)
    : Z * handle_table :=
  let idx := hash_handle handle in
  match remove_chain zone_id handle (get_chain t idx) with
  | (Some entry, chain') =>
    (entry_ptr entry,
     {| hash_table := <[Z.to_nat idx := chain']> (hash_table t);
        next_handle := next_handle t;
        total_handles := u64 (total_handles t - 1);
        total_memory := u64 (total_memory t - entry_size entry) |})
  | (None, _) => (0, t)
  end.

Definition handle_table_stats (t : handle_table) : Z * Z :=
  (total_handles t, total_memory t).

Definition handle_table_cleanup (t : handle_table) : handle_table :=
  {| hash_table := replicate (length (hash_table t)) [];
     next_handle := 1; total_handles := 0; total_memory := 0 |}.

(** Every entry of the table, and what it means for a zone to own a
    handle. *)
Definition live_entries (t : handle_table) : list handle_entry :=
  concat (hash_table t).

Definition owns (t : handle_table) (zone_id handle : Z) : Prop :=
  ∃ e, e ∈ live_entries t ∧ entry_handle e = handle ∧ entry_zone_id e = zone_id.

Definition handle_absent (t : handle_table) (handle : Z) : Prop :=
  ∀ e, e ∈ live_entries t → entry_handle e ≠ handle.

Definition handle_foreign (t : handle_table) (zone_id handle : Z) : Prop :=
  (∃ e, e ∈ live_entries t ∧ entry_handle e = handle)
  ∧ ∀ e, e ∈ live_entries t → entry_handle e = handle → entry_zone_id e ≠ zone_id.

(** The ranges of the C types of the table's variables. *)
Definition table_wf (t : handle_table) : Prop :=
  length (hash_table t) = Z.to_nat HASH_TABLE_SIZE
  ∧ 0 <= next_handle t < 2 ^ 64
  ∧ 0 <= total_handles t < 2 ^ 64
  ∧ 0 <= total_memory t < 2 ^ 64.

(* ====================================================================== *)
(** ** The CUDA driver behind the handlers *)
(* ====================================================================== *)

Definition CUDA_SUCCESS : Z := 0.

(** The entry points of <cuda.h> that handlers.c calls, as functions of
    the device state.  [cuMemAlloc] also yields the value stored through
    its pointer argument, [cuMemcpyDtoH] the bytes stored in the host
    buffer. *)
Class CudaDriver (dev : Type) := {
  cuMemAlloc : Z → dev → Z * Z * dev;
  cuMemFree : Z → dev → Z * dev;
  cuMemcpyHtoD : Z → list byte → Z → dev → Z * dev;
  cuMemcpyDtoH : Z → Z → dev → Z * list byte * dev;
  cuCtxSynchronize : dev → Z * dev
}.

(** The calls made into the driver, in order. *)
Inductive cuda_call :=
  | CallMemAlloc (size : Z)
  | CallMemFree (ptr : Z)
  | CallMemcpyHtoD (dst : Z) (src : list byte) (size : Z)
  | CallMemcpyDtoH (src size : Z)
  | CallCtxSynchronize.

(** The STUB_CUDA driver of handlers.c: device memory is host memory.
    The C heap it allocates from is a map from addresses to bytes with a
    bump pointer; memory never written reads as zero.  [stub_heap] says
    which of the coming calls of [malloc] fail for want of memory, as
    [heap] does for the transport. *)
Record stub_device := {
  stub_mem : gmap Z byte;
  stub_brk : Z;
  stub_heap : list bool
}.

Definition PTRDIFF_MAX : Z := 2 ^ 63 - 1.

(** [malloc(size)] on that heap: the address of a block of its own, never
    0, or 0 (NULL) when [stub_heap] says so, when [size] is more than a
    block can have, or when the address space is used up. *)
Definition stub_malloc (size : Z) (d : stub_device) : Z * stub_device :=
  let granted := match stub_heap d with
                 | false :: _ => false
                 | _ => true
                 end in
  if granted && (0 <? stub_brk d) && (size <=? PTRDIFF_MAX)
     && (stub_brk d + Z.max size 1 <? 2 ^ 64)
  then (stub_brk d,
        {| stub_mem := stub_mem d; stub_brk := stub_brk d + Z.max size 1;
           stub_heap := tail (stub_heap d) |})
  else (0, {| stub_mem := stub_mem d; stub_brk := stub_brk d;
              stub_heap := tail (stub_heap d) |}).

Definition stub_store (mem : gmap Z byte) (addr : Z) (bs : list byte) : gmap Z byte :=
  fold_right (λ '(i, b) m, <[u64 (addr + Z.of_nat i) := b]> m) mem (imap pair bs).

Definition stub_load (mem : gmap Z byte) (addr : Z) (n : Z) : list byte :=
  map (λ i, match mem !! u64 (addr + Z.of_nat i) with
            | Some b => b
            | None => x00
            end) (seq 0 (Z.to_nat n)).

#[export] Instance stub_cuda : CudaDriver stub_device := {
  cuMemAlloc size d :=
    let '(ptr, d1) := stub_malloc size d in
    (if ptr =? 0 then 1 else CUDA_SUCCESS, ptr, d1);
  cuMemFree ptr d := (CUDA_SUCCESS, d);
  cuMemcpyHtoD dst src size d :=
    (CUDA_SUCCESS,
     {| stub_mem := stub_store (stub_mem d) dst (take (Z.to_nat size) src);
        stub_brk := stub_brk d; stub_heap := stub_heap d |});
  cuMemcpyDtoH src size d := (CUDA_SUCCESS, stub_load (stub_mem d) src size, d);
  cuCtxSynchronize d := (CUDA_SUCCESS, d)
}.

(** A device whose [cuMemFree] reports the error code held in its state,
    as the real driver may (for instance on a pointer it does not know);
    its other entry points are those of the stub. *)
Record faulty_device := {
  faulty_inner : stub_device;
  faulty_free_result : Z
}.

Definition faulty_lift {A} (d : faulty_device) (r : A * stub_device) : A * faulty_device :=
  (fst r, {| faulty_inner := snd r; faulty_free_result := faulty_free_result d |}).

#[export] Instance faulty_cuda : CudaDriver faulty_device := {
  cuMemAlloc size d := faulty_lift d (cuMemAlloc size (faulty_inner d));
  cuMemFree ptr d := (faulty_free_result d, d);
  cuMemcpyHtoD dst src size d := faulty_lift d (cuMemcpyHtoD dst src size (faulty_inner d));
  cuMemcpyDtoH src size d := faulty_lift d (cuMemcpyDtoH src size (faulty_inner d));
  cuCtxSynchronize d := faulty_lift d (cuCtxSynchronize (faulty_inner d))
}.

(* ====================================================================== *)
(** ** Driver-side handlers (handlers.c) and dispatch (main.c) *)
(* ====================================================================== *)

(** [strncpy(dst, src, n)] into a zeroed array of [cap] bytes, for a
    source string without embedded NUL. *)
Definition strncpy_zeroed (cap n : nat) (src : string) : list byte :=
  let copied := take n (list_byte_of_string src) in
  copied ++ replicate (cap - length copied) x00.

Section Handlers.
Context {dev : Type} `{CudaDriver dev}.

(** The state of the proxy daemon: the handle table, the device with
    the calls made to it so far, the process and the shared memory. *)
Record driver_state := {
  table : handle_table;
  device : dev;
  calls : list cuda_call;
  proc : process;
  shared : world
}.

Definition with_table (st : driver_state) (t : handle_table) : driver_state :=
  {| table := t; device := device st; calls := calls st;
     proc := proc st; shared := shared st |}.

Definition with_proc (st : driver_state) (p : process) : driver_state :=
  {| table := table st; device := device st; calls := calls st;
     proc := p; shared := shared st |}.

Definition with_io (st : driver_state) (p : process) (w : world) : driver_state :=
  {| table := table st; device := device st; calls := calls st;
     proc := p; shared := w |}.

Definition with_device (st : driver_state) (d : dev) (c : cuda_call) : driver_state :=
  {| table := table st; device := d; calls := calls st ++ [c];
     proc := proc st; shared := shared st |}.

(** [send_response_ok].  [data] is accepted and ignored, as in the
    source. *)
Definition send_response_ok (dst_zone request_seq result_handle : Z)
    (data : option (list byte)) (data_len : Z) (st : driver_state)
    : Z * driver_state :=
  let resp := {| ok_request_seq := request_seq; ok_result_handle := result_handle;
                 ok_result_value := 0; ok_data_len := u32 data_len |} in
  match idm_build_message dst_zone IDM_RESPONSE_OK (encode_response_ok resp)
          SIZEOF_RESPONSE_OK (proc st) with
  | (None, p1) => (-1, with_proc st p1)
  | (Some m, p1) =>
    let '(ret, w1) := idm_send m p1 (shared st) in
    (ret, with_io st p1 w1)
  end.

(** [send_response_error] *)
Definition send_response_error (dst_zone request_seq error_code cuda_error : Z)
    (error_msg : string) (st : driver_state) : Z * driver_state :=
  let resp := {| err_request_seq := request_seq; err_error_code := u32 error_code;
                 err_cuda_error := u32 cuda_error;
                 err_error_msg := strncpy_zeroed 256 255 error_msg |} in
  match idm_build_message dst_zone IDM_RESPONSE_ERROR (encode_response_error resp)
          SIZEOF_RESPONSE_ERROR (proc st) with
  | (None, p1) => (-1, with_proc st p1)
  | (Some m, p1) =>
    let '(ret, w1) := idm_send m p1 (shared st) in
    (ret, with_io st p1 w1)
  end.

(** [handle_gpu_alloc] *)
Definition handle_gpu_alloc (m : idm_message) (st : driver_state)
    : option driver_state :=
  size ← read_le 0 8 (payload m);
  let zone_id := src_zone (header m) in
  let seq := seq_num (header m) in
  let '(res, device_ptr, d1) := cuMemAlloc size (device st) in
  let st1 := with_device st d1 (CallMemAlloc size) in
  if negb (res =? CUDA_SUCCESS) then
    Some (snd (send_response_error zone_id seq IDM_ERROR_CUDA_ERROR res
                 "cuMemAlloc failed" st1))
  else
    let '(handle, t1, p1) :=
      handle_table_insert zone_id device_ptr size (table st1) (proc st1) in
    let st2 := with_proc (with_table st1 t1) p1 in
    if handle =? 0 then
      let '(_, d2) := cuMemFree device_ptr (device st2) in
      let st3 := with_device st2 d2 (CallMemFree device_ptr) in
      Some (snd (send_response_error zone_id seq IDM_ERROR_OUT_OF_MEMORY 0
                   "Failed to create handle" st3))
    else
      Some (snd (send_response_ok zone_id seq handle None 0 st2)).

(** [handle_gpu_free] *)
Definition handle_gpu_free (m : idm_message) (st : driver_state)
    : option driver_state :=
  handle ← read_le 0 8 (payload m);
  let zone_id := src_zone (header m) in
  let seq := seq_num (header m) in
  let '(device_ptr, t1) := handle_table_remove zone_id handle (table st) in
  let st1 := with_table st t1 in
  if device_ptr =? 0 then
    Some (snd (send_response_error zone_id seq IDM_ERROR_INVALID_HANDLE 0
                 "Invalid handle or permission denied" st1))
  else
    let '(res, d1) := cuMemFree device_ptr (device st1) in
    let st2 := with_device st1 d1 (CallMemFree device_ptr) in
    if negb (res =? CUDA_SUCCESS) then
      Some (snd (send_response_error zone_id seq IDM_ERROR_CUDA_ERROR res
                   "cuMemFree failed" st2))
    else
      Some (snd (send_response_ok zone_id seq 0 None 0 st2)).

(** [handle_gpu_copy_h2d].  The host data is what follows the request
    struct in the payload; when fewer than [size] bytes follow, the copy
    would read past the message and the result is undefined. *)
Definition handle_gpu_copy_h2d (m : idm_message) (st : driver_state)
    : option driver_state :=
  dst_handle ← read_le 0 8 (payload m);
  dst_offset ← read_le 8 8 (payload m);
  size ← read_le 16 8 (payload m);
  let zone_id := src_zone (header m) in
  let seq := seq_num (header m) in
  let '(device_ptr, size_out) := handle_table_lookup zone_id dst_handle (table st) in
  if device_ptr =? 0 then
    Some (snd (send_response_error zone_id seq IDM_ERROR_INVALID_HANDLE 0
                 "Invalid handle" st))
  else
    let alloc_size := match size_out with Some s => s | None => 0 end in
    if u64 (dst_offset + size) >? alloc_size then
      Some (snd (send_response_error zone_id seq IDM_ERROR_INVALID_SIZE 0
                   "Out of bounds" st))
    else
      let host_data := drop (Z.to_nat SIZEOF_GPU_COPY_H2D) (payload m) in
      if Z.of_nat (length host_data) <? size then None
      else
        let dst := u64 (device_ptr + dst_offset) in
        let src := take (Z.to_nat size) host_data in
        let '(res, d1) := cuMemcpyHtoD dst src size (device st) in
        let st1 := with_device st d1 (CallMemcpyHtoD dst src size) in
        if negb (res =? CUDA_SUCCESS) then
          Some (snd (send_response_error zone_id seq IDM_ERROR_CUDA_ERROR res
                       "cuMemcpyHtoD failed" st1))
        else
          Some (snd (send_response_ok zone_id seq 0 None 0 st1)).

(** [handle_gpu_copy_d2h].  The staging buffer [host_data] receives the
    device bytes and is freed; nothing of it reaches the response. *)
Definition handle_gpu_copy_d2h (m : idm_message) (st : driver_state)
    : option driver_state :=
  src_handle ← read_le 0 8 (payload m);
  src_offset ← read_le 8 8 (payload m);
  size ← read_le 16 8 (payload m);
  let zone_id := src_zone (header m) in
  let seq := seq_num (header m) in
  let '(device_ptr, size_out) := handle_table_lookup zone_id src_handle (table st) in
  if device_ptr =? 0 then
    Some (snd (send_response_error zone_id seq IDM_ERROR_INVALID_HANDLE 0
                 "Invalid handle" st))
  else
    let alloc_size := match size_out with Some s => s | None => 0 end in
    if u64 (src_offset + size) >? alloc_size then
      Some (snd (send_response_error zone_id seq IDM_ERROR_INVALID_SIZE 0
                   "Out of bounds" st))
    else
      let '(ok, p1) := malloc (proc st) in
      let st1 := with_proc st p1 in
      if negb ok then
        Some (snd (send_response_error zone_id seq IDM_ERROR_OUT_OF_MEMORY 0
                     "Out of memory" st1))
      else
        let src := u64 (device_ptr + src_offset) in
        let '(res, host_data, d1) := cuMemcpyDtoH src size (device st1) in
        let st2 := with_device st1 d1 (CallMemcpyDtoH src size) in
        if negb (res =? CUDA_SUCCESS) then
          Some (snd (send_response_error zone_id seq IDM_ERROR_CUDA_ERROR res
                       "cuMemcpyDtoH failed" st2))
        else
          Some (snd (send_response_ok zone_id seq 0 None 0 st2)).

(** [handle_gpu_sync] *)
Definition handle_gpu_sync (m : idm_message) (st : driver_state)
    : option driver_state :=
  let zone_id := src_zone (header m) in
  let seq := seq_num (header m) in
  let '(res, d1) := cuCtxSynchronize (device st) in
  let st1 := with_device st d1 CallCtxSynchronize in
  if negb (res =? CUDA_SUCCESS) then
    Some (snd (send_response_error zone_id seq IDM_ERROR_CUDA_ERROR res
                 "cuCtxSynchronize failed" st1))
  else
    Some (snd (send_response_ok zone_id seq 0 None 0 st1)).

(** The [switch] of [run_server]; an unknown type gets no response. *)
Definition dispatch (m : idm_message) (st : driver_state) : option driver_state :=
  let type := msg_type (header m) in
  if type =? IDM_GPU_ALLOC then handle_gpu_alloc m st
  else if type =? IDM_GPU_FREE then handle_gpu_free m st
  else if type =? IDM_GPU_COPY_H2D then handle_gpu_copy_h2d m st
  else if type =? IDM_GPU_COPY_D2H then handle_gpu_copy_d2h m st
  else if type =? IDM_GPU_SYNC then handle_gpu_sync m st
  else Some st.

(** One iteration of the [while (running)] loop of [run_server]. *)
Definition serve_once (st : driver_state) : option driver_state :=
  '(ret, msg_out, p1, w1) ← idm_recv 1000 (proc st) (shared st);
  let st1 := with_io st p1 w1 in
  if ret <? 0 then Some st1
  else
    match msg_out with
    | Some m => dispatch m st1
    | None => Some st1
    end.

End Handlers.

Arguments driver_state : clear implicits.

(* ====================================================================== *)
(** ** User-side library (libvgpu/libvgpu.c, libvgpu/cuda.h) *)
(* ====================================================================== *)

Module libvgpu.

Definition USER_ZONE_ID : Z := 2.
Definition DRIVER_ZONE_ID : Z := 1.

Definition CUDA_SUCCESS : Z := 0.
Definition CUDA_ERROR_INVALID_VALUE : Z := 1.
Definition CUDA_ERROR_OUT_OF_MEMORY : Z := 2.
Definition CUDA_ERROR_NOT_INITIALIZED : Z := 3.
Definition CUDA_ERROR_DEINITIALIZED : Z := 4.
Definition CUDA_ERROR_INVALID_CONTEXT : Z := 201.
Definition CUDA_ERROR_INVALID_HANDLE : Z := 400.

(** The library's [initialized] flag, its process and the shared
    memory. *)
Record user_state := {
  initialized : bool;
  uproc : process;
  ushared : world
}.

Definition with_uio (u : user_state) (p : process) (w : world) : user_state :=
  {| initialized := initialized u; uproc := p; ushared := w |}.

(** What one pass through the body of the [for] loop of [send_and_wait]
    does with a received message: return ([Some]) or fall through to
    the next iteration ([None]).  The outer [option] is [None] when a
    field is read past the end of the response. *)
Definition on_response (req_seq : Z) (want_handle : bool) (resp : idm_message)
    : option (option (Z * option Z)) :=
  if msg_type (header resp) =? IDM_RESPONSE_OK then
    request_seq ← read_le 0 8 (payload resp);
    if request_seq =? req_seq then
      if want_handle then
        result_handle ← read_le 8 8 (payload resp);
        Some (Some (CUDA_SUCCESS, Some result_handle))
      else Some (Some (CUDA_SUCCESS, None))
    else Some None
  else if msg_type (header resp) =? IDM_RESPONSE_ERROR then
    request_seq ← read_le 0 8 (payload resp);
    if request_seq =? req_seq then
      error_code ← read_le 8 4 (payload resp);
      if error_code =? IDM_ERROR_OUT_OF_MEMORY then
        Some (Some (CUDA_ERROR_OUT_OF_MEMORY, None))
      else if error_code =? IDM_ERROR_INVALID_HANDLE then
        Some (Some (CUDA_ERROR_INVALID_HANDLE, None))
      else Some (Some (CUDA_ERROR_INVALID_VALUE, None))
    else Some None
  else Some None.

Section Correlator.

(** What the other zone does to the shared memory while the [i]-th
    [idm_recv] of a call waits. *)
Variable peer : nat → world → world.

(** The [for (int i = 0; i < 10; i++)] loop of [send_and_wait], from
    iteration [i] with [left] iterations to go.  The result is the
    return value and the value stored through [handle_out], if any.
    [idm_recv] stores a message whenever it returns 0; the loop body
    dereferences it without a test. *)
Fixpoint wait_loop (left : nat) (i : nat) (req_seq : Z) (want_handle : bool)
    (u : user_state) : option (Z * option Z * user_state) :=
  match left with
  | O => Some (CUDA_ERROR_INVALID_VALUE, None, u)
  | S left' =>
    '(ret, msg_out, p1, w1) ← idm_recv 1000 (uproc u) (peer i (ushared u));
    let u1 := with_uio u p1 w1 in
    if ret <? 0 then wait_loop left' (S i) req_seq want_handle u1
    else
      match msg_out with
      | None => None
      | Some resp =>
        verdict ← on_response req_seq want_handle resp;
        match verdict with
        | Some (result, handle) => Some (result, handle, u1)
        | None => wait_loop left' (S i) req_seq want_handle u1
        end
      end
  end.

(** [send_and_wait]; [want_handle] tells whether [handle_out] is
    non-null. *)
Definition send_and_wait (m : idm_message) (want_handle : bool) (u : user_state)
    : option (Z * option Z * user_state) :=
  let req_seq := seq_num (header m) in
  let '(ret, w1) := idm_send m (uproc u) (ushared u) in
  let u1 := with_uio u (uproc u) w1 in
  if ret <? 0 then Some (CUDA_ERROR_INVALID_VALUE, None, u1)
  else wait_loop 10 0 req_seq want_handle u1.

(** [cuMemcpyDtoH].  [dstHost] is the host buffer behind the destination
    pointer, [None] for a null pointer; the result carries the buffer
    after the call. *)
Definition cuMemcpyDtoH (dstHost : option (list byte)) (srcDevice ByteCount : Z)
    (u : user_state) : option (Z * option (list byte) * user_state) :=
  if negb (initialized u) then Some (CUDA_ERROR_NOT_INITIALIZED, dstHost, u)
  else
    match dstHost with
    | None => Some (CUDA_ERROR_INVALID_VALUE, dstHost, u)
    | Some buf =>
      if (srcDevice =? 0) || (ByteCount =? 0) then
        Some (CUDA_ERROR_INVALID_VALUE, dstHost, u)
      else
        let copy_req := {| d2h_src_handle := srcDevice; d2h_src_offset := 0;
                           d2h_size := ByteCount |} in
        match idm_build_message DRIVER_ZONE_ID IDM_GPU_COPY_D2H
                (encode_gpu_copy_d2h copy_req) SIZEOF_GPU_COPY_D2H (uproc u) with
        | (None, p1) =>
          Some (CUDA_ERROR_OUT_OF_MEMORY, dstHost, with_uio u p1 (ushared u))
        | (Some m, p1) =>
          '(result, _, u1) ← send_and_wait m false (with_uio u p1 (ushared u));
          if result =? CUDA_SUCCESS then
            Some (result, Some (memset0 buf ByteCount), u1)
          else Some (result, dstHost, u1)
        end
    end.

End Correlator.

End libvgpu.

(* ====================================================================== *)
(** ** Notions used by the statements below *)
(* ====================================================================== *)

(** The number of occupied slots as [idm_send] computes it. *)
Definition ring_level (r : idm_ring) : Z := u32 (producer r - consumer r).

(** The indices are 32-bit values at most [IDM_RING_SIZE] apart and the
    ring has its [IDM_RING_SIZE] slots. *)
Definition ring_inv (r : idm_ring) : Prop :=
  0 <= producer r < 2 ^ 32 ∧ 0 <= consumer r < 2 ^ 32
  ∧ length (entries r) = Z.to_nat IDM_RING_SIZE
  ∧ 0 <= ring_level r <= IDM_RING_SIZE.

(** The worlds reached from zero-initialised rings by the transport
    calls of any process. *)
Inductive reachable : world → Prop :=
  | reach_zero w :
      (∀ key, get_ring w key = zero_ring) → reachable w
  | reach_init l r s p w ret p1 w1 :
      reachable w → idm_init l r s p w = Some (ret, p1, w1) → reachable w1
  | reach_send m p w :
      reachable w → reachable (snd (idm_send m p w))
  | reach_recv t p w ret msg_out p1 w1 :
      reachable w → idm_recv t p w = Some (ret, msg_out, p1, w1) → reachable w1.

(** The three ways a header fails [idm_message_valid]. *)
Definition invalid_header (h : idm_header) : Prop :=
  magic h ≠ IDM_MAGIC ∨ version h ≠ IDM_VERSION
  ∨ payload_len h > IDM_MAX_PAYLOAD_SIZE.

(** The first [n] calls of [malloc] of the process succeed. *)
Definition mallocs_ok (n : nat) (p : process) : Prop :=
  ∀ i, (i < n)%nat → heap p !! i ≠ Some false.

(** [idm_send] on each message of a list in turn, with the return
    values. *)
Fixpoint send_all (ms : list idm_message) (p : process) (w : world)
    : list Z * world :=
  match ms with
  | [] => ([], w)
  | m :: rest =>
    let '(ret, w1) := idm_send m p w in
    let '(rets, w2) := send_all rest p w1 in
    (ret :: rets, w2)
  end.

(** [n] calls of [idm_recv], with what each returned. *)
Fixpoint recv_n (n : nat) (t : Z) (p : process) (w : world)
    : option (list (Z * option idm_message) * process * world) :=
  match n with
  | O => Some ([], p, w)
  | S k =>
    '(ret, msg_out, p1, w1) ← idm_recv t p w;
    '(rest, p2, w2) ← recv_n k t p1 w1;
    Some ((ret, msg_out) :: rest, p2, w2)
  end.

(** A message [idm_send] accepts, held in a buffer of its size. *)
Definition sendable (m : idm_message) : Prop :=
  idm_message_valid (header m) = true
  ∧ idm_message_size (header m) <= SIZEOF_RING_ENTRY
  ∧ msg_wf m.

(** The ring holds the messages [q], oldest first, from the consumer
    index on, each valid and within its slot. *)
Definition holds_queue (r : idm_ring) (q : list idm_message) : Prop :=
  0 <= consumer r < 2 ^ 32
  ∧ length (entries r) = Z.to_nat IDM_RING_SIZE
  ∧ Z.of_nat (length q) <= IDM_RING_SIZE
  ∧ producer r = u32 (consumer r + Z.of_nat (length q))
  ∧ ∀ i m, q !! i = Some m →
      idm_message_valid (header m) = true
      ∧ idm_message_size (header m) <= SIZEOF_RING_ENTRY
      ∧ read_entry (get_entry r ((consumer r + Z.of_nat i) mod IDM_RING_SIZE)) = m.

(* ====================================================================== *)
(** ** Concrete configurations *)
(* ====================================================================== *)

(** The two endpoints as [idm_init] leaves them: the proxy daemon is
    zone 1 and the server, the application is zone 2. *)
Definition driver_conn : idm_connection :=
  {| local_zone_id := 1; remote_zone_id := 2; is_server := true;
     next_seq := 1; connected := true |}.

Definition user_conn : idm_connection :=
  {| local_zone_id := 2; remote_zone_id := 1; is_server := false;
     next_seq := 1; connected := true |}.

Definition driver_proc : process := {| global_conn := Some driver_conn; heap := [] |}.
Definition user_proc : process := {| global_conn := Some user_conn; heap := [] |}.

(** No segment and no semaphore exists yet. *)
Definition fresh_world : world := {| shm := ∅; sems := ∅; faults := no_faults |}.

(** A SYNC request of the application. *)
Definition sync_request : idm_message :=
  {| header := {| magic := IDM_MAGIC; version := IDM_VERSION; msg_type := IDM_GPU_SYNC;
                  src_zone := 2; dst_zone := 1; seq_num := 1;
                  payload_len := SIZEOF_GPU_SYNC; reserved := 0 |};
     payload := encode_gpu_sync {| sync_flags := 0; sync_reserved := 0 |} |}.

(** A ring whose indices are further apart than the ring is long, as the
    peer may write them into the shared segment. *)
Definition overrun_ring : idm_ring :=
  {| producer := 33; consumer := 0; entries := entries zero_ring |}.

Definition overrun_world : world := put_ring fresh_world (tx_key user_conn) overrun_ring.

(** A header the receiver must refuse (magic 0), and a world in which
    the application wrote a slot with it, followed by [sync_request],
    straight into the ring the daemon reads, posting the daemon's
    semaphore twice. *)
Definition bad_magic_header : idm_header :=
  {| magic := 0; version := IDM_VERSION; msg_type := IDM_GPU_SYNC;
     src_zone := 2; dst_zone := 1; seq_num := 7; payload_len := 0; reserved := 0 |}.

Definition bad_magic_message : idm_message :=
  {| header := bad_magic_header; payload := [] |}.

Definition poisoned_ring : idm_ring :=
  set_producer
    (write_entry (write_entry zero_ring 0 bad_magic_message) 1 sync_request) 2.

Definition poisoned_world : world :=
  sem_post (sem_post (put_ring fresh_world (rx_key driver_conn) poisoned_ring)
                     (rx_sem driver_conn))
           (rx_sem driver_conn).

(** The table after zone 2 got a handle (number 1) for 1024 bytes at
    address 4096, and the daemon state around it, over the stub driver
    whose memory holds four non-zero bytes at the start of that
    allocation. *)
Definition one_alloc_table : handle_table :=
  snd (fst (handle_table_insert 2 4096 1024 handle_table_init driver_proc)).

Definition stub_start : stub_device :=
  {| stub_mem := stub_store ∅ 4096 [x2a; x2a; x2a; x2a]; stub_brk := 8192;
     stub_heap := [] |}.

Definition daemon_state (t : handle_table) (w : world) : driver_state stub_device :=
  {| table := t; device := stub_start; calls := []; proc := driver_proc; shared := w |}.

(** Requests as they arrive at the daemon. *)
Definition request (type src : Z) (seq : Z) (body : list byte) : idm_message :=
  {| header := {| magic := IDM_MAGIC; version := IDM_VERSION; msg_type := type;
                  src_zone := src; dst_zone := 1; seq_num := seq;
                  payload_len := Z.of_nat (length body); reserved := 0 |};
     payload := body |}.

(** Zone 3 asks to free handle 1, which belongs to zone 2. *)
Definition foreign_free : idm_message :=
  request IDM_GPU_FREE 3 5 (encode_gpu_free {| free_handle := 1 |}).



(** Zone 2 copies 16 bytes to offset 2^64 - 8 of its 1024-byte
    allocation. *)
Definition wrapping_h2d : idm_message :=
  request IDM_GPU_COPY_H2D 2 9
    (encode_gpu_copy_h2d {| h2d_dst_handle := 1; h2d_dst_offset := 2 ^ 64 - 8;
                            h2d_size := 16 |}
     ++ replicate 16 x01).

(** Zone 2 reads the first four bytes of its allocation. *)
Definition small_d2h : idm_message :=
  request IDM_GPU_COPY_D2H 2 10
    (encode_gpu_copy_d2h {| d2h_src_handle := 1; d2h_src_offset := 0; d2h_size := 4 |}).

(** The same at the far end of the address space, with the sum of offset
    and size wrapping. *)
Definition wrapping_d2h : idm_message :=
  request IDM_GPU_COPY_D2H 2 11
    (encode_gpu_copy_d2h {| d2h_src_handle := 1; d2h_src_offset := 2 ^ 64 - 8;
                            d2h_size := 16 |}).

(** The first slot of the ring the daemon answers on. *)
Definition first_response {dev} (st : driver_state dev) : idm_message :=
  read_entry (get_entry (get_ring (shared st) (tx_key driver_conn)) 0).

(** The application after [cuInit]. *)
Definition app_state : libvgpu.user_state :=
  {| libvgpu.initialized := true; libvgpu.uproc := user_proc;
     libvgpu.ushared := fresh_world |}.

(** A peer that, while the first [idm_recv] waits, runs one iteration of
    the daemon's loop on the stub driver, and is idle afterwards. *)
Definition daemon_peer (i : nat) (w : world) : world :=
  match i with
  | O =>
    match serve_once (daemon_state one_alloc_table w) with
    | Some st' => shared st'
    | None => w
    end
  | S _ => w
  end.

(** A peer that answers request 1 of zone 2 with the error
    [IDM_ERROR_PERMISSION_DENIED]. *)
Definition denying_peer (i : nat) (w : world) : world :=
  match i with
  | O => shared (snd (send_response_error 2 1 IDM_ERROR_PERMISSION_DENIED 0
                        "Permission denied" (daemon_state handle_table_init w)))
  | S _ => w
  end.

Definition denied_response : idm_message :=
  first_response (snd (send_response_error 2 1 IDM_ERROR_PERMISSION_DENIED 0
                         "Permission denied" (daemon_state handle_table_init fresh_world))).

(** The daemon state with a device whose memory was never written. *)
Definition blank_daemon_state : driver_state stub_device :=
  {| table := one_alloc_table;
     device := {| stub_mem := ∅; stub_brk := 8192; stub_heap := [] |};
     calls := []; proc := driver_proc; shared := fresh_world |}.

(** A message with a valid header whose 5000 payload bytes do not fit a
    ring slot. *)
Definition oversized_message : idm_message :=
  {| header := {| magic := IDM_MAGIC; version := IDM_VERSION;
                  msg_type := IDM_GPU_COPY_H2D; src_zone := 2; dst_zone := 1;
                  seq_num := 1; payload_len := 5000; reserved := 0 |};
     payload := replicate 5000 x00 |}.
From Stdlib Require Import Sorting.Sorted DecimalString.


(* ====================================================================== *)
(** ** More of the transport (transport.c) *)
(* ====================================================================== *)

(** [idm_cleanup]: the segments are detached and the semaphores closed,
    neither is removed, so the shared memory stays as it is; the
    connection is freed and [global_conn] reset. *)
Definition idm_cleanup (p : process) : process :=
  match global_conn p with
  | None => p
  | Some _ => {| global_conn := None; heap := heap p |}
  end.

(** The operating system grants [init_shm] its calls: [shmget] and
    [shmat] for the two keys, and with them [sem_open] for the two
    semaphores, the keys being keys of shared segments. *)
Definition shm_granted (conn : idm_connection) (w : world) : Prop :=
  (tx_key conn ∉ shmget_fails (faults w)) ∧ (tx_key conn ∉ shmat_fails (faults w))
  ∧ (rx_key conn ∉ shmget_fails (faults w)) ∧ (rx_key conn ∉ shmat_fails (faults w)).

Definition os_grants (conn : idm_connection) (w : world) : Prop :=
  tx_key conn ≠ IPC_PRIVATE ∧ rx_key conn ≠ IPC_PRIVATE
  ∧ shm_granted conn w
  ∧ (tx_sem conn ∉ sem_open_fails (faults w))
  ∧ (rx_sem conn ∉ sem_open_fails (faults w)).

(** One [idm_build_message] per request of a list, in order: the
    destination zone, the type, the payload buffer and its length. *)
Fixpoint build_all (reqs : list (Z * Z * list byte * Z)) (p : process)
    : list (option idm_message) * process :=
  match reqs with
  | [] => ([], p)
  | (dst, type, body, len) :: rest =>
    let '(m, p1) := idm_build_message dst type body len p in
    let '(ms, p2) := build_all rest p1 in
    (m :: ms, p2)
  end.

(** The return values of [idm_recv] other than the [errno] of an
    interrupted blocking wait, and those of [idm_send]. *)
Definition recv_codes : list Z := [0; - EAGAIN; - EINVAL; - ENOMEM; - ENOTCONN].
Definition send_codes : list Z := [0; - EINVAL; - ENOSPC; - ENOTCONN].

(** The connection after one sequence number was handed out. *)
Definition bump_seq (c : idm_connection) : idm_connection :=
  {| local_zone_id := local_zone_id c; remote_zone_id := remote_zone_id c;
     is_server := is_server c; next_seq := u64 (next_seq c + 1);
     connected := connected c |}.

(* ====================================================================== *)
(** ** The handle table over time *)
(* ====================================================================== *)

(** The bytes held by a list of entries. *)
Definition bytes_of (es : list handle_entry) : Z :=
  foldr (λ e acc, entry_size e + acc) 0 es.

(** What the table looks like as long as the handle counter has not
    wrapped: every entry sits in the chain its handle hashes to, has a
    non-null pointer and a handle below the counter and above 0, no
    handle occurs twice, and the statistics count the entries and
    their bytes. *)
Definition table_inv (t : handle_table) : Prop :=
  length (hash_table t) = Z.to_nat HASH_TABLE_SIZE
  ∧ 1 <= next_handle t < 2 ^ 64
  ∧ (∀ (idx : nat) chain e, hash_table t !! idx = Some chain → e ∈ chain →
       hash_handle (entry_handle e) = Z.of_nat idx
       ∧ 0 < entry_handle e < next_handle t
       ∧ entry_ptr e ≠ 0)
  ∧ NoDup (entry_handle <$> live_entries t)
  ∧ Z.of_nat (length (live_entries t)) < next_handle t
  ∧ total_handles t = Z.of_nat (length (live_entries t))
  ∧ total_memory t = u64 (bytes_of (live_entries t)).

(** The tables the daemon can be in before its handle counter reaches
    the last 64-bit value. *)
Inductive table_reachable : handle_table → Prop :=
  | table_fresh : table_reachable handle_table_init
  | table_after_insert z ptr s t p :
      table_reachable t → next_handle t < 2 ^ 64 - 1 →
      table_reachable (snd (fst (handle_table_insert z ptr s t p)))
  | table_after_remove z h t :
      table_reachable t → table_reachable (snd (handle_table_remove z h t))
  | table_after_cleanup t :
      table_reachable t → table_reachable (handle_table_cleanup t).

(** A run of table operations, with the handle each insert returned. *)
Inductive table_op :=
  | OpInsert (zone_id ptr size : Z)
  | OpRemove (zone_id handle : Z).

Fixpoint run_ops (ops : list table_op) (t : handle_table) (p : process)
    : list Z * handle_table * process :=
  match ops with
  | [] => ([], t, p)
  | OpInsert z ptr s :: rest =>
    let '(h, t1, p1) := handle_table_insert z ptr s t p in
    let '(hs, t2, p2) := run_ops rest t1 p1 in
    (h :: hs, t2, p2)
  | OpRemove z h :: rest =>
    let '(_, t1) := handle_table_remove z h t in
    run_ops rest t1 p
  end.

(* ====================================================================== *)
(** ** The entry points of libvgpu (libvgpu/libvgpu.c) *)
(* ====================================================================== *)

Definition SIZEOF_GPU_COPY_D2D : Z := 40.

(** [struct idm_gpu_copy_d2d], in the order of its fields. *)
Record idm_gpu_copy_d2d := {
  d2d_dst_handle : Z;
  d2d_src_handle : Z;
  d2d_dst_offset : Z;
  d2d_src_offset : Z;
  d2d_size : Z
}.

Definition encode_gpu_copy_d2d (r : idm_gpu_copy_d2d) : list byte :=
  encode_le 8 (d2d_dst_handle r) ++ encode_le 8 (d2d_src_handle r)
  ++ encode_le 8 (d2d_dst_offset r) ++ encode_le 8 (d2d_src_offset r)
  ++ encode_le 8 (d2d_size r).

Module libvgpu_api.

(** The file-level variables of libvgpu.c: [initialized] (with the
    process and the shared memory, in [lib]) and [current_context].
    [device_count] is never assigned. *)
Record api_state := {
  lib : libvgpu.user_state;
  current_context : Z
}.

Definition with_lib (a : api_state) (u : libvgpu.user_state) : api_state :=
  {| lib := u; current_context := current_context a |}.

Definition with_context (a : api_state) (ctx : Z) : api_state :=
  {| lib := lib a; current_context := ctx |}.

Definition device_count : Z := 1.

(** The two tables of designated initialisers; an index that is not
    named holds a null pointer.  Both arrays have 401 elements. *)
Definition error_strings (i : Z) : option string :=
  if i =? libvgpu.CUDA_SUCCESS then Some "no error"%string
  else if i =? libvgpu.CUDA_ERROR_INVALID_VALUE then Some "invalid argument"%string
  else if i =? libvgpu.CUDA_ERROR_OUT_OF_MEMORY then Some "out of memory"%string
  else if i =? libvgpu.CUDA_ERROR_NOT_INITIALIZED then Some "not initialized"%string
  else if i =? libvgpu.CUDA_ERROR_DEINITIALIZED then Some "deinitialized"%string
  else if i =? libvgpu.CUDA_ERROR_INVALID_CONTEXT then Some "invalid context"%string
  else if i =? libvgpu.CUDA_ERROR_INVALID_HANDLE then Some "invalid handle"%string
  else None.

Definition error_names (i : Z) : option string :=
  if i =? libvgpu.CUDA_SUCCESS then Some "CUDA_SUCCESS"%string
  else if i =? libvgpu.CUDA_ERROR_INVALID_VALUE then Some "CUDA_ERROR_INVALID_VALUE"%string
  else if i =? libvgpu.CUDA_ERROR_OUT_OF_MEMORY then Some "CUDA_ERROR_OUT_OF_MEMORY"%string
  else if i =? libvgpu.CUDA_ERROR_NOT_INITIALIZED then Some "CUDA_ERROR_NOT_INITIALIZED"%string
  else if i =? libvgpu.CUDA_ERROR_DEINITIALIZED then Some "CUDA_ERROR_DEINITIALIZED"%string
  else if i =? libvgpu.CUDA_ERROR_INVALID_CONTEXT then Some "CUDA_ERROR_INVALID_CONTEXT"%string
  else if i =? libvgpu.CUDA_ERROR_INVALID_HANDLE then Some "CUDA_ERROR_INVALID_HANDLE"%string
  else None.

Definition error_table_length : Z := libvgpu.CUDA_ERROR_INVALID_HANDLE + 1.

(** [cuInit].  One thread; the mutex is not modelled. *)
Definition cuInit (Flags : Z) (a : api_state) : option (Z * api_state) :=
  if libvgpu.initialized (lib a) then Some (libvgpu.CUDA_SUCCESS, a)
  else
    '(ret, p1, w1) ←
      idm_init libvgpu.USER_ZONE_ID libvgpu.DRIVER_ZONE_ID false
        (libvgpu.uproc (lib a)) (libvgpu.ushared (lib a));
    if ret <? 0 then
      Some (libvgpu.CUDA_ERROR_NOT_INITIALIZED,
            with_lib a {| libvgpu.initialized := false; libvgpu.uproc := p1;
                          libvgpu.ushared := w1 |})
    else
      Some (libvgpu.CUDA_SUCCESS,
            with_lib a {| libvgpu.initialized := true; libvgpu.uproc := p1;
                          libvgpu.ushared := w1 |}).

(** The queries the library answers by itself.  The boolean tells
    whether the pointer argument is non-null; the second component of
    the result is the value stored through it. *)
Definition cuDriverGetVersion (driverVersion : bool) (a : api_state) : Z * option Z :=
  if negb (libvgpu.initialized (lib a)) then (libvgpu.CUDA_ERROR_NOT_INITIALIZED, None)
  else if negb driverVersion then (libvgpu.CUDA_ERROR_INVALID_VALUE, None)
  else (libvgpu.CUDA_SUCCESS, Some 12000).

Definition cuDeviceGet (device : bool) (ordinal : Z) (a : api_state) : Z * option Z :=
  if negb (libvgpu.initialized (lib a)) then (libvgpu.CUDA_ERROR_NOT_INITIALIZED, None)
  else if negb device || (ordinal <? 0) || (ordinal >=? device_count) then
    (libvgpu.CUDA_ERROR_INVALID_VALUE, None)
  else (libvgpu.CUDA_SUCCESS, Some ordinal).

Definition cuDeviceGetCount (count : bool) (a : api_state) : Z * option Z :=
  if negb (libvgpu.initialized (lib a)) then (libvgpu.CUDA_ERROR_NOT_INITIALIZED, None)
  else if negb count then (libvgpu.CUDA_ERROR_INVALID_VALUE, None)
  else (libvgpu.CUDA_SUCCESS, Some device_count).

(** [snprintf(name, len, "Virtual GPU %d (via Xen)", dev)] for [0 < len]:
    the first [len - 1] characters of the text; a NUL follows them. *)
Definition device_name (len dev : Z) : string :=
  substring 0 (Z.to_nat (len - 1))
    ("Virtual GPU " ++ NilZero.string_of_int (Z.to_int dev) ++ " (via Xen)").

Definition cuDeviceGetName (name : bool) (len dev : Z) (a : api_state)
    : Z * option string :=
  if negb (libvgpu.initialized (lib a)) then (libvgpu.CUDA_ERROR_NOT_INITIALIZED, None)
  else if negb name || (len <=? 0) || (dev <? 0) || (dev >=? device_count) then
    (libvgpu.CUDA_ERROR_INVALID_VALUE, None)
  else (libvgpu.CUDA_SUCCESS, Some (device_name len dev)).

Definition cuDeviceGetAttribute (pi : bool) (attrib dev : Z) (a : api_state)
    : Z * option Z :=
  if negb (libvgpu.initialized (lib a)) then (libvgpu.CUDA_ERROR_NOT_INITIALIZED, None)
  else if negb pi || (dev <? 0) || (dev >=? device_count) then
    (libvgpu.CUDA_ERROR_INVALID_VALUE, None)
  else (libvgpu.CUDA_SUCCESS, Some 1024).

(** [cuCtxCreate].  [pctx] tells whether the pointer is non-null; the
    second component of the result is the value stored through it. *)
Definition cuCtxCreate (pctx : bool) (flags dev : Z) (a : api_state)
    : Z * option Z * api_state :=
  if negb (libvgpu.initialized (lib a)) then
    (libvgpu.CUDA_ERROR_NOT_INITIALIZED, None, a)
  else if negb pctx || (dev <? 0) || (dev >=? device_count) then
    (libvgpu.CUDA_ERROR_INVALID_VALUE, None, a)
  else
    let ctx := u64 (0x1000 + dev) in
    (libvgpu.CUDA_SUCCESS, Some ctx, with_context a ctx).

(** [cuCtxDestroy] *)
Definition cuCtxDestroy (ctx : Z) (a : api_state) : Z * api_state :=
  if negb (libvgpu.initialized (lib a)) then (libvgpu.CUDA_ERROR_NOT_INITIALIZED, a)
  else if negb (ctx =? current_context a) then (libvgpu.CUDA_ERROR_INVALID_CONTEXT, a)
  else (libvgpu.CUDA_SUCCESS, with_context a 0).

(** [cuCtxGetCurrent] *)
Definition cuCtxGetCurrent (pctx : bool) (a : api_state) : Z * option Z :=
  if negb (libvgpu.initialized (lib a)) then (libvgpu.CUDA_ERROR_NOT_INITIALIZED, None)
  else if negb pctx then (libvgpu.CUDA_ERROR_INVALID_VALUE, None)
  else (libvgpu.CUDA_SUCCESS, Some (current_context a)).

(** [cuCtxSetCurrent] *)
Definition cuCtxSetCurrent (ctx : Z) (a : api_state) : Z * api_state :=
  if negb (libvgpu.initialized (lib a)) then (libvgpu.CUDA_ERROR_NOT_INITIALIZED, a)
  else (libvgpu.CUDA_SUCCESS, with_context a ctx).

(** [cuMemsetD8], [cuMemsetD16] and [cuMemsetD32]: nothing is sent. *)
Definition cuMemsetD8 (dstDevice uc N : Z) (a : api_state) : Z * api_state :=
  (libvgpu.CUDA_SUCCESS, a).

Definition cuMemsetD16 (dstDevice us N : Z) (a : api_state) : Z * api_state :=
  (libvgpu.CUDA_SUCCESS, a).

Definition cuMemsetD32 (dstDevice ui N : Z) (a : api_state) : Z * api_state :=
  (libvgpu.CUDA_SUCCESS, a).

(** [cuGetErrorString] and [cuGetErrorName]; [pStr] tells whether the
    pointer is non-null. *)
Definition cuGetErrorString (error : Z) (pStr : bool) : Z * option string :=
  if negb pStr then (libvgpu.CUDA_ERROR_INVALID_VALUE, None)
  else if (error <? 0) || (error >=? error_table_length) then
    (libvgpu.CUDA_SUCCESS, Some "unknown error"%string)
  else
    match error_strings error with
    | None => (libvgpu.CUDA_SUCCESS, Some "unknown error"%string)
    | Some str => (libvgpu.CUDA_SUCCESS, Some str)
    end.

Definition cuGetErrorName (error : Z) (pStr : bool) : Z * option string :=
  if negb pStr then (libvgpu.CUDA_ERROR_INVALID_VALUE, None)
  else if (error <? 0) || (error >=? error_table_length) then
    (libvgpu.CUDA_SUCCESS, Some "CUDA_ERROR_UNKNOWN"%string)
  else
    match error_names error with
    | None => (libvgpu.CUDA_SUCCESS, Some "CUDA_ERROR_UNKNOWN"%string)
    | Some str => (libvgpu.CUDA_SUCCESS, Some str)
    end.

(** The message [cuMemcpyHtoD] fills in by hand.  [reserved] is never
    assigned and keeps what [malloc] returned ([junk]); the 32-bit
    [payload_len] receives a [size_t] sum. *)
Definition h2d_message (dstDevice : Z) (src : list byte) (ByteCount junk : Z)
    : idm_message :=
  {| header := {| magic := IDM_MAGIC; version := IDM_VERSION;
                  msg_type := IDM_GPU_COPY_H2D;
                  src_zone := libvgpu.USER_ZONE_ID;
                  dst_zone := libvgpu.DRIVER_ZONE_ID;
                  seq_num := 1;
                  payload_len := u32 (SIZEOF_GPU_COPY_H2D + ByteCount);
                  reserved := junk |};
     payload := encode_gpu_copy_h2d {| h2d_dst_handle := dstDevice; h2d_dst_offset := 0;
                                       h2d_size := ByteCount |}
                ++ take (Z.to_nat ByteCount) src |}.

Section Calls.

Variable peer : nat → world → world.

(** The common tail of the calls that build their request with
    [idm_build_message]: build, [send_and_wait], free. *)
Definition request_call (type : Z) (body : list byte) (len : Z) (want_handle : bool)
    (a : api_state) : option (Z * option Z * api_state) :=
  let u := lib a in
  match idm_build_message libvgpu.DRIVER_ZONE_ID type body len (libvgpu.uproc u) with
  | (None, p1) =>
    Some (libvgpu.CUDA_ERROR_OUT_OF_MEMORY, None,
          with_lib a (libvgpu.with_uio u p1 (libvgpu.ushared u)))
  | (Some m, p1) =>
    '(result, handle_out, u1) ←
      libvgpu.send_and_wait peer m want_handle
        (libvgpu.with_uio u p1 (libvgpu.ushared u));
    Some (result, handle_out, with_lib a u1)
  end.

(** [cuCtxSynchronize] *)
Definition cuCtxSynchronize (a : api_state) : option (Z * api_state) :=
  if negb (libvgpu.initialized (lib a)) then Some (libvgpu.CUDA_ERROR_NOT_INITIALIZED, a)
  else
    '(result, _, a1) ←
      request_call IDM_GPU_SYNC
        (encode_gpu_sync {| sync_flags := 0; sync_reserved := 0 |}) SIZEOF_GPU_SYNC
        false a;
    Some (result, a1).

(** [cuMemAlloc].  [dptr] tells whether the pointer is non-null; the
    second component of the result is the value stored through it.
    The local [handle] starts at 0 and is what [send_and_wait] stored. *)
Definition cuMemAlloc (dptr : bool) (bytesize : Z) (a : api_state)
    : option (Z * option Z * api_state) :=
  if negb (libvgpu.initialized (lib a)) then
    Some (libvgpu.CUDA_ERROR_NOT_INITIALIZED, None, a)
  else if negb dptr || (bytesize =? 0) then
    Some (libvgpu.CUDA_ERROR_INVALID_VALUE, None, a)
  else
    '(result, handle_out, a1) ←
      request_call IDM_GPU_ALLOC
        (encode_gpu_alloc {| alloc_size := bytesize; alloc_flags := 0;
                             alloc_reserved := 0 |}) SIZEOF_GPU_ALLOC
        true a;
    let handle := match handle_out with Some h => h | None => 0 end in
    if result =? libvgpu.CUDA_SUCCESS then Some (result, Some handle, a1)
    else Some (result, None, a1).

(** [cuMemFree] *)
Definition cuMemFree (dptr : Z) (a : api_state) : option (Z * api_state) :=
  if negb (libvgpu.initialized (lib a)) then Some (libvgpu.CUDA_ERROR_NOT_INITIALIZED, a)
  else if dptr =? 0 then Some (libvgpu.CUDA_ERROR_INVALID_VALUE, a)
  else
    '(result, _, a1) ←
      request_call IDM_GPU_FREE (encode_gpu_free {| free_handle := dptr |})
        SIZEOF_GPU_FREE false a;
    Some (result, a1).

(** [cuMemcpyHtoD].  [srcHost] is the buffer behind the source pointer,
    [None] for a null pointer.  The message is allocated with [malloc]
    and filled in by the function itself.  A byte count for which the
    size of the message wraps makes the function write past its
    buffer, and a source shorter than the byte count makes it read
    past the source; both are undefined. *)
Definition cuMemcpyHtoD (dstDevice : Z) (srcHost : option (list byte))
    (ByteCount junk : Z) (a : api_state) : option (Z * api_state) :=
  let u := lib a in
  if negb (libvgpu.initialized u) then Some (libvgpu.CUDA_ERROR_NOT_INITIALIZED, a)
  else
    match srcHost with
    | None => Some (libvgpu.CUDA_ERROR_INVALID_VALUE, a)
    | Some src =>
      if (dstDevice =? 0) || (ByteCount =? 0) then
        Some (libvgpu.CUDA_ERROR_INVALID_VALUE, a)
      else
        let msg_size := u64 (SIZEOF_HEADER + SIZEOF_GPU_COPY_H2D + ByteCount) in
        let '(ok, p1) := malloc (libvgpu.uproc u) in
        if negb ok then
          Some (libvgpu.CUDA_ERROR_OUT_OF_MEMORY,
                with_lib a (libvgpu.with_uio u p1 (libvgpu.ushared u)))
        else if msg_size <? SIZEOF_HEADER + SIZEOF_GPU_COPY_H2D + ByteCount then None
        else if Z.of_nat (length src) <? ByteCount then None
        else
          '(result, _, u1) ←
            libvgpu.send_and_wait peer (h2d_message dstDevice src ByteCount junk) false
              (libvgpu.with_uio u p1 (libvgpu.ushared u));
          Some (result, with_lib a u1)
    end.

(** [cuMemcpyDtoD] *)
Definition cuMemcpyDtoD (dstDevice srcDevice ByteCount : Z) (a : api_state)
    : option (Z * api_state) :=
  if negb (libvgpu.initialized (lib a)) then Some (libvgpu.CUDA_ERROR_NOT_INITIALIZED, a)
  else if (dstDevice =? 0) || (srcDevice =? 0) || (ByteCount =? 0) then
    Some (libvgpu.CUDA_ERROR_INVALID_VALUE, a)
  else
    '(result, _, a1) ←
      request_call IDM_GPU_COPY_D2D
        (encode_gpu_copy_d2d {| d2d_dst_handle := dstDevice; d2d_src_handle := srcDevice;
                                d2d_dst_offset := 0; d2d_src_offset := 0;
                                d2d_size := ByteCount |})
        SIZEOF_GPU_COPY_D2D false a;
    Some (result, a1).

End Calls.

End libvgpu_api.

(** The entry points of libvgpu.c, all 21, as one type of calls, and the
    [CUresult] a call returns with the state it leaves ([None] where
    the call is undefined). *)
Inductive api_call :=
  | CallCuInit (Flags : Z)
  | CallCuDriverGetVersion (driverVersion : bool)
  | CallCuDeviceGet (device : bool) (ordinal : Z)
  | CallCuDeviceGetCount (count : bool)
  | CallCuDeviceGetName (name : bool) (len dev : Z)
  | CallCuDeviceGetAttribute (pi : bool) (attrib dev : Z)
  | CallCuCtxCreate (pctx : bool) (flags dev : Z)
  | CallCuCtxDestroy (ctx : Z)
  | CallCuCtxSynchronize
  | CallCuCtxGetCurrent (pctx : bool)
  | CallCuCtxSetCurrent (ctx : Z)
  | CallCuMemAlloc (dptr : bool) (bytesize : Z)
  | CallCuMemFree (dptr : Z)
  | CallCuMemcpyHtoD (dstDevice : Z) (srcHost : option (list byte)) (ByteCount junk : Z)
  | CallCuMemcpyDtoH (dstHost : option (list byte)) (srcDevice ByteCount : Z)
  | CallCuMemcpyDtoD (dstDevice srcDevice ByteCount : Z)
  | CallCuMemsetD8 (dstDevice uc N : Z)
  | CallCuMemsetD16 (dstDevice us N : Z)
  | CallCuMemsetD32 (dstDevice ui N : Z)
  | CallCuGetErrorString (error : Z) (pStr : bool)
  | CallCuGetErrorName (error : Z) (pStr : bool).

Definition call_result (peer : nat → world → world) (c : api_call)
    (a : libvgpu_api.api_state) : option (Z * libvgpu_api.api_state) :=
  match c with
  | CallCuInit Flags => libvgpu_api.cuInit Flags a
  | CallCuDriverGetVersion driverVersion =>
    Some (fst (libvgpu_api.cuDriverGetVersion driverVersion a), a)
  | CallCuDeviceGet device ordinal =>
    Some (fst (libvgpu_api.cuDeviceGet device ordinal a), a)
  | CallCuDeviceGetCount count => Some (fst (libvgpu_api.cuDeviceGetCount count a), a)
  | CallCuDeviceGetName name len dev =>
    Some (fst (libvgpu_api.cuDeviceGetName name len dev a), a)
  | CallCuDeviceGetAttribute pi attrib dev =>
    Some (fst (libvgpu_api.cuDeviceGetAttribute pi attrib dev a), a)
  | CallCuCtxCreate pctx flags dev =>
    let '(r, _, a1) := libvgpu_api.cuCtxCreate pctx flags dev a in Some (r, a1)
  | CallCuCtxDestroy ctx => Some (libvgpu_api.cuCtxDestroy ctx a)
  | CallCuCtxSynchronize => libvgpu_api.cuCtxSynchronize peer a
  | CallCuCtxGetCurrent pctx => Some (fst (libvgpu_api.cuCtxGetCurrent pctx a), a)
  | CallCuCtxSetCurrent ctx => Some (libvgpu_api.cuCtxSetCurrent ctx a)
  | CallCuMemAlloc dptr bytesize =>
    '(r, _, a1) ← libvgpu_api.cuMemAlloc peer dptr bytesize a; Some (r, a1)
  | CallCuMemFree dptr => libvgpu_api.cuMemFree peer dptr a
  | CallCuMemcpyHtoD dstDevice srcHost ByteCount junk =>
    libvgpu_api.cuMemcpyHtoD peer dstDevice srcHost ByteCount junk a
  | CallCuMemcpyDtoH dstHost srcDevice ByteCount =>
    '(r, _, u1) ← libvgpu.cuMemcpyDtoH peer dstHost srcDevice ByteCount
                    (libvgpu_api.lib a);
    Some (r, libvgpu_api.with_lib a u1)
  | CallCuMemcpyDtoD dstDevice srcDevice ByteCount =>
    libvgpu_api.cuMemcpyDtoD peer dstDevice srcDevice ByteCount a
  | CallCuMemsetD8 dstDevice uc N => Some (libvgpu_api.cuMemsetD8 dstDevice uc N a)
  | CallCuMemsetD16 dstDevice us N => Some (libvgpu_api.cuMemsetD16 dstDevice us N a)
  | CallCuMemsetD32 dstDevice ui N => Some (libvgpu_api.cuMemsetD32 dstDevice ui N a)
  | CallCuGetErrorString error pStr =>
    Some (fst (libvgpu_api.cuGetErrorString error pStr), a)
  | CallCuGetErrorName error pStr =>
    Some (fst (libvgpu_api.cuGetErrorName error pStr), a)
  end.

(** The calls that test [initialized] first. *)
Definition needs_init (c : api_call) : bool :=
  match c with
  | CallCuInit _
  | CallCuMemsetD8 _ _ _ | CallCuMemsetD16 _ _ _ | CallCuMemsetD32 _ _ _
  | CallCuGetErrorString _ _ | CallCuGetErrorName _ _ => false
  | _ => true
  end.

(** The results the calls can return. *)
Definition result_codes : list Z :=
  [libvgpu.CUDA_SUCCESS; libvgpu.CUDA_ERROR_INVALID_VALUE;
   libvgpu.CUDA_ERROR_OUT_OF_MEMORY; libvgpu.CUDA_ERROR_NOT_INITIALIZED;
   libvgpu.CUDA_ERROR_INVALID_CONTEXT; libvgpu.CUDA_ERROR_INVALID_HANDLE].

(** The results [send_and_wait] can return. *)
Definition wait_codes : list Z :=
  [libvgpu.CUDA_SUCCESS; libvgpu.CUDA_ERROR_INVALID_VALUE;
   libvgpu.CUDA_ERROR_OUT_OF_MEMORY; libvgpu.CUDA_ERROR_INVALID_HANDLE].

(** The entry points of <cuda.h> that [init_cuda] (main.c) calls, as
    functions of the device state.  [cuDeviceGetCount] and [cuDeviceGet]
    also yield the value stored through their pointer argument; the
    name [cuDeviceGetName] writes and the context [cuCtxCreate] stores
    are not used again. *)
Class CudaSetup (dev : Type) := {
  cuInit : Z → dev → Z * dev;
  cuDeviceGetCount : dev → Z * Z * dev;
  cuDeviceGet : Z → dev → Z * Z * dev;
  cuDeviceGetName : Z → Z → dev → Z * dev;
  cuCtxCreate : Z → Z → dev → Z * dev
}.

(** The STUB_CUDA entry points of main.c. *)
#[export] Instance stub_setup : CudaSetup stub_device := {
  cuInit flags d := (CUDA_SUCCESS, d);
  cuDeviceGetCount d := (CUDA_SUCCESS, 1, d);
  cuDeviceGet ordinal d := (CUDA_SUCCESS, ordinal, d);
  cuDeviceGetName len dev d := (CUDA_SUCCESS, d);
  cuCtxCreate flags dev d := (CUDA_SUCCESS, d)
}.

(** [init_cuda] (main.c): 0, or -1 at the first call that fails or when
    there is no device. *)
Definition init_cuda {dev} `{CudaSetup dev} (d : dev) : Z * dev :=
  let '(res, d1) := cuInit 0 d in
  if negb (res =? CUDA_SUCCESS) then (-1, d1)
  else
    let '(res, device_count, d2) := cuDeviceGetCount d1 in
    if negb (res =? CUDA_SUCCESS) then (-1, d2)
    else if device_count =? 0 then (-1, d2)
    else
      let '(res, device, d3) := cuDeviceGet 0 d2 in
      if negb (res =? CUDA_SUCCESS) then (-1, d3)
      else
        let '(_, d4) := cuDeviceGetName 256 device d3 in
        let '(res, d5) := cuCtxCreate 0 device d4 in
        if negb (res =? CUDA_SUCCESS) then (-1, d5)
        else (0, d5).

(** How [run_server] (main.c) gets to its loop, or does not: it returns
    [code] before the loop, or enters the loop in state [st]. *)
Inductive start_result (dev : Type) :=
  | Exited (code : Z) (d : dev) (p : process) (w : world)
  | Serving (st : driver_state dev).
Arguments Exited {dev}.
Arguments Serving {dev}.

(** The start of [run_server] up to its loop: [idm_init] as the server
    of zone 1 ([DRIVER_ZONE_ID]) towards zone 2 ([USER_ZONE_ID]),
    [handle_table_init], which returns 0, and [init_cuda]; a failure of
    [init_cuda] undoes the two before it. *)
Definition run_server_start {dev} `{CudaDriver dev} `{CudaSetup dev}
    (d : dev) (p : process) (w : world) : option (start_result dev) :=
  '(ret, p1, w1) ← idm_init 1 2 true p w;
  if ret <? 0 then Some (Exited 1 d p1 w1)
  else
    let '(r, d1) := init_cuda d in
    if r <? 0 then Some (Exited 1 d1 (idm_cleanup p1) w1)
    else Some (Serving {| table := handle_table_init; device := d1; calls := [];
                          proc := p1; shared := w1 |}).

(** The daemon as the peer of one call of libvgpu: while the first
    [idm_recv] of the call waits, the daemon in state [st] runs one
    iteration of its loop on the shared memory; afterwards it finds
    nothing to receive. *)
Definition serving_peer {dev} `{CudaDriver dev} (st : driver_state dev)
    (i : nat) (w : world) : world :=
  match i with
  | O =>
    match serve_once (with_io st (proc st) w) with
    | Some st' => shared st'
    | None => w
    end
  | S _ => w
  end.

(** The message types the [switch] of [run_server] has a case for. *)
Definition handled_types : list Z :=
  [IDM_GPU_ALLOC; IDM_GPU_FREE; IDM_GPU_COPY_H2D; IDM_GPU_COPY_D2H; IDM_GPU_SYNC].

(** The RESPONSE_OK that [send_response_ok] builds over a connection. *)
Definition ok_response (conn : idm_connection) (dst request_seq result_handle data_len : Z)
    : idm_message :=
  {| header := {| magic := IDM_MAGIC; version := IDM_VERSION;
                  msg_type := IDM_RESPONSE_OK; src_zone := local_zone_id conn;
                  dst_zone := dst; seq_num := next_seq conn;
                  payload_len := SIZEOF_RESPONSE_OK; reserved := 0 |};
     payload := encode_response_ok
                  {| ok_request_seq := request_seq; ok_result_handle := result_handle;
                     ok_result_value := 0; ok_data_len := u32 data_len |} |}.

(** The RESPONSE_ERROR that [send_response_error] builds over a
    connection. *)
Definition error_response (conn : idm_connection)
    (dst request_seq error_code cuda_error : Z) (error_msg : string) : idm_message :=
  {| header := {| magic := IDM_MAGIC; version := IDM_VERSION;
                  msg_type := IDM_RESPONSE_ERROR; src_zone := local_zone_id conn;
                  dst_zone := dst; seq_num := next_seq conn;
                  payload_len := SIZEOF_RESPONSE_ERROR; reserved := 0 |};
     payload := encode_response_error
                  {| err_request_seq := request_seq; err_error_code := u32 error_code;
                     err_cuda_error := u32 cuda_error;
                     err_error_msg := strncpy_zeroed 256 255 error_msg |} |}.

(** Two endpoints of one link, as [idm_init] sets them up in two
    different zones: each sends on the ring the other receives from and
    posts the semaphore the other waits on. *)
Definition linked (cu cd : idm_connection) : Prop :=
  connected cu = true ∧ connected cd = true
  ∧ local_zone_id cu = remote_zone_id cd ∧ remote_zone_id cu = local_zone_id cd
  ∧ tx_key cu ≠ rx_key cu ∧ tx_sem cu ≠ rx_sem cu.

(** Nothing is in flight on the link: both rings are empty and both
    semaphores at zero. *)
Definition link_idle (cu : idm_connection) (w : world) : Prop :=
  holds_queue (get_ring w (tx_key cu)) [] ∧ holds_queue (get_ring w (rx_key cu)) []
  ∧ sem_value w (tx_sem cu) = O ∧ sem_value w (rx_sem cu) = O.

(* ====================================================================== *)
(** ** More concrete configurations *)
(* ====================================================================== *)

(** A world in which two messages wait for the daemon and the operating
    system refuses to open the semaphore of zone 2. *)
Definition sem_refusing_world : world :=
  {| shm := shm poisoned_world; sems := sems poisoned_world;
     faults := {| shmget_fails := ∅; shmat_fails := ∅; sem_open_fails := {[ 2 ]};
                  sem_wait_errno := ∅ |} |}.


(** Zone 2 asks for 64 bytes. *)
Definition alloc_request : idm_message :=
  request IDM_GPU_ALLOC 2 7
    (encode_gpu_alloc {| alloc_size := 64; alloc_flags := 0; alloc_reserved := 0 |}).


(** The library after [cuInit], with no context. *)
Definition app_api_state : libvgpu_api.api_state :=
  {| libvgpu_api.lib := app_state; libvgpu_api.current_context := 0 |}.

(** The largest byte count whose COPY_H2D message fits a ring slot. *)
Definition H2D_MAX_BYTES : Z := SIZEOF_RING_ENTRY - SIZEOF_HEADER - SIZEOF_GPU_COPY_H2D.

(* ====================================================================== *)
(** * Properties *)
(* ====================================================================== *)

(** ** Bytes and little-endian fields *)

Lemma Z_of_byte_range (b : byte) : 0 <= Z_of_byte b < 256.
Proof.
  unfold Z_of_byte. pose proof (Byte.to_N_bounded b). lia.
Qed.

Lemma Z_of_byte_of_Z (z : Z) : Z_of_byte (byte_of_Z z) = z mod 256.
Proof.
  unfold Z_of_byte, byte_of_Z.
  assert (Hr : 0 <= z mod 256 < 256) by (apply Z.mod_pos_bound; lia).
  destruct (Byte.of_N (Z.to_N (z mod 256))) as [b|] eqn:E.
  - apply Byte.to_of_N in E. rewrite E. lia.
  - apply Byte.of_N_None_iff in E. lia.
Qed.

Lemma length_encode_le (n : nat) (z : Z) : length (encode_le n z) = n.
Proof.
  revert z. induction n as [|n IH]; intros z; simpl; [done|]. by rewrite IH.
Qed.

Lemma decode_encode_le (n : nat) (z : Z) :
  decode_le (encode_le n z) = z mod 2 ^ (8 * Z.of_nat n).
Proof.
  revert z. induction n as [|n IH]; intros z.
  - simpl. by rewrite Z.mod_1_r.
  - cbn [encode_le decode_le]. rewrite IH, Z_of_byte_of_Z.
    replace (8 * Z.of_nat (S n)) with (8 + 8 * Z.of_nat n) by lia.
    rewrite Z.pow_add_r by lia.
    change (2 ^ 8) with 256.
    rewrite Z.rem_mul_r by lia. lia.
Qed.

Lemma read_le_app_here (n : nat) (z : Z) (rest : list byte) :
  read_le 0 n (encode_le n z ++ rest) = Some (z mod 2 ^ (8 * Z.of_nat n)).
Proof.
  unfold read_le. rewrite drop_0.
  rewrite take_app_length' by (by rewrite length_encode_le).
  rewrite length_encode_le.
  destruct (decide (n = n)); [|done]. by rewrite decode_encode_le.
Qed.

Lemma read_le_skip (off n : nat) (pre rest : list byte) :
  length pre = off →
  read_le off n (pre ++ rest) = read_le 0 n rest.
Proof.
  intros Hl. unfold read_le. rewrite drop_0, drop_app_length'; done.
Qed.

(** The fields the correlator reads from a response are the ones the
    handlers wrote. *)
Lemma read_response_error_fields (r : idm_response_error) :
  read_le 0 8 (encode_response_error r) = Some (u64 (err_request_seq r))
  ∧ read_le 8 4 (encode_response_error r) = Some (u32 (err_error_code r)).
Proof.
  unfold encode_response_error. split.
  - apply read_le_app_here.
  - rewrite (read_le_skip 8 4 (encode_le 8 _)) by apply length_encode_le.
    apply read_le_app_here.
Qed.

Lemma read_response_ok_fields (r : idm_response_ok) :
  read_le 0 8 (encode_response_ok r) = Some (u64 (ok_request_seq r))
  ∧ read_le 8 8 (encode_response_ok r) = Some (u64 (ok_result_handle r))
  ∧ length (encode_response_ok r) = Z.to_nat SIZEOF_RESPONSE_OK.
Proof.
  unfold encode_response_ok. split; [apply read_le_app_here|]. split.
  - rewrite (read_le_skip 8 8 (encode_le 8 _)) by apply length_encode_le.
    apply read_le_app_here.
  - by rewrite !length_app, !length_encode_le.
Qed.

(** ** 32-bit index arithmetic *)

Lemma u32_range (z : Z) : 0 <= u32 z < 2 ^ 32.
Proof. unfold u32. apply Z.mod_pos_bound. lia. Qed.

Lemma u32_small (z : Z) : 0 <= z < 2 ^ 32 → u32 z = z.
Proof. intros. unfold u32. by apply Z.mod_small. Qed.

Lemma u64_small (z : Z) : 0 <= z < 2 ^ 64 → u64 z = z.
Proof. intros. unfold u64. by apply Z.mod_small. Qed.

Lemma level_after_produce (prod cons : Z) :
  u32 (prod - cons) < IDM_RING_SIZE →
  u32 (u32 (prod + 1) - cons) = u32 (prod - cons) + 1.
Proof.
  unfold u32, IDM_RING_SIZE. intros Hlt.
  rewrite Zminus_mod_idemp_l.
  replace (prod + 1 - cons) with ((prod - cons) + 1) by lia.
  rewrite <- Zplus_mod_idemp_l.
  pose proof (Z.mod_pos_bound (prod - cons) (2 ^ 32) ltac:(lia)).
  apply Z.mod_small. lia.
Qed.

Lemma level_zero_iff (prod cons : Z) :
  0 <= prod < 2 ^ 32 → 0 <= cons < 2 ^ 32 →
  u32 (prod - cons) = 0 ↔ cons = prod.
Proof.
  intros Hp Hc. unfold u32. split.
  - intros Hz.
    destruct (Z.le_gt_cases cons prod).
    + rewrite Z.mod_small in Hz by lia. lia.
    + replace (prod - cons) with ((prod - cons + 2 ^ 32) + (-1) * 2 ^ 32) in Hz by lia.
      rewrite Z.mod_add in Hz by lia.
      rewrite Z.mod_small in Hz by lia. lia.
  - intros ->. by rewrite Z.sub_diag.
Qed.

Lemma level_after_consume (prod cons : Z) :
  0 <= prod < 2 ^ 32 → 0 <= cons < 2 ^ 32 → cons ≠ prod →
  u32 (prod - u32 (cons + 1)) = u32 (prod - cons) - 1.
Proof.
  intros Hp Hc Hne.
  assert (Hnz : u32 (prod - cons) ≠ 0) by (rewrite level_zero_iff; done).
  pose proof (u32_range (prod - cons)) as Hr.
  unfold u32 in *.
  rewrite Zminus_mod_idemp_r.
  replace (prod - (cons + 1)) with ((prod - cons) - 1) by lia.
  rewrite <- Zminus_mod_idemp_l.
  apply Z.mod_small. lia.
Qed.

(** ** The shared rings *)

Lemma get_ring_put_eq (w : world) (k : Z) (r : idm_ring) :
  get_ring (put_ring w k r) k = r.
Proof. unfold get_ring, put_ring. simpl. by rewrite lookup_insert_eq. Qed.

Lemma get_ring_put_ne (w : world) (k k' : Z) (r : idm_ring) :
  k ≠ k' → get_ring (put_ring w k r) k' = get_ring w k'.
Proof.
  intros Hne. unfold get_ring, put_ring. simpl. by rewrite lookup_insert_ne.
Qed.

Lemma get_ring_shm (w w' : world) (k : Z) :
  shm w' = shm w → get_ring w' k = get_ring w k.
Proof. intros Heq. unfold get_ring. by rewrite Heq. Qed.

Lemma get_ring_sem_post (w : world) (n k : Z) :
  get_ring (sem_post w n) k = get_ring w k.
Proof. by apply get_ring_shm. Qed.

Lemma sem_wait_shm (t : Z) (w w1 : world) (n : Z) :
  sem_wait t w n = Acquired w1 → shm w1 = shm w.
Proof.
  unfold sem_wait. destruct (sem_value w n).
  - destruct (t <? 0); [destruct (_ !! _)|]; discriminate.
  - intros [= <-]. done.
Qed.

Lemma ring_inv_zero : ring_inv zero_ring.
Proof.
  unfold ring_inv, ring_level, zero_ring. cbn [producer consumer entries].
  rewrite length_replicate. change (u32 (0 - 0)) with 0.
  unfold IDM_RING_SIZE. lia.
Qed.

Lemma ring_inv_produce (r : idm_ring) (m : idm_message) :
  ring_inv r → ring_level r < IDM_RING_SIZE →
  ring_inv (set_producer (write_entry r (producer r mod IDM_RING_SIZE) m)
                         (u32 (producer r + 1))).
Proof.
  intros (Hp & Hc & Hl & Hlev) Hlt. unfold ring_inv, ring_level in *.
  cbn [producer consumer entries set_producer write_entry].
  rewrite length_insert, level_after_produce by done.
  pose proof (u32_range (producer r + 1)). lia.
Qed.

Lemma ring_inv_consume (r : idm_ring) :
  ring_inv r → consumer r ≠ producer r →
  ring_inv (set_consumer r (u32 (consumer r + 1))).
Proof.
  intros (Hp & Hc & Hl & Hlev) Hne. unfold ring_inv, ring_level in *.
  cbn [producer consumer entries set_consumer].
  rewrite level_after_consume by done.
  assert (u32 (producer r - consumer r) ≠ 0) by (rewrite level_zero_iff; done).
  pose proof (u32_range (consumer r + 1)). lia.
Qed.

(** The branches of the C conditionals, as facts about integers. *)
Ltac branch :=
  repeat match goal with
  | H : negb _ = true |- _ => apply negb_true_iff in H
  | H : negb _ = false |- _ => apply negb_false_iff in H
  | H : (_ >=? _) = _ |- _ => rewrite Z.geb_leb in H
  | H : (_ >? _) = _ |- _ => rewrite Z.gtb_ltb in H
  | H : (_ <=? _) = true |- _ => apply Z.leb_le in H
  | H : (_ <=? _) = false |- _ => apply Z.leb_gt in H
  | H : (_ <? _) = true |- _ => apply Z.ltb_lt in H
  | H : (_ <? _) = false |- _ => apply Z.ltb_ge in H
  | H : (_ =? _) = true |- _ => apply Z.eqb_eq in H
  | H : (_ =? _) = false |- _ => apply Z.eqb_neq in H
  end.

Lemma idm_send_preserves (m : idm_message) (p : process) (w : world) :
  (∀ k, ring_inv (get_ring w k)) →
  ∀ k, ring_inv (get_ring (snd (idm_send m p w)) k).
Proof.
  intros Hinv k. unfold idm_send.
  destruct (global_conn p) as [conn|]; [|apply Hinv].
  destruct (negb (connected conn)); [apply Hinv|].
  destruct (negb (idm_message_valid (header m))); [apply Hinv|].
  destruct (idm_message_size (header m) >? SIZEOF_RING_ENTRY); [apply Hinv|].
  destruct (u32 (producer (get_ring w (tx_key conn)) - consumer (get_ring w (tx_key conn)))
            >=? IDM_RING_SIZE) eqn:Hfull; [apply Hinv|].
  branch. cbn [snd]. rewrite get_ring_sem_post.
  destruct (decide (tx_key conn = k)) as [<-|Hne].
  - rewrite get_ring_put_eq. by apply ring_inv_produce.
  - rewrite get_ring_put_ne by done. apply Hinv.
Qed.

Lemma idm_recv_preserves (t : Z) (p : process) (w : world) ret msg_out p1 w1 :
  (∀ k, ring_inv (get_ring w k)) →
  idm_recv t p w = Some (ret, msg_out, p1, w1) →
  ∀ k, ring_inv (get_ring w1 k).
Proof.
  intros Hinv Hrecv k. unfold idm_recv in Hrecv.
  destruct (global_conn p) as [conn|]; [|by injection Hrecv as <- <- <- <-].
  destruct (negb (connected conn)); [by injection Hrecv as <- <- <- <-|].
  destruct (sem_wait t w (rx_sem conn)) as [w2| |e|] eqn:Hwait;
    [|by injection Hrecv as <- <- <- <-|by injection Hrecv as <- <- <- <-|done].
  apply sem_wait_shm in Hwait.
  assert (Hinv2 : ∀ k, ring_inv (get_ring w2 k)).
  { intros k'. rewrite (get_ring_shm w w2) by done. apply Hinv. }
  set (ring := get_ring w2 (rx_key conn)) in *.
  destruct (consumer ring =? producer ring) eqn:Hempty;
    [by injection Hrecv as <- <- <- <-|].
  branch.
  assert (Hstep : ring_inv (get_ring (put_ring w2 (rx_key conn)
                    (set_consumer ring (u32 (consumer ring + 1)))) k)).
  { destruct (decide (rx_key conn = k)) as [<-|Hne].
    - rewrite get_ring_put_eq. apply ring_inv_consume; [apply Hinv2|done].
    - rewrite get_ring_put_ne by done. apply Hinv2. }
  destruct (negb (idm_message_valid _)); [by injection Hrecv as <- <- <- <-|].
  destruct (malloc p) as [ok p2].
  destruct (negb ok); [by injection Hrecv as <- <- <- <-|].
  destruct (_ >? _); [done|by injection Hrecv as <- <- <- <-].
Qed.

Lemma put_ring_preserves (w : world) (k : Z) (r : idm_ring) :
  (∀ k', ring_inv (get_ring w k')) → ring_inv r →
  ∀ k', ring_inv (get_ring (put_ring w k r) k').
Proof.
  intros Hw Hr k'. destruct (decide (k = k')) as [<-|Hne].
  - by rewrite get_ring_put_eq.
  - by rewrite get_ring_put_ne.
Qed.

Lemma init_shm_preserves (conn : idm_connection) (w : world) ret w1 :
  (∀ k, ring_inv (get_ring w k)) →
  init_shm conn w = Some (ret, w1) →
  ∀ k, ring_inv (get_ring w1 k).
Proof.
  intros Hinv Hinit.
  assert (H1 : ∀ k, ring_inv (get_ring (shmget w (tx_key conn)) k)).
  { unfold shmget. apply put_ring_preserves; [done|apply Hinv]. }
  assert (H2 : ∀ k, ring_inv (get_ring (shmget (shmget w (tx_key conn))
                                          (rx_key conn)) k)).
  { unfold shmget at 1. apply put_ring_preserves; [done|apply H1]. }
  unfold init_shm in Hinit. cbv zeta in Hinit.
  set (w3 := if is_server conn then _ else _) in Hinit.
  assert (H3 : ∀ k, ring_inv (get_ring w3 k)).
  { subst w3. destruct (is_server conn); [|apply H2].
    apply put_ring_preserves; [apply put_ring_preserves|]; auto using ring_inv_zero. }
  clearbody w3.
  repeat match type of Hinit with
         | context [if ?b then _ else _] => destruct b
         end;
    try discriminate; injection Hinit as <- <-; intros k;
    first [exact (Hinv k) | exact (H1 k) | exact (H2 k) | exact (H3 k)].
Qed.

Lemma idm_init_preserves (l r : Z) (s : bool) (p : process) (w : world) ret p1 w1 :
  (∀ k, ring_inv (get_ring w k)) →
  idm_init l r s p w = Some (ret, p1, w1) →
  ∀ k, ring_inv (get_ring w1 k).
Proof.
  intros Hinv Hinit. unfold idm_init in Hinit.
  destruct (global_conn p); [by injection Hinit as <- <- <-|].
  destruct (malloc p) as [ok p2].
  destruct (negb ok); [by injection Hinit as <- <- <-|].
  destruct (init_shm _ w) as [[ret1 w2]|] eqn:Hshm; [|done].
  cbn in Hinit.
  assert (Hw2 := init_shm_preserves _ _ _ _ Hinv Hshm).
  destruct (ret1 <? 0); by injection Hinit as <- <- <-.
Qed.

Lemma reachable_ring_inv (w : world) :
  reachable w → ∀ k, ring_inv (get_ring w k).
Proof.
  induction 1 as [w Hz|l r s p w ret p1 w1 _ IH Hinit|m p w _ IH
                   |t p w ret mo p1 w1 _ IH Hrecv].
  - intros k. rewrite Hz. apply ring_inv_zero.
  - by eapply idm_init_preserves.
  - by apply idm_send_preserves.
  - by eapply idm_recv_preserves.
Qed.

(** ** Sending *)

Lemma idm_send_unfold (m : idm_message) (p : process) (conn : idm_connection)
    (w : world) :
  global_conn p = Some conn → connected conn = true →
  idm_message_valid (header m) = true →
  idm_message_size (header m) <= SIZEOF_RING_ENTRY →
  idm_send m p w =
    let r := get_ring w (tx_key conn) in
    if ring_level r >=? IDM_RING_SIZE then (- ENOSPC, w)
    else (0, sem_post (put_ring w (tx_key conn)
                (set_producer (write_entry r (producer r mod IDM_RING_SIZE) m)
                              (u32 (producer r + 1))))
              (tx_sem conn)).
Proof.
  intros Hc Hconn Hv Hs. unfold idm_send. rewrite Hc, Hconn, Hv. cbn [negb].
  assert ((idm_message_size (header m) >? SIZEOF_RING_ENTRY) = false) as ->.
  { rewrite Z.gtb_ltb. apply Z.ltb_ge. lia. }
  done.
Qed.

Lemma get_entry_write_same (r : idm_ring) (idx : Z) (m : idm_message) :
  (Z.to_nat idx < length (entries r))%nat →
  get_entry (write_entry r idx m) idx =
    {| slot_header := header m;
       area := memcpy (area (get_entry r idx)) (payload m) (payload_len (header m)) |}.
Proof.
  intros Hlt. unfold get_entry at 1, write_entry. cbn [entries].
  by rewrite list_lookup_insert_eq.
Qed.

Lemma get_entry_write_other (r : idm_ring) (idx j : Z) (m : idm_message) :
  0 <= idx → 0 <= j → j ≠ idx →
  get_entry (write_entry r idx m) j = get_entry r j.
Proof.
  intros Hi Hj Hne. unfold get_entry, write_entry. cbn [entries].
  rewrite list_lookup_insert_ne; [done|lia].
Qed.

Lemma get_entry_set_producer (r : idm_ring) (v j : Z) :
  get_entry (set_producer r v) j = get_entry r j.
Proof. done. Qed.

Lemma get_entry_set_consumer (r : idm_ring) (v j : Z) :
  get_entry (set_consumer r v) j = get_entry r j.
Proof. done. Qed.

Lemma read_back (dst : list byte) (m : idm_message) :
  msg_wf m →
  read_entry {| slot_header := header m;
                area := memcpy dst (payload m) (payload_len (header m)) |} = m.
Proof.
  unfold msg_wf, read_entry, memcpy. intros Hwf. cbn [slot_header area].
  rewrite <- Hwf, Nat2Z.id, firstn_all, take_app_length.
  by destruct m.
Qed.

Lemma ring_index_range (z : Z) : 0 <= z mod IDM_RING_SIZE < IDM_RING_SIZE.
Proof. apply Z.mod_pos_bound. unfold IDM_RING_SIZE. lia. Qed.

(** What a successful [idm_send] leaves in the slot it wrote. *)
Lemma idm_send_ring_parts (m : idm_message) (p : process) (conn : idm_connection)
    (w : world) :
  global_conn p = Some conn → connected conn = true →
  idm_message_valid (header m) = true →
  idm_message_size (header m) <= SIZEOF_RING_ENTRY →
  length (entries (get_ring w (tx_key conn))) = Z.to_nat IDM_RING_SIZE →
  ring_level (get_ring w (tx_key conn)) < IDM_RING_SIZE →
  msg_wf m →
  fst (idm_send m p w) = 0
  ∧ read_entry (get_entry (get_ring (snd (idm_send m p w)) (tx_key conn))
                  (producer (get_ring w (tx_key conn)) mod IDM_RING_SIZE)) = m.
Proof.
  intros Hc Hconn Hv Hs Hlen Hroom Hwf.
  rewrite (idm_send_unfold m p conn w) by done. cbn zeta.
  destruct (_ >=? _) eqn:E; branch; [lia|]. cbn [fst snd].
  rewrite get_ring_sem_post, get_ring_put_eq, get_entry_set_producer.
  split; [done|]. rewrite get_entry_write_same.
  - by apply read_back.
  - rewrite Hlen. pose proof (ring_index_range (producer (get_ring w (tx_key conn)))).
    unfold IDM_RING_SIZE in *. lia.
Qed.

(** C5 (as amended).  On a valid message that fits a slot, [idm_send]
    fails with [-ENOSPC] exactly when the unsigned 32-bit difference
    producer - consumer is at least [IDM_RING_SIZE], and then leaves the
    shared memory alone; otherwise it returns 0, stores the whole message
    (header and [payload_len] payload bytes) in [entries[producer mod
    IDM_RING_SIZE]], leaves the other slots and the consumer index
    alone, and publishes producer + 1.  In every world reached from
    zero-initialised rings by [idm_init], [idm_send] and [idm_recv] the
    difference lies between 0 and [IDM_RING_SIZE], so that there the ring
    is reported full exactly when the difference equals
    [IDM_RING_SIZE]. *)
Theorem idm_send_ring_full_and_invariant
    (m : idm_message) (p : process) (conn : idm_connection) (w : world) :
  global_conn p = Some conn → connected conn = true →
  idm_message_valid (header m) = true →
  idm_message_size (header m) <= SIZEOF_RING_ENTRY →
  let r := get_ring w (tx_key conn) in
  let r' := get_ring (snd (idm_send m p w)) (tx_key conn) in
  let idx := producer r mod IDM_RING_SIZE in
  (fst (idm_send m p w) = - ENOSPC ↔ IDM_RING_SIZE <= ring_level r)
  ∧ (IDM_RING_SIZE <= ring_level r → snd (idm_send m p w) = w)
  ∧ (ring_level r < IDM_RING_SIZE →
       fst (idm_send m p w) = 0
       ∧ producer r' = u32 (producer r + 1)
       ∧ consumer r' = consumer r
       ∧ (length (entries r) = Z.to_nat IDM_RING_SIZE →
            slot_header (get_entry r' idx) = header m
            ∧ (msg_wf m → read_entry (get_entry r' idx) = m)
            ∧ ∀ j, 0 <= j → j ≠ idx → get_entry r' j = get_entry r j))
  ∧ (reachable w →
       ring_inv r
       ∧ (fst (idm_send m p w) = - ENOSPC ↔ ring_level r = IDM_RING_SIZE)
       ∧ reachable (snd (idm_send m p w)))
  ∧ (∀ w0 k, reachable w0 → 0 <= ring_level (get_ring w0 k) <= IDM_RING_SIZE).
Proof.
  intros Hc Hconn Hv Hs r r' idx.
  pose proof (idm_send_unfold m p conn w Hc Hconn Hv Hs) as Hsend.
  cbn zeta in Hsend. fold r in Hsend. fold idx in Hsend.
  assert (Hfull : fst (idm_send m p w) = - ENOSPC ↔ IDM_RING_SIZE <= ring_level r).
  { rewrite Hsend. destruct (ring_level r >=? IDM_RING_SIZE) eqn:E; branch.
    - done.
    - cbn [fst]. unfold ENOSPC. split; [discriminate|lia]. }
  split; [exact Hfull|]. split; [|split; [|split]].
  - intros Hge. rewrite Hsend.
    destruct (ring_level r >=? IDM_RING_SIZE) eqn:E; branch; [done|lia].
  - intros Hlt. subst r'. rewrite Hsend.
    destruct (ring_level r >=? IDM_RING_SIZE) eqn:E; branch; [lia|].
    cbn [fst snd]. rewrite get_ring_sem_post, get_ring_put_eq.
    split; [done|]. split; [done|]. split; [done|].
    intros Hlen. rewrite !get_entry_set_producer.
    pose proof (ring_index_range (producer r)) as Hidx. fold idx in Hidx.
    assert (Hin : (Z.to_nat idx < length (entries r))%nat).
    { rewrite Hlen. unfold IDM_RING_SIZE in *. lia. }
    rewrite get_entry_write_same by done.
    split; [done|]. split.
    + apply read_back.
    + intros j Hj Hne. rewrite get_entry_set_producer.
      apply get_entry_write_other; [lia|done|done].
  - intros Hreach. pose proof (reachable_ring_inv w Hreach (tx_key conn)) as Hinv.
    fold r in Hinv. split; [exact Hinv|]. split.
    + rewrite Hfull. destruct Hinv as (_ & _ & _ & Hlev). lia.
    + by apply reach_send.
  - intros w0 k Hreach.
    by destruct (reachable_ring_inv w0 Hreach k) as (_ & _ & _ & Hlev).
Qed.

Lemma idm_send_ring_full_and_invariant_witness :
  global_conn user_proc = Some user_conn ∧ connected user_conn = true
  ∧ idm_message_valid (header sync_request) = true
  ∧ idm_message_size (header sync_request) <= SIZEOF_RING_ENTRY
  ∧ (fst (idm_send sync_request user_proc fresh_world) = - ENOSPC
     ↔ IDM_RING_SIZE <= ring_level (get_ring fresh_world (tx_key user_conn))).
Proof.
  split; [reflexivity|]. split; [reflexivity|]. split; [reflexivity|].
  split; [discriminate|].
  apply (idm_send_ring_full_and_invariant sync_request user_proc user_conn fresh_world);
    [reflexivity|reflexivity|reflexivity|discriminate].
Defined.

(** C5, the claim as stated, fails: with producer = 33 and consumer = 0
    the difference is not [IDM_RING_SIZE], yet a valid message that fits
    a slot is refused with [-ENOSPC]. *)
Lemma idm_send_full_beyond_ring_size :
  idm_message_valid (header sync_request) = true
  ∧ idm_message_size (header sync_request) <= SIZEOF_RING_ENTRY
  ∧ ¬ (fst (idm_send sync_request user_proc overrun_world) = - ENOSPC
       ↔ ring_level (get_ring overrun_world (tx_key user_conn)) = IDM_RING_SIZE).
Proof.
  split; [reflexivity|]. split; [discriminate|].
  intros [Hfull _].
  assert (Hret : fst (idm_send sync_request user_proc overrun_world) = - ENOSPC)
    by (vm_compute; reflexivity).
  specialize (Hfull Hret). vm_compute in Hfull. discriminate.
Qed.

(** ** Receiving *)

Lemma sem_value_post (w : world) (n : Z) :
  sem_value (sem_post w n) n = S (sem_value w n).
Proof. unfold sem_value at 1, sem_post. cbn [sems]. by rewrite lookup_insert_eq. Qed.

Lemma sem_value_put_ring (w : world) (k : Z) (r : idm_ring) (n : Z) :
  sem_value (put_ring w k r) n = sem_value w n.
Proof. done. Qed.

Lemma sem_wait_acquire (t : Z) (w : world) (n : Z) :
  (0 < sem_value w n)%nat →
  ∃ w1, sem_wait t w n = Acquired w1 ∧ shm w1 = shm w
        ∧ sem_value w1 n = pred (sem_value w n).
Proof.
  intros Hpos. unfold sem_wait. destruct (sem_value w n) as [|c] eqn:E; [lia|].
  eexists. split; [done|]. split; [done|].
  unfold sem_value. cbn [sems]. by rewrite lookup_insert_eq.
Qed.

Lemma invalid_header_iff (h : idm_header) :
  invalid_header h ↔ idm_message_valid h = false.
Proof.
  unfold invalid_header, idm_message_valid.
  destruct (magic h =? IDM_MAGIC) eqn:E1, (version h =? IDM_VERSION) eqn:E2,
    (payload_len h <=? IDM_MAX_PAYLOAD_SIZE) eqn:E3; branch; cbn [andb];
    split; try done; try (intros _; lia); try (intros [?|[?|?]]; lia).
Qed.

Lemma idm_recv_unfold (t : Z) (p : process) (conn : idm_connection) (w w1 : world) :
  global_conn p = Some conn → connected conn = true →
  sem_wait t w (rx_sem conn) = Acquired w1 →
  idm_recv t p w =
    let r := get_ring w1 (rx_key conn) in
    if consumer r =? producer r then Some (- EAGAIN, None, p, w1)
    else
      let e := get_entry r (consumer r mod IDM_RING_SIZE) in
      let w2 := put_ring w1 (rx_key conn) (set_consumer r (u32 (consumer r + 1))) in
      if negb (idm_message_valid (slot_header e)) then Some (- EINVAL, None, p, w2)
      else if negb (fst (malloc p)) then Some (- ENOMEM, None, snd (malloc p), w1)
      else if idm_message_size (slot_header e) >? SIZEOF_RING_ENTRY then None
      else Some (0, Some (read_entry e), snd (malloc p), w2).
Proof.
  intros Hc Hconn Hwait. unfold idm_recv. rewrite Hc, Hconn, Hwait. cbn [negb].
  cbn zeta. destruct (malloc p) as [ok p1]. done.
Qed.

Lemma slot_size_fits (h : idm_header) :
  payload_len h <= AREA_SIZE → (idm_message_size h >? SIZEOF_RING_ENTRY) = false.
Proof.
  unfold idm_message_size, AREA_SIZE, SIZEOF_RING_ENTRY, SIZEOF_HEADER. lia.
Qed.

(** C7.  A message whose header has a wrong magic, a wrong version or a
    payload length above [IDM_MAX_PAYLOAD_SIZE] is refused by [idm_send]
    with [-EINVAL] and the shared memory is left as it was (from any
    process the call fails and changes nothing).  When
    [idm_recv] finds such a header in the slot at the consumer index it
    returns [-EINVAL] without a message, moves the consumer index by
    exactly one (modulo 2^32) and changes nothing else of the ring or of
    the process; the following [idm_recv] then delivers the message of
    the next slot if that one is valid and lies within its slot (its
    payload is of at most [AREA_SIZE] bytes). *)
Theorem invalid_message_rejected
    (m : idm_message) (p : process) (conn : idm_connection) (w w1 : world) (t : Z) :
  global_conn p = Some conn → connected conn = true →
  let r := get_ring w1 (rx_key conn) in
  let w2 := put_ring w1 (rx_key conn) (set_consumer r (u32 (consumer r + 1))) in
  let next := get_entry r (u32 (consumer r + 1) mod IDM_RING_SIZE) in
  (invalid_header (header m) →
     idm_send m p w = (- EINVAL, w)
     ∧ ∀ p', fst (idm_send m p' w) < 0 ∧ snd (idm_send m p' w) = w)
  ∧ (sem_wait t w (rx_sem conn) = Acquired w1 →
     consumer r ≠ producer r →
     invalid_header (slot_header (get_entry r (consumer r mod IDM_RING_SIZE))) →
     idm_recv t p w = Some (- EINVAL, None, p, w2)
     ∧ consumer (get_ring w2 (rx_key conn)) = u32 (consumer r + 1)
     ∧ producer (get_ring w2 (rx_key conn)) = producer r
     ∧ entries (get_ring w2 (rx_key conn)) = entries r
     ∧ (∀ k, k ≠ rx_key conn → get_ring w2 k = get_ring w1 k)
     ∧ (∀ t' w3, sem_wait t' w2 (rx_sem conn) = Acquired w3 →
          u32 (consumer r + 1) ≠ producer r →
          idm_message_valid (slot_header next) = true →
          payload_len (slot_header next) <= AREA_SIZE →
          fst (malloc p) = true →
          ∃ w4, idm_recv t' p w2
                = Some (0, Some (read_entry next), snd (malloc p), w4))).
Proof.
  intros Hc Hconn r w2 next. split.
  { intros Hbad. apply invalid_header_iff in Hbad. split.
    - unfold idm_send. by rewrite Hc, Hconn, Hbad.
    - intros p'. unfold idm_send.
      destruct (global_conn p') as [conn'|]; [|done].
      destruct (negb (connected conn')); [done|]. by rewrite Hbad. }
  intros Hwait Hne Hslot. apply invalid_header_iff in Hslot.
  split.
  { rewrite (idm_recv_unfold t p conn w w1) by done. cbn zeta. fold r.
    destruct (consumer r =? producer r) eqn:E; branch; [done|].
    by rewrite Hslot. }
  subst w2. rewrite get_ring_put_eq. split; [done|]. split; [done|]. split; [done|].
  split.
  { intros k Hk. by rewrite get_ring_put_ne. }
  intros t' w3 Hwait' Hne' Hvalid Hfits Hmalloc.
  rewrite (idm_recv_unfold t' p conn _ w3) by done. cbn zeta.
  rewrite (get_ring_shm _ w3) by (by eapply sem_wait_shm).
  rewrite get_ring_put_eq. cbn [consumer producer set_consumer].
  destruct (u32 (consumer r + 1) =? producer r) eqn:E; branch; [done|].
  rewrite get_entry_set_consumer. fold next. rewrite Hvalid, Hmalloc. cbn [negb].
  rewrite slot_size_fits by done. eauto.
Qed.

Lemma invalid_message_rejected_witness :
  idm_send bad_magic_message driver_proc poisoned_world = (- EINVAL, poisoned_world)
  ∧ ∃ w2, idm_recv 1000 driver_proc poisoned_world = Some (- EINVAL, None, driver_proc, w2)
          ∧ ∃ t' w4, idm_recv t' driver_proc w2
                     = Some (0, Some sync_request, driver_proc, w4).
Proof.
  destruct (sem_wait 1000 poisoned_world (rx_sem driver_conn)) as [w1| | |] eqn:Hwait;
    [|vm_compute in Hwait; discriminate..].
  assert (Hw1 : get_ring w1 (rx_key driver_conn) = poisoned_ring).
  { rewrite (get_ring_shm poisoned_world w1) by (by eapply sem_wait_shm).
    unfold poisoned_world. rewrite !get_ring_sem_post. apply get_ring_put_eq. }
  destruct (invalid_message_rejected bad_magic_message driver_proc driver_conn
              poisoned_world w1 1000) as (Hsend & Hrecv); [reflexivity|reflexivity|].
  rewrite Hw1 in Hrecv.
  destruct Hrecv as (Hrecv & _ & _ & _ & _ & Hnext);
    [exact Hwait | discriminate | left; discriminate |].
  split; [apply Hsend; left; discriminate|].
  eexists. split; [exact Hrecv|].
  destruct (sem_wait_acquire 0
              (put_ring w1 (rx_key driver_conn)
                 (set_consumer poisoned_ring (u32 (consumer poisoned_ring + 1))))
              (rx_sem driver_conn)) as (w3 & Hwait3 & _).
  { rewrite sem_value_put_ring.
    assert (Hval : sem_value w1 (rx_sem driver_conn) = 1%nat).
    { revert Hwait. unfold sem_wait.
      change (sem_value poisoned_world (rx_sem driver_conn)) with 2%nat.
      intros [= <-]. reflexivity. }
    rewrite Hval. constructor. }
  destruct (Hnext 0 w3 Hwait3) as (w4 & Hrecv2);
    [discriminate | reflexivity | discriminate | reflexivity |].
  exists 0, w4. exact Hrecv2.
Defined.

(** ** First in, first out *)

Lemma u32_mod_ring (z : Z) : u32 z mod IDM_RING_SIZE = z mod IDM_RING_SIZE.
Proof.
  unfold u32, IDM_RING_SIZE.
  apply Z.mod_mod_divide. exists (2 ^ 27). reflexivity.
Qed.

Lemma u32_add_l (a b : Z) : u32 (u32 a + b) = u32 (a + b).
Proof. unfold u32. apply Zplus_mod_idemp_l. Qed.

Lemma ring_slots_distinct (c i j : Z) :
  0 <= i < j → j < IDM_RING_SIZE →
  (c + i) mod IDM_RING_SIZE ≠ (c + j) mod IDM_RING_SIZE.
Proof.
  unfold IDM_RING_SIZE. intros Hi Hj Heq.
  pose proof (Z.div_mod (c + i) 32 ltac:(lia)).
  pose proof (Z.div_mod (c + j) 32 ltac:(lia)). lia.
Qed.

Lemma holds_queue_level (r : idm_ring) (q : list idm_message) :
  holds_queue r q → ring_level r = Z.of_nat (length q).
Proof.
  intros (Hc & _ & Hn & Hp & _). unfold ring_level. rewrite Hp.
  unfold u32 in *. rewrite Zminus_mod_idemp_l.
  replace (consumer r + Z.of_nat (length q) - consumer r) with (Z.of_nat (length q)) by lia.
  apply Z.mod_small. unfold IDM_RING_SIZE in Hn. lia.
Qed.

Lemma holds_queue_push (r : idm_ring) (q : list idm_message) (m : idm_message) :
  holds_queue r q → Z.of_nat (length q) < IDM_RING_SIZE → sendable m →
  holds_queue (set_producer (write_entry r (producer r mod IDM_RING_SIZE) m)
                            (u32 (producer r + 1)))
              (q ++ [m]).
Proof.
  intros (Hc & Hlen & Hn & Hp & Hq) Hlt (Hv & Hs & Hwf).
  assert (Hidx : producer r mod IDM_RING_SIZE
                 = (consumer r + Z.of_nat (length q)) mod IDM_RING_SIZE).
  { rewrite Hp. apply u32_mod_ring. }
  pose proof (ring_index_range (producer r)) as Hrange.
  unfold holds_queue. cbn [producer consumer entries set_producer write_entry].
  rewrite length_insert, length_app. cbn [length].
  split; [done|]. split; [done|]. split; [lia|]. split.
  { rewrite Hp, u32_add_l. f_equal. lia. }
  intros i m' Hi. rewrite get_entry_set_producer.
  destruct (decide (i < length q)%nat) as [Hin|Hout].
  - rewrite lookup_app_l in Hi by done.
    destruct (Hq i m' Hi) as (Hv' & Hs' & Hread). split; [done|]. split; [done|].
    rewrite get_entry_write_other; [done|lia| |].
    + apply Z.mod_pos_bound. unfold IDM_RING_SIZE. lia.
    + rewrite Hidx. apply ring_slots_distinct; lia.
  - rewrite lookup_app_r in Hi by lia.
    destruct (i - length q)%nat as [|k] eqn:Hk; [|done].
    injection Hi as <-. split; [done|]. split; [done|].
    assert (i = length q) as -> by lia. rewrite <- Hidx.
    rewrite get_entry_write_same.
    + by apply read_back.
    + rewrite Hlen. unfold IDM_RING_SIZE in *. lia.
Qed.

Lemma holds_queue_pop (r : idm_ring) (q : list idm_message) (m : idm_message) :
  holds_queue r (m :: q) →
  consumer r ≠ producer r
  ∧ idm_message_valid (slot_header (get_entry r (consumer r mod IDM_RING_SIZE))) = true
  ∧ read_entry (get_entry r (consumer r mod IDM_RING_SIZE)) = m
  ∧ holds_queue (set_consumer r (u32 (consumer r + 1))) q.
Proof.
  intros (Hc & Hlen & Hn & Hp & Hq). cbn [length] in Hn, Hp.
  destruct (Hq O m eq_refl) as (Hv & Hs & Hread).
  replace (consumer r + Z.of_nat 0) with (consumer r) in Hread by lia.
  split.
  { rewrite Hp. unfold u32, IDM_RING_SIZE in *. intros Heq.
    destruct (Z.lt_ge_cases (consumer r + Z.of_nat (S (length q))) (2 ^ 32)).
    - rewrite Z.mod_small in Heq by lia. lia.
    - replace (consumer r + Z.of_nat (S (length q)))
        with ((consumer r + Z.of_nat (S (length q)) - 2 ^ 32) + 1 * 2 ^ 32) in Heq by lia.
      rewrite Z.mod_add in Heq by lia.
      rewrite Z.mod_small in Heq by lia. lia. }
  split.
  { rewrite <- Hread in Hv. exact Hv. }
  split; [done|].
  unfold holds_queue. cbn [producer consumer entries set_consumer].
  split; [apply u32_range|]. split; [done|]. split; [lia|]. split.
  { rewrite Hp, u32_add_l. f_equal. lia. }
  intros i m' Hi. rewrite get_entry_set_consumer.
  destruct (Hq (S i) m' Hi) as (Hv' & Hs' & Hread'). split; [done|]. split; [done|].
  rewrite <- Hread'. f_equal. f_equal.
  rewrite <- (u32_mod_ring (u32 (consumer r + 1) + Z.of_nat i)), u32_add_l, u32_mod_ring.
  f_equal. lia.
Qed.

Lemma holds_queue_head_fits (r : idm_ring) (q : list idm_message) (m : idm_message) :
  holds_queue r (m :: q) →
  (idm_message_size (slot_header (get_entry r (consumer r mod IDM_RING_SIZE)))
   >? SIZEOF_RING_ENTRY) = false.
Proof.
  intros (_ & _ & _ & _ & Hq).
  destruct (Hq O m eq_refl) as (_ & Hs & Hread).
  rewrite Z.add_0_r in Hread. rewrite <- Hread in Hs. cbn [header read_entry] in Hs.
  lia.
Qed.

Lemma mallocs_ok_step (n : nat) (p : process) :
  mallocs_ok (S n) p →
  fst (malloc p) = true ∧ mallocs_ok n (snd (malloc p))
  ∧ global_conn (snd (malloc p)) = global_conn p.
Proof.
  intros Hok. unfold malloc. destruct (heap p) as [|b rest] eqn:E.
  - cbn [fst snd]. split; [done|]. split; [|done].
    intros i _. by rewrite E.
  - cbn [fst snd global_conn]. split.
    + specialize (Hok O ltac:(lia)). rewrite E in Hok. cbn in Hok.
      destruct b; [done|]. by destruct Hok.
    + split; [|done]. intros i Hi. specialize (Hok (S i) ltac:(lia)).
      by rewrite E in Hok.
Qed.

Lemma send_all_queue (ms q : list idm_message) (p : process) (conn : idm_connection)
    (w : world) :
  global_conn p = Some conn → connected conn = true →
  Forall sendable ms →
  holds_queue (get_ring w (tx_key conn)) q →
  Z.of_nat (length q) + Z.of_nat (length ms) <= IDM_RING_SIZE →
  fst (send_all ms p w) = replicate (length ms) 0
  ∧ holds_queue (get_ring (snd (send_all ms p w)) (tx_key conn)) (q ++ ms)
  ∧ sem_value (snd (send_all ms p w)) (tx_sem conn)
    = (sem_value w (tx_sem conn) + length ms)%nat.
Proof.
  intros Hc Hconn Hms. revert q w.
  induction Hms as [|m ms Hm Hms IH]; intros q w Hq Hroom.
  - cbn. rewrite app_nil_r. split; [done|]. split; [done|]. lia.
  - cbn [length] in Hroom. cbn [send_all].
    destruct Hm as (Hv & Hs & Hwf).
    rewrite (idm_send_unfold m p conn w) by done. cbn zeta.
    rewrite (holds_queue_level _ q) by done.
    destruct (Z.of_nat (length q) >=? IDM_RING_SIZE) eqn:E; branch; [lia|].
    set (w1 := sem_post _ _).
    assert (Hq1 : holds_queue (get_ring w1 (tx_key conn)) (q ++ [m])).
    { subst w1. rewrite get_ring_sem_post, get_ring_put_eq.
      apply holds_queue_push; [done|lia|done]. }
    destruct (IH (q ++ [m]) w1 Hq1) as (Hrets & Hqueue & Hsem).
    { rewrite length_app. cbn [length]. lia. }
    destruct (send_all ms p w1) as [rets w2]. cbn [fst snd length replicate] in *.
    split; [by rewrite Hrets|]. split.
    + by rewrite <- app_assoc in Hqueue.
    + rewrite Hsem. subst w1. rewrite sem_value_post, sem_value_put_ring. lia.
Qed.

Lemma recv_n_queue (ms q : list idm_message) (t : Z) (p : process)
    (conn : idm_connection) (w : world) :
  global_conn p = Some conn → connected conn = true →
  holds_queue (get_ring w (rx_key conn)) (ms ++ q) →
  (length ms ≤ sem_value w (rx_sem conn))%nat →
  mallocs_ok (length ms) p →
  ∃ p' w', recv_n (length ms) t p w = Some (map (λ m, (0, Some m)) ms, p', w').
Proof.
  revert p w. induction ms as [|m ms IH]; intros p w Hc Hconn Hq Hsem Hok.
  - cbn. eauto.
  - cbn [length] in *. cbn [recv_n].
    destruct (sem_wait_acquire t w (rx_sem conn)) as (w1 & Hwait & Hshm & Hval); [lia|].
    rewrite (idm_recv_unfold t p conn w w1) by done. cbn zeta.
    rewrite (get_ring_shm w w1) by done.
    set (r := get_ring w (rx_key conn)) in *.
    destruct (holds_queue_pop r (ms ++ q) m Hq) as (Hne & Hv & Hread & Hq').
    destruct (consumer r =? producer r) eqn:E; branch; [done|].
    destruct (mallocs_ok_step _ p Hok) as (Hm & Hok' & Hc').
    rewrite Hv, Hm, Hread, (holds_queue_head_fits r (ms ++ q) m) by done.
    cbn [negb mbind option_bind].
    set (w2 := put_ring w1 _ _).
    destruct (IH (snd (malloc p)) w2) as (p' & w' & Hrest).
    + by rewrite Hc'.
    + done.
    + subst w2. by rewrite get_ring_put_eq.
    + subst w2. rewrite sem_value_put_ring, Hval. lia.
    + done.
    + unfold mbind, option_bind in *. cbn in *. rewrite Hrest. cbn. eauto.
Qed.

(** C6 (as amended).  Let the sender and the receiver be the two ends
    of one direction (the receiver's remote zone is the sender's local
    zone and conversely).  If at most [IDM_RING_SIZE] messages, each
    valid, no larger than a ring slot and held in a buffer of its size,
    are sent with [idm_send] into a ring that is empty, every send
    returns 0, and as many calls of [idm_recv] on the receiving side,
    whose allocations succeed, each return 0 with a copy equal to the
    message sent, header and payload bytes, in the order of sending. *)
Theorem send_then_recv_fifo
    (ms : list idm_message) (sender receiver : process)
    (sconn rconn : idm_connection) (w : world) (t : Z) :
  global_conn sender = Some sconn → connected sconn = true →
  global_conn receiver = Some rconn → connected rconn = true →
  remote_zone_id rconn = local_zone_id sconn →
  local_zone_id rconn = remote_zone_id sconn →
  Forall sendable ms →
  Z.of_nat (length ms) <= IDM_RING_SIZE →
  ring_inv (get_ring w (tx_key sconn)) →
  consumer (get_ring w (tx_key sconn)) = producer (get_ring w (tx_key sconn)) →
  mallocs_ok (length ms) receiver →
  fst (send_all ms sender w) = replicate (length ms) 0
  ∧ ∃ p' w', recv_n (length ms) t receiver (snd (send_all ms sender w))
             = Some (map (λ m, (0, Some m)) ms, p', w').
Proof.
  intros Hs Hsc Hr Hrc Hzone1 Hzone2 Hms Hlen Hinv Hempty Hok.
  assert (Hkey : rx_key rconn = tx_key sconn) by (unfold rx_key, tx_key; by rewrite Hzone1).
  assert (Hsem : rx_sem rconn = tx_sem sconn) by (unfold rx_sem, tx_sem; done).
  assert (Hq0 : holds_queue (get_ring w (tx_key sconn)) []).
  { destruct Hinv as (Hp & Hc & Hl & _). unfold holds_queue. cbn [length].
    split; [done|]. split; [done|]. split; [unfold IDM_RING_SIZE; lia|]. split.
    - rewrite <- Hempty, Z.add_0_r. symmetry. by apply u32_small.
    - intros i m Hi. by rewrite lookup_nil in Hi. }
  destruct (send_all_queue ms [] sender sconn w Hs Hsc Hms Hq0) as (Hrets & Hq & Hsemv).
  { cbn [length]. lia. }
  split; [exact Hrets|].
  apply (recv_n_queue ms [] t receiver rconn); try done.
  - rewrite Hkey, app_nil_r. exact Hq.
  - rewrite Hsem, Hsemv. lia.
Qed.

(** C6, the claim as stated, fails: a message can be valid and still
    larger than a ring slot.  [idm_send] refuses it with [-EINVAL], and
    the [idm_recv] that follows returns [-EAGAIN] and no message. *)
Lemma valid_message_larger_than_slot :
  idm_message_valid (header oversized_message) = true
  ∧ msg_wf oversized_message
  ∧ fst (send_all [oversized_message] user_proc fresh_world) = [- EINVAL]
  ∧ ((λ r, r.1.1) <$> recv_n 1 1000 driver_proc
                        (snd (send_all [oversized_message] user_proc fresh_world)))
    = Some [(- EAGAIN, None)].
Proof.
  split; [reflexivity|]. split; [reflexivity|].
  split; vm_compute; reflexivity.
Qed.

Lemma send_then_recv_fifo_witness :
  fst (send_all [sync_request; sync_request] user_proc fresh_world) = [0; 0]
  ∧ ∃ p' w', recv_n 2 1000 driver_proc
               (snd (send_all [sync_request; sync_request] user_proc fresh_world))
             = Some ([(0, Some sync_request); (0, Some sync_request)], p', w').
Proof.
  apply (send_then_recv_fifo [sync_request; sync_request] user_proc driver_proc
           user_conn driver_conn fresh_world 1000).
  - reflexivity.
  - reflexivity.
  - reflexivity.
  - reflexivity.
  - reflexivity.
  - reflexivity.
  - repeat constructor; discriminate.
  - discriminate.
  - apply ring_inv_zero.
  - reflexivity.
  - intros i _. destruct i; discriminate.
Defined.

(** ** The handle table *)

Lemma hash_handle_range (h : Z) : 0 <= hash_handle h < HASH_TABLE_SIZE.
Proof.
  unfold hash_handle, HASH_TABLE_SIZE.
  pose proof (Z.mod_pos_bound h 1024 ltac:(lia)).
  rewrite u32_small; lia.
Qed.

Lemma get_chain_lookup (t : handle_table) (idx : Z) :
  (Z.to_nat idx < length (hash_table t))%nat →
  hash_table t !! Z.to_nat idx = Some (get_chain t idx).
Proof.
  intros Hlt. unfold get_chain.
  destruct (lookup_lt_is_Some_2 (hash_table t) (Z.to_nat idx) Hlt) as [c ->]. done.
Qed.

Lemma u64_add_sub (a b : Z) : 0 <= a < 2 ^ 64 → u64 (u64 (a + b) - b) = a.
Proof.
  intros Ha. unfold u64. rewrite Zminus_mod_idemp_l.
  replace (a + b - b) with a by lia. by apply Z.mod_small.
Qed.

(** With a non-null pointer, a successful allocation of the entry and a
    counter that has not wrapped to zero, [handle_table_insert] returns
    the (non-zero) value of the counter. *)
(** C8.  Let [handle_table_insert] be called with a non-null pointer
    [ptr] for zone [z].  It succeeds, that is returns a handle [h] other
    than 0, exactly when the entry is allocated and the handle counter
    is not 0; then [0 < h], and [handle_table_remove] of [h] by the same
    zone on the resulting table returns exactly [ptr]; after the pair
    the counters [total_handles] and [total_memory], and the chains of
    the table, are what they were before the insert. *)
Theorem insert_then_remove_restores
    (z ptr s : Z) (t : handle_table) (p : process)
    (h : Z) (t1 : handle_table) (p1 : process) :
  table_wf t → ptr ≠ 0 →
  handle_table_insert z ptr s t p = (h, t1, p1) →
  (h ≠ 0 ↔ fst (malloc p) = true ∧ next_handle t ≠ 0)
  ∧ (h ≠ 0 →
     0 < h
     ∧ fst (handle_table_remove z h t1) = ptr
     ∧ total_handles (snd (handle_table_remove z h t1)) = total_handles t
     ∧ total_memory (snd (handle_table_remove z h t1)) = total_memory t
     ∧ hash_table (snd (handle_table_remove z h t1)) = hash_table t).
Proof.
  intros (Hlen & Hnext & Hcount & Hmem) Hptr Hins.
  unfold handle_table_insert in Hins.
  destruct (ptr =? 0) eqn:E; branch; [done|].
  destruct (malloc p) as [ok p2].
  destruct ok; cbn [negb] in Hins; injection Hins as <- <- <-; cbn [fst entry_handle].
  2: { split; [|done]. split; [done|]. by intros [? _]. }
  split; [split; [done|by intros [_ ?]]|].
  intros Hh. split; [lia|].
  set (idx := hash_handle (next_handle t)).
  assert (Hidx : (Z.to_nat idx < length (hash_table t))%nat).
  { rewrite Hlen. pose proof (hash_handle_range (next_handle t)). subst idx. lia. }
  set (e := Build_handle_entry (next_handle t) z ptr s).
  set (t1 := Build_handle_table _ _ _ _).
  assert (Hchain : get_chain t1 idx = e :: get_chain t idx).
  { unfold get_chain at 1. subst t1. cbn [hash_table].
    by rewrite list_lookup_insert_eq. }
  assert (Hrem : handle_table_remove z (next_handle t) t1 =
            (ptr, {| hash_table := <[Z.to_nat idx := get_chain t idx]> (hash_table t1);
                     next_handle := next_handle t1;
                     total_handles := u64 (total_handles t1 - 1);
                     total_memory := u64 (total_memory t1 - s) |})).
  { unfold handle_table_remove. fold idx. rewrite Hchain.
    cbn [remove_chain]. subst e. cbn [entry_handle entry_zone_id].
    by rewrite !Z.eqb_refl. }
  rewrite Hrem. subst t1. cbn [fst snd hash_table total_handles total_memory].
  split; [done|]. split; [by apply u64_add_sub|]. split; [by apply u64_add_sub|].
  rewrite list_insert_insert_eq. apply list_insert_id. by apply get_chain_lookup.
Qed.

Lemma insert_then_remove_restores_witness :
  fst (fst (handle_table_insert 2 4096 1048576 handle_table_init driver_proc)) = 1
  ∧ fst (handle_table_remove 2 1
           (snd (fst (handle_table_insert 2 4096 1048576 handle_table_init driver_proc))))
    = 4096
  ∧ handle_table_stats (snd (handle_table_remove 2 1
           (snd (fst (handle_table_insert 2 4096 1048576 handle_table_init driver_proc)))))
    = handle_table_stats handle_table_init.
Proof.
  destruct (insert_then_remove_restores 2 4096 1048576 handle_table_init driver_proc
              1 (snd (fst (handle_table_insert 2 4096 1048576 handle_table_init driver_proc)))
              driver_proc) as (_ & Hpair).
  - repeat split; try reflexivity; discriminate.
  - discriminate.
  - reflexivity.
  - destruct Hpair as (_ & Hptr & Hcount & Hmem & _); [discriminate|].
    split; [reflexivity|]. split; [exact Hptr|].
    unfold handle_table_stats. by rewrite Hcount, Hmem.
Defined.

(** ** Handles a zone does not own *)

Lemma get_chain_live (t : handle_table) (idx : Z) (e : handle_entry) :
  e ∈ get_chain t idx → e ∈ live_entries t.
Proof.
  unfold get_chain, live_entries.
  destruct (hash_table t !! Z.to_nat idx) as [chain|] eqn:E.
  - intros Hin. apply list_elem_of_In, in_concat. exists chain.
    split; apply list_elem_of_In; [by eapply list_elem_of_lookup_2|done].
  - intros Hin. by apply not_elem_of_nil in Hin.
Qed.

Lemma lookup_chain_unowned (z h : Z) (chain : list handle_entry) :
  (∀ e, e ∈ chain → entry_handle e = h → entry_zone_id e ≠ z) →
  lookup_chain z h chain = (0, None).
Proof.
  induction chain as [|e chain IH]; intros Hun; [done|].
  cbn [lookup_chain].
  destruct (entry_handle e =? h) eqn:Eh; branch.
  - destruct (entry_zone_id e =? z) eqn:Ez; branch; [|done].
    exfalso. by apply (Hun e); [left|..].
  - apply IH. intros e' Hin. apply Hun. by right.
Qed.

Lemma remove_chain_unowned (z h : Z) (chain : list handle_entry) :
  (∀ e, e ∈ chain → entry_handle e = h → entry_zone_id e ≠ z) →
  remove_chain z h chain = (None, chain).
Proof.
  induction chain as [|e chain IH]; intros Hun; [done|].
  cbn [remove_chain].
  destruct (entry_handle e =? h) eqn:Eh; branch.
  - destruct (entry_zone_id e =? z) eqn:Ez; branch; [|done].
    exfalso. by apply (Hun e); [left|..].
  - rewrite IH; [done|]. intros e' Hin. apply Hun. by right.
Qed.

Lemma unowned_in_chain (t : handle_table) (z h idx : Z) :
  ¬ owns t z h →
  ∀ e, e ∈ get_chain t idx → entry_handle e = h → entry_zone_id e ≠ z.
Proof.
  intros Hun e Hin Hh Hz. apply Hun. exists e.
  split; [by eapply get_chain_live|done].
Qed.

Lemma handle_table_lookup_unowned (t : handle_table) (z h : Z) :
  ¬ owns t z h → handle_table_lookup z h t = (0, None).
Proof.
  intros Hun. apply lookup_chain_unowned. by apply unowned_in_chain.
Qed.

Lemma handle_table_remove_unowned (t : handle_table) (z h : Z) :
  ¬ owns t z h → handle_table_remove z h t = (0, t).
Proof.
  intros Hun. unfold handle_table_remove.
  rewrite remove_chain_unowned; [done|]. by apply unowned_in_chain.
Qed.

Lemma absent_not_owned (t : handle_table) (z h : Z) :
  handle_absent t h → ¬ owns t z h.
Proof. intros Habs (e & Hin & Hh & _). by apply (Habs e). Qed.

Lemma foreign_not_owned (t : handle_table) (z h : Z) :
  handle_foreign t z h → ¬ owns t z h.
Proof. intros [_ Hfor] (e & Hin & Hh & Hz). by apply (Hfor e). Qed.

(** A scan of the table that decides ownership. *)
Lemma not_owned_by_scan (t : handle_table) (z h : Z) :
  forallb (λ e, negb ((entry_handle e =? h) && (entry_zone_id e =? z)))
          (live_entries t) = true →
  ¬ owns t z h.
Proof.
  intros Hscan (e & Hin & Hh & Hz).
  rewrite forallb_forall in Hscan.
  specialize (Hscan e (proj1 (list_elem_of_In _ _) Hin)).
  rewrite Hh, Hz, !Z.eqb_refl in Hscan. discriminate.
Qed.

Section HandlerFacts.
Context {dev : Type} `{CudaDriver dev}.

Lemma send_response_error_frame (z seq code cuda : Z) (text : string)
    (st : driver_state dev) :
  table (snd (send_response_error z seq code cuda text st)) = table st
  ∧ device (snd (send_response_error z seq code cuda text st)) = device st
  ∧ calls (snd (send_response_error z seq code cuda text st)) = calls st.
Proof.
  unfold send_response_error.
  destruct (idm_build_message _ _ _ _ _) as [[m|] p1]; [|done].
  by destruct (idm_send m p1 (shared st)).
Qed.

Lemma send_response_ok_frame (z seq handle : Z) (data : option (list byte))
    (len : Z) (st : driver_state dev) :
  table (snd (send_response_ok z seq handle data len st)) = table st
  ∧ device (snd (send_response_ok z seq handle data len st)) = device st
  ∧ calls (snd (send_response_ok z seq handle data len st)) = calls st.
Proof.
  unfold send_response_ok.
  destruct (idm_build_message _ _ _ _ _) as [[m|] p1]; [|done].
  by destruct (idm_send m p1 (shared st)).
Qed.

(** What a response does to the process and to the shared memory depends
    on these two alone. *)
Lemma send_response_error_io (z seq code cuda : Z) (text : string)
    (st1 st2 : driver_state dev) :
  proc st1 = proc st2 → shared st1 = shared st2 →
  fst (send_response_error z seq code cuda text st1)
    = fst (send_response_error z seq code cuda text st2)
  ∧ proc (snd (send_response_error z seq code cuda text st1))
    = proc (snd (send_response_error z seq code cuda text st2))
  ∧ shared (snd (send_response_error z seq code cuda text st1))
    = shared (snd (send_response_error z seq code cuda text st2)).
Proof.
  intros Hp Hw. unfold send_response_error. rewrite Hp, Hw.
  destruct (idm_build_message _ _ _ _ _) as [[m|] p1]; [|done].
  by destruct (idm_send m p1 (shared st2)).
Qed.

Lemma send_response_ok_io (z seq handle : Z) (data1 data2 : option (list byte))
    (len : Z) (st1 st2 : driver_state dev) :
  proc st1 = proc st2 → shared st1 = shared st2 →
  fst (send_response_ok z seq handle data1 len st1)
    = fst (send_response_ok z seq handle data2 len st2)
  ∧ proc (snd (send_response_ok z seq handle data1 len st1))
    = proc (snd (send_response_ok z seq handle data2 len st2))
  ∧ shared (snd (send_response_ok z seq handle data1 len st1))
    = shared (snd (send_response_ok z seq handle data2 len st2)).
Proof.
  intros Hp Hw. unfold send_response_ok. rewrite Hp, Hw.
  destruct (idm_build_message _ _ _ _ _) as [[m|] p1]; [|done].
  by destruct (idm_send m p1 (shared st2)).
Qed.

Lemma length_strncpy_zeroed (cap n : nat) (src : string) :
  (n ≤ cap)%nat → length (strncpy_zeroed cap n src) = cap.
Proof.
  intros Hn. unfold strncpy_zeroed.
  rewrite length_app, length_replicate, length_take. lia.
Qed.

(** With a connection that is up, an allocation that succeeds and room
    in the ring, the error response lands in the slot at the producer
    index, and the fields a receiver reads from it are the request
    sequence number and the error code passed in. *)
Lemma send_response_error_on_ring (z seq code cuda : Z) (text : string)
    (st : driver_state dev) (conn : idm_connection) :
  global_conn (proc st) = Some conn → connected conn = true →
  fst (malloc (proc st)) = true →
  length (entries (get_ring (shared st) (tx_key conn))) = Z.to_nat IDM_RING_SIZE →
  ring_level (get_ring (shared st) (tx_key conn)) < IDM_RING_SIZE →
  let r := get_ring (shared st) (tx_key conn) in
  let st' := snd (send_response_error z seq code cuda text st) in
  let resp := read_entry (get_entry (get_ring (shared st') (tx_key conn))
                            (producer r mod IDM_RING_SIZE)) in
  fst (send_response_error z seq code cuda text st) = 0
  ∧ msg_type (header resp) = IDM_RESPONSE_ERROR
  ∧ dst_zone (header resp) = z
  ∧ payload_len (header resp) = SIZEOF_RESPONSE_ERROR
  ∧ read_le 0 8 (payload resp) = Some (u64 seq)
  ∧ read_le 8 4 (payload resp) = Some (u32 code).
Proof.
  intros Hc Hconn Hm Hlen Hroom r st' resp. subst st' resp.
  unfold send_response_error, idm_build_message. rewrite Hc.
  destruct (malloc (proc st)) as [ok p1] eqn:Emalloc. cbn [fst] in Hm. subst ok.
  cbn [negb].
  set (body := encode_response_error _).
  assert (Hbody : length body = Z.to_nat SIZEOF_RESPONSE_ERROR).
  { subst body. unfold encode_response_error. cbn [err_request_seq err_error_code
      err_cuda_error err_error_msg].
    rewrite !length_app, !length_encode_le, length_strncpy_zeroed by lia. done. }
  change (SIZEOF_RESPONSE_ERROR >? 0) with true. cbn iota.
  rewrite take_ge by lia.
  set (m := Build_idm_message _ _).
  set (conn' := Build_idm_connection _ _ _ _ _).
  assert (Hsend := idm_send_ring_parts m (set_conn p1 conn') conn' (shared st)).
  change (tx_key conn') with (tx_key conn) in Hsend. change (tx_sem conn') with (tx_sem conn) in Hsend.
  fold r in Hsend, Hlen, Hroom.
  destruct Hsend as (Hret & Hslot); [done|done|done|done|done|done| |].
  { unfold msg_wf. subst m. cbn [payload header payload_len]. by rewrite Hbody. }
  destruct (idm_send m (set_conn p1 conn') (shared st)) as [ret w1].
  cbn [fst snd] in Hret, Hslot. cbn [fst snd shared with_io].
  rewrite Hslot. split; [done|]. subst m. cbn [header payload msg_type dst_zone payload_len].
  split; [done|]. split; [done|]. split; [done|].
  destruct (read_response_error_fields
              {| err_request_seq := seq; err_error_code := u32 code;
                 err_cuda_error := u32 cuda;
                 err_error_msg := strncpy_zeroed 256 255 text |}) as [Hq Hcode].
  cbn [err_request_seq err_error_code] in Hq, Hcode.
  split; [exact Hq|]. subst body. rewrite Hcode. f_equal.
  unfold u32. apply Z.mod_mod. lia.
Qed.

(** Likewise for the success response: its payload is the fixed struct,
    [SIZEOF_RESPONSE_OK] bytes, and nothing else. *)
Lemma send_response_ok_on_ring (z seq handle : Z) (data : option (list byte))
    (len : Z) (st : driver_state dev) (conn : idm_connection) :
  global_conn (proc st) = Some conn → connected conn = true →
  fst (malloc (proc st)) = true →
  length (entries (get_ring (shared st) (tx_key conn))) = Z.to_nat IDM_RING_SIZE →
  ring_level (get_ring (shared st) (tx_key conn)) < IDM_RING_SIZE →
  let r := get_ring (shared st) (tx_key conn) in
  let st' := snd (send_response_ok z seq handle data len st) in
  let resp := read_entry (get_entry (get_ring (shared st') (tx_key conn))
                            (producer r mod IDM_RING_SIZE)) in
  fst (send_response_ok z seq handle data len st) = 0
  ∧ msg_type (header resp) = IDM_RESPONSE_OK
  ∧ dst_zone (header resp) = z
  ∧ payload_len (header resp) = SIZEOF_RESPONSE_OK
  ∧ payload resp = encode_response_ok
                     {| ok_request_seq := seq; ok_result_handle := handle;
                        ok_result_value := 0; ok_data_len := u32 len |}.
Proof.
  intros Hc Hconn Hm Hlen Hroom r st' resp. subst st' resp.
  unfold send_response_ok, idm_build_message. rewrite Hc.
  destruct (malloc (proc st)) as [ok p1] eqn:Emalloc. cbn [fst] in Hm. subst ok.
  cbn [negb].
  set (body := encode_response_ok _).
  assert (Hbody : length body = Z.to_nat SIZEOF_RESPONSE_OK)
    by apply read_response_ok_fields.
  change (SIZEOF_RESPONSE_OK >? 0) with true. cbn iota.
  rewrite take_ge by lia.
  set (m := Build_idm_message _ _).
  set (conn' := Build_idm_connection _ _ _ _ _).
  assert (Hsend := idm_send_ring_parts m (set_conn p1 conn') conn' (shared st)).
  change (tx_key conn') with (tx_key conn) in Hsend.
  fold r in Hsend, Hlen, Hroom.
  destruct Hsend as (Hret & Hslot); [done|done|done|done|done|done| |].
  { unfold msg_wf. subst m. cbn [payload header payload_len]. by rewrite Hbody. }
  destruct (idm_send m (set_conn p1 conn') (shared st)) as [ret w1].
  cbn [fst snd] in Hret, Hslot. cbn [fst snd shared with_io].
  rewrite Hslot. done.
Qed.

Lemma with_table_same (st : driver_state dev) : with_table st (table st) = st.
Proof. by destruct st. Qed.

(** C1.  Let zone [z] not own handle [h] in either of two tables, be it
    that [h] is absent or that it belongs to another zone, and let the
    two daemon states agree on the process and on the shared memory.
    Then in both states [handle_table_lookup] and [handle_table_remove]
    return NULL and leave the table as it was; on a FREE, COPY_H2D or
    COPY_D2H request of [z] for [h] each handler answers with
    [send_response_error] carrying [IDM_ERROR_INVALID_HANDLE], calls
    nothing of the driver and keeps the table; the return value, the
    process and the shared memory after the response are the same in
    the two states; and where the response is sent (connection up,
    allocation succeeding, room in the ring) the slot written holds a
    RESPONSE_ERROR whose error code reads [IDM_ERROR_INVALID_HANDLE]. *)
Theorem unowned_handle_indistinguishable
    (z h : Z) (m : idm_message) (st1 st2 : driver_state dev) :
  ¬ owns (table st1) z h → ¬ owns (table st2) z h →
  proc st1 = proc st2 → shared st1 = shared st2 →
  src_zone (header m) = z → read_le 0 8 (payload m) = Some h →
  let seq := seq_num (header m) in
  let deny text st := send_response_error z seq IDM_ERROR_INVALID_HANDLE 0 text st in
  (∀ st, st = st1 ∨ st = st2 →
     handle_table_lookup z h (table st) = (0, None)
     ∧ handle_table_remove z h (table st) = (0, table st)
     ∧ handle_gpu_free m st
       = Some (snd (deny "Invalid handle or permission denied"%string st))
     ∧ (is_Some (read_le 8 8 (payload m)) → is_Some (read_le 16 8 (payload m)) →
          handle_gpu_copy_h2d m st = Some (snd (deny "Invalid handle"%string st))
          ∧ handle_gpu_copy_d2h m st = Some (snd (deny "Invalid handle"%string st)))
     ∧ ∀ text, table (snd (deny text st)) = table st
               ∧ device (snd (deny text st)) = device st
               ∧ calls (snd (deny text st)) = calls st)
  ∧ (∀ text, fst (deny text st1) = fst (deny text st2)
             ∧ proc (snd (deny text st1)) = proc (snd (deny text st2))
             ∧ shared (snd (deny text st1)) = shared (snd (deny text st2)))
  ∧ (∀ text st conn, st = st1 ∨ st = st2 →
       global_conn (proc st) = Some conn → connected conn = true →
       fst (malloc (proc st)) = true →
       length (entries (get_ring (shared st) (tx_key conn))) = Z.to_nat IDM_RING_SIZE →
       ring_level (get_ring (shared st) (tx_key conn)) < IDM_RING_SIZE →
       let resp := read_entry (get_entry (get_ring (shared (snd (deny text st)))
                                                   (tx_key conn))
                     (producer (get_ring (shared st) (tx_key conn)) mod IDM_RING_SIZE)) in
       msg_type (header resp) = IDM_RESPONSE_ERROR
       ∧ read_le 0 8 (payload resp) = Some (u64 seq)
       ∧ read_le 8 4 (payload resp) = Some IDM_ERROR_INVALID_HANDLE).
Proof.
  intros Hun1 Hun2 Hp Hw Hz Hh seq deny. split; [|split]; [| |shelve].
  - intros st Hst.
    assert (Hun : ¬ owns (table st) z h) by (by destruct Hst as [->| ->]).
    pose proof (handle_table_lookup_unowned _ _ _ Hun) as Hlook.
    pose proof (handle_table_remove_unowned _ _ _ Hun) as Hrem.
    split; [done|]. split; [done|]. split; [|split].
    + unfold handle_gpu_free. rewrite Hh. cbn [mbind option_bind].
      rewrite Hz, Hrem, with_table_same. done.
    + intros [o Ho] [s Hs]. split.
      * unfold handle_gpu_copy_h2d. rewrite Hh, Ho, Hs. cbn [mbind option_bind].
        rewrite Hz, Hlook. done.
      * unfold handle_gpu_copy_d2h. rewrite Hh, Ho, Hs. cbn [mbind option_bind].
        rewrite Hz, Hlook. done.
    + intros text. apply send_response_error_frame.
  - intros text. by apply send_response_error_io.
  Unshelve.
  intros text st conn _ Hc Hconn Hm Hlen Hroom resp.
  destruct (send_response_error_on_ring z seq IDM_ERROR_INVALID_HANDLE 0 text st conn)
    as (_ & Htype & _ & _ & Hseq & Hcode); done.
Qed.

End HandlerFacts.

Lemma unowned_handle_indistinguishable_witness :
  handle_gpu_free foreign_free (daemon_state handle_table_init fresh_world)
    = Some (snd (send_response_error 3 5 IDM_ERROR_INVALID_HANDLE 0
                   "Invalid handle or permission denied"
                   (daemon_state handle_table_init fresh_world)))
  ∧ handle_gpu_free foreign_free (daemon_state one_alloc_table fresh_world)
    = Some (snd (send_response_error 3 5 IDM_ERROR_INVALID_HANDLE 0
                   "Invalid handle or permission denied"
                   (daemon_state one_alloc_table fresh_world)))
  ∧ shared (snd (send_response_error 3 5 IDM_ERROR_INVALID_HANDLE 0
                   "Invalid handle or permission denied"
                   (daemon_state handle_table_init fresh_world)))
    = shared (snd (send_response_error 3 5 IDM_ERROR_INVALID_HANDLE 0
                   "Invalid handle or permission denied"
                   (daemon_state one_alloc_table fresh_world)))
  ∧ read_le 8 4 (payload (first_response
                   (snd (send_response_error 3 5 IDM_ERROR_INVALID_HANDLE 0
                           "Invalid handle or permission denied"
                           (daemon_state one_alloc_table fresh_world)))))
    = Some IDM_ERROR_INVALID_HANDLE.
Proof.
  destruct (unowned_handle_indistinguishable 3 1 foreign_free
              (daemon_state handle_table_init fresh_world)
              (daemon_state one_alloc_table fresh_world)) as (Heach & Hsame & Hwire).
  - apply not_owned_by_scan. vm_compute. reflexivity.
  - apply not_owned_by_scan. vm_compute. reflexivity.
  - reflexivity.
  - reflexivity.
  - reflexivity.
  - reflexivity.
  - split; [apply (Heach _ (or_introl eq_refl))|].
    split; [apply (Heach _ (or_intror eq_refl))|].
    split; [apply (Hsame "Invalid handle or permission denied"%string)|].
    apply (Hwire "Invalid handle or permission denied"%string
             (daemon_state one_alloc_table fresh_world) driver_conn);
      [by right | reflexivity | reflexivity | reflexivity | reflexivity | reflexivity].
Defined.

(** ** FREE when the driver fails *)

Lemma remove_chain_found (z h : Z) (chain chain' : list handle_entry) (e : handle_entry) :
  remove_chain z h chain = (Some e, chain') →
  e ∈ chain ∧ entry_handle e = h ∧ entry_zone_id e = z
  ∧ (NoDup (entry_handle <$> chain) → ∀ e', e' ∈ chain' → entry_handle e' ≠ h).
Proof.
  revert chain'. induction chain as [|e0 chain IH]; intros chain' Hrem; [done|].
  cbn [remove_chain] in Hrem.
  destruct (entry_handle e0 =? h) eqn:Eh; branch.
  - destruct (entry_zone_id e0 =? z) eqn:Ez; branch; [|done].
    injection Hrem as <- <-. split; [by left|]. split; [done|]. split; [done|].
    intros Hnd e' Hin Hh. rewrite fmap_cons in Hnd. apply NoDup_cons in Hnd.
    destruct Hnd as [Hnotin _]. apply Hnotin.
    rewrite Eh, <- Hh. by apply list_elem_of_fmap_2.
  - destruct (remove_chain z h chain) as [found next'] eqn:Erec.
    injection Hrem as -> <-.
    destruct (IH next' eq_refl) as (Hin & Hh & Hz & Hgone).
    split; [by right|]. split; [done|]. split; [done|].
    intros Hnd e' Hin' Hh'. rewrite fmap_cons in Hnd. apply NoDup_cons in Hnd.
    destruct Hnd as [_ Hnd]. apply elem_of_cons in Hin' as [->|Hin'].
    + done.
    + by apply (Hgone Hnd e').
Qed.


Section FreeFailure.
Context {dev : Type} `{CudaDriver dev}.


End FreeFailure.


(** ** Bounds of the copies *)

Lemma decode_le_range (bs : list byte) :
  0 <= decode_le bs < 2 ^ (8 * Z.of_nat (length bs)).
Proof.
  induction bs as [|b bs IH]; [cbn; lia|].
  cbn [decode_le length]. pose proof (Z_of_byte_range b).
  replace (8 * Z.of_nat (S (length bs))) with (8 + 8 * Z.of_nat (length bs)) by lia.
  rewrite Z.pow_add_r by lia. change (2 ^ 8) with 256. nia.
Qed.

Lemma read_le_range (off n : nat) (buf : list byte) (v : Z) :
  read_le off n buf = Some v → 0 <= v < 2 ^ (8 * Z.of_nat n).
Proof.
  unfold read_le. destruct (decide _) as [Hlen|]; [|done].
  intros [= <-]. pose proof (decode_le_range (take n (drop off buf))) as Hr.
  by rewrite Hlen in Hr.
Qed.

Section CopyBounds.
Context {dev : Type} `{CudaDriver dev}.

(** The bounds check of [handle_gpu_copy_h2d] compares the 64-bit sum
    of offset and size with the size of the allocation. *)
Lemma handle_gpu_copy_h2d_bounds
    (m : idm_message) (st : driver_state dev) (h off size ptr asize : Z) :
  read_le 0 8 (payload m) = Some h →
  read_le 8 8 (payload m) = Some off →
  read_le 16 8 (payload m) = Some size →
  handle_table_lookup (src_zone (header m)) h (table st) = (ptr, Some asize) →
  ptr ≠ 0 →
  let z := src_zone (header m) in
  let seq := seq_num (header m) in
  let dst := u64 (ptr + off) in
  let src := take (Z.to_nat size) (drop (Z.to_nat SIZEOF_GPU_COPY_H2D) (payload m)) in
  (u64 (off + size) > asize →
     handle_gpu_copy_h2d m st
     = Some (snd (send_response_error z seq IDM_ERROR_INVALID_SIZE 0 "Out of bounds" st)))
  ∧ (u64 (off + size) <= asize →
     size <= Z.of_nat (length (drop (Z.to_nat SIZEOF_GPU_COPY_H2D) (payload m))) →
     ∃ st', handle_gpu_copy_h2d m st = Some st'
            ∧ calls st' = calls st ++ [CallMemcpyHtoD dst src size]
            ∧ length src = Z.to_nat size)
  ∧ (off + size < 2 ^ 64 → u64 (off + size) = off + size).
Proof.
  intros Hh Ho Hs Hlook Hptr z seq dst src.
  pose proof (read_le_range _ _ _ _ Ho) as Hor.
  pose proof (read_le_range _ _ _ _ Hs) as Hsr.
  change (2 ^ (8 * Z.of_nat 8)) with (2 ^ 64) in *.
  split; [|split].
  - intros Hbig. unfold handle_gpu_copy_h2d. rewrite Hh, Ho, Hs.
    cbn [mbind option_bind]. rewrite Hlook.
    destruct (ptr =? 0) eqn:E; branch; [done|].
    destruct (u64 (off + size) >? asize) eqn:E'; branch; [done|lia].
  - intros Hfit Hdata. unfold handle_gpu_copy_h2d. rewrite Hh, Ho, Hs.
    cbn [mbind option_bind]. rewrite Hlook.
    destruct (ptr =? 0) eqn:E; branch; [done|].
    destruct (u64 (off + size) >? asize) eqn:E'; branch; [lia|].
    destruct (_ <? size) eqn:E''; branch; [lia|].
    fold dst src. destruct (cuMemcpyHtoD dst src size (device st)) as [res d1].
    destruct (negb (res =? CUDA_SUCCESS)); eexists; (split; [done|]).
    + rewrite (proj2 (proj2 (send_response_error_frame _ _ _ _ _ _))).
      split; [done|]. subst src. rewrite length_take. lia.
    + rewrite (proj2 (proj2 (send_response_ok_frame _ _ _ _ _ _))).
      split; [done|]. subst src. rewrite length_take. lia.
  - intros Hno. apply u64_small. lia.
Qed.

(** The same check in [handle_gpu_copy_d2h], and what the handler does
    when the check passes, the staging buffer is allocated and the
    driver copies: it calls [cuMemcpyDtoH] for [size] bytes at
    [ptr + off] and answers with [send_response_ok] without data. *)
Lemma handle_gpu_copy_d2h_bounds
    (m : idm_message) (st : driver_state dev) (h off size ptr asize : Z) :
  read_le 0 8 (payload m) = Some h →
  read_le 8 8 (payload m) = Some off →
  read_le 16 8 (payload m) = Some size →
  handle_table_lookup (src_zone (header m)) h (table st) = (ptr, Some asize) →
  ptr ≠ 0 →
  let z := src_zone (header m) in
  let seq := seq_num (header m) in
  let src := u64 (ptr + off) in
  (u64 (off + size) > asize →
     handle_gpu_copy_d2h m st
     = Some (snd (send_response_error z seq IDM_ERROR_INVALID_SIZE 0 "Out of bounds" st)))
  ∧ (u64 (off + size) <= asize →
     ∀ p1 data d1,
       malloc (proc st) = (true, p1) →
       cuMemcpyDtoH src size (device st) = (CUDA_SUCCESS, data, d1) →
       handle_gpu_copy_d2h m st
       = Some (snd (send_response_ok z seq 0 None 0
                      (with_device (with_proc st p1) d1 (CallMemcpyDtoH src size)))))
  ∧ (off + size < 2 ^ 64 → u64 (off + size) = off + size).
Proof.
  intros Hh Ho Hs Hlook Hptr z seq src.
  pose proof (read_le_range _ _ _ _ Ho) as Hor.
  pose proof (read_le_range _ _ _ _ Hs) as Hsr.
  change (2 ^ (8 * Z.of_nat 8)) with (2 ^ 64) in *.
  split; [|split].
  - intros Hbig. unfold handle_gpu_copy_d2h. rewrite Hh, Ho, Hs.
    cbn [mbind option_bind]. rewrite Hlook.
    destruct (ptr =? 0) eqn:E; branch; [done|].
    destruct (u64 (off + size) >? asize) eqn:E'; branch; [done|lia].
  - intros Hfit p1 data d1 Hm Hcopy. unfold handle_gpu_copy_d2h. rewrite Hh, Ho, Hs.
    cbn [mbind option_bind]. rewrite Hlook.
    destruct (ptr =? 0) eqn:E; branch; [done|].
    destruct (u64 (off + size) >? asize) eqn:E'; branch; [lia|].
    rewrite Hm. cbn [negb]. fold src.
    change (device (with_proc st p1)) with (device st). rewrite Hcopy. done.
  - intros Hno. apply u64_small. lia.
Qed.

End CopyBounds.

(** C2, at the failing input.  Zone 2 owns handle 1, an allocation of
    1024 bytes at address 4096.  A COPY_H2D of 16 bytes to offset
    2^64 - 8 has offset + size far above 1024, yet the handler makes the
    driver copy the 16 bytes to address 4088 and answers RESPONSE_OK;
    likewise a COPY_D2H of 16 bytes from that offset makes the driver
    read 16 bytes at 4088 and is answered RESPONSE_OK. *)
Theorem copy_bounds_check_wraps :
  let st := daemon_state one_alloc_table fresh_world in
  handle_table_lookup 2 1 (table st) = (4096, Some 1024)
  ∧ (2 ^ 64 - 8) + 16 > 1024
  ∧ (calls <$> handle_gpu_copy_h2d wrapping_h2d st)
    = Some [CallMemcpyHtoD 4088 (replicate 16 x01) 16]
  ∧ ((λ st', msg_type (header (first_response st'))) <$> handle_gpu_copy_h2d wrapping_h2d st)
    = Some IDM_RESPONSE_OK
  ∧ (calls <$> handle_gpu_copy_d2h wrapping_d2h st) = Some [CallMemcpyDtoH 4088 16]
  ∧ ((λ st', msg_type (header (first_response st'))) <$> handle_gpu_copy_d2h wrapping_d2h st)
    = Some IDM_RESPONSE_OK.
Proof.
  cbn zeta. split; [reflexivity|]. split; [reflexivity|].
  split; [vm_compute; reflexivity|]. split; [vm_compute; reflexivity|].
  split; vm_compute; reflexivity.
Qed.

(** C3, at the failing input.  Zone 2 reads four bytes of its
    allocation; the driver delivers them, and the RESPONSE_OK written to
    the ring has a payload of [SIZEOF_RESPONSE_OK] bytes, the fixed
    struct with [data_len] 0, and no byte after it. *)
Theorem d2h_response_carries_no_data :
  let st := daemon_state one_alloc_table fresh_world in
  cuMemcpyDtoH 4096 4 (device st) = (CUDA_SUCCESS, [x2a; x2a; x2a; x2a], device st)
  ∧ (calls <$> handle_gpu_copy_d2h small_d2h st) = Some [CallMemcpyDtoH 4096 4]
  ∧ ((λ st', msg_type (header (first_response st'))) <$> handle_gpu_copy_d2h small_d2h st)
    = Some IDM_RESPONSE_OK
  ∧ ((λ st', payload (first_response st')) <$> handle_gpu_copy_d2h small_d2h st)
    = Some (encode_response_ok {| ok_request_seq := 10; ok_result_handle := 0;
                                  ok_result_value := 0; ok_data_len := 0 |})
  ∧ ((λ st', payload_len (header (first_response st'))) <$> handle_gpu_copy_d2h small_d2h st)
    = Some SIZEOF_RESPONSE_OK.
Proof.
  cbn zeta. split; [vm_compute; reflexivity|]. split; [vm_compute; reflexivity|].
  split; [vm_compute; reflexivity|]. split; vm_compute; reflexivity.
Qed.

(** ** The correlator of libvgpu *)

Section CorrelatorFacts.
Variable peer : nat → world → world.

(** C4 (as amended).  When an iteration of the loop of [send_and_wait]
    receives a RESPONSE_ERROR whose [request_seq] is that of the
    outstanding request, the call returns at once, with
    [CUDA_ERROR_OUT_OF_MEMORY] for the remote code
    [IDM_ERROR_OUT_OF_MEMORY], [CUDA_ERROR_INVALID_HANDLE] for
    [IDM_ERROR_INVALID_HANDLE], and [CUDA_ERROR_INVALID_VALUE] for every
    other code, [IDM_ERROR_PERMISSION_DENIED] included. *)
Theorem remote_error_translation
    (left i : nat) (req_seq : Z) (want_handle : bool) (u : libvgpu.user_state)
    (resp : idm_message) (p1 : process) (w1 : world) (code : Z) :
  idm_recv 1000 (libvgpu.uproc u) (peer i (libvgpu.ushared u))
    = Some (0, Some resp, p1, w1) →
  msg_type (header resp) = IDM_RESPONSE_ERROR →
  read_le 0 8 (payload resp) = Some req_seq →
  read_le 8 4 (payload resp) = Some code →
  ∃ result,
    libvgpu.wait_loop peer (S left) i req_seq want_handle u
      = Some (result, None, libvgpu.with_uio u p1 w1)
    ∧ (code = IDM_ERROR_OUT_OF_MEMORY → result = libvgpu.CUDA_ERROR_OUT_OF_MEMORY)
    ∧ (code = IDM_ERROR_INVALID_HANDLE → result = libvgpu.CUDA_ERROR_INVALID_HANDLE)
    ∧ (code ≠ IDM_ERROR_OUT_OF_MEMORY → code ≠ IDM_ERROR_INVALID_HANDLE →
       result = libvgpu.CUDA_ERROR_INVALID_VALUE)
    ∧ (code = IDM_ERROR_PERMISSION_DENIED → result = libvgpu.CUDA_ERROR_INVALID_VALUE).
Proof.
  intros Hrecv Htype Hseq Hcode.
  assert (Hverdict : ∃ result,
    libvgpu.on_response req_seq want_handle resp = Some (Some (result, None))
    ∧ (code = IDM_ERROR_OUT_OF_MEMORY → result = libvgpu.CUDA_ERROR_OUT_OF_MEMORY)
    ∧ (code = IDM_ERROR_INVALID_HANDLE → result = libvgpu.CUDA_ERROR_INVALID_HANDLE)
    ∧ (code ≠ IDM_ERROR_OUT_OF_MEMORY → code ≠ IDM_ERROR_INVALID_HANDLE →
       result = libvgpu.CUDA_ERROR_INVALID_VALUE)
    ∧ (code = IDM_ERROR_PERMISSION_DENIED → result = libvgpu.CUDA_ERROR_INVALID_VALUE)).
  { unfold libvgpu.on_response. rewrite Htype.
    change (IDM_RESPONSE_ERROR =? IDM_RESPONSE_OK) with false.
    rewrite Z.eqb_refl, Hseq. cbn [mbind option_bind].
    rewrite Z.eqb_refl, Hcode. cbn [mbind option_bind].
    destruct (code =? IDM_ERROR_OUT_OF_MEMORY) eqn:E1; branch.
    - eexists. split; [done|]. subst code. repeat split; done.
    - destruct (code =? IDM_ERROR_INVALID_HANDLE) eqn:E2; branch.
      + eexists. split; [done|]. subst code. repeat split; done.
      + eexists. split; [done|]. repeat split; done. }
  destruct Hverdict as (result & Hv & Hmap). exists result. split; [|exact Hmap].
  cbn [libvgpu.wait_loop]. rewrite Hrecv. cbn [mbind option_bind].
  change (0 <? 0) with false. cbn iota. rewrite Hv. done.
Qed.

(** C10.  A call of [cuMemcpyDtoH] of libvgpu that returns
    [CUDA_SUCCESS] had a non-null destination and leaves [ByteCount] zero
    bytes at its start, whatever the peer did.  On the daemon's side,
    two successful COPY_D2H requests that differ only in the device (and
    so in the bytes staged) leave the same process and the same shared
    memory: the response is [send_response_ok] with no data and length
    0, built after the staging buffer is gone, and the payload written
    to the ring is the fixed RESPONSE_OK struct with [data_len] 0 and
    nothing after it. *)
Theorem d2h_yields_zeros_and_drops_staged_bytes
    {dev : Type} `{CudaDriver dev}
    (dstHost buf' : option (list byte)) (srcDevice ByteCount : Z)
    (u u' : libvgpu.user_state)
    (m : idm_message) (st1 st2 : driver_state dev)
    (h off size ptr asize : Z) (p1 : process) (data1 data2 : list byte) (d1 d2 : dev) :
  (libvgpu.cuMemcpyDtoH peer dstHost srcDevice ByteCount u
     = Some (libvgpu.CUDA_SUCCESS, buf', u') →
   ∃ dst, dstHost = Some dst
          ∧ buf' = Some (replicate (Z.to_nat ByteCount) x00
                         ++ drop (Z.to_nat ByteCount) dst))
  ∧ (table st1 = table st2 → proc st1 = proc st2 → shared st1 = shared st2 →
     read_le 0 8 (payload m) = Some h →
     read_le 8 8 (payload m) = Some off →
     read_le 16 8 (payload m) = Some size →
     handle_table_lookup (src_zone (header m)) h (table st1) = (ptr, Some asize) →
     ptr ≠ 0 → u64 (off + size) <= asize →
     malloc (proc st1) = (true, p1) →
     cuMemcpyDtoH (u64 (ptr + off)) size (device st1) = (CUDA_SUCCESS, data1, d1) →
     cuMemcpyDtoH (u64 (ptr + off)) size (device st2) = (CUDA_SUCCESS, data2, d2) →
     ∃ st1' st2',
       handle_gpu_copy_d2h m st1 = Some st1'
       ∧ handle_gpu_copy_d2h m st2 = Some st2'
       ∧ st1' = snd (send_response_ok (src_zone (header m)) (seq_num (header m)) 0 None 0
                       (with_device (with_proc st1 p1) d1
                          (CallMemcpyDtoH (u64 (ptr + off)) size)))
       ∧ proc st1' = proc st2'
       ∧ shared st1' = shared st2'
       ∧ ∀ conn, global_conn p1 = Some conn → connected conn = true →
           fst (malloc p1) = true →
           length (entries (get_ring (shared st1) (tx_key conn)))
             = Z.to_nat IDM_RING_SIZE →
           ring_level (get_ring (shared st1) (tx_key conn)) < IDM_RING_SIZE →
           payload (read_entry
                      (get_entry (get_ring (shared st1') (tx_key conn))
                         (producer (get_ring (shared st1) (tx_key conn))
                            mod IDM_RING_SIZE)))
           = encode_response_ok
               {| ok_request_seq := seq_num (header m); ok_result_handle := 0;
                  ok_result_value := 0; ok_data_len := 0 |}).
Proof.
  split.
  - unfold libvgpu.cuMemcpyDtoH.
    destruct (negb (libvgpu.initialized u)); [intros [=]|].
    destruct dstHost as [buf|]; [|intros [=]].
    destruct ((srcDevice =? 0) || (ByteCount =? 0)); [intros [=]|].
    destruct (idm_build_message _ _ _ _ _) as [[req|] p2]; [|intros [=]].
    destruct (libvgpu.send_and_wait peer req false _) as [[[result handle] u1]|]; [|done].
    cbn [mbind option_bind].
    destruct (result =? libvgpu.CUDA_SUCCESS) eqn:E; branch.
    + intros [= _ <- _]. by exists buf.
    + intros [= -> _ _]. done.
  - intros Ht Hp Hw Hh Ho Hs Hlook Hptr Hfit Hm Hc1 Hc2.
    destruct (handle_gpu_copy_d2h_bounds m st1 h off size ptr asize) as (_ & Hok1 & _);
      try done.
    destruct (handle_gpu_copy_d2h_bounds m st2 h off size ptr asize) as (_ & Hok2 & _);
      try done.
    { by rewrite <- Ht. }
    specialize (Hok1 Hfit p1 data1 d1 Hm Hc1).
    rewrite Hp in Hm. specialize (Hok2 Hfit p1 data2 d2 Hm Hc2).
    eexists _, _. split; [exact Hok1|]. split; [exact Hok2|]. split; [done|].
    split; [by apply send_response_ok_io|]. split; [by apply send_response_ok_io|].
    intros conn Hc Hconn Hm1 Hlen Hroom.
    by destruct (send_response_ok_on_ring (src_zone (header m)) (seq_num (header m)) 0
                   None 0 (with_device (with_proc st1 p1) d1
                             (CallMemcpyDtoH (u64 (ptr + off)) size)) conn)
      as (_ & _ & _ & _ & Hpayload).
Qed.

End CorrelatorFacts.

Lemma remote_error_translation_witness :
  ∃ u1, libvgpu.wait_loop denying_peer 10 0 1 false app_state
        = Some (libvgpu.CUDA_ERROR_INVALID_VALUE, None, u1).
Proof.
  assert (Hhead : (λ r, (r.1.1.1, r.1.1.2)) <$>
            idm_recv 1000 (libvgpu.uproc app_state)
              (denying_peer 0 (libvgpu.ushared app_state))
            = Some (0, Some denied_response)) by (vm_compute; reflexivity).
  destruct (idm_recv 1000 (libvgpu.uproc app_state)
              (denying_peer 0 (libvgpu.ushared app_state)))
    as [[[[ret msg_out] p1] w1]|] eqn:Hrecv.
  - injection Hhead as -> ->.
    destruct (remote_error_translation denying_peer 9 0 1 false app_state
                denied_response p1 w1 IDM_ERROR_PERMISSION_DENIED)
      as (result & Hloop & _ & _ & _ & Hdenied).
    + exact Hrecv.
    + reflexivity.
    + reflexivity.
    + reflexivity.
    + rewrite (Hdenied eq_refl) in Hloop. eexists. exact Hloop.
  - discriminate Hhead.
Defined.

(** C4, the claim as stated, fails: the application sends request 1 and
    receives a RESPONSE_ERROR for it whose code is
    [IDM_ERROR_PERMISSION_DENIED]; [send_and_wait] consumes it and
    returns [CUDA_ERROR_INVALID_VALUE], which is not
    [CUDA_ERROR_INVALID_HANDLE]. *)
Lemma permission_denied_is_invalid_value :
  msg_type (header denied_response) = IDM_RESPONSE_ERROR
  ∧ read_le 0 8 (payload denied_response) = Some (seq_num (header sync_request))
  ∧ read_le 8 4 (payload denied_response) = Some IDM_ERROR_PERMISSION_DENIED
  ∧ libvgpu.on_response (seq_num (header sync_request)) false denied_response
    = Some (Some (libvgpu.CUDA_ERROR_INVALID_VALUE, None))
  ∧ ((λ r, (r.1.1, consumer (get_ring (libvgpu.ushared r.2) (rx_key user_conn)))) <$>
       libvgpu.send_and_wait denying_peer sync_request false app_state)
    = Some (libvgpu.CUDA_ERROR_INVALID_VALUE, 1)
  ∧ libvgpu.CUDA_ERROR_INVALID_VALUE ≠ libvgpu.CUDA_ERROR_INVALID_HANDLE.
Proof.
  split; [reflexivity|]. split; [vm_compute; reflexivity|].
  split; [vm_compute; reflexivity|]. split; [vm_compute; reflexivity|].
  split; [vm_compute; reflexivity|]. discriminate.
Qed.

Lemma d2h_yields_zeros_and_drops_staged_bytes_witness :
  (∃ u', libvgpu.cuMemcpyDtoH daemon_peer (Some [x11; x22; x33; x44; x55]) 1 4 app_state
         = Some (libvgpu.CUDA_SUCCESS, Some [x00; x00; x00; x00; x55], u'))
  ∧ cuMemcpyDtoH 4096 4 (device (daemon_state one_alloc_table fresh_world))
    = (CUDA_SUCCESS, [x2a; x2a; x2a; x2a], device (daemon_state one_alloc_table fresh_world))
  ∧ (shared <$> handle_gpu_copy_d2h small_d2h (daemon_state one_alloc_table fresh_world))
    = (shared <$> handle_gpu_copy_d2h small_d2h blank_daemon_state).
Proof.
  destruct (libvgpu.cuMemcpyDtoH daemon_peer (Some [x11; x22; x33; x44; x55]) 1 4 app_state)
    as [[[result buf'] u']|] eqn:Hcall.
  - assert (Hres : (λ r, r.1.1) <$>
              libvgpu.cuMemcpyDtoH daemon_peer (Some [x11; x22; x33; x44; x55]) 1 4 app_state
              = Some libvgpu.CUDA_SUCCESS) by (vm_compute; reflexivity).
    rewrite Hcall in Hres. injection Hres as ->.
    destruct (d2h_yields_zeros_and_drops_staged_bytes daemon_peer
                (Some [x11; x22; x33; x44; x55]) buf' 1 4 app_state u'
                small_d2h (daemon_state one_alloc_table fresh_world) blank_daemon_state
                1 0 4 4096 1024 driver_proc [x2a; x2a; x2a; x2a] [x00; x00; x00; x00]
                (device (daemon_state one_alloc_table fresh_world))
                (device blank_daemon_state)) as [Huser Hdaemon].
    destruct (Huser Hcall) as (dst & Hdst & Hbuf).
    injection Hdst as <-. rewrite Hbuf.
    destruct Hdaemon as (st1' & st2' & Hst1 & Hst2 & _ & _ & Hshared & _);
      [reflexivity | reflexivity | reflexivity | reflexivity | reflexivity | reflexivity
      | reflexivity | discriminate | discriminate | reflexivity
      | vm_compute; reflexivity | vm_compute; reflexivity |].
    split; [by exists u'|]. split; [vm_compute; reflexivity|].
    rewrite Hst1, Hst2. cbn [fmap option_fmap option_map]. by rewrite Hshared.
  - assert (Hres : (λ r, r.1.1) <$>
              libvgpu.cuMemcpyDtoH daemon_peer (Some [x11; x22; x33; x44; x55]) 1 4 app_state
              = Some libvgpu.CUDA_SUCCESS) by (vm_compute; reflexivity).
    rewrite Hcall in Hres. discriminate.
Defined.

(* ====================================================================== *)
(** * Further properties of the transport *)
(* ====================================================================== *)

Lemma malloc_conn (p : process) : global_conn (snd (malloc p)) = global_conn p.
Proof. unfold malloc. by destruct (heap p). Qed.

Lemma malloc_heap (p : process) :
  heap (snd (malloc p)) = tail (heap p).
Proof. unfold malloc. destruct (heap p) eqn:E; cbn [snd heap tail]; by rewrite ?E. Qed.

Lemma sem_value_shm_irrel (w : world) (s : gmap Z idm_ring) (n : Z) :
  sem_value {| shm := s; sems := sems w; faults := faults w |} n = sem_value w n.
Proof. done. Qed.

Lemma sem_value_post_ne (w : world) (n n' : Z) :
  n ≠ n' → sem_value (sem_post w n) n' = sem_value w n'.
Proof.
  intros Hne. unfold sem_value, sem_post. cbn [sems]. by rewrite lookup_insert_ne.
Qed.

Lemma sem_wait_values (t : Z) (w w1 : world) (n : Z) :
  sem_wait t w n = Acquired w1 →
  sem_value w n = S (sem_value w1 n)
  ∧ ∀ n', n' ≠ n → sem_value w1 n' = sem_value w n'.
Proof.
  unfold sem_wait. destruct (sem_value w n) as [|c] eqn:E.
  - destruct (t <? 0); [destruct (_ !! _)|]; discriminate.
  - intros [= <-]. split.
    + unfold sem_value. cbn [sems]. by rewrite lookup_insert_eq.
    + intros n' Hne. unfold sem_value. cbn [sems]. by rewrite lookup_insert_ne.
Qed.

Lemma sem_wait_faults (t : Z) (w w1 : world) (n : Z) :
  sem_wait t w n = Acquired w1 → faults w1 = faults w.
Proof.
  unfold sem_wait. destruct (sem_value w n).
  - destruct (t <? 0); [destruct (_ !! _)|]; discriminate.
  - intros [= <-]. done.
Qed.


(** The ways [idm_recv] returns, one per [return] of the function. *)
Lemma idm_recv_cases (t : Z) (p p1 : process) (w w1 : world) (ret : Z)
    (msg_out : option idm_message) :
  idm_recv t p w = Some (ret, msg_out, p1, w1) →
  (msg_out = None ∧ p1 = p ∧ w1 = w
   ∧ ((ret = - ENOTCONN
       ∧ ∀ conn, global_conn p = Some conn → connected conn = false)
      ∨ ∃ conn, global_conn p = Some conn ∧ connected conn = true
          ∧ ((ret = - EAGAIN ∧ sem_wait t w (rx_sem conn) = TimedOut)
             ∨ ∃ errno, ret = - Z.pos errno
                        ∧ sem_wait t w (rx_sem conn) = Interrupted errno)))
  ∨ ∃ conn wa, global_conn p = Some conn ∧ connected conn = true
      ∧ sem_wait t w (rx_sem conn) = Acquired wa
      ∧ let r := get_ring wa (rx_key conn) in
        let slot := get_entry r (consumer r mod IDM_RING_SIZE) in
        let wb := put_ring wa (rx_key conn) (set_consumer r (u32 (consumer r + 1))) in
        (ret = - EAGAIN ∧ msg_out = None ∧ p1 = p ∧ w1 = wa
         ∧ consumer r = producer r)
        ∨ (consumer r ≠ producer r
           ∧ ((ret = - EINVAL ∧ msg_out = None ∧ p1 = p ∧ w1 = wb
               ∧ idm_message_valid (slot_header slot) = false)
              ∨ (idm_message_valid (slot_header slot) = true
                 ∧ p1 = snd (malloc p)
                 ∧ ((ret = - ENOMEM ∧ msg_out = None ∧ w1 = wa
                     ∧ fst (malloc p) = false)
                    ∨ (ret = 0 ∧ msg_out = Some (read_entry slot) ∧ w1 = wb
                       ∧ fst (malloc p) = true
                       ∧ idm_message_size (slot_header slot) <= SIZEOF_RING_ENTRY))))).
Proof.
  unfold idm_recv. intros Hrecv.
  destruct (global_conn p) as [conn|] eqn:Hc.
  2: { injection Hrecv as <- <- <- <-. left. do 3 (split; [done|]). by left. }
  destruct (connected conn) eqn:Hconn; cbn [negb] in Hrecv.
  2: { injection Hrecv as <- <- <- <-. left. do 3 (split; [done|]). left.
       split; [done|]. by intros ? [= <-]. }
  destruct (sem_wait t w (rx_sem conn)) as [wa| |errno|] eqn:Hwait; [| | |done].
  2: { injection Hrecv as <- <- <- <-. left. do 3 (split; [done|]). right.
       exists conn. do 2 (split; [done|]). by left. }
  2: { injection Hrecv as <- <- <- <-. left. do 3 (split; [done|]). right.
       exists conn. do 2 (split; [done|]). right. by exists errno. }
  right. exists conn, wa. do 3 (split; [done|]). cbn zeta.
  destruct (_ =? _) eqn:Hempty.
  { injection Hrecv as <- <- <- <-. left. do 4 (split; [done|]). lia. }
  right. split; [lia|].
  destruct (idm_message_valid _) eqn:Hvalid; cbn [negb] in Hrecv.
  2: { injection Hrecv as <- <- <- <-. left. done. }
  right. split; [done|].
  destruct (malloc p) as [ok pa] eqn:Hmalloc. cbn [fst snd].
  destruct ok; cbn [negb] in Hrecv.
  2: { injection Hrecv as <- <- <- <-. split; [done|]. by left. }
  destruct (_ >? _) eqn:Hsize; [done|].
  injection Hrecv as <- <- <- <-. split; [done|]. right.
  do 4 (split; [done|]). lia.
Qed.

Ltac in_codes :=
  unfold recv_codes, send_codes;
  repeat first [apply list_elem_of_here | apply list_elem_of_further].



(** X2.  What [idm_send] can and cannot do.  It returns 0, [-EINVAL],
    [-ENOSPC] or [-ENOTCONN]; on a non-zero return the shared memory is
    as before.  It never changes a consumer index, a ring other than
    the one it writes, a slot other than the one at the producer index,
    or a semaphore other than the one of the remote zone; on the return
    0, and only then, the producer index moves by one and that
    semaphore is posted once. *)
Theorem idm_send_effects (m : idm_message) (p : process) (w : world) :
  let ret := fst (idm_send m p w) in
  let w' := snd (idm_send m p w) in
  ret ∈ send_codes
  ∧ (ret ≠ 0 → w' = w)
  ∧ (∀ k, consumer (get_ring w' k) = consumer (get_ring w k))
  ∧ (∀ conn, global_conn p = Some conn →
       (∀ k, k ≠ tx_key conn → get_ring w' k = get_ring w k)
       ∧ (∀ j, 0 <= j → j ≠ producer (get_ring w (tx_key conn)) mod IDM_RING_SIZE →
            get_entry (get_ring w' (tx_key conn)) j = get_entry (get_ring w (tx_key conn)) j)
       ∧ (∀ n, n ≠ tx_sem conn → sem_value w' n = sem_value w n)
       ∧ sem_value w' (tx_sem conn)
         = (if ret =? 0 then S (sem_value w (tx_sem conn)) else sem_value w (tx_sem conn))
       ∧ producer (get_ring w' (tx_key conn))
         = if ret =? 0 then u32 (producer (get_ring w (tx_key conn)) + 1)
           else producer (get_ring w (tx_key conn))).
Proof.
  cbn zeta. unfold idm_send.
  assert (Hfail : ∀ c : Z, c ∈ send_codes → c ≠ 0 →
            c ∈ send_codes
            ∧ (c ≠ 0 → w = w)
            ∧ (∀ k, consumer (get_ring w k) = consumer (get_ring w k))
            ∧ (∀ conn, global_conn p = Some conn →
                 (∀ k, k ≠ tx_key conn → get_ring w k = get_ring w k)
                 ∧ (∀ j, 0 <= j →
                      j ≠ producer (get_ring w (tx_key conn)) mod IDM_RING_SIZE →
                      get_entry (get_ring w (tx_key conn)) j
                      = get_entry (get_ring w (tx_key conn)) j)
                 ∧ (∀ n, n ≠ tx_sem conn → sem_value w n = sem_value w n)
                 ∧ sem_value w (tx_sem conn)
                   = (if c =? 0 then S (sem_value w (tx_sem conn))
                      else sem_value w (tx_sem conn))
                 ∧ producer (get_ring w (tx_key conn))
                   = if c =? 0 then u32 (producer (get_ring w (tx_key conn)) + 1)
                     else producer (get_ring w (tx_key conn)))).
  { intros c Hin Hc. apply Z.eqb_neq in Hc. rewrite Hc. repeat split; done. }
  destruct (global_conn p) as [conn|] eqn:Hconn; cbn [fst snd].
  2: { destruct (Hfail (- ENOTCONN)) as (H1 & H2 & H3 & _); [in_codes|done|].
       split; [done|]. split; [done|]. split; [done|]. by intros conn. }
  destruct (negb (connected conn)); cbn [fst snd]; [apply Hfail; [in_codes|done]|].
  destruct (negb (idm_message_valid (header m))); cbn [fst snd];
    [apply Hfail; [in_codes|done]|].
  destruct (_ >? _); cbn [fst snd]; [apply Hfail; [in_codes|done]|].
  destruct (_ >=? _); cbn [fst snd]; [apply Hfail; [in_codes|done]|].
  set (r := get_ring w (tx_key conn)).
  split; [in_codes|]. split; [done|]. split.
  { intros k. rewrite get_ring_sem_post.
    destruct (decide (tx_key conn = k)) as [<-|Hne].
    - by rewrite get_ring_put_eq.
    - by rewrite get_ring_put_ne. }
  intros conn0 [= <-]. fold r. split.
  { intros k Hk. rewrite get_ring_sem_post. by rewrite get_ring_put_ne. }
  split.
  { intros j Hj Hne. rewrite get_ring_sem_post, get_ring_put_eq, get_entry_set_producer.
    apply get_entry_write_other; [|done|done].
    apply Z.mod_pos_bound. unfold IDM_RING_SIZE. lia. }
  split.
  { intros n Hn. rewrite sem_value_post_ne by done. apply sem_value_put_ring. }
  split.
  { by rewrite sem_value_post, sem_value_put_ring. }
  by rewrite get_ring_sem_post, get_ring_put_eq.
Qed.

Lemma idm_build_message_unfold (dst type : Z) (body : list byte) (len : Z)
    (p : process) (conn : idm_connection) :
  global_conn p = Some conn → fst (malloc p) = true →
  idm_build_message dst type body len p =
    (Some {| header := {| magic := IDM_MAGIC; version := IDM_VERSION;
                          msg_type := u16 type; src_zone := local_zone_id conn;
                          dst_zone := dst; seq_num := next_seq conn;
                          payload_len := u32 len; reserved := 0 |};
             payload := if len >? 0 then take (Z.to_nat len) body else [] |},
     set_conn (snd (malloc p)) (bump_seq conn)).
Proof.
  intros Hc Hm. unfold idm_build_message. rewrite Hc.
  destruct (malloc p) as [ok p1]. cbn [fst] in Hm. subst ok. done.
Qed.

Lemma idm_build_message_none (dst type : Z) (body : list byte) (len : Z) (p : process) :
  global_conn p = None ∨ fst (malloc p) = false →
  fst (idm_build_message dst type body len p) = None
  ∧ global_conn (snd (idm_build_message dst type body len p)) = global_conn p.
Proof.
  unfold idm_build_message. intros [Hc|Hm].
  - by rewrite Hc.
  - destruct (global_conn p) as [conn|] eqn:Hc; [|done].
    pose proof (malloc_conn p) as Hmc.
    destruct (malloc p) as [ok p1]. cbn [fst snd] in *. subst ok. cbn [negb fst snd].
    by rewrite Hmc.
Qed.

Lemma built_payload_length (body : list byte) (len : Z) :
  0 <= len <= Z.of_nat (length body) →
  Z.of_nat (length (if len >? 0 then take (Z.to_nat len) body else [])) = len.
Proof.
  intros Hlen. destruct (len >? 0) eqn:E; branch.
  - rewrite length_take. lia.
  - cbn [length]. lia.
Qed.

(** The message [idm_build_message] returns, field by field. *)
Lemma idm_build_message_parts
    (dst type : Z) (body : list byte) (len : Z) (p : process) (conn : idm_connection) :
  global_conn p = Some conn → fst (malloc p) = true →
  0 <= len < 2 ^ 32 → len <= Z.of_nat (length body) →
  ∃ m, idm_build_message dst type body len p
         = (Some m, set_conn (snd (malloc p)) (bump_seq conn))
       ∧ magic (header m) = IDM_MAGIC ∧ version (header m) = IDM_VERSION
       ∧ msg_type (header m) = u16 type
       ∧ src_zone (header m) = local_zone_id conn
       ∧ dst_zone (header m) = dst
       ∧ seq_num (header m) = next_seq conn
       ∧ payload_len (header m) = len
       ∧ payload m = take (Z.to_nat len) body
       ∧ msg_wf m
       ∧ (idm_message_valid (header m) = true ↔ len <= IDM_MAX_PAYLOAD_SIZE)
       ∧ (idm_message_size (header m) <= SIZEOF_RING_ENTRY ↔ len <= AREA_SIZE).
Proof.
  intros Hc Hm Hlen Hbody. eexists. split; [by apply idm_build_message_unfold|].
  cbn [header payload magic version msg_type src_zone dst_zone seq_num payload_len].
  rewrite (u32_small len) by done.
  split; [done|]. split; [done|]. split; [done|]. split; [done|]. split; [done|].
  split; [done|]. split; [done|]. split.
  { destruct (len >? 0) eqn:E; branch; [done|].
    assert (len = 0) as -> by lia. by rewrite take_0. }
  split.
  { unfold msg_wf. cbn [header payload payload_len].
    rewrite ?(u32_small len) by done. apply built_payload_length. lia. }
  split.
  { unfold idm_message_valid. cbn [magic version payload_len].
    rewrite !Z.eqb_refl. cbn [andb]. apply Z.leb_le. }
  unfold idm_message_size, AREA_SIZE, SIZEOF_RING_ENTRY, SIZEOF_HEADER.
  cbn [payload_len]. rewrite ?(u32_small len) by done. lia.
Qed.

(** X3.  A message built by [idm_build_message] on a process with a
    connection, when the allocation succeeds and the payload length is
    below 2^32 and within the source buffer: its header carries the
    magic and the version, the local zone as source, the given
    destination, the type cut to 16 bits, and the sequence number the
    connection held, which then moves on by one; its buffer is the
    first [len] bytes of the source.  The function does not check the
    length: the message passes [idm_message_valid] exactly when [len]
    is at most [IDM_MAX_PAYLOAD_SIZE], and fits a ring slot exactly when
    [len] is at most the 4064 bytes after the header. *)
Theorem idm_build_message_result
    (dst type : Z) (body : list byte) (len : Z) (p : process) (conn : idm_connection) :
  global_conn p = Some conn → fst (malloc p) = true →
  0 <= len < 2 ^ 32 → len <= Z.of_nat (length body) →
  ∃ m, idm_build_message dst type body len p
         = (Some m, set_conn (snd (malloc p)) (bump_seq conn))
       ∧ magic (header m) = IDM_MAGIC ∧ version (header m) = IDM_VERSION
       ∧ msg_type (header m) = u16 type
       ∧ src_zone (header m) = local_zone_id conn
       ∧ dst_zone (header m) = dst
       ∧ seq_num (header m) = next_seq conn
       ∧ payload_len (header m) = len
       ∧ payload m = take (Z.to_nat len) body
       ∧ msg_wf m
       ∧ (idm_message_valid (header m) = true ↔ len <= IDM_MAX_PAYLOAD_SIZE)
       ∧ (idm_message_size (header m) <= SIZEOF_RING_ENTRY ↔ len <= AREA_SIZE).
Proof. exact (idm_build_message_parts dst type body len p conn). Qed.

Lemma idm_build_message_result_witness :
  ∃ m, idm_build_message 1 IDM_GPU_SYNC [x00; x00; x00; x00; x00; x00; x00; x00] 8 user_proc
         = (Some m, set_conn user_proc (bump_seq user_conn))
       ∧ seq_num (header m) = 1 ∧ msg_wf m.
Proof.
  destruct (idm_build_message_result 1 IDM_GPU_SYNC
              [x00; x00; x00; x00; x00; x00; x00; x00] 8 user_proc user_conn)
    as (m & Hbuild & _ & _ & _ & _ & _ & Hseq & _ & _ & Hwf & _).
  - reflexivity.
  - reflexivity.
  - split; [discriminate|reflexivity].
  - discriminate.
  - exists m. split; [exact Hbuild|]. split; [exact Hseq|exact Hwf].
Defined.

Lemma build_all_sequence_aux (reqs : list (Z * Z * list byte * Z)) :
  ∀ (p : process) (conn : idm_connection),
    global_conn p = Some conn → 0 <= next_seq conn →
    next_seq conn + Z.of_nat (length reqs) <= 2 ^ 64 →
    ∀ i m, omap id (fst (build_all reqs p)) !! i = Some m →
           seq_num (header m) = next_seq conn + Z.of_nat i.
Proof.
  induction reqs as [|[[[dst type] body] len] rest IH]; intros p conn Hc Hlo Hhi i m Hi.
  - done.
  - cbn [build_all] in Hi. cbn [length] in Hhi.
    destruct (fst (malloc p)) eqn:Hm.
    + rewrite (idm_build_message_unfold _ _ _ _ _ conn) in Hi by done.
      destruct (build_all rest _) as [ms p2] eqn:Hrest. cbn [fst omap] in Hi.
      change (omap id (Some ?x :: ms)) with (x :: omap id ms) in Hi.
      destruct i as [|i]; [injection Hi as <-; cbn [header seq_num]; lia|].
      cbn [lookup] in Hi. change ((?x :: ?l) !! S i) with (l !! i) in Hi.
      destruct rest as [|r0 rest'].
      { cbn in Hrest. injection Hrest as <- <-. done. }
      assert (Hnext : next_seq (bump_seq conn) = next_seq conn + 1).
      { cbn [bump_seq next_seq]. apply u64_small. cbn [length] in Hhi. lia. }
      specialize (IH (set_conn (snd (malloc p)) (bump_seq conn)) (bump_seq conn)
                     eq_refl ltac:(lia) ltac:(lia) i m).
      rewrite Hrest in IH. cbn [fst] in IH. rewrite (IH Hi). lia.
    + destruct (idm_build_message_none dst type body len p (or_intror Hm)) as [Hnone Hconn].
      destruct (idm_build_message dst type body len p) as [mo p1]. cbn [fst snd] in *.
      subst mo. destruct (build_all rest p1) as [ms p2] eqn:Hrest. cbn [fst] in Hi.
      change (omap id (None :: ms)) with (omap id ms) in Hi.
      specialize (IH p1 conn ltac:(by rewrite Hconn) Hlo ltac:(lia) i m).
      rewrite Hrest in IH. by apply IH.
Qed.

(** X4.  Sequence numbers.  However many of the allocations fail, the
    messages that a run of [idm_build_message] calls does build carry
    consecutive sequence numbers starting at the connection's counter,
    as long as the counter does not pass 2^64: a failed build takes no
    number, a successful one exactly one, so the numbers are strictly
    increasing and none is used twice. *)
Theorem build_all_sequence
    (reqs : list (Z * Z * list byte * Z)) (p : process) (conn : idm_connection) :
  global_conn p = Some conn → 0 <= next_seq conn →
  next_seq conn + Z.of_nat (length reqs) <= 2 ^ 64 →
  let built := omap id (fst (build_all reqs p)) in
  (∀ i m, built !! i = Some m → seq_num (header m) = next_seq conn + Z.of_nat i)
  ∧ (∀ i j mi mj, built !! i = Some mi → built !! j = Some mj → (i < j)%nat →
       seq_num (header mi) < seq_num (header mj)).
Proof.
  intros Hc Hlo Hhi built.
  assert (Hseq : ∀ i m, built !! i = Some m →
                   seq_num (header m) = next_seq conn + Z.of_nat i)
    by (by apply build_all_sequence_aux).
  split; [exact Hseq|].
  intros i j mi mj Hi Hj Hlt. rewrite (Hseq i mi Hi), (Hseq j mj Hj). lia.
Qed.

Lemma build_all_sequence_witness :
  ∃ m, omap id (fst (build_all [(1, IDM_GPU_SYNC, [], 0); (1, IDM_GPU_SYNC, [], 0);
                                (1, IDM_GPU_SYNC, [], 0)]
                      {| global_conn := Some user_conn; heap := [true; false] |}))
       !! 1%nat = Some m
       ∧ seq_num (header m) = 2.
Proof.
  destruct (build_all_sequence
              [(1, IDM_GPU_SYNC, [], 0); (1, IDM_GPU_SYNC, [], 0); (1, IDM_GPU_SYNC, [], 0)]
              {| global_conn := Some user_conn; heap := [true; false] |} user_conn)
    as [Hseq _].
  - reflexivity.
  - discriminate.
  - discriminate.
  - eexists. split; [reflexivity|]. apply (Hseq 1%nat). reflexivity.
Defined.

Lemma holds_queue_empty (r : idm_ring) :
  0 <= consumer r < 2 ^ 32 → producer r = consumer r →
  length (entries r) = Z.to_nat IDM_RING_SIZE →
  holds_queue r [].
Proof.
  intros Hc Hp Hl. unfold holds_queue. cbn [length].
  split; [done|]. split; [done|]. split; [unfold IDM_RING_SIZE; lia|]. split.
  - rewrite Hp, Z.add_0_r. symmetry. by apply u32_small.
  - intros i m Hi. by rewrite lookup_nil in Hi.
Qed.

Lemma holds_queue_zero : holds_queue zero_ring [].
Proof.
  apply holds_queue_empty; [done|done|].
  unfold zero_ring. cbn [entries]. by rewrite length_replicate.
Qed.

(** A successful send appends to the queue the ring holds. *)
Lemma idm_send_queue (m : idm_message) (q : list idm_message) (p : process)
    (conn : idm_connection) (w : world) :
  global_conn p = Some conn → connected conn = true → sendable m →
  holds_queue (get_ring w (tx_key conn)) q →
  Z.of_nat (length q) < IDM_RING_SIZE →
  fst (idm_send m p w) = 0
  ∧ holds_queue (get_ring (snd (idm_send m p w)) (tx_key conn)) (q ++ [m])
  ∧ sem_value (snd (idm_send m p w)) (tx_sem conn) = S (sem_value w (tx_sem conn)).
Proof.
  intros Hc Hconn Hm Hq Hroom.
  destruct (send_all_queue [m] q p conn w Hc Hconn) as (Hret & Hqueue & Hsem);
    [by constructor|done|cbn [length]; lia|].
  cbn [send_all] in *. destruct (idm_send m p w) as [ret w1]. cbn [fst snd length] in *.
  injection Hret as ->. split; [done|]. split; [done|]. lia.
Qed.

(** The receive of the oldest message of a queue. *)
Lemma idm_recv_queue (m : idm_message) (q : list idm_message) (t : Z) (p : process)
    (conn : idm_connection) (w : world) :
  global_conn p = Some conn → connected conn = true →
  holds_queue (get_ring w (rx_key conn)) (m :: q) →
  (0 < sem_value w (rx_sem conn))%nat →
  fst (malloc p) = true →
  ∃ w1, idm_recv t p w = Some (0, Some m, snd (malloc p), w1)
        ∧ holds_queue (get_ring w1 (rx_key conn)) q
        ∧ sem_value w1 (rx_sem conn) = pred (sem_value w (rx_sem conn))
        ∧ ∀ k, k ≠ rx_key conn → get_ring w1 k = get_ring w k.
Proof.
  intros Hc Hconn Hq Hsem Hm.
  destruct (sem_wait_acquire t w (rx_sem conn) Hsem) as (wa & Hwait & Hshm & Hval).
  rewrite (idm_recv_unfold t p conn w wa) by done. cbn zeta.
  rewrite (get_ring_shm w wa) by done.
  destruct (holds_queue_pop _ q m Hq) as (Hne & Hv & Hread & Hq').
  destruct (_ =? _) eqn:E; branch; [done|].
  rewrite Hv, Hm, Hread, (holds_queue_head_fits _ q m Hq). cbn [negb].
  eexists. split; [done|].
  rewrite get_ring_put_eq, sem_value_put_ring. split; [done|]. split; [done|].
  intros k Hk. rewrite get_ring_put_ne by done. by apply get_ring_shm.
Qed.

(** X5.  A failed allocation in [idm_recv] loses the wake-up.  When the
    ring holds a valid message, its post is the only one pending and the
    allocation of the copy fails, [idm_recv] returns [-ENOMEM] leaving
    every ring as it was, the message included, but the semaphore at 0:
    every later bounded receive times out with [-EAGAIN], and a
    blocking one never returns, or fails with the [errno] of its wait
    if that is interrupted, until something is posted again.  None of
    them delivers the message. *)
Theorem recv_alloc_failure_strands_message
    (t : Z) (p : process) (conn : idm_connection) (w : world) :
  global_conn p = Some conn → connected conn = true →
  let r := get_ring w (rx_key conn) in
  consumer r ≠ producer r →
  idm_message_valid (slot_header (get_entry r (consumer r mod IDM_RING_SIZE))) = true →
  sem_value w (rx_sem conn) = 1%nat →
  fst (malloc p) = false →
  ∃ w1, idm_recv t p w = Some (- ENOMEM, None, snd (malloc p), w1)
        ∧ (∀ k, get_ring w1 k = get_ring w k)
        ∧ faults w1 = faults w
        ∧ sem_value w1 (rx_sem conn) = 0%nat
        ∧ (∀ t', 0 <= t' →
             idm_recv t' (snd (malloc p)) w1
             = Some (- EAGAIN, None, snd (malloc p), w1))
        ∧ (∀ t', t' < 0 →
             idm_recv t' (snd (malloc p)) w1
             = match sem_wait_errno (faults w) !! rx_sem conn with
               | Some errno => Some (- Z.pos errno, None, snd (malloc p), w1)
               | None => None
               end).
Proof.
  intros Hc Hconn r Hne Hv Hsem Hm.
  destruct (sem_wait_acquire t w (rx_sem conn)) as (wa & Hwait & Hshm & Hval); [lia|].
  rewrite (idm_recv_unfold t p conn w wa) by done. cbn zeta.
  rewrite (get_ring_shm w wa) by done. fold r.
  destruct (_ =? _) eqn:E; branch; [done|].
  rewrite Hv, Hm. cbn [negb]. exists wa. split; [done|].
  split; [intros k; by apply get_ring_shm|].
  pose proof (sem_wait_faults _ _ _ _ Hwait) as Hfaults.
  split; [done|].
  assert (Hzero : sem_value wa (rx_sem conn) = 0%nat) by (rewrite Hval, Hsem; done).
  split; [done|].
  assert (Hc' : global_conn (snd (malloc p)) = Some conn) by (by rewrite malloc_conn).
  split.
  - intros t' Ht'. unfold idm_recv. rewrite Hc', Hconn. cbn [negb].
    unfold sem_wait. rewrite Hzero.
    destruct (t' <? 0) eqn:E'; branch; [lia|done].
  - intros t' Ht'. unfold idm_recv. rewrite Hc', Hconn. cbn [negb].
    unfold sem_wait. rewrite Hzero, Hfaults.
    destruct (t' <? 0) eqn:E'; branch; [|lia].
    by destruct (_ !! _).
Qed.

Lemma recv_alloc_failure_strands_message_witness :
  ∃ w1, idm_recv 1000 {| global_conn := Some driver_conn; heap := [false] |}
          (snd (idm_send sync_request user_proc fresh_world))
        = Some (- ENOMEM, None, driver_proc, w1)
        ∧ idm_recv 0 driver_proc w1 = Some (- EAGAIN, None, driver_proc, w1)
        ∧ idm_recv (-1) driver_proc w1 = None.
Proof.
  destruct (recv_alloc_failure_strands_message 1000
              {| global_conn := Some driver_conn; heap := [false] |} driver_conn
              (snd (idm_send sync_request user_proc fresh_world)))
    as (w1 & Hrecv & _ & _ & _ & Hlater & Hblock).
  - reflexivity.
  - reflexivity.
  - vm_compute. discriminate.
  - vm_compute. reflexivity.
  - reflexivity.
  - reflexivity.
  - exists w1. split; [exact Hrecv|]. split; [apply Hlater; discriminate|].
    apply (Hblock (-1)). reflexivity.
Defined.

Lemma get_ring_shmget (w : world) (k k' : Z) :
  get_ring (shmget w k) k' = get_ring w k'.
Proof.
  unfold shmget. destruct (decide (k = k')) as [<-|Hne].
  - by rewrite get_ring_put_eq.
  - by rewrite get_ring_put_ne.
Qed.

Lemma get_ring_sem_open (w : world) (n k : Z) :
  get_ring (sem_open w n) k = get_ring w k.
Proof. by apply get_ring_shm. Qed.

Lemma sem_value_sem_open (w : world) (n n' : Z) :
  sem_value (sem_open w n) n' = sem_value w n'.
Proof.
  unfold sem_open. unfold sem_value at 1. cbn [sems].
  destruct (decide (n = n')) as [<-|Hne].
  - by rewrite lookup_insert_eq.
  - by rewrite lookup_insert_ne.
Qed.

Lemma faults_sem_open (w : world) (n : Z) : faults (sem_open w n) = faults w.
Proof. done. Qed.

Lemma faults_put_ring (w : world) (k : Z) (r : idm_ring) :
  faults (put_ring w k r) = faults w.
Proof. done. Qed.

Lemma sem_value_shmget (w : world) (k n : Z) : sem_value (shmget w k) n = sem_value w n.
Proof. unfold shmget. apply sem_value_put_ring. Qed.

Lemma get_ring_zeroed (w : world) (k1 k2 k : Z) :
  get_ring (put_ring (put_ring w k1 zero_ring) k2 zero_ring) k
  = if bool_decide (k = k1 ∨ k = k2) then zero_ring else get_ring w k.
Proof.
  case_bool_decide as Hk.
  - destruct (decide (k2 = k)) as [<-|Hne]; [by rewrite get_ring_put_eq|].
    rewrite get_ring_put_ne by done. destruct Hk as [->| ->]; [|done].
    by rewrite get_ring_put_eq.
  - rewrite !get_ring_put_ne; [done| |]; intros <-; apply Hk; first [by left | by right].
Qed.

(** What [init_shm] returns and leaves behind, for keys of shared
    segments. *)
Lemma init_shm_parts (conn : idm_connection) (w : world) :
  tx_key conn ≠ IPC_PRIVATE → rx_key conn ≠ IPC_PRIVATE →
  ∃ ret w', init_shm conn w = Some (ret, w')
    ∧ (ret = 0 ∨ ret = -1)
    ∧ (ret = 0 ↔ os_grants conn w)
    ∧ faults w' = faults w
    ∧ (∀ n, sem_value w' n = sem_value w n)
    ∧ (∀ k, k ≠ tx_key conn → k ≠ rx_key conn → get_ring w' k = get_ring w k)
    ∧ (is_server conn = false → ∀ k, get_ring w' k = get_ring w k)
    ∧ (is_server conn = true →
         (shm_granted conn w →
            get_ring w' (tx_key conn) = zero_ring ∧ get_ring w' (rx_key conn) = zero_ring)
         ∧ (¬ shm_granted conn w → ∀ k, get_ring w' k = get_ring w k)).
Proof.
  intros Htx Hrx. unfold init_shm, os_grants, shm_granted.
  assert (Ht : (tx_key conn =? IPC_PRIVATE) = false) by lia.
  assert (Hr : (rx_key conn =? IPC_PRIVATE) = false) by lia.
  rewrite Ht, Hr. cbn [orb]. cbv zeta.
  set (w2 := shmget (shmget w (tx_key conn)) (rx_key conn)).
  assert (Hw2 : ∀ k, get_ring w2 k = get_ring w k).
  { intros k. subst w2. by rewrite !get_ring_shmget. }
  set (w3 := if is_server conn then _ else w2).
  assert (Hsem3 : ∀ n, sem_value w3 n = sem_value w n).
  { intros n. subst w3 w2. destruct (is_server conn);
      by rewrite ?sem_value_put_ring, !sem_value_shmget. }
  assert (Hother3 : ∀ k, k ≠ tx_key conn → k ≠ rx_key conn →
                      get_ring w3 k = get_ring w k).
  { intros k H1 H2. subst w3. destruct (is_server conn); [|apply Hw2].
    rewrite !get_ring_put_ne by done. apply Hw2. }
  assert (Hclient3 : is_server conn = false → ∀ k, get_ring w3 k = get_ring w k).
  { intros Hs k. subst w3. rewrite Hs. apply Hw2. }
  assert (Hserver3 : is_server conn = true →
            get_ring w3 (tx_key conn) = zero_ring ∧ get_ring w3 (rx_key conn) = zero_ring).
  { intros Hs. subst w3. rewrite Hs, !get_ring_zeroed.
    split; case_bool_decide as Hk; try done; destruct Hk; first [by left | by right]. }
  assert (Hfaults3 : faults w3 = faults w).
  { subst w3 w2. by destruct (is_server conn). }
  clearbody w3. clear Hw2. subst w2.
  repeat case_bool_decide;
    eexists _, _; (split; [reflexivity|]);
    (split; [first [by left | by right]|]);
    (split; [split; [first [done | intros _; tauto] | first [done | tauto]]|]);
    (split; [done|]);
    (split; [intros n; by rewrite ?sem_value_sem_open, ?sem_value_shmget|]);
    (split; [intros k Hk1 Hk2; rewrite ?get_ring_sem_open, ?get_ring_shmget;
             first [done | by apply Hother3]|]);
    (split; [intros Hs k; rewrite ?get_ring_sem_open, ?get_ring_shmget;
             first [done | by apply Hclient3]|]);
    intros Hs;
    (split; [intros Hg; rewrite ?get_ring_sem_open; first [tauto | by apply Hserver3]
            |intros Hg k; rewrite ?get_ring_shmget; first [done | tauto]]).
Qed.

(** The outcomes of [idm_init]. *)
Lemma idm_init_parts (l r : Z) (s : bool) (p : process) (w : world) :
  let conn := {| local_zone_id := l; remote_zone_id := r; is_server := s;
                 next_seq := 1; connected := true |} in
  (global_conn p ≠ None → idm_init l r s p w = Some (- EALREADY, p, w))
  ∧ (global_conn p = None → fst (malloc p) = false →
       idm_init l r s p w = Some (- ENOMEM, snd (malloc p), w))
  ∧ (global_conn p = None → fst (malloc p) = true →
     tx_key conn ≠ IPC_PRIVATE → rx_key conn ≠ IPC_PRIVATE →
     ∃ ret w',
       idm_init l r s p w
       = Some (ret, if ret =? 0 then set_conn (snd (malloc p)) conn else snd (malloc p), w')
       ∧ (ret = 0 ∨ ret = -1)
       ∧ (ret = 0 ↔ os_grants conn w)
       ∧ faults w' = faults w
       ∧ (∀ n, sem_value w' n = sem_value w n)
       ∧ (∀ k, k ≠ tx_key conn → k ≠ rx_key conn → get_ring w' k = get_ring w k)
       ∧ (s = false → ∀ k, get_ring w' k = get_ring w k)
       ∧ (s = true →
            (shm_granted conn w →
               get_ring w' (tx_key conn) = zero_ring
               ∧ get_ring w' (rx_key conn) = zero_ring)
            ∧ (¬ shm_granted conn w → ∀ k, get_ring w' k = get_ring w k))).
Proof.
  intros conn. split; [|split].
  - intros Hc. unfold idm_init. by destruct (global_conn p).
  - intros Hc Hm. unfold idm_init. rewrite Hc.
    destruct (malloc p) as [ok p1]. cbn [fst snd] in *. by subst ok.
  - intros Hc Hm Htx Hrx. unfold idm_init. rewrite Hc.
    destruct (malloc p) as [ok p1]. cbn [fst snd] in *. subst ok. cbn [negb].
    fold conn.
    destruct (init_shm_parts conn w Htx Hrx) as (ret & w' & Hshm & Hret & Hrest).
    rewrite Hshm. cbn [mbind option_bind]. exists ret, w'.
    split; [|done]. by destruct Hret as [-> | ->].
Qed.

(** A call of [idm_init] that returns 0 connected the process, with the
    sequence counter at 1. *)
Lemma idm_init_connected (l r : Z) (s : bool) (p p1 : process) (w w1 : world) :
  idm_init l r s p w = Some (0, p1, w1) →
  global_conn p = None ∧ fst (malloc p) = true
  ∧ p1 = set_conn (snd (malloc p))
           {| local_zone_id := l; remote_zone_id := r; is_server := s;
              next_seq := 1; connected := true |}.
Proof.
  unfold idm_init. destruct (global_conn p); [discriminate|].
  destruct (malloc p) as [ok p2]. destruct ok; cbn [negb]; [|discriminate].
  destruct (init_shm _ w) as [[ret w2]|]; [|discriminate]. cbn [mbind option_bind].
  destruct (ret <? 0); [discriminate|]. by intros [= <- <-].
Qed.

(** X6.  What [idm_init] does.  On a process that already has a
    connection it returns [-EALREADY] and changes nothing; when the
    connection cannot be allocated it returns [-ENOMEM], again with the
    shared memory untouched.  Otherwise, for zone ids whose keys name
    shared segments, it returns 0 or -1: 0 exactly when the operating
    system grants every call of [init_shm], and then the process holds
    a connected endpoint whose sequence counter is 1; on -1 the process
    has no connection.  In either case no semaphore count changes and
    no ring but the two of the pair; a client leaves every ring as it
    found it; a server that got its two segments has zeroed both
    rings, whatever they held and even if it then fails on a
    semaphore, and left them alone if it did not get them. *)
Theorem idm_init_result (l r : Z) (s : bool) (p : process) (w : world) :
  let conn := {| local_zone_id := l; remote_zone_id := r; is_server := s;
                 next_seq := 1; connected := true |} in
  (global_conn p ≠ None → idm_init l r s p w = Some (- EALREADY, p, w))
  ∧ (global_conn p = None → fst (malloc p) = false →
       idm_init l r s p w = Some (- ENOMEM, snd (malloc p), w))
  ∧ (global_conn p = None → fst (malloc p) = true →
     tx_key conn ≠ IPC_PRIVATE → rx_key conn ≠ IPC_PRIVATE →
     ∃ ret w',
       idm_init l r s p w
       = Some (ret, if ret =? 0 then set_conn (snd (malloc p)) conn else snd (malloc p), w')
       ∧ (ret = 0 ∨ ret = -1)
       ∧ (ret = 0 ↔ os_grants conn w)
       ∧ faults w' = faults w
       ∧ (∀ n, sem_value w' n = sem_value w n)
       ∧ (∀ k, k ≠ tx_key conn → k ≠ rx_key conn → get_ring w' k = get_ring w k)
       ∧ (s = false → ∀ k, get_ring w' k = get_ring w k)
       ∧ (s = true →
            (shm_granted conn w →
               get_ring w' (tx_key conn) = zero_ring
               ∧ get_ring w' (rx_key conn) = zero_ring)
            ∧ (¬ shm_granted conn w → ∀ k, get_ring w' k = get_ring w k))).
Proof. exact (idm_init_parts l r s p w). Qed.

Lemma idm_init_result_witness :
  ∃ p1 w',
    idm_init 1 2 true {| global_conn := None; heap := [] |} sem_refusing_world
    = Some (-1, p1, w')
    ∧ global_conn p1 = None
    ∧ producer (get_ring sem_refusing_world (rx_key driver_conn)) = 2
    ∧ get_ring w' (rx_key driver_conn) = zero_ring.
Proof.
  destruct (idm_init_result 1 2 true {| global_conn := None; heap := [] |}
              sem_refusing_world) as (_ & _ & Hinit).
  destruct Hinit as (ret & w' & Hinit & Hret & Hiff & _ & _ & _ & _ & Hserver);
    [reflexivity | reflexivity | discriminate | discriminate |].
  assert (ret = -1) as ->.
  { destruct Hret as [-> | ->]; [|done].
    destruct Hiff as [Hgrant _]. destruct (Hgrant eq_refl) as (_ & _ & _ & Hsem & _).
    destruct Hsem. unfold sem_refusing_world, tx_sem.
    cbn [faults sem_open_fails remote_zone_id]. by apply elem_of_singleton. }
  destruct (Hserver eq_refl) as [Hzero _].
  destruct Hzero as [_ Hrx].
  { repeat split; apply not_elem_of_empty. }
  eexists _, w'. split; [exact Hinit|]. split; [reflexivity|].
  split; [reflexivity|exact Hrx].
Defined.

Lemma malloc_set_conn (p : process) (c : idm_connection) :
  fst (malloc (set_conn p c)) = fst (malloc p).
Proof. unfold malloc, set_conn. cbn [heap]. by destruct (heap p). Qed.

(** X7.  The handshake composes.  Starting from any shared memory, let
    a server initialise with zones (a, b) and then a client with zones
    (b, a), the keys of the two zones naming shared segments, the
    operating system granting the calls of [init_shm] and all
    allocations succeeding.  Both calls return 0; a message the client
    then builds with a payload of at most 4064 bytes and sends is
    accepted, and the server's next [idm_recv], with any timeout,
    returns that very message, sequence number 1. *)
Theorem init_build_send_recv
    (a b : Z) (server client : process) (w : world)
    (dst type : Z) (body : list byte) (len t : Z) :
  global_conn server = None → global_conn client = None →
  mallocs_ok 2 server → mallocs_ok 2 client →
  os_grants {| local_zone_id := a; remote_zone_id := b; is_server := true;
               next_seq := 1; connected := true |} w →
  0 <= len <= AREA_SIZE → len <= Z.of_nat (length body) →
  ∃ server1 w1 client1 w2 m client2 w3 server2 w4,
    idm_init a b true server w = Some (0, server1, w1)
    ∧ idm_init b a false client w1 = Some (0, client1, w2)
    ∧ idm_build_message dst type body len client1 = (Some m, client2)
    ∧ idm_send m client2 w2 = (0, w3)
    ∧ idm_recv t server1 w3 = Some (0, Some m, server2, w4)
    ∧ seq_num (header m) = 1
    ∧ payload m = take (Z.to_nat len) body.
Proof.
  intros Hs Hc Hms Hmc Hgrant Hlen Hbody.
  destruct (mallocs_ok_step 1 server Hms) as (Hs1 & Hs2 & Hsc).
  destruct (mallocs_ok_step 0 _ Hs2) as (Hs3 & _ & _).
  destruct (mallocs_ok_step 1 client Hmc) as (Hc1 & Hc2 & Hcc).
  destruct (mallocs_ok_step 0 _ Hc2) as (Hc3 & _ & Hcc').
  set (sconn := Build_idm_connection a b true 1 true) in *.
  set (cconn := Build_idm_connection b a false 1 true).
  pose proof Hgrant as (Htx & Hrx & Hshm & Hsem1 & Hsem2).
  destruct (idm_init_parts a b true server w) as (_ & _ & Hsinit).
  destruct (Hsinit Hs Hs1 Htx Hrx)
    as (ret & w1 & Hsi & _ & Hiff & Hf1 & _ & _ & _ & Hzero). clear Hsinit.
  fold sconn in Hiff, Hzero, Hsi.
  assert (ret = 0) as -> by (by apply Hiff).
  change (0 =? 0) with true in Hsi. cbn iota in Hsi.
  destruct (Hzero eq_refl) as [Hz _]. destruct (Hz Hshm) as [_ Hrxz]. clear Hzero Hz.
  assert (Hgrant2 : os_grants cconn w1).
  { unfold os_grants, shm_granted in *. rewrite Hf1.
    change (tx_key cconn) with (rx_key sconn). change (rx_key cconn) with (tx_key sconn).
    change (tx_sem cconn) with (rx_sem sconn). change (rx_sem cconn) with (tx_sem sconn).
    tauto. }
  destruct (idm_init_parts b a false client w1) as (_ & _ & Hcinit).
  destruct (Hcinit Hc Hc1)
    as (ret2 & w2 & Hci & _ & Hiff2 & _ & Hcsem & _ & Hcrings & _);
    [apply Hgrant2 | apply Hgrant2 |]. clear Hcinit.
  fold cconn in Hiff2, Hci.
  assert (ret2 = 0) as -> by (by apply Hiff2).
  change (0 =? 0) with true in Hci. cbn iota in Hci.
  specialize (Hcrings eq_refl).
  set (client1 := set_conn (snd (malloc client)) cconn) in *.
  set (server1 := set_conn (snd (malloc server)) sconn) in *.
  assert (Unsize : AREA_SIZE = 4064) by reflexivity.
  destruct (idm_build_message_parts dst type body len client1 cconn)
    as (m & Hbuild & Hmagic & Hver & _ & _ & _ & Hseq & Hplen & Hpay & Hwf & Hvalid & Hfit);
    [done|unfold client1; by rewrite malloc_set_conn|lia|done|].
  set (client2 := set_conn (snd (malloc client1)) (bump_seq cconn)) in *.
  assert (Hsendable : sendable m).
  { split; [apply Hvalid; unfold IDM_MAX_PAYLOAD_SIZE; lia|].
    split; [apply Hfit; lia|done]. }
  assert (Hq0 : holds_queue (get_ring w2 (tx_key (bump_seq cconn))) []).
  { rewrite Hcrings. change (tx_key (bump_seq cconn)) with (rx_key sconn).
    rewrite Hrxz. apply holds_queue_zero. }
  destruct (idm_send_queue m [] client2 (bump_seq cconn) w2) as (Hret & Hq1 & Hsem);
    [done|done|done|done|done|].
  destruct (idm_send m client2 w2) as [ret w3] eqn:Hsend. cbn [fst snd] in *. subst ret.
  destruct (idm_recv_queue m [] t server1 sconn w3) as (w4 & Hrecv & _);
    [done|done| | |unfold server1; by rewrite malloc_set_conn|].
  { exact Hq1. }
  { change (rx_sem sconn) with (tx_sem (bump_seq cconn)). rewrite Hsem. lia. }
  exists server1, w1, client1, w2, m, client2, w3, (snd (malloc server1)), w4.
  split; [done|]. split; [done|]. split; [done|]. split; [done|].
  split; [done|]. split; [done|]. done.
Qed.

Lemma no_faults_grant (conn : idm_connection) (w : world) :
  faults w = no_faults → tx_key conn ≠ IPC_PRIVATE → rx_key conn ≠ IPC_PRIVATE →
  os_grants conn w.
Proof.
  intros Hf Htx Hrx. unfold os_grants, shm_granted. rewrite Hf.
  cbn [no_faults shmget_fails shmat_fails sem_open_fails].
  repeat split; try done; apply not_elem_of_empty.
Qed.

Lemma sem_refusing_world_refuses (conn : idm_connection) :
  tx_sem conn = 2 ∨ rx_sem conn = 2 → ¬ os_grants conn sem_refusing_world.
Proof.
  intros Hsem (_ & _ & _ & Htx & Hrx).
  destruct Hsem as [Heq|Heq]; [apply Htx|apply Hrx]; rewrite Heq;
    unfold sem_refusing_world; cbn [faults sem_open_fails]; by apply elem_of_singleton.
Qed.

Lemma init_build_send_recv_witness :
  ∃ server1 w1 client1 w2 m client2 w3 server2 w4,
    idm_init 1 2 true {| global_conn := None; heap := [] |} fresh_world
    = Some (0, server1, w1)
    ∧ idm_init 2 1 false {| global_conn := None; heap := [] |} w1 = Some (0, client1, w2)
    ∧ idm_build_message 1 IDM_GPU_FREE [x01; x00; x00; x00; x00; x00; x00; x00] 8 client1
      = (Some m, client2)
    ∧ idm_send m client2 w2 = (0, w3)
    ∧ idm_recv (-1) server1 w3 = Some (0, Some m, server2, w4)
    ∧ seq_num (header m) = 1
    ∧ payload m = take (Z.to_nat 8) [x01; x00; x00; x00; x00; x00; x00; x00].
Proof.
  apply (init_build_send_recv 1 2 {| global_conn := None; heap := [] |}
           {| global_conn := None; heap := [] |} fresh_world 1 IDM_GPU_FREE
           [x01; x00; x00; x00; x00; x00; x00; x00] 8 (-1)).
  - reflexivity.
  - reflexivity.
  - intros i _. destruct i; discriminate.
  - intros i _. destruct i; discriminate.
  - apply no_faults_grant; [reflexivity | discriminate | discriminate].
  - split; discriminate.
  - discriminate.
Defined.

(** X8.  After [idm_cleanup] the process has no connection: [idm_send]
    and [idm_recv] return [-ENOTCONN] and [idm_build_message] returns
    NULL, none of them changing the shared memory or the process, and
    cleaning up again changes nothing.  A later [idm_init] that returns
    0 connects again with the sequence counter back at 1, so the first
    message built afterwards repeats sequence number 1. *)
Theorem idm_cleanup_disconnects
    (p : process) (w : world) (m : idm_message) (t : Z)
    (dst type : Z) (body : list byte) (len : Z) (l r : Z) (s : bool) :
  let p' := idm_cleanup p in
  idm_send m p' w = (- ENOTCONN, w)
  ∧ idm_recv t p' w = Some (- ENOTCONN, None, p', w)
  ∧ idm_build_message dst type body len p' = (None, p')
  ∧ idm_cleanup p' = p'
  ∧ heap p' = heap p
  ∧ (∀ p1 w1,
       idm_init l r s p' w = Some (0, p1, w1) →
       (∃ conn, global_conn p1 = Some conn ∧ next_seq conn = 1
                ∧ connected conn = true
                ∧ local_zone_id conn = l ∧ remote_zone_id conn = r)
       ∧ (fst (malloc p1) = true →
          ∃ m1 p2,
            idm_build_message dst type body len p1 = (Some m1, p2)
            ∧ seq_num (header m1) = 1)).
Proof.
  intros p'.
  assert (Hnone : global_conn p' = None).
  { subst p'. unfold idm_cleanup. by destruct (global_conn p) eqn:E. }
  split; [unfold idm_send; by rewrite Hnone|].
  split; [unfold idm_recv; by rewrite Hnone|].
  split; [unfold idm_build_message; by rewrite Hnone|].
  split; [unfold idm_cleanup at 1; by rewrite Hnone|].
  split; [subst p'; unfold idm_cleanup; by destruct (global_conn p)|].
  intros p1 w1 Hinit.
  destruct (idm_init_connected _ _ _ _ _ _ _ Hinit) as (_ & _ & ->).
  split.
  - eexists. split; [reflexivity|]. done.
  - intros Hm. eexists _, _. split.
    + apply idm_build_message_unfold; [done|done].
    + done.
Qed.

Lemma idm_cleanup_disconnects_witness :
  idm_send sync_request (idm_cleanup user_proc) fresh_world = (- ENOTCONN, fresh_world)
  ∧ ∃ p1 w1 m1 p2,
      idm_init 2 1 false (idm_cleanup user_proc) fresh_world = Some (0, p1, w1)
      ∧ idm_build_message 1 IDM_GPU_SYNC [] 0 p1 = (Some m1, p2)
      ∧ seq_num (header m1) = 1.
Proof.
  destruct (idm_cleanup_disconnects user_proc fresh_world sync_request 0
              1 IDM_GPU_SYNC [] 0 2 1 false) as (Hsend & _ & _ & _ & _ & Hagain).
  split; [exact Hsend|].
  assert (Hhead : (λ r, (r.1.1, r.1.2)) <$>
            idm_init 2 1 false (idm_cleanup user_proc) fresh_world
            = Some (0, user_proc)) by (vm_compute; reflexivity).
  destruct (idm_init 2 1 false (idm_cleanup user_proc) fresh_world)
    as [[[ret p1] w1]|] eqn:Hinit; [|discriminate Hhead].
  injection Hhead as -> ->.
  destruct (Hagain user_proc w1 eq_refl) as (_ & Hbuild).
  destruct (Hbuild eq_refl) as (m1 & p2 & Hb & Hseq).
  by exists user_proc, w1, m1, p2.
Defined.

(* ====================================================================== *)
(** * Further properties of the handle table *)
(* ====================================================================== *)

Lemma bytes_of_app (a b : list handle_entry) :
  bytes_of (a ++ b) = bytes_of a + bytes_of b.
Proof.
  induction a as [|e a IH]; [done|]. cbn [app bytes_of foldr] in *.
  fold (bytes_of (a ++ b)). fold (bytes_of a). lia.
Qed.

(** The entries of the table around one chain. *)
Lemma live_entries_split (t : handle_table) (idx : nat) (chain : list handle_entry) :
  hash_table t !! idx = Some chain →
  live_entries t = concat (take idx (hash_table t)) ++ chain
                   ++ concat (drop (S idx) (hash_table t)).
Proof.
  intros Hl. unfold live_entries.
  rewrite <- (take_drop_middle (hash_table t) idx chain Hl) at 1.
  by rewrite concat_app.
Qed.

Lemma live_entries_insert (t : handle_table) (idx : nat) (chain' : list handle_entry) :
  (idx < length (hash_table t))%nat →
  concat (<[idx := chain']> (hash_table t))
  = concat (take idx (hash_table t)) ++ chain'
    ++ concat (drop (S idx) (hash_table t)).
Proof.
  intros Hlt. rewrite insert_take_drop by done. by rewrite concat_app.
Qed.

Lemma remove_chain_split (z h : Z) (chain chain' : list handle_entry) (e : handle_entry) :
  remove_chain z h chain = (Some e, chain') →
  ∃ c1 c2, chain = c1 ++ e :: c2 ∧ chain' = c1 ++ c2.
Proof.
  revert chain'. induction chain as [|e0 chain IH]; intros chain' Hrem; [done|].
  cbn [remove_chain] in Hrem.
  destruct (entry_handle e0 =? h).
  - destruct (negb _); [done|]. injection Hrem as <- <-. by exists [], chain.
  - destruct (remove_chain z h chain) as [found next'].
    injection Hrem as -> <-. destruct (IH next' eq_refl) as (c1 & c2 & -> & ->).
    by exists (e0 :: c1), c2.
Qed.

Lemma lookup_chain_found (z : Z) (chain : list handle_entry) (e : handle_entry) :
  e ∈ chain → NoDup (entry_handle <$> chain) →
  lookup_chain z (entry_handle e) chain
  = if entry_zone_id e =? z then (entry_ptr e, Some (entry_size e)) else (0, None).
Proof.
  induction chain as [|e0 chain IH]; intros Hin Hnd; [by apply elem_of_nil in Hin|].
  rewrite fmap_cons in Hnd. apply NoDup_cons in Hnd as [Hnotin Hnd].
  cbn [lookup_chain]. apply elem_of_cons in Hin as [<-|Hin].
  - rewrite Z.eqb_refl. by destruct (entry_zone_id e =? z).
  - destruct (entry_handle e0 =? entry_handle e) eqn:E; branch.
    + exfalso. apply Hnotin. rewrite E. by apply list_elem_of_fmap_2.
    + by apply IH.
Qed.

Lemma lookup_chain_result (z h ptr : Z) (sz : option Z) (chain : list handle_entry) :
  lookup_chain z h chain = (ptr, sz) → ptr ≠ 0 →
  ∃ e, e ∈ chain ∧ entry_handle e = h ∧ entry_zone_id e = z
       ∧ entry_ptr e = ptr ∧ sz = Some (entry_size e).
Proof.
  induction chain as [|e0 chain IH]; intros Hl Hptr.
  - injection Hl as <- <-. done.
  - cbn [lookup_chain] in Hl. destruct (entry_handle e0 =? h) eqn:E; branch.
    + destruct (entry_zone_id e0 =? z) eqn:Ez; branch; cbn [negb] in Hl.
      * injection Hl as <- <-. exists e0. split; [by left|done].
      * injection Hl as <- <-. done.
    + destruct (IH Hl Hptr) as (e & Hin & He). exists e. split; [by right|done].
Qed.

Lemma table_inv_chain (t : handle_table) (h : Z) :
  table_inv t →
  hash_table t !! Z.to_nat (hash_handle h) = Some (get_chain t (hash_handle h))
  ∧ NoDup (entry_handle <$> get_chain t (hash_handle h)).
Proof.
  intros (Hlen & _ & _ & Hnd & _).
  assert (Hl : hash_table t !! Z.to_nat (hash_handle h) = Some (get_chain t (hash_handle h))).
  { apply get_chain_lookup. rewrite Hlen. pose proof (hash_handle_range h). lia. }
  split; [done|].
  rewrite (live_entries_split t _ _ Hl), !fmap_app in Hnd.
  apply NoDup_app in Hnd as (_ & _ & Hnd). by apply NoDup_app in Hnd as (Hnd & _ & _).
Qed.

Lemma table_inv_home (t : handle_table) (e : handle_entry) :
  table_inv t → e ∈ live_entries t →
  e ∈ get_chain t (hash_handle (entry_handle e)).
Proof.
  intros Hinv Hin. pose proof Hinv as (Hlen & _ & Hent & _).
  apply list_elem_of_In, in_concat in Hin as (chain & Hchain & Hin).
  apply list_elem_of_In, list_elem_of_lookup in Hchain as (idx & Hidx).
  apply list_elem_of_In in Hin.
  destruct (Hent idx chain e Hidx Hin) as (Hhash & _).
  unfold get_chain. by rewrite Hhash, Nat2Z.id, Hidx.
Qed.

Lemma concat_replicate_nil {A} (n : nat) : concat (replicate n (@nil A)) = [].
Proof. induction n as [|n IH]; [done|]. cbn. exact IH. Qed.

Lemma table_inv_init : table_inv handle_table_init.
Proof.
  unfold table_inv, handle_table_init, live_entries.
  cbn [hash_table next_handle total_handles total_memory].
  rewrite concat_replicate_nil, length_replicate.
  split; [done|]. split; [lia|]. split.
  { intros idx chain e Hl Hin. apply lookup_replicate in Hl as [-> _].
    by apply elem_of_nil in Hin. }
  split; [constructor|]. cbn. split; [lia|]. done.
Qed.

Lemma table_inv_handles_below (t : handle_table) (e : handle_entry) :
  table_inv t → e ∈ live_entries t →
  0 < entry_handle e < next_handle t ∧ entry_ptr e ≠ 0.
Proof.
  intros (_ & _ & Hent & _) Hin.
  apply list_elem_of_In, in_concat in Hin as (chain & Hchain & Hin).
  apply list_elem_of_In, list_elem_of_lookup in Hchain as (idx & Hidx).
  apply list_elem_of_In in Hin. by destruct (Hent idx chain e Hidx Hin) as (_ & ? & ?).
Qed.

Lemma u64_add_idemp (a b : Z) : u64 (u64 a + b) = u64 (a + b).
Proof. unfold u64. apply Zplus_mod_idemp_l. Qed.

Lemma u64_sub_idemp (a b : Z) : u64 (u64 a - b) = u64 (a - b).
Proof. unfold u64. apply Zminus_mod_idemp_l. Qed.

(** The table after an insert that went through. *)
Lemma handle_table_insert_unfold (z ptr s : Z) (t : handle_table) (p : process) :
  ptr ≠ 0 → fst (malloc p) = true →
  handle_table_insert z ptr s t p =
    (next_handle t,
     {| hash_table :=
          <[Z.to_nat (hash_handle (next_handle t)) :=
              {| entry_handle := next_handle t; entry_zone_id := z;
                 entry_ptr := ptr; entry_size := s |}
              :: get_chain t (hash_handle (next_handle t))]> (hash_table t);
        next_handle := u64 (next_handle t + 1);
        total_handles := u64 (total_handles t + 1);
        total_memory := u64 (total_memory t + s) |},
     snd (malloc p)).
Proof.
  intros Hptr Hm. unfold handle_table_insert.
  destruct (ptr =? 0) eqn:E; branch; [done|].
  destruct (malloc p) as [ok p1]. cbn [fst snd] in *. by subst ok.
Qed.

Lemma handle_table_insert_refused (z ptr s : Z) (t : handle_table) (p : process) :
  ptr = 0 ∨ fst (malloc p) = false →
  fst (fst (handle_table_insert z ptr s t p)) = 0
  ∧ snd (fst (handle_table_insert z ptr s t p)) = t.
Proof.
  unfold handle_table_insert. intros [->|Hm]; [done|].
  destruct (ptr =? 0); [done|].
  destruct (malloc p) as [ok p1]. cbn [fst] in Hm. by subst ok.
Qed.

Lemma table_inv_insert (z ptr s : Z) (t : handle_table) (p : process) :
  table_inv t → next_handle t < 2 ^ 64 - 1 →
  table_inv (snd (fst (handle_table_insert z ptr s t p))).
Proof.
  intros Hinv Hroom.
  destruct (decide (ptr = 0)) as [Hptr|Hptr].
  { by rewrite (proj2 (handle_table_insert_refused z ptr s t p (or_introl Hptr))). }
  destruct (fst (malloc p)) eqn:Hm.
  2: { by rewrite (proj2 (handle_table_insert_refused z ptr s t p (or_intror Hm))). }
  rewrite handle_table_insert_unfold by done. cbn [fst snd].
  pose proof Hinv as (Hlen & Hnext & Hent & Hnd & Hcount & Htotal & Hmem).
  set (h := next_handle t) in *.
  set (e := Build_handle_entry h z ptr s).
  destruct (table_inv_chain t h Hinv) as [Hl _].
  set (idx := Z.to_nat (hash_handle h)) in *.
  set (c := get_chain t (hash_handle h)) in *.
  assert (Hidx : (idx < length (hash_table t))%nat) by (by eapply lookup_lt_Some).
  assert (Hperm : concat (<[idx := e :: c]> (hash_table t)) ≡ₚ e :: live_entries t).
  { rewrite live_entries_insert by done. rewrite (live_entries_split t idx c Hl).
    symmetry. apply (Permutation_middle _ (c ++ _)). }
  unfold table_inv, live_entries.
  cbn [hash_table next_handle total_handles total_memory].
  rewrite length_insert.
  assert (Hn1 : u64 (h + 1) = h + 1) by (apply u64_small; lia).
  rewrite Hn1. split; [done|]. split; [lia|]. split.
  { intros idx' chain e' Hl' Hin'.
    destruct (decide (idx = idx')) as [<-|Hne].
    - rewrite list_lookup_insert_eq in Hl' by done. injection Hl' as <-.
      apply elem_of_cons in Hin' as [->|Hin'].
      + unfold e. cbn [entry_handle entry_ptr]. split; [|split; [lia|done]].
        subst idx. pose proof (hash_handle_range h). lia.
      + destruct (Hent idx c e' Hl Hin') as (? & ? & ?). split; [done|]. split; [lia|done].
    - rewrite list_lookup_insert_ne in Hl' by done.
      destruct (Hent idx' chain e' Hl' Hin') as (? & ? & ?).
      split; [done|]. split; [lia|done]. }
  split.
  { rewrite Hperm, fmap_cons. apply NoDup_cons. split; [|done].
    intros Hin. apply list_elem_of_fmap in Hin as (e' & He' & Hin).
    destruct (table_inv_handles_below t e' Hinv Hin) as [Hb _].
    unfold e in He'. cbn [entry_handle] in He'. lia. }
  assert (Hlength : length (concat (<[idx := e :: c]> (hash_table t)))
                    = S (length (live_entries t))) by (by rewrite Hperm).
  rewrite Hlength.
  split; [lia|]. split.
  { rewrite Htotal, u64_small; lia. }
  rewrite live_entries_insert by done.
  rewrite Hmem, (live_entries_split t idx c Hl), u64_add_idemp, !bytes_of_app.
  unfold e. cbn [bytes_of foldr]. fold (bytes_of c). f_equal. cbn [entry_size]. lia.
Qed.

Lemma table_inv_remove (z h : Z) (t : handle_table) :
  table_inv t → table_inv (snd (handle_table_remove z h t)).
Proof.
  intros Hinv. unfold handle_table_remove.
  destruct (remove_chain z h (get_chain t (hash_handle h))) as [[e|] c'] eqn:Hrem; [|done].
  cbn [snd].
  pose proof Hinv as (Hlen & Hnext & Hent & Hnd & Hcount & Htotal & Hmem).
  destruct (table_inv_chain t h Hinv) as [Hl _].
  set (idx := Z.to_nat (hash_handle h)) in *.
  set (c := get_chain t (hash_handle h)) in *.
  assert (Hidx : (idx < length (hash_table t))%nat) by (by eapply lookup_lt_Some).
  destruct (remove_chain_split _ _ _ _ _ Hrem) as (c1 & c2 & Hc & ->).
  assert (Hperm : live_entries t ≡ₚ e :: concat (<[idx := c1 ++ c2]> (hash_table t))).
  { rewrite live_entries_insert by done. rewrite (live_entries_split t idx c Hl), Hc.
    rewrite <- !app_assoc. cbn [app].
    rewrite (Permutation_middle (concat (take idx (hash_table t)))).
    apply Permutation_app_head. symmetry. apply Permutation_middle. }
  unfold table_inv, live_entries.
  cbn [hash_table next_handle total_handles total_memory].
  rewrite length_insert. split; [done|]. split; [done|]. split.
  { intros idx' chain e' Hl' Hin'.
    destruct (decide (idx = idx')) as [<-|Hne].
    - rewrite list_lookup_insert_eq in Hl' by done. injection Hl' as <-.
      apply (Hent idx c e' Hl). rewrite Hc.
      apply elem_of_app in Hin' as [Hin'|Hin']; apply elem_of_app;
        [by left|right; by right].
    - rewrite list_lookup_insert_ne in Hl' by done. by apply (Hent idx' chain e'). }
  assert (Hlength : length (live_entries t)
                    = S (length (concat (<[idx := c1 ++ c2]> (hash_table t)))))
    by (by rewrite Hperm).
  split.
  { rewrite Hperm, fmap_cons in Hnd. by apply NoDup_cons in Hnd as [_ Hnd]. }
  split; [lia|]. split.
  { rewrite Htotal, Hlength, u64_small; lia. }
  rewrite live_entries_insert by done.
  rewrite Hmem, (live_entries_split t idx c Hl), Hc, u64_sub_idemp, !bytes_of_app.
  cbn [bytes_of foldr]. fold (bytes_of c2). f_equal. lia.
Qed.

Lemma table_inv_cleanup (t : handle_table) :
  table_inv t → table_inv (handle_table_cleanup t).
Proof.
  intros (Hlen & _). unfold handle_table_cleanup. rewrite Hlen.
  apply table_inv_init.
Qed.

Lemma table_reachable_inv (t : handle_table) :
  table_reachable t → table_inv t.
Proof.
  induction 1 as [|z ptr s t p _ IH Hroom|z h t _ IH|t _ IH].
  - apply table_inv_init.
  - by apply table_inv_insert.
  - by apply table_inv_remove.
  - by apply table_inv_cleanup.
Qed.

Lemma one_alloc_table_reachable : table_reachable one_alloc_table.
Proof.
  apply (table_after_insert 2 4096 1024 handle_table_init driver_proc);
    [apply table_fresh|reflexivity].
Qed.

Lemma owns_lookup (t : handle_table) (z : Z) (e : handle_entry) :
  table_inv t → e ∈ live_entries t →
  handle_table_lookup z (entry_handle e) t
  = if entry_zone_id e =? z then (entry_ptr e, Some (entry_size e)) else (0, None).
Proof.
  intros Hinv Hin. unfold handle_table_lookup.
  apply lookup_chain_found; [by apply table_inv_home|by apply table_inv_chain].
Qed.

(** X9.  The statistics are exact and handles are unique.  In every
    table reached from [handle_table_init] by inserts, removes and
    cleanups, as long as the handle counter stays below 2^64 - 1 at
    each insert, [handle_table_stats] returns the number of entries in
    the table and the sum of their sizes modulo 2^64; no two entries
    have the same handle; and every entry has a non-null pointer and a
    handle above 0 and below the counter. *)
Theorem stats_exact_handles_unique (t : handle_table) :
  table_reachable t →
  handle_table_stats t
  = (Z.of_nat (length (live_entries t)), u64 (bytes_of (live_entries t)))
  ∧ NoDup (entry_handle <$> live_entries t)
  ∧ ∀ e, e ∈ live_entries t →
      0 < entry_handle e < next_handle t ∧ entry_ptr e ≠ 0.
Proof.
  intros Hreach. pose proof (table_reachable_inv t Hreach) as Hinv.
  pose proof Hinv as (_ & _ & _ & Hnd & _ & Hcount & Hbytes).
  unfold handle_table_stats. rewrite Hcount, Hbytes.
  split; [done|]. split; [done|].
  intros e Hin. by apply table_inv_handles_below.
Qed.

Lemma stats_exact_handles_unique_witness :
  table_reachable one_alloc_table
  ∧ handle_table_stats one_alloc_table = (1, 1024).
Proof.
  split; [apply one_alloc_table_reachable|].
  destruct (stats_exact_handles_unique one_alloc_table) as (Hstats & _).
  - apply one_alloc_table_reachable.
  - rewrite Hstats. reflexivity.
Defined.

(** X10.  In a reachable table [handle_table_lookup] returns a non-null
    pointer exactly when the zone owns the handle; it then returns the
    pointer of the one entry with that handle and stores that entry's
    size; in every other case it returns NULL and stores nothing. *)
Theorem handle_table_lookup_owner (t : handle_table) (z h : Z) :
  table_reachable t →
  (owns t z h ↔ fst (handle_table_lookup z h t) ≠ 0)
  ∧ (∀ e, e ∈ live_entries t → entry_handle e = h → entry_zone_id e = z →
       handle_table_lookup z h t = (entry_ptr e, Some (entry_size e)))
  ∧ (¬ owns t z h → handle_table_lookup z h t = (0, None)).
Proof.
  intros Hreach. pose proof (table_reachable_inv t Hreach) as Hinv.
  assert (Hfound : ∀ e, e ∈ live_entries t → entry_handle e = h → entry_zone_id e = z →
            handle_table_lookup z h t = (entry_ptr e, Some (entry_size e))).
  { intros e Hin <- Hz. rewrite (owns_lookup t z e Hinv Hin).
    by rewrite (proj2 (Z.eqb_eq _ _) Hz). }
  split; [|split; [done|]].
  - split.
    + intros (e & Hin & Hh & Hz). rewrite (Hfound e Hin Hh Hz). cbn [fst].
      by apply (table_inv_handles_below t e Hinv Hin).
    + intros Hne. destruct (handle_table_lookup z h t) as [ptr sz] eqn:Hl.
      cbn [fst] in Hne. unfold handle_table_lookup in Hl.
      destruct (lookup_chain_result _ _ _ _ _ Hl Hne) as (e & Hin & Hh & Hz & _).
      exists e. split; [|done]. by eapply get_chain_live.
  - intros Hnot. by apply handle_table_lookup_unowned.
Qed.

Lemma handle_table_lookup_owner_witness :
  handle_table_lookup 2 1 one_alloc_table = (4096, Some 1024)
  ∧ handle_table_lookup 3 1 one_alloc_table = (0, None).
Proof.
  split.
  - destruct (handle_table_lookup_owner one_alloc_table 2 1 one_alloc_table_reachable)
      as (_ & Hfound & _).
    apply (Hfound (Build_handle_entry 1 2 4096 1024)); [|reflexivity|reflexivity].
    apply list_elem_of_In. vm_compute. tauto.
  - destruct (handle_table_lookup_owner one_alloc_table 3 1 one_alloc_table_reachable)
      as (Hiff & _ & Hnone).
    apply Hnone. intros Howns. apply Hiff in Howns. by vm_compute in Howns.
Defined.

Lemma lookup_chain_skip (z h : Z) (c1 c2 : list handle_entry) (e : handle_entry) :
  entry_handle e ≠ h →
  lookup_chain z h (c1 ++ e :: c2) = lookup_chain z h (c1 ++ c2).
Proof.
  intros Hne. induction c1 as [|e0 c1 IH]; cbn [app lookup_chain].
  - destruct (entry_handle e =? h) eqn:E; branch; done.
  - by rewrite IH.
Qed.

Lemma get_chain_with_insert (t t' : handle_table) (i : nat) (c' : list handle_entry)
    (idx : Z) :
  hash_table t' = <[i := c']> (hash_table t) → (i < length (hash_table t))%nat →
  get_chain t' idx = if decide (Z.to_nat idx = i) then c' else get_chain t idx.
Proof.
  intros Ht' Hlt. unfold get_chain. rewrite Ht'.
  destruct (decide (Z.to_nat idx = i)) as [->|Hne].
  - by rewrite list_lookup_insert_eq.
  - by rewrite list_lookup_insert_ne.
Qed.

Lemma remove_chain_owner (z : Z) (chain : list handle_entry) (e : handle_entry) :
  e ∈ chain → NoDup (entry_handle <$> chain) → entry_zone_id e = z →
  ∃ chain', remove_chain z (entry_handle e) chain = (Some e, chain').
Proof.
  intros Hin Hnd Hz. induction chain as [|e0 chain IH]; [by apply elem_of_nil in Hin|].
  rewrite fmap_cons in Hnd. apply NoDup_cons in Hnd as [Hnotin Hnd].
  cbn [remove_chain]. apply elem_of_cons in Hin as [<-|Hin].
  - rewrite Z.eqb_refl, (proj2 (Z.eqb_eq _ _) Hz). cbn [negb]. by eexists.
  - destruct (entry_handle e0 =? entry_handle e) eqn:E; branch.
    + exfalso. apply Hnotin. rewrite E. by apply list_elem_of_fmap_2.
    + destruct (IH Hin Hnd) as (chain' & ->). by eexists.
Qed.

(** What a successful insert does to the lookups. *)
Lemma insert_lookup_parts (z ptr s : Z) (t : handle_table) (p : process) :
  table_reachable t → next_handle t < 2 ^ 64 - 1 →
  ptr ≠ 0 → fst (malloc p) = true →
  let h := fst (fst (handle_table_insert z ptr s t p)) in
  let t1 := snd (fst (handle_table_insert z ptr s t p)) in
  h = next_handle t ∧ h ≠ 0 ∧ handle_absent t (next_handle t)
  ∧ handle_table_lookup z (next_handle t) t1 = (ptr, Some s)
  ∧ (∀ z' h', h' ≠ next_handle t →
       handle_table_lookup z' h' t1 = handle_table_lookup z' h' t)
  ∧ (∀ z', z' ≠ z → handle_table_lookup z' (next_handle t) t1 = (0, None))
  ∧ handle_table_stats t1 = (total_handles t + 1, u64 (total_memory t + s)).
Proof.
  intros Hreach Hroom Hptr Hm h t1.
  pose proof (table_reachable_inv t Hreach) as Hinv.
  pose proof (table_inv_insert z ptr s t p Hinv Hroom) as Hinv1. fold t1 in Hinv1.
  pose proof Hinv as (Hlen & Hnext & _ & _ & Hcount & Htotal & _).
  subst h t1. rewrite handle_table_insert_unfold in * by done. cbn [fst snd] in *.
  set (h := next_handle t) in *.
  set (e := Build_handle_entry h z ptr s) in *.
  set (t1 := Build_handle_table _ _ _ _) in *.
  destruct (table_inv_chain t h Hinv) as [Hl _].
  assert (Hidx : (Z.to_nat (hash_handle h) < length (hash_table t))%nat)
    by (by eapply lookup_lt_Some).
  assert (Hchain : ∀ idx, get_chain t1 idx
            = if decide (Z.to_nat idx = Z.to_nat (hash_handle h))
              then e :: get_chain t (hash_handle h) else get_chain t idx).
  { intros idx. by apply get_chain_with_insert. }
  assert (Hin : e ∈ live_entries t1).
  { apply (get_chain_live t1 (hash_handle h)). rewrite Hchain.
    rewrite decide_True by done. by left. }
  split; [done|]. split; [lia|]. split.
  { intros e' Hin' He'. destruct (table_inv_handles_below t e' Hinv Hin'). lia. }
  split.
  { pose proof (owns_lookup t1 z e Hinv1 Hin) as Hlk.
    change (entry_handle e) with h in Hlk. rewrite Hlk. unfold e.
    cbn [entry_zone_id entry_ptr entry_size]. by rewrite Z.eqb_refl. }
  split.
  { intros z' h' Hh'. unfold handle_table_lookup. rewrite Hchain.
    destruct (decide _) as [Heq|Hne]; [|done].
    assert (Hhash : hash_handle h' = hash_handle h).
    { pose proof (hash_handle_range h). pose proof (hash_handle_range h'). lia. }
    rewrite Hhash.
    apply (lookup_chain_skip z' h' [] (get_chain t (hash_handle h)) e).
    unfold e. cbn [entry_handle]. congruence. }
  split.
  { intros z' Hz'. pose proof (owns_lookup t1 z' e Hinv1 Hin) as Hlk.
    change (entry_handle e) with h in Hlk. rewrite Hlk. unfold e.
    cbn [entry_zone_id].
    destruct (z =? z') eqn:E; branch; done. }
  unfold handle_table_stats, t1. cbn [total_handles total_memory].
  f_equal. rewrite Htotal. apply u64_small. lia.
Qed.

(** X11.  A successful insert into a reachable table returns the handle
    counter, which is not 0 and not in the table before.  Afterwards
    the inserting zone looks the handle up to the pointer and size it
    gave, every other zone gets NULL for it, the lookups of all other
    handles answer as before, and the statistics grew by one handle and
    [size] bytes. *)
Theorem insert_then_lookup (z ptr s : Z) (t : handle_table) (p : process) :
  table_reachable t → next_handle t < 2 ^ 64 - 1 →
  ptr ≠ 0 → fst (malloc p) = true →
  let h := fst (fst (handle_table_insert z ptr s t p)) in
  let t1 := snd (fst (handle_table_insert z ptr s t p)) in
  h = next_handle t ∧ h ≠ 0 ∧ handle_absent t h
  ∧ handle_table_lookup z h t1 = (ptr, Some s)
  ∧ (∀ z', z' ≠ z → handle_table_lookup z' h t1 = (0, None))
  ∧ (∀ z' h', h' ≠ h → handle_table_lookup z' h' t1 = handle_table_lookup z' h' t)
  ∧ handle_table_stats t1 = (total_handles t + 1, u64 (total_memory t + s)).
Proof.
  intros Hreach Hroom Hptr Hm h t1.
  destruct (insert_lookup_parts z ptr s t p Hreach Hroom Hptr Hm)
    as (Hh & Hnz & Habs & Hlook & Hothers & Hforeign & Hstats).
  fold h t1 in Hh, Hnz, Hlook, Hothers, Hforeign, Hstats.
  clearbody h t1. subst h. done.
Qed.

Lemma insert_then_lookup_witness :
  handle_table_lookup 2 2
    (snd (fst (handle_table_insert 2 8192 64 one_alloc_table driver_proc)))
  = (8192, Some 64).
Proof.
  destruct (insert_then_lookup 2 8192 64 one_alloc_table driver_proc)
    as (_ & _ & _ & Hlook & _).
  - apply one_alloc_table_reachable.
  - reflexivity.
  - done.
  - reflexivity.
  - exact Hlook.
Defined.

(** What the removal of an owned handle does to the table. *)
Lemma remove_owner_parts (z h : Z) (t : handle_table) :
  table_reachable t → owns t z h →
  let ptr := fst (handle_table_remove z h t) in
  let t1 := snd (handle_table_remove z h t) in
  ptr ≠ 0 ∧ fst (handle_table_lookup z h t) = ptr
  ∧ handle_absent t1 h
  ∧ (∀ z', handle_table_lookup z' h t1 = (0, None))
  ∧ handle_table_remove z h t1 = (0, t1)
  ∧ (∀ z' h', h' ≠ h → handle_table_lookup z' h' t1 = handle_table_lookup z' h' t)
  ∧ total_handles t1 = total_handles t - 1
  ∧ (∃ size, snd (handle_table_lookup z h t) = Some size
             ∧ total_memory t1 = u64 (total_memory t - size))
  ∧ next_handle t1 = next_handle t.
Proof.
  intros Hreach (e & Hin & Hh & Hz) ptr t1.
  pose proof (table_reachable_inv t Hreach) as Hinv.
  pose proof (table_inv_remove z h t Hinv) as Hinv1. fold t1 in Hinv1.
  pose proof Hinv as (Hlen & Hnext & _ & _ & Hcount & Htotal & _).
  destruct (table_inv_chain t h Hinv) as [Hl Hnd].
  assert (Hidx : (Z.to_nat (hash_handle h) < length (hash_table t))%nat)
    by (by eapply lookup_lt_Some).
  assert (Hhome : e ∈ get_chain t (hash_handle h))
    by (rewrite <- Hh; by apply table_inv_home).
  destruct (remove_chain_owner z _ e Hhome Hnd Hz) as (c' & Hrem). rewrite Hh in Hrem.
  destruct (remove_chain_split _ _ _ _ _ Hrem) as (c1 & c2 & Hc & ->).
  destruct (remove_chain_found _ _ _ _ _ Hrem) as (_ & _ & _ & Hgone).
  specialize (Hgone Hnd).
  assert (Hlook : handle_table_lookup z h t = (entry_ptr e, Some (entry_size e))).
  { rewrite <- Hh, (owns_lookup t z e Hinv Hin).
    by rewrite (proj2 (Z.eqb_eq _ _) Hz). }
  subst ptr t1. unfold handle_table_remove in *. rewrite Hrem in *. cbn [fst snd] in *.
  set (t1 := Build_handle_table _ _ _ _) in *.
  assert (Hchain : ∀ idx, get_chain t1 idx
            = if decide (Z.to_nat idx = Z.to_nat (hash_handle h))
              then c1 ++ c2 else get_chain t idx).
  { intros idx. by apply get_chain_with_insert. }
  assert (Habsent : handle_absent t1 h).
  { intros e' Hin' He'. pose proof (table_inv_home t1 e' Hinv1 Hin') as Hhome'.
    rewrite He', Hchain, decide_True in Hhome' by done. by apply (Hgone e'). }
  assert (Hnot : ∀ z', ¬ owns t1 z' h).
  { intros z' (e' & Hin' & He' & _). by apply (Habsent e'). }
  split; [by apply (table_inv_handles_below t e Hinv Hin)|].
  split; [by rewrite Hlook|]. split; [done|].
  split; [intros z'; by apply handle_table_lookup_unowned|].
  split; [by apply handle_table_remove_unowned|].
  split.
  { intros z' h' Hh'. unfold handle_table_lookup. rewrite Hchain.
    destruct (decide _) as [Heq|Hne]; [|done].
    assert (Hhash : hash_handle h' = hash_handle h).
    { pose proof (hash_handle_range h). pose proof (hash_handle_range h'). lia. }
    rewrite Hhash, Hc. symmetry. apply lookup_chain_skip. congruence. }
  split.
  { unfold t1. cbn [total_handles]. rewrite Htotal. apply u64_small.
    assert (0 < length (live_entries t))%nat; [|lia].
    destruct (live_entries t); [by apply elem_of_nil in Hin|cbn; lia]. }
  split; [|done].
  exists (entry_size e). by rewrite Hlook.
Qed.

(** X12.  When a zone removes a handle it owns in a reachable table,
    [handle_table_remove] returns the entry's pointer (the one lookup
    returned), and afterwards the handle is in the table no more: every
    zone's lookup of it fails and a second remove returns NULL and
    changes nothing.  The lookups of all other handles answer as
    before, the statistics shrink by one handle and the entry's bytes,
    and the handle counter does not move back. *)
Theorem remove_then_gone (z h : Z) (t : handle_table) :
  table_reachable t → owns t z h →
  let ptr := fst (handle_table_remove z h t) in
  let t1 := snd (handle_table_remove z h t) in
  ptr ≠ 0 ∧ fst (handle_table_lookup z h t) = ptr
  ∧ handle_absent t1 h
  ∧ (∀ z', handle_table_lookup z' h t1 = (0, None))
  ∧ handle_table_remove z h t1 = (0, t1)
  ∧ (∀ z' h', h' ≠ h → handle_table_lookup z' h' t1 = handle_table_lookup z' h' t)
  ∧ total_handles t1 = total_handles t - 1
  ∧ (∃ size, snd (handle_table_lookup z h t) = Some size
             ∧ total_memory t1 = u64 (total_memory t - size))
  ∧ next_handle t1 = next_handle t.
Proof. exact (remove_owner_parts z h t). Qed.

Lemma remove_then_gone_witness :
  handle_table_remove 2 1 (snd (handle_table_remove 2 1 one_alloc_table))
  = (0, snd (handle_table_remove 2 1 one_alloc_table)).
Proof.
  destruct (remove_then_gone 2 1 one_alloc_table) as (_ & _ & _ & _ & Htwice & _).
  - apply one_alloc_table_reachable.
  - exists (Build_handle_entry 1 2 4096 1024).
    split; [|split; reflexivity]. apply list_elem_of_In. vm_compute. tauto.
  - exact Htwice.
Defined.

Lemma handle_table_insert_next (z ptr s : Z) (t : handle_table) (p : process) :
  let h := fst (fst (handle_table_insert z ptr s t p)) in
  let t1 := snd (fst (handle_table_insert z ptr s t p)) in
  (h = 0 ∧ t1 = t) ∨ (h = next_handle t ∧ next_handle t1 = u64 (next_handle t + 1)).
Proof.
  unfold handle_table_insert. destruct (ptr =? 0); [by left|].
  destruct (malloc p) as [[] p1]; cbn [negb fst snd]; [by right|by left].
Qed.

Lemma handle_table_remove_next (z h : Z) (t : handle_table) :
  next_handle (snd (handle_table_remove z h t)) = next_handle t.
Proof.
  unfold handle_table_remove.
  by destruct (remove_chain z h (get_chain t (hash_handle h))) as [[e|] c'].
Qed.

Lemma run_ops_handles (ops : list table_op) (t : handle_table) (p : process) :
  1 <= next_handle t → next_handle t + Z.of_nat (length ops) < 2 ^ 64 →
  let hs := filter (λ h, h ≠ 0) (fst (fst (run_ops ops t p))) in
  let t2 := snd (fst (run_ops ops t p)) in
  next_handle t2 = next_handle t + Z.of_nat (length hs)
  ∧ Forall (λ h, next_handle t <= h < next_handle t2) hs
  ∧ StronglySorted Z.lt hs.
Proof.
  revert t p. induction ops as [|op ops IH]; intros t p Hlow Hroom; cbn zeta.
  { cbn. split; [lia|]. split; constructor. }
  cbn [length] in Hroom. destruct op as [z ptr s|z h]; cbn [run_ops].
  - pose proof (handle_table_insert_next z ptr s t p) as Hins. cbn zeta in Hins.
    destruct (handle_table_insert z ptr s t p) as [[h t1] p1]. cbn [fst snd] in Hins.
    assert (Hnext1 : next_handle t <= next_handle t1 <= next_handle t + 1).
    { destruct Hins as [[_ ->]|[_ ->]]; [lia|]. rewrite u64_small; lia. }
    specialize (IH t1 p1 ltac:(lia) ltac:(lia)). cbn zeta in IH.
    destruct (run_ops ops t1 p1) as [[hs t2] p2]. cbn [fst snd] in *.
    destruct IH as (Hcount & Hall & Hsorted).
    destruct Hins as [[-> ->]|[-> Hn1]].
    + rewrite filter_cons_False by (intros Hne; by apply Hne). done.
    + rewrite u64_small in Hn1 by lia.
      rewrite filter_cons_True by lia. cbn [length].
      split; [lia|]. split.
      * constructor; [lia|]. eapply Forall_impl; [exact Hall|]. cbn. lia.
      * constructor; [done|]. eapply Forall_impl; [exact Hall|]. cbn. lia.
  - pose proof (handle_table_remove_next z h t) as Hrem.
    destruct (handle_table_remove z h t) as [ptr t1]. cbn [snd] in Hrem.
    specialize (IH t1 p ltac:(lia) ltac:(lia)). cbn zeta in IH.
    rewrite Hrem in IH. destruct IH as (Hcount & Hall & Hsorted).
    split; [lia|]. done.
Qed.

(** X13.  Handles are not reused.  Along any run of inserts and removes
    that starts with the counter at 1 or above and ends before it
    reaches 2^64, the handles returned by the successful inserts are
    strictly increasing, whatever was removed in between; all lie
    between the counter before and the counter after the run; and the
    counter advanced by the number of successful inserts. *)
Theorem handles_never_reused (ops : list table_op) (t : handle_table) (p : process) :
  1 <= next_handle t → next_handle t + Z.of_nat (length ops) < 2 ^ 64 →
  let hs := filter (λ h, h ≠ 0) (fst (fst (run_ops ops t p))) in
  let t2 := snd (fst (run_ops ops t p)) in
  StronglySorted Z.lt hs
  ∧ NoDup hs
  ∧ Forall (λ h, next_handle t <= h < next_handle t2) hs
  ∧ next_handle t2 = next_handle t + Z.of_nat (length hs).
Proof.
  intros Hlow Hroom hs t2.
  destruct (run_ops_handles ops t p Hlow Hroom) as (Hcount & Hall & Hsorted).
  fold hs t2 in Hcount, Hall, Hsorted.
  split; [done|]. split; [|done].
  clear -Hsorted. induction Hsorted as [|h hs _ IH Hlt]; constructor; [|done].
  intros Hin. rewrite Forall_forall in Hlt. specialize (Hlt h Hin). lia.
Qed.

Lemma handles_never_reused_witness :
  fst (fst (run_ops [OpInsert 2 4096 16; OpRemove 2 1; OpInsert 2 4096 16]
              handle_table_init driver_proc)) = [1; 2]
  ∧ NoDup [1; 2].
Proof.
  split; [reflexivity|].
  destruct (handles_never_reused [OpInsert 2 4096 16; OpRemove 2 1; OpInsert 2 4096 16]
              handle_table_init driver_proc) as (_ & Hnd & _).
  - reflexivity.
  - reflexivity.
  - exact Hnd.
Defined.

(* ====================================================================== *)
(** * Further properties of the handlers *)
(* ====================================================================== *)

Section AllocFacts.
Context {dev : Type} `{CudaDriver dev}.

(** X14.  [handle_gpu_alloc] registers the allocation or leaves no
    trace of it.  On a request that carries a size, with a reachable
    table whose counter is below 2^64 - 1, the handler calls
    [cuMemAlloc] once.  If the driver fails, the table is as before.
    If the driver returns a non-null pointer and the entry can be
    allocated, the table resolves a handle that was not in it before,
    for the requesting zone, to that pointer with the requested size,
    nothing else is called, and the RESPONSE_OK sent carries the
    request's sequence number and that handle.  If the table refuses
    (null pointer or no memory for the entry), the pointer goes back to
    the driver through [cuMemFree] and the table is as before. *)
Theorem alloc_registers_or_rolls_back (m : idm_message) (st : driver_state dev)
    (size : Z) :
  read_le 0 8 (payload m) = Some size →
  table_reachable (table st) → next_handle (table st) < 2 ^ 64 - 1 →
  let z := src_zone (header m) in
  let h := next_handle (table st) in
  let res := fst (fst (cuMemAlloc size (device st))) in
  let ptr := snd (fst (cuMemAlloc size (device st))) in
  ∃ st', handle_gpu_alloc m st = Some st'
    ∧ device st' = (if decide (res = CUDA_SUCCESS ∧ (ptr = 0 ∨ fst (malloc (proc st)) = false))
                    then snd (cuMemFree ptr (snd (cuMemAlloc size (device st))))
                    else snd (cuMemAlloc size (device st)))
    ∧ (res ≠ CUDA_SUCCESS →
         table st' = table st ∧ calls st' = calls st ++ [CallMemAlloc size])
    ∧ (res = CUDA_SUCCESS → ptr ≠ 0 → fst (malloc (proc st)) = true →
         calls st' = calls st ++ [CallMemAlloc size]
         ∧ handle_absent (table st) h
         ∧ handle_table_lookup z h (table st') = (ptr, Some size)
         ∧ (∀ z' h', h' ≠ h →
              handle_table_lookup z' h' (table st') = handle_table_lookup z' h' (table st))
         ∧ table_reachable (table st')
         ∧ ∀ conn, global_conn (proc st) = Some conn → connected conn = true →
             fst (malloc (snd (malloc (proc st)))) = true →
             length (entries (get_ring (shared st) (tx_key conn)))
               = Z.to_nat IDM_RING_SIZE →
             ring_level (get_ring (shared st) (tx_key conn)) < IDM_RING_SIZE →
             let resp := read_entry
                           (get_entry (get_ring (shared st') (tx_key conn))
                              (producer (get_ring (shared st) (tx_key conn))
                                 mod IDM_RING_SIZE)) in
             msg_type (header resp) = IDM_RESPONSE_OK
             ∧ read_le 0 8 (payload resp) = Some (u64 (seq_num (header m)))
             ∧ read_le 8 8 (payload resp) = Some h)
    ∧ (res = CUDA_SUCCESS → ptr = 0 ∨ fst (malloc (proc st)) = false →
         table st' = table st
         ∧ calls st' = calls st ++ [CallMemAlloc size; CallMemFree ptr]).
Proof.
  intros Hsize Hreach Hroom z h res ptr. subst res ptr.
  pose proof (table_reachable_inv _ Hreach) as Hinv.
  pose proof Hinv as (_ & Hnext & _).
  unfold handle_gpu_alloc. rewrite Hsize. cbn [mbind option_bind].
  destruct (cuMemAlloc size (device st)) as [[res ptr] d1]. cbn [fst snd].
  fold z. set (seq := seq_num (header m)).
  set (st1 := with_device st d1 (CallMemAlloc size)).
  destruct (res =? CUDA_SUCCESS) eqn:E; branch; cbn [negb].
  2: { eexists. split; [done|].
       destruct (send_response_error_frame z seq IDM_ERROR_CUDA_ERROR res
                   "cuMemAlloc failed" st1) as (Ht & Hd & Hc).
       rewrite Ht, Hd, Hc. split.
       { rewrite decide_False by (intros [? _]; done). done. }
       split; [done|]. split; [done|]. done. }
  change (table st1) with (table st). change (proc st1) with (proc st).
  destruct (decide (ptr = 0 ∨ fst (malloc (proc st)) = false)) as [Hrefused|Hok].
  - destruct (handle_table_insert_refused z ptr size (table st) (proc st) Hrefused)
      as [Hzero Hsame].
    destruct (handle_table_insert z ptr size (table st) (proc st)) as [[h' t1] p1].
    cbn [fst snd] in Hzero, Hsame. subst h' t1. cbn [Z.eqb].
    set (st2 := with_proc (with_table st1 (table st)) p1).
    change (device st2) with d1.
    destruct (cuMemFree ptr d1) as [res' d2]. cbn [snd].
    set (st3 := with_device st2 d2 (CallMemFree ptr)).
    eexists. split; [done|].
    destruct (send_response_error_frame z seq IDM_ERROR_OUT_OF_MEMORY 0
                "Failed to create handle" st3) as (Ht & Hd & Hc).
    rewrite Ht, Hd, Hc. split; [by rewrite decide_True|].
    split; [done|]. split.
    { intros _ Hptr Hm. destruct Hrefused; [done|congruence]. }
    intros _ _. split; [done|]. cbn [calls st3 st2 st1 with_device with_proc with_table].
    by rewrite <- app_assoc.
  - assert (Hptr : ptr ≠ 0) by (intros ->; apply Hok; by left).
    assert (Hm : fst (malloc (proc st)) = true).
    { destruct (fst (malloc (proc st))); [done|]. exfalso. apply Hok. by right. }
    destruct (insert_lookup_parts z ptr size (table st) (proc st) Hreach Hroom Hptr Hm)
      as (Hh & Hnz & Habs & Hlook & Hothers & _).
    pose proof (table_after_insert z ptr size (table st) (proc st) Hreach Hroom) as Hreach1.
    pose proof (handle_table_insert_unfold z ptr size (table st) (proc st) Hptr Hm) as Hins.
    destruct (handle_table_insert z ptr size (table st) (proc st)) as [[h' t1] p1].
    cbn [fst snd] in Hh, Hnz, Hlook, Hothers, Hreach1. subst h'.
    injection Hins as _ Hp1. fold h in Hnz, Habs, Hlook, Hothers |- *.
    destruct (h =? 0) eqn:E0; branch; [done|].
    set (st2 := with_proc (with_table st1 t1) p1).
    eexists. split; [done|].
    destruct (send_response_ok_frame z seq h None 0 st2) as (Ht & Hd & Hc).
    rewrite Ht, Hd, Hc. split.
    { rewrite decide_False by (intros [_ ?]; done). done. }
    split; [done|]. split; [|done].
    intros _ _ _. split; [done|]. split; [done|]. split; [done|].
    split; [exact Hothers|]. split; [done|].
    intros conn Hconn Hup Hm2 Hlen Hlevel.
    destruct (send_response_ok_on_ring z seq h None 0 st2 conn)
      as (_ & Htype & _ & _ & Hpayload); try done.
    { cbn [st2 proc with_proc]. rewrite Hp1. by rewrite malloc_conn. }
    { cbn [st2 proc with_proc]. by rewrite Hp1. }
    cbn zeta in Htype, Hpayload.
    change (shared st2) with (shared st) in Htype, Hpayload.
    split; [exact Htype|]. rewrite Hpayload.
    destruct (read_response_ok_fields
                {| ok_request_seq := seq; ok_result_handle := h;
                   ok_result_value := 0; ok_data_len := u32 0 |}) as (Hq & Hhandle & _).
    cbn [ok_request_seq ok_result_handle] in Hq, Hhandle.
    split; [exact Hq|]. rewrite Hhandle. f_equal. apply u64_small. lia.
Qed.

End AllocFacts.

Lemma alloc_registers_or_rolls_back_witness :
  ∃ st', handle_gpu_alloc alloc_request (daemon_state one_alloc_table fresh_world)
         = Some st'
         ∧ calls st' = [CallMemAlloc 64]
         ∧ handle_table_lookup 2 2 (table st') = (8192, Some 64).
Proof.
  destruct (alloc_registers_or_rolls_back alloc_request
              (daemon_state one_alloc_table fresh_world) 64)
    as (st' & Hrun & _ & _ & Hok & _).
  - vm_compute. reflexivity.
  - apply one_alloc_table_reachable.
  - reflexivity.
  - destruct Hok as (Hcalls & _ & Hlook & _); [reflexivity|done|reflexivity|].
    exists st'. split; [exact Hrun|]. split; [exact Hcalls|exact Hlook].
Defined.

Section CopyFacts.
Context {dev : Type} `{CudaDriver dev}.



End CopyFacts.


(* ====================================================================== *)
(** * Further properties of libvgpu and of request and response *)
(* ====================================================================== *)

(** [idm_send] touches the sender's ring and the peer's semaphore only. *)
Lemma idm_send_quiet (m : idm_message) (p : process) (conn : idm_connection) (w : world) :
  global_conn p = Some conn →
  (∀ k, k ≠ tx_key conn → get_ring (snd (idm_send m p w)) k = get_ring w k)
  ∧ (∀ n, n ≠ tx_sem conn → sem_value (snd (idm_send m p w)) n = sem_value w n).
Proof.
  intros Hc. unfold idm_send. rewrite Hc.
  destruct (negb (connected conn)); [done|].
  destruct (negb (idm_message_valid (header m))); [done|].
  destruct (_ >? _); [done|]. destruct (_ >=? _); [done|]. cbn [snd]. split.
  - intros k Hk. rewrite get_ring_sem_post. by apply get_ring_put_ne.
  - intros n Hn. rewrite sem_value_post_ne by done. apply sem_value_put_ring.
Qed.

(** [idm_recv] touches no semaphore but the receiver's. *)
Lemma idm_recv_sems (t : Z) (p p1 : process) (conn : idm_connection) (w w1 : world)
    (ret : Z) (msg_out : option idm_message) :
  global_conn p = Some conn →
  idm_recv t p w = Some (ret, msg_out, p1, w1) →
  ∀ n, n ≠ rx_sem conn → sem_value w1 n = sem_value w n.
Proof.
  intros Hc. unfold idm_recv. rewrite Hc.
  destruct (negb (connected conn)); [by intros [= _ _ _ <-]|].
  destruct (sem_wait t w (rx_sem conn)) as [wa| |errno|] eqn:Hwait;
    [|by intros [= _ _ _ <-]|by intros [= _ _ _ <-]|done].
  destruct (sem_wait_values _ _ _ _ Hwait) as [_ Hother].
  destruct (_ =? _); [by intros [= _ _ _ <-]|].
  destruct (negb (idm_message_valid _)).
  { intros [= _ _ _ <-] n Hn. rewrite sem_value_put_ring. by apply Hother. }
  destruct (malloc p) as [ok p']. destruct (negb ok).
  - by intros [= _ _ _ <-].
  - destruct (_ >? _); [done|].
    intros [= _ _ _ <-] n Hn. rewrite sem_value_put_ring. by apply Hother.
Qed.

(** A semaphore at zero makes a bounded [idm_recv] return without a
    message and without any change. *)
Lemma idm_recv_starved (t : Z) (p : process) (conn : idm_connection) (w : world) :
  0 <= t → global_conn p = Some conn → sem_value w (rx_sem conn) = O →
  ∃ ret, idm_recv t p w = Some (ret, None, p, w) ∧ ret < 0.
Proof.
  intros Ht Hc Hsem. unfold idm_recv. rewrite Hc.
  destruct (negb (connected conn)); [by eexists|].
  unfold sem_wait. rewrite Hsem.
  destruct (t <? 0) eqn:E; branch; [lia|]. by eexists.
Qed.

Section WaitFacts.
Variable peer : nat → world → world.

(** The loop of [send_and_wait] when nobody posts the caller's
    semaphore. *)
Lemma wait_loop_starved (left i : nat) (req_seq : Z) (want_handle : bool)
    (u : libvgpu.user_state) (conn : idm_connection) :
  global_conn (libvgpu.uproc u) = Some conn →
  (∀ j w, (i ≤ j)%nat → sem_value w (rx_sem conn) = O →
          sem_value (peer j w) (rx_sem conn) = O) →
  sem_value (libvgpu.ushared u) (rx_sem conn) = O →
  ∃ u', libvgpu.wait_loop peer left i req_seq want_handle u
        = Some (libvgpu.CUDA_ERROR_INVALID_VALUE, None, u')
        ∧ libvgpu.uproc u' = libvgpu.uproc u
        ∧ libvgpu.initialized u' = libvgpu.initialized u
        ∧ ((∀ j w, (i ≤ j)%nat → peer j w = w) →
           libvgpu.ushared u' = libvgpu.ushared u).
Proof.
  intros Hc. revert i u Hc.
  induction left as [|left IH]; intros i u Hc Hpeer Hsem; cbn [libvgpu.wait_loop].
  { by exists u. }
  destruct (idm_recv_starved 1000 (libvgpu.uproc u) conn (peer i (libvgpu.ushared u)))
    as (ret & Hrecv & Hneg); [lia|done|by apply Hpeer|].
  rewrite Hrecv. cbn [mbind option_bind].
  destruct (ret <? 0) eqn:E; branch; [|lia].
  destruct (IH (S i) (libvgpu.with_uio u (libvgpu.uproc u) (peer i (libvgpu.ushared u))))
    as (u' & Hloop & Hp & Hi & Hw).
  - done.
  - intros j w Hj. apply Hpeer. lia.
  - cbn [libvgpu.ushared libvgpu.with_uio]. by apply Hpeer.
  - exists u'. split; [done|]. split; [done|]. split; [done|].
    intros Hidle. rewrite Hw by (intros j w Hj; apply Hidle; lia).
    cbn [libvgpu.ushared libvgpu.with_uio]. by apply Hidle.
Qed.

(** X16.  A call is never left waiting, and silence reads as a bad
    argument.  If the peer does not post the caller's semaphore while
    the call waits (and the two zones differ), [send_and_wait] returns
    [CUDA_ERROR_INVALID_VALUE] without a handle: at once when
    [idm_send] refuses the request, after its ten receive attempts
    otherwise.  With a peer that does nothing at all the shared memory
    is then as [idm_send] left it: a request that was sent stays
    published, and the peer may still carry it out. *)
Theorem send_and_wait_times_out (m : idm_message) (want_handle : bool)
    (u : libvgpu.user_state) (conn : idm_connection) :
  global_conn (libvgpu.uproc u) = Some conn →
  tx_sem conn ≠ rx_sem conn →
  (∀ j w, sem_value w (rx_sem conn) = O → sem_value (peer j w) (rx_sem conn) = O) →
  sem_value (libvgpu.ushared u) (rx_sem conn) = O →
  ∃ u', libvgpu.send_and_wait peer m want_handle u
        = Some (libvgpu.CUDA_ERROR_INVALID_VALUE, None, u')
        ∧ libvgpu.uproc u' = libvgpu.uproc u
        ∧ libvgpu.initialized u' = libvgpu.initialized u
        ∧ (fst (idm_send m (libvgpu.uproc u) (libvgpu.ushared u)) < 0
           ∨ (∀ j w, peer j w = w) →
           libvgpu.ushared u'
           = snd (idm_send m (libvgpu.uproc u) (libvgpu.ushared u))).
Proof.
  intros Hc Hsems Hpeer Hsem. unfold libvgpu.send_and_wait.
  pose proof (idm_send_quiet m (libvgpu.uproc u) conn (libvgpu.ushared u) Hc) as [_ Hquiet].
  destruct (idm_send m (libvgpu.uproc u) (libvgpu.ushared u)) as [ret w1].
  cbn [fst snd] in *.
  destruct (ret <? 0) eqn:E; branch.
  { eexists. split; [done|]. done. }
  destruct (wait_loop_starved 10 0 (seq_num (header m)) want_handle
              (libvgpu.with_uio u (libvgpu.uproc u) w1) conn)
    as (u' & Hloop & Hp & Hi & Hw).
  - done.
  - intros j w _. apply Hpeer.
  - cbn [libvgpu.ushared libvgpu.with_uio]. rewrite Hquiet by done. exact Hsem.
  - exists u'. split; [done|]. split; [done|]. split; [done|].
    intros [Hneg|Hidle]; [lia|]. rewrite Hw by (intros j w _; apply Hidle). done.
Qed.

End WaitFacts.

Lemma send_and_wait_times_out_witness :
  ∃ u', libvgpu.send_and_wait (λ _ w, w) sync_request false app_state
        = Some (libvgpu.CUDA_ERROR_INVALID_VALUE, None, u')
        ∧ sem_value (libvgpu.ushared u') 1 = 1%nat.
Proof.
  destruct (send_and_wait_times_out (λ _ w, w) sync_request false app_state user_conn)
    as (u' & Hrun & _ & _ & Hw).
  - reflexivity.
  - discriminate.
  - done.
  - reflexivity.
  - exists u'. split; [exact Hrun|]. rewrite Hw by (by right). reflexivity.
Defined.

(** [idm_recv] touches no ring but the receiver's. *)
Lemma idm_recv_rings (t : Z) (p p1 : process) (conn : idm_connection) (w w1 : world)
    (ret : Z) (msg_out : option idm_message) :
  global_conn p = Some conn →
  idm_recv t p w = Some (ret, msg_out, p1, w1) →
  ∀ k, k ≠ rx_key conn → get_ring w1 k = get_ring w k.
Proof.
  intros Hc. unfold idm_recv. rewrite Hc.
  destruct (negb (connected conn)); [by intros [= _ _ _ <-]|].
  destruct (sem_wait t w (rx_sem conn)) as [wa| |errno|] eqn:Hwait;
    [|by intros [= _ _ _ <-]|by intros [= _ _ _ <-]|done].
  pose proof (sem_wait_shm _ _ _ _ Hwait) as Hshm.
  destruct (_ =? _); [intros [= _ _ _ <-] k _; by apply get_ring_shm|].
  destruct (negb (idm_message_valid _)).
  { intros [= _ _ _ <-] k Hk. rewrite get_ring_put_ne by done. by apply get_ring_shm. }
  destruct (malloc p) as [ok p']. destruct (negb ok).
  - intros [= _ _ _ <-] k _. by apply get_ring_shm.
  - destruct (_ >? _); [done|].
    intros [= _ _ _ <-] k Hk. rewrite get_ring_put_ne by done. by apply get_ring_shm.
Qed.

Lemma idm_recv_no_conn (t : Z) (p : process) (w : world) :
  global_conn p = None → idm_recv t p w = Some (- ENOTCONN, None, p, w).
Proof. intros Hc. unfold idm_recv. by rewrite Hc. Qed.

Section ServeFacts.
Context {dev : Type} `{CudaDriver dev}.

Lemma dispatch_unhandled (m : idm_message) (st : driver_state dev) :
  msg_type (header m) ∉ handled_types → dispatch m st = Some st.
Proof.
  intros Hnot. unfold dispatch.
  repeat (destruct (_ =? _) eqn:?; branch;
          [exfalso; apply Hnot; unfold handled_types;
           match goal with E : msg_type _ = _ |- _ => rewrite E end;
           repeat first [apply list_elem_of_here | apply list_elem_of_further]|]).
  done.
Qed.

(** X17.  The daemon acts on requests only.  One iteration of the loop
    of [run_server] that returns either dispatched a message that
    [idm_recv] delivered and whose type is ALLOC, FREE, COPY_H2D,
    COPY_D2H or SYNC, or did nothing but receive: the table, the device
    and the calls made to the driver are as before, no ring but the one
    the daemon reads has changed and no semaphore but the daemon's own,
    so nothing was answered.  An empty ring, a slot with an invalid
    header, a failed allocation and a message of any other type
    (COPY_D2D, MEMSET, LAUNCH_KERNEL, GET_INFO, GET_PROPS, a response)
    all end this way. *)
Theorem serve_once_acts_on_requests_only (st st' : driver_state dev) :
  serve_once st = Some st' →
  (∃ m p1 w1,
     idm_recv 1000 (proc st) (shared st) = Some (0, Some m, p1, w1)
     ∧ msg_type (header m) ∈ handled_types
     ∧ dispatch m (with_io st p1 w1) = Some st')
  ∨ (table st' = table st ∧ device st' = device st ∧ calls st' = calls st
     ∧ (global_conn (proc st) = None → shared st' = shared st)
     ∧ ∀ conn, global_conn (proc st) = Some conn →
         (∀ k, k ≠ rx_key conn → get_ring (shared st') k = get_ring (shared st) k)
         ∧ (∀ n, n ≠ rx_sem conn → sem_value (shared st') n = sem_value (shared st) n)).
Proof.
  unfold serve_once.
  destruct (idm_recv 1000 (proc st) (shared st)) as [[[[ret msg_out] p1] w1]|] eqn:Hrecv;
    [|done].
  cbn [mbind option_bind].
  assert (Hquiet : (global_conn (proc st) = None → w1 = shared st)
            ∧ ∀ conn, global_conn (proc st) = Some conn →
                (∀ k, k ≠ rx_key conn → get_ring w1 k = get_ring (shared st) k)
                ∧ (∀ n, n ≠ rx_sem conn → sem_value w1 n = sem_value (shared st) n)).
  { split.
    - intros Hc. rewrite idm_recv_no_conn in Hrecv by done. by injection Hrecv.
    - intros conn Hc. split.
      + by eapply idm_recv_rings.
      + by eapply idm_recv_sems. }
  assert (Hidle : ∀ st'', Some (with_io st p1 w1) = Some st'' →
            table st'' = table st ∧ device st'' = device st ∧ calls st'' = calls st
            ∧ (global_conn (proc st) = None → shared st'' = shared st)
            ∧ ∀ conn, global_conn (proc st) = Some conn →
                (∀ k, k ≠ rx_key conn → get_ring (shared st'') k = get_ring (shared st) k)
                ∧ (∀ n, n ≠ rx_sem conn → sem_value (shared st'') n
                                          = sem_value (shared st) n)).
  { intros st'' [= <-]. done. }
  destruct (ret <? 0) eqn:E; branch.
  { intros Hst. right. by apply Hidle. }
  destruct msg_out as [m|]; [|intros Hst; right; by apply Hidle].
  destruct (decide (msg_type (header m) ∈ handled_types)) as [Hin|Hnot].
  - intros Hdisp. left. exists m, p1, w1. split; [|done].
    assert (ret = 0) as ->; [|done].
    destruct (idm_recv_cases _ _ _ _ _ _ _ Hrecv)
      as [(Hn & _)|(c & wa & _ & _ & _ & Hcase)]; [done|].
    cbn zeta in Hcase.
    destruct Hcase as [(_ & Hn & _)|(_ & [(_ & Hn & _)|(_ & _ & [(_ & Hn & _)|(Hz & _)])])];
      done.
  - rewrite dispatch_unhandled by done. intros Hst. right. by apply Hidle.
Qed.

End ServeFacts.

Lemma serve_once_acts_on_requests_only_witness :
  ∃ st', serve_once (daemon_state one_alloc_table poisoned_world) = Some st'
         ∧ calls st' = []
         ∧ sem_value (shared st') (tx_sem driver_conn) = O.
Proof.
  destruct (serve_once (daemon_state one_alloc_table poisoned_world)) as [st'|] eqn:Hrun.
  - exists st'. split; [done|].
    destruct (serve_once_acts_on_requests_only _ st' Hrun)
      as [(m & p1 & w1 & Hrecv & _)|(_ & _ & Hcalls & _ & Hquiet)].
    + assert (Hret : (λ r, r.1.1.1) <$>
                idm_recv 1000 (proc (daemon_state one_alloc_table poisoned_world))
                  (shared (daemon_state one_alloc_table poisoned_world))
                = Some (- EINVAL)) by (vm_compute; reflexivity).
      rewrite Hrecv in Hret. discriminate.
    + split; [exact Hcalls|].
      destruct (Hquiet driver_conn eq_refl) as [_ Hsems].
      rewrite Hsems by discriminate. reflexivity.
  - assert (Hsome : is_Some (shared <$> serve_once
                                (daemon_state one_alloc_table poisoned_world))).
    { assert (Hs : (λ st', calls st') <$> serve_once
                      (daemon_state one_alloc_table poisoned_world) = Some [])
        by (vm_compute; reflexivity).
      rewrite Hrun in Hs. discriminate. }
    rewrite Hrun in Hsome. by destruct Hsome.
Defined.

(** The message [idm_build_message] returns for a payload that fits a
    slot, and that [idm_send] accepts it. *)
Lemma built_sendable (dst type : Z) (body : list byte) (len : Z) (p : process)
    (cu : idm_connection) :
  global_conn p = Some cu → fst (malloc p) = true →
  0 <= len <= AREA_SIZE → len <= Z.of_nat (length body) →
  let m := {| header := {| magic := IDM_MAGIC; version := IDM_VERSION;
                           msg_type := u16 type; src_zone := local_zone_id cu;
                           dst_zone := dst; seq_num := next_seq cu;
                           payload_len := len; reserved := 0 |};
              payload := take (Z.to_nat len) body |} in
  idm_build_message dst type body len p = (Some m, set_conn (snd (malloc p)) (bump_seq cu))
  ∧ sendable m.
Proof.
  intros Hc Hm Hlen Hbody m.
  assert (Unsize : AREA_SIZE = 4064) by reflexivity.
  split.
  { rewrite (idm_build_message_unfold dst type body len p cu) by done.
    rewrite (u32_small len) by lia. subst m. do 3 f_equal.
    destruct (len >? 0) eqn:E; branch; [done|].
    assert (len = 0) as -> by lia. by rewrite take_0. }
  unfold sendable, idm_message_valid, idm_message_size, msg_wf, m.
  cbn [header payload magic version payload_len].
  rewrite !Z.eqb_refl. cbn [andb]. split.
  { apply Z.leb_le. unfold IDM_MAX_PAYLOAD_SIZE. lia. }
  split; [unfold SIZEOF_RING_ENTRY, SIZEOF_HEADER; lia|].
  rewrite length_take. lia.
Qed.

(** A request built and sent over a connection that is up, into a ring
    with room: it is accepted and queued, the peer's semaphore is
    posted, and nothing else changes. *)
Lemma request_published (dst type : Z) (body : list byte) (len : Z) (p : process)
    (cu : idm_connection) (w : world) (q : list idm_message) :
  global_conn p = Some cu → connected cu = true → fst (malloc p) = true →
  0 <= len <= AREA_SIZE → len <= Z.of_nat (length body) →
  holds_queue (get_ring w (tx_key cu)) q → Z.of_nat (length q) < IDM_RING_SIZE →
  let m := {| header := {| magic := IDM_MAGIC; version := IDM_VERSION;
                           msg_type := u16 type; src_zone := local_zone_id cu;
                           dst_zone := dst; seq_num := next_seq cu;
                           payload_len := len; reserved := 0 |};
              payload := take (Z.to_nat len) body |} in
  let p1 := set_conn (snd (malloc p)) (bump_seq cu) in
  idm_build_message dst type body len p = (Some m, p1)
  ∧ fst (idm_send m p1 w) = 0
  ∧ holds_queue (get_ring (snd (idm_send m p1 w)) (tx_key cu)) (q ++ [m])
  ∧ sem_value (snd (idm_send m p1 w)) (tx_sem cu) = S (sem_value w (tx_sem cu))
  ∧ (∀ k, k ≠ tx_key cu → get_ring (snd (idm_send m p1 w)) k = get_ring w k)
  ∧ (∀ n, n ≠ tx_sem cu → sem_value (snd (idm_send m p1 w)) n = sem_value w n).
Proof.
  intros Hc Hup Hm Hlen Hbody Hq Hroom m p1.
  destruct (built_sendable dst type body len p cu Hc Hm Hlen Hbody) as [Hbuild Hsendable].
  fold m p1 in Hbuild, Hsendable.
  split; [done|].
  destruct (idm_send_queue m q p1 (bump_seq cu) w) as (Hret & Hq1 & Hsem); try done.
  destruct (idm_send_quiet m p1 (bump_seq cu) w eq_refl) as [Hrings Hsems].
  done.
Qed.

(** The COPY_H2D struct and the data as the handler reads them from the
    message [cuMemcpyHtoD] builds. *)
Lemma h2d_message_fields (dstDevice : Z) (src : list byte) (n junk : Z) :
  0 <= dstDevice < 2 ^ 64 → 0 <= n < 2 ^ 64 →
  let m := libvgpu_api.h2d_message dstDevice src n junk in
  read_le 0 8 (payload m) = Some dstDevice
  ∧ read_le 8 8 (payload m) = Some 0
  ∧ read_le 16 8 (payload m) = Some n
  ∧ drop (Z.to_nat SIZEOF_GPU_COPY_H2D) (payload m) = take (Z.to_nat n) src.
Proof.
  intros Hd Hn. cbn zeta. unfold libvgpu_api.h2d_message, encode_gpu_copy_h2d.
  cbn [payload h2d_dst_handle h2d_dst_offset h2d_size].
  rewrite <- !app_assoc. split; [|split; [|split]].
  - rewrite read_le_app_here. f_equal. apply Z.mod_small.
    change (2 ^ (8 * Z.of_nat 8)) with (2 ^ 64). lia.
  - rewrite (read_le_skip 8 8 (encode_le 8 _)) by apply length_encode_le.
    by rewrite read_le_app_here.
  - rewrite (app_assoc (encode_le 8 dstDevice)).
    rewrite (read_le_skip 16 8 (encode_le 8 _ ++ encode_le 8 _))
      by (by rewrite length_app, !length_encode_le).
    rewrite read_le_app_here. f_equal. apply Z.mod_small.
    change (2 ^ (8 * Z.of_nat 8)) with (2 ^ 64). lia.
  - rewrite !app_assoc. rewrite drop_app_length'; [done|].
    by rewrite !length_app, !length_encode_le.
Qed.

Lemma h2d_message_length (dstDevice : Z) (src : list byte) (n junk : Z) :
  0 <= n <= Z.of_nat (length src) →
  Z.of_nat (length (payload (libvgpu_api.h2d_message dstDevice src n junk)))
  = SIZEOF_GPU_COPY_H2D + n.
Proof.
  intros Hn. unfold libvgpu_api.h2d_message, encode_gpu_copy_h2d. cbn [payload].
  rewrite !length_app, !length_encode_le, length_take. unfold SIZEOF_GPU_COPY_H2D. lia.
Qed.

Section Exchange.
Context {dev : Type} `{CudaDriver dev}.

(** The response of [send_response_ok] over a connection that is up,
    into a ring with room. *)
Lemma send_response_ok_queue (z seq handle : Z) (data : option (list byte)) (len : Z)
    (st : driver_state dev) (cd : idm_connection) (q : list idm_message) :
  global_conn (proc st) = Some cd → connected cd = true →
  fst (malloc (proc st)) = true →
  holds_queue (get_ring (shared st) (tx_key cd)) q →
  Z.of_nat (length q) < IDM_RING_SIZE →
  let st' := snd (send_response_ok z seq handle data len st) in
  holds_queue (get_ring (shared st') (tx_key cd)) (q ++ [ok_response cd z seq handle len])
  ∧ sem_value (shared st') (tx_sem cd) = S (sem_value (shared st) (tx_sem cd))
  ∧ (∀ k, k ≠ tx_key cd → get_ring (shared st') k = get_ring (shared st) k)
  ∧ (∀ n, n ≠ tx_sem cd → sem_value (shared st') n = sem_value (shared st) n)
  ∧ table st' = table st ∧ device st' = device st ∧ calls st' = calls st.
Proof.
  intros Hc Hup Hm Hq Hroom st'. subst st'.
  set (body := encode_response_ok {| ok_request_seq := seq; ok_result_handle := handle;
                                     ok_result_value := 0; ok_data_len := u32 len |}).
  assert (Hlenb : length body = Z.to_nat SIZEOF_RESPONSE_OK)
    by apply read_response_ok_fields.
  destruct (request_published z IDM_RESPONSE_OK body SIZEOF_RESPONSE_OK (proc st) cd
              (shared st) q)
    as (Hbuild & Hret & Hqueue & Hsem & Hrings & Hsems);
    [done|done|done|done|by rewrite Hlenb|done|done|].
  rewrite take_ge in Hbuild, Hret, Hqueue, Hsem, Hrings, Hsems by (by rewrite Hlenb).
  change (u16 IDM_RESPONSE_OK) with IDM_RESPONSE_OK in *.
  unfold send_response_ok. fold body. rewrite Hbuild.
  destruct (idm_send _ _ _) as [ret w1]. cbn [fst snd shared with_io table device calls] in *.
  done.
Qed.

Lemma linked_keys (cu cd : idm_connection) :
  linked cu cd →
  rx_key cd = tx_key cu ∧ tx_key cd = rx_key cu
  ∧ rx_sem cd = tx_sem cu ∧ tx_sem cd = rx_sem cu.
Proof.
  intros (_ & _ & Hl & Hr & _). unfold rx_key, tx_key, rx_sem, tx_sem.
  by rewrite Hl, Hr.
Qed.

Lemma serving_peer_later (st : driver_state dev) (j : nat) (w : world) :
  (1 ≤ j)%nat → serving_peer st j w = w.
Proof. intros Hj. destruct j; [lia|done]. Qed.

(** The daemon's side of an exchange: it receives the one request in
    flight. *)
Lemma daemon_receives (st : driver_state dev) (cu cd : idm_connection)
    (m : idm_message) (w : world) :
  global_conn (proc st) = Some cd → linked cu cd →
  fst (malloc (proc st)) = true →
  holds_queue (get_ring w (tx_key cu)) [m] →
  holds_queue (get_ring w (rx_key cu)) [] →
  sem_value w (tx_sem cu) = 1%nat → sem_value w (rx_sem cu) = O →
  ∃ w2, idm_recv 1000 (proc st) w = Some (0, Some m, snd (malloc (proc st)), w2)
        ∧ holds_queue (get_ring w2 (tx_key cu)) []
        ∧ holds_queue (get_ring w2 (rx_key cu)) []
        ∧ sem_value w2 (tx_sem cu) = O ∧ sem_value w2 (rx_sem cu) = O.
Proof.
  intros Hcd Hlink Hm Htx Hrx Hstx Hsrx.
  destruct (linked_keys cu cd Hlink) as (Hk1 & Hk2 & Hs1 & Hs2).
  destruct Hlink as (_ & Hupd & _ & _ & Hkeys & Hsems).
  destruct (idm_recv_queue m [] 1000 (proc st) cd w) as (w2 & Hrecv & Hq & Hsem & Hrings);
    [done|done|by rewrite Hk1|rewrite Hs1; lia|done|].
  pose proof (idm_recv_sems _ _ _ _ _ _ _ _ Hcd Hrecv) as Hothers.
  exists w2. split; [done|]. rewrite Hk1 in Hq, Hrings. rewrite Hs1 in Hsem, Hothers.
  split; [done|]. split; [by rewrite Hrings|]. split; [lia|].
  rewrite Hothers by done. done.
Qed.

(** The response of [send_response_error] over a connection that is
    up, into a ring with room. *)
Lemma send_response_error_queue (z seq code cuda : Z) (text : string)
    (st : driver_state dev) (cd : idm_connection) (q : list idm_message) :
  global_conn (proc st) = Some cd → connected cd = true →
  fst (malloc (proc st)) = true →
  holds_queue (get_ring (shared st) (tx_key cd)) q →
  Z.of_nat (length q) < IDM_RING_SIZE →
  let st' := snd (send_response_error z seq code cuda text st) in
  holds_queue (get_ring (shared st') (tx_key cd))
    (q ++ [error_response cd z seq code cuda text])
  ∧ sem_value (shared st') (tx_sem cd) = S (sem_value (shared st) (tx_sem cd))
  ∧ (∀ k, k ≠ tx_key cd → get_ring (shared st') k = get_ring (shared st) k)
  ∧ (∀ n, n ≠ tx_sem cd → sem_value (shared st') n = sem_value (shared st) n)
  ∧ table st' = table st ∧ device st' = device st ∧ calls st' = calls st.
Proof.
  intros Hc Hup Hm Hq Hroom st'. subst st'.
  set (body := encode_response_error
                 {| err_request_seq := seq; err_error_code := u32 code;
                    err_cuda_error := u32 cuda;
                    err_error_msg := strncpy_zeroed 256 255 text |}).
  assert (Hlenb : length body = Z.to_nat SIZEOF_RESPONSE_ERROR).
  { unfold body, encode_response_error.
    cbn [err_request_seq err_error_code err_cuda_error err_error_msg].
    rewrite !length_app, !length_encode_le, length_strncpy_zeroed by lia. done. }
  destruct (request_published z IDM_RESPONSE_ERROR body SIZEOF_RESPONSE_ERROR (proc st) cd
              (shared st) q)
    as (Hbuild & Hret & Hqueue & Hsem & Hrings & Hsems);
    [done|done|done|done|by rewrite Hlenb|done|done|].
  rewrite take_ge in Hbuild, Hret, Hqueue, Hsem, Hrings, Hsems by (by rewrite Hlenb).
  change (u16 IDM_RESPONSE_ERROR) with IDM_RESPONSE_ERROR in *.
  unfold send_response_error. fold body. rewrite Hbuild.
  destruct (idm_send _ _ _) as [ret w1]. cbn [fst snd shared with_io table device calls] in *.
  done.
Qed.

(** An exchange in which the daemon's handler queues one response. *)
Lemma exchange_replied (st : driver_state dev) (u : libvgpu.user_state)
    (cu cd : idm_connection) (m resp : idm_message) (want_handle : bool)
    (r : Z) (hout : option Z) (st2 : world → driver_state dev) :
  global_conn (libvgpu.uproc u) = Some cu → global_conn (proc st) = Some cd →
  linked cu cd → link_idle cu (libvgpu.ushared u) →
  sendable m →
  fst (malloc (libvgpu.uproc u)) = true → fst (malloc (proc st)) = true →
  (∀ w2, holds_queue (get_ring w2 (rx_key cu)) [] →
     dispatch m (with_io st (snd (malloc (proc st))) w2) = Some (st2 w2)
     ∧ holds_queue (get_ring (shared (st2 w2)) (rx_key cu)) [resp]
     ∧ sem_value (shared (st2 w2)) (rx_sem cu) = S (sem_value w2 (rx_sem cu))
     ∧ (∀ k, k ≠ rx_key cu → get_ring (shared (st2 w2)) k = get_ring w2 k)
     ∧ (∀ n, n ≠ rx_sem cu → sem_value (shared (st2 w2)) n = sem_value w2 n)) →
  libvgpu.on_response (seq_num (header m)) want_handle resp = Some (Some (r, hout)) →
  ∃ u', libvgpu.send_and_wait (serving_peer st) m want_handle u = Some (r, hout, u')
        ∧ libvgpu.initialized u' = libvgpu.initialized u
        ∧ global_conn (libvgpu.uproc u') = Some cu
        ∧ link_idle cu (libvgpu.ushared u')
        ∧ ∃ w2, serve_once (with_io st (proc st)
                              (snd (idm_send m (libvgpu.uproc u) (libvgpu.ushared u))))
                = Some (st2 w2).
Proof.
  intros Hcu Hcd Hlink (Htx & Hrx & Hstx & Hsrx) Hm Hmu Hmd Hserve Hverdict.
  pose proof Hlink as (Hupu & Hupd & _ & _ & Hkeys & Hsems).
  unfold libvgpu.send_and_wait.
  destruct (idm_send_queue m [] (libvgpu.uproc u) cu (libvgpu.ushared u))
    as (Hret & Hq1 & Hsem1); [done|done|done|done|done|].
  destruct (idm_send_quiet m (libvgpu.uproc u) cu (libvgpu.ushared u) Hcu) as [Hr1 Hs1'].
  destruct (idm_send m (libvgpu.uproc u) (libvgpu.ushared u)) as [ret w1].
  cbn [fst snd app] in *. subst ret. change (0 <? 0) with false. cbn iota.
  change 10%nat with (S 9). cbn [libvgpu.wait_loop libvgpu.with_uio libvgpu.uproc
                                 libvgpu.ushared].
  destruct (daemon_receives st cu cd m w1) as (w2 & Hrecv & Htx2 & Hrx2 & Hstx2 & Hsrx2);
    [done|done|done|done|by rewrite Hr1|by rewrite Hsem1, Hstx|by rewrite Hs1'|].
  destruct (Hserve w2 Hrx2) as (Hdisp & Hq3 & Hsem3 & Hr3 & Hs3).
  assert (Hserved : serve_once (with_io st (proc st) w1) = Some (st2 w2)).
  { unfold serve_once. cbn [proc shared with_io].
    rewrite Hrecv. cbn [mbind option_bind]. change (0 <? 0) with false. cbn iota.
    change (with_io (with_io st (proc st) w1) (snd (malloc (proc st))) w2)
      with (with_io st (snd (malloc (proc st))) w2).
    by rewrite Hdisp. }
  assert (Hpeer : serving_peer st 0 w1 = shared (st2 w2)).
  { unfold serving_peer. by rewrite Hserved. }
  rewrite Hpeer. set (w3 := shared (st2 w2)) in *.
  destruct (idm_recv_queue resp [] 1000 (libvgpu.uproc u) cu w3)
    as (w4 & Hrecv4 & Hq4 & Hsem4 & Hr4); [done|done|done|lia|done|].
  pose proof (idm_recv_sems _ _ _ _ _ _ _ _ Hcu Hrecv4) as Hs4.
  rewrite Hrecv4. cbn [mbind option_bind]. change (0 <? 0) with false. cbn iota.
  rewrite Hverdict. cbn [mbind option_bind]. eexists. split; [done|].
  cbn [libvgpu.initialized libvgpu.uproc libvgpu.ushared libvgpu.with_uio].
  split; [done|]. split; [by rewrite malloc_conn|].
  split; [|by exists w2].
  unfold link_idle. split.
  { rewrite Hr4, Hr3 by done. done. }
  split; [done|]. split.
  { rewrite Hs4, Hs3 by done. done. }
  rewrite Hsem4, Hsem3, Hsrx2. done.
Qed.

(** An exchange the daemon answers with [send_response_error]. *)
Lemma exchange_refused (st : driver_state dev) (u : libvgpu.user_state)
    (cu cd : idm_connection) (m : idm_message) (code cuda : Z) (text : string)
    (want_handle : bool) (st2 : world → driver_state dev) :
  global_conn (libvgpu.uproc u) = Some cu → global_conn (proc st) = Some cd →
  linked cu cd → link_idle cu (libvgpu.ushared u) →
  sendable m → 0 <= seq_num (header m) < 2 ^ 64 → 0 <= code < 2 ^ 32 →
  fst (malloc (libvgpu.uproc u)) = true → fst (malloc (proc st)) = true →
  (∀ w2,
     dispatch m (with_io st (snd (malloc (proc st))) w2)
     = Some (snd (send_response_error (src_zone (header m)) (seq_num (header m))
                    code cuda text (st2 w2)))
     ∧ shared (st2 w2) = w2 ∧ global_conn (proc (st2 w2)) = Some cd
     ∧ fst (malloc (proc (st2 w2))) = true) →
  ∃ u', libvgpu.send_and_wait (serving_peer st) m want_handle u
        = Some (if code =? IDM_ERROR_OUT_OF_MEMORY then libvgpu.CUDA_ERROR_OUT_OF_MEMORY
                else if code =? IDM_ERROR_INVALID_HANDLE
                     then libvgpu.CUDA_ERROR_INVALID_HANDLE
                     else libvgpu.CUDA_ERROR_INVALID_VALUE, None, u')
        ∧ libvgpu.initialized u' = libvgpu.initialized u
        ∧ global_conn (libvgpu.uproc u') = Some cu
        ∧ link_idle cu (libvgpu.ushared u')
        ∧ ∃ w2, serve_once (with_io st (proc st)
                              (snd (idm_send m (libvgpu.uproc u) (libvgpu.ushared u))))
                = Some (snd (send_response_error (src_zone (header m))
                               (seq_num (header m)) code cuda text (st2 w2))).
Proof.
  intros Hcu Hcd Hlink Hidle Hm Hseq Hcode Hmu Hmd Hserve.
  destruct (linked_keys cu cd Hlink) as (Hk1 & Hk2 & Hs1 & Hs2).
  pose proof Hlink as (_ & Hupd & _).
  apply (exchange_replied st u cu cd m
           (error_response cd (src_zone (header m)) (seq_num (header m)) code cuda text)
           want_handle _ None
           (λ w2, snd (send_response_error (src_zone (header m)) (seq_num (header m))
                         code cuda text (st2 w2)))); try done.
  - intros w2 Hrx2. destruct (Hserve w2) as (Hdisp & Hw2 & Hcd2 & Hmd2).
    split; [done|].
    destruct (send_response_error_queue (src_zone (header m)) (seq_num (header m))
                code cuda text (st2 w2) cd [])
      as (Hq3 & Hsem3 & Hr3 & Hs3 & _);
      [done|done|done|by rewrite Hw2, Hk2|done|].
    rewrite Hw2 in Hsem3, Hr3, Hs3. rewrite Hk2 in Hq3, Hr3. rewrite Hs2 in Hsem3, Hs3.
    done.
  - unfold libvgpu.on_response, error_response. cbn [header msg_type payload].
    change (IDM_RESPONSE_ERROR =? IDM_RESPONSE_OK) with false. rewrite Z.eqb_refl.
    destruct (read_response_error_fields
                {| err_request_seq := seq_num (header m); err_error_code := u32 code;
                   err_cuda_error := u32 cuda;
                   err_error_msg := strncpy_zeroed 256 255 text |}) as (Hq & Hc).
    cbn [err_request_seq err_error_code] in Hq, Hc.
    rewrite Hq. cbn [mbind option_bind]. rewrite (u64_small (seq_num (header m))) by done.
    rewrite Z.eqb_refl, Hc. cbn [mbind option_bind]. rewrite !(u32_small code) by done.
    destruct (code =? IDM_ERROR_OUT_OF_MEMORY); [done|].
    by destruct (code =? IDM_ERROR_INVALID_HANDLE).
Qed.

(** An exchange the daemon answers with [send_response_ok]. *)
Lemma exchange_answered (st : driver_state dev) (u : libvgpu.user_state)
    (cu cd : idm_connection) (m : idm_message) (handle : Z) (want_handle : bool)
    (st2 : world → driver_state dev) :
  global_conn (libvgpu.uproc u) = Some cu → global_conn (proc st) = Some cd →
  linked cu cd → link_idle cu (libvgpu.ushared u) →
  sendable m → 0 <= seq_num (header m) < 2 ^ 64 → 0 <= handle < 2 ^ 64 →
  fst (malloc (libvgpu.uproc u)) = true → fst (malloc (proc st)) = true →
  (∀ w2,
     dispatch m (with_io st (snd (malloc (proc st))) w2)
     = Some (snd (send_response_ok (src_zone (header m)) (seq_num (header m))
                    handle None 0 (st2 w2)))
     ∧ shared (st2 w2) = w2 ∧ global_conn (proc (st2 w2)) = Some cd
     ∧ fst (malloc (proc (st2 w2))) = true) →
  ∃ u', libvgpu.send_and_wait (serving_peer st) m want_handle u
        = Some (libvgpu.CUDA_SUCCESS, if want_handle then Some handle else None, u')
        ∧ libvgpu.initialized u' = libvgpu.initialized u
        ∧ global_conn (libvgpu.uproc u') = Some cu
        ∧ link_idle cu (libvgpu.ushared u')
        ∧ ∃ w2, serve_once (with_io st (proc st)
                              (snd (idm_send m (libvgpu.uproc u) (libvgpu.ushared u))))
                = Some (snd (send_response_ok (src_zone (header m)) (seq_num (header m))
                               handle None 0 (st2 w2))).
Proof.
  intros Hcu Hcd Hlink (Htx & Hrx & Hstx & Hsrx) Hm Hseq Hhandle Hmu Hmd Hserve.
  destruct (linked_keys cu cd Hlink) as (Hk1 & Hk2 & Hs1 & Hs2).
  pose proof Hlink as (Hupu & Hupd & _ & _ & Hkeys & Hsems).
  unfold libvgpu.send_and_wait.
  destruct (idm_send_queue m [] (libvgpu.uproc u) cu (libvgpu.ushared u))
    as (Hret & Hq1 & Hsem1); [done|done|done|done|done|].
  destruct (idm_send_quiet m (libvgpu.uproc u) cu (libvgpu.ushared u) Hcu) as [Hr1 Hs1'].
  destruct (idm_send m (libvgpu.uproc u) (libvgpu.ushared u)) as [ret w1].
  cbn [fst snd app] in *. subst ret. change (0 <? 0) with false. cbn iota.
  change 10%nat with (S 9). cbn [libvgpu.wait_loop libvgpu.with_uio libvgpu.uproc
                                 libvgpu.ushared].
  destruct (daemon_receives st cu cd m w1) as (w2 & Hrecv & Htx2 & Hrx2 & Hstx2 & Hsrx2);
    [done|done|done|done|by rewrite Hr1|by rewrite Hsem1, Hstx|by rewrite Hs1'|].
  destruct (Hserve w2) as (Hdisp & Hw2 & Hcd2 & Hmd2).
  assert (Hserved : serve_once (with_io st (proc st) w1)
                    = Some (snd (send_response_ok (src_zone (header m))
                                   (seq_num (header m)) handle None 0 (st2 w2)))).
  { unfold serve_once. cbn [proc shared with_io].
    rewrite Hrecv. cbn [mbind option_bind]. change (0 <? 0) with false. cbn iota.
    change (with_io (with_io st (proc st) w1) (snd (malloc (proc st))) w2)
      with (with_io st (snd (malloc (proc st))) w2).
    by rewrite Hdisp. }
  assert (Hpeer : serving_peer st 0 w1
                  = shared (snd (send_response_ok (src_zone (header m))
                                   (seq_num (header m)) handle None 0 (st2 w2)))).
  { unfold serving_peer. by rewrite Hserved. }
  rewrite Hpeer.
  destruct (send_response_ok_queue (src_zone (header m)) (seq_num (header m)) handle
              None 0 (st2 w2) cd [])
    as (Hq3 & Hsem3 & Hr3 & Hs3 & _);
    [done|done|done|by rewrite Hw2, Hk2|done|].
  set (w3 := shared (snd (send_response_ok _ _ _ _ _ _))) in *.
  rewrite ?Hw2, ?Hk2 in Hq3, Hr3. rewrite ?Hw2, ?Hs2 in Hsem3, Hs3. cbn [app] in Hq3.
  set (resp := ok_response cd _ _ _ _) in *.
  destruct (idm_recv_queue resp [] 1000 (libvgpu.uproc u) cu w3)
    as (w4 & Hrecv4 & Hq4 & Hsem4 & Hr4); [done|done|done|lia|done|].
  pose proof (idm_recv_sems _ _ _ _ _ _ _ _ Hcu Hrecv4) as Hs4.
  rewrite Hrecv4. cbn [mbind option_bind]. change (0 <? 0) with false. cbn iota.
  assert (Hverdict : libvgpu.on_response (seq_num (header m)) want_handle resp
            = Some (Some (libvgpu.CUDA_SUCCESS,
                          if want_handle then Some handle else None))).
  { unfold libvgpu.on_response, resp, ok_response. cbn [header msg_type payload].
    rewrite Z.eqb_refl.
    destruct (read_response_ok_fields
                {| ok_request_seq := seq_num (header m); ok_result_handle := handle;
                   ok_result_value := 0; ok_data_len := u32 0 |}) as (Hq & Hh & _).
    cbn [ok_request_seq ok_result_handle] in Hq, Hh.
    rewrite Hq. cbn [mbind option_bind]. rewrite (u64_small (seq_num (header m))) by done.
    rewrite Z.eqb_refl. destruct want_handle; [|done].
    rewrite Hh. cbn [mbind option_bind]. by rewrite u64_small. }
  rewrite Hverdict. cbn [mbind option_bind]. eexists. split; [done|].
  cbn [libvgpu.initialized libvgpu.uproc libvgpu.ushared libvgpu.with_uio].
  split; [done|]. split; [by rewrite malloc_conn|].
  split; [|by exists w2].
  unfold link_idle. split.
  { rewrite Hr4, Hr3, ?Hw2 by done. done. }
  split; [done|]. split.
  { rewrite Hs4, Hs3 by done. done. }
  rewrite Hsem4, Hsem3, Hsrx2. done.
Qed.

(** An exchange the daemon does not answer: a request of a type the
    daemon has no case for. *)
Lemma exchange_unanswered (st : driver_state dev) (u : libvgpu.user_state)
    (cu cd : idm_connection) (m : idm_message) (want_handle : bool) :
  global_conn (libvgpu.uproc u) = Some cu → global_conn (proc st) = Some cd →
  linked cu cd → link_idle cu (libvgpu.ushared u) →
  sendable m → fst (malloc (proc st)) = true →
  msg_type (header m) ∉ handled_types →
  ∃ u', libvgpu.send_and_wait (serving_peer st) m want_handle u
        = Some (libvgpu.CUDA_ERROR_INVALID_VALUE, None, u')
        ∧ libvgpu.initialized u' = libvgpu.initialized u
        ∧ libvgpu.uproc u' = libvgpu.uproc u
        ∧ link_idle cu (libvgpu.ushared u')
        ∧ serve_once (with_io st (proc st)
                        (snd (idm_send m (libvgpu.uproc u) (libvgpu.ushared u))))
          = Some (with_io st (snd (malloc (proc st))) (libvgpu.ushared u')).
Proof.
  intros Hcu Hcd Hlink (Htx & Hrx & Hstx & Hsrx) Hm Hmd Htype.
  pose proof Hlink as (Hupu & Hupd & _ & _ & Hkeys & Hsems).
  unfold libvgpu.send_and_wait.
  destruct (idm_send_queue m [] (libvgpu.uproc u) cu (libvgpu.ushared u))
    as (Hret & Hq1 & Hsem1); [done|done|done|done|done|].
  destruct (idm_send_quiet m (libvgpu.uproc u) cu (libvgpu.ushared u) Hcu) as [Hr1 Hs1'].
  destruct (idm_send m (libvgpu.uproc u) (libvgpu.ushared u)) as [ret w1].
  cbn [fst snd app] in *. subst ret. change (0 <? 0) with false. cbn iota.
  change 10%nat with (S 9). cbn [libvgpu.wait_loop libvgpu.with_uio libvgpu.uproc
                                 libvgpu.ushared].
  destruct (daemon_receives st cu cd m w1) as (w2 & Hrecv & Htx2 & Hrx2 & Hstx2 & Hsrx2);
    [done|done|done|done|by rewrite Hr1|by rewrite Hsem1, Hstx|by rewrite Hs1'|].
  assert (Hserved : serve_once (with_io st (proc st) w1)
                    = Some (with_io st (snd (malloc (proc st))) w2)).
  { unfold serve_once. cbn [proc shared with_io].
    rewrite Hrecv. cbn [mbind option_bind]. change (0 <? 0) with false. cbn iota.
    by rewrite dispatch_unhandled. }
  assert (Hpeer : serving_peer st 0 w1 = w2).
  { unfold serving_peer. by rewrite Hserved. }
  rewrite Hpeer.
  destruct (idm_recv_starved 1000 (libvgpu.uproc u) cu w2) as (ret & Hrecv2 & Hneg);
    [lia|done|done|].
  rewrite Hrecv2. cbn [mbind option_bind].
  destruct (ret <? 0) eqn:E; branch; [|lia].
  destruct (wait_loop_starved (serving_peer st) 9 1 (seq_num (header m)) want_handle
              (libvgpu.with_uio u (libvgpu.uproc u) w2) cu)
    as (u' & Hloop & Hp & Hi & Hw).
  - done.
  - intros j w Hj Hz. by rewrite serving_peer_later.
  - done.
  - exists u'. split; [done|]. split; [done|]. split; [done|].
    rewrite Hw by (intros j w Hj; by apply serving_peer_later).
    cbn [libvgpu.ushared libvgpu.with_uio]. done.
Qed.

(** [handle_gpu_alloc] when the driver and the table both succeed. *)
Lemma handle_gpu_alloc_success (m : idm_message) (st : driver_state dev)
    (size ptr : Z) (d1 : dev) :
  read_le 0 8 (payload m) = Some size →
  cuMemAlloc size (device st) = (CUDA_SUCCESS, ptr, d1) →
  ptr ≠ 0 → fst (malloc (proc st)) = true → next_handle (table st) ≠ 0 →
  handle_gpu_alloc m st
  = Some (snd (send_response_ok (src_zone (header m)) (seq_num (header m))
                 (next_handle (table st)) None 0
                 (with_proc
                    (with_table (with_device st d1 (CallMemAlloc size))
                       (snd (fst (handle_table_insert (src_zone (header m)) ptr size
                                    (table st) (proc st)))))
                    (snd (malloc (proc st)))))).
Proof.
  intros Hsize Halloc Hptr Hm Hnext. unfold handle_gpu_alloc.
  rewrite Hsize. cbn [mbind option_bind]. rewrite Halloc. cbn [negb Z.eqb CUDA_SUCCESS].
  change (table (with_device st d1 (CallMemAlloc size))) with (table st).
  change (proc (with_device st d1 (CallMemAlloc size))) with (proc st).
  rewrite (handle_table_insert_unfold _ ptr size (table st) (proc st) Hptr Hm).
  cbn [fst snd]. destruct (next_handle (table st) =? 0) eqn:E; branch; done.
Qed.

(** X18.  [cuMemcpyDtoD] cannot succeed against this daemon.  With the
    library initialised, the link idle and the daemon serving, a call
    with non-null arguments sends a COPY_D2D request, for which the
    daemon's loop has no case: the daemon consumes the request, calls
    nothing and answers nothing, and the call returns
    [CUDA_ERROR_INVALID_VALUE] after its ten receive attempts. *)
Theorem cuMemcpyDtoD_is_never_answered (st : driver_state dev)
    (a : libvgpu_api.api_state) (cu cd : idm_connection) (dstDevice srcDevice n : Z) :
  libvgpu.initialized (libvgpu_api.lib a) = true →
  global_conn (libvgpu.uproc (libvgpu_api.lib a)) = Some cu →
  global_conn (proc st) = Some cd →
  linked cu cd → link_idle cu (libvgpu.ushared (libvgpu_api.lib a)) →
  fst (malloc (libvgpu.uproc (libvgpu_api.lib a))) = true →
  fst (malloc (proc st)) = true →
  dstDevice ≠ 0 → srcDevice ≠ 0 → n ≠ 0 →
  ∃ a' st',
    libvgpu_api.cuMemcpyDtoD (serving_peer st) dstDevice srcDevice n a
    = Some (libvgpu.CUDA_ERROR_INVALID_VALUE, a')
    ∧ link_idle cu (libvgpu.ushared (libvgpu_api.lib a'))
    ∧ shared st' = libvgpu.ushared (libvgpu_api.lib a')
    ∧ table st' = table st ∧ device st' = device st ∧ calls st' = calls st
    ∧ ∃ w1, serve_once (with_io st (proc st) w1) = Some st'
            ∧ holds_queue (get_ring w1 (tx_key cu))
                [{| header := {| magic := IDM_MAGIC; version := IDM_VERSION;
                                 msg_type := IDM_GPU_COPY_D2D;
                                 src_zone := local_zone_id cu;
                                 dst_zone := libvgpu.DRIVER_ZONE_ID;
                                 seq_num := next_seq cu;
                                 payload_len := SIZEOF_GPU_COPY_D2D;
                                 reserved := 0 |};
                    payload := encode_gpu_copy_d2d
                                 {| d2d_dst_handle := dstDevice;
                                    d2d_src_handle := srcDevice;
                                    d2d_dst_offset := 0; d2d_src_offset := 0;
                                    d2d_size := n |} |}].
Proof.
  intros Hinit Hcu Hcd Hlink Hidle Hmu Hmd Hdst Hsrc Hn.
  unfold libvgpu_api.cuMemcpyDtoD, libvgpu_api.request_call. rewrite Hinit. cbn [negb].
  destruct (dstDevice =? 0) eqn:E1; branch; [done|].
  destruct (srcDevice =? 0) eqn:E2; branch; [done|].
  destruct (n =? 0) eqn:E3; branch; [done|]. cbn [orb].
  set (body := encode_gpu_copy_d2d _).
  assert (Hlenb : length body = 40%nat).
  { unfold body, encode_gpu_copy_d2d. by rewrite !length_app, !length_encode_le. }
  destruct (built_sendable libvgpu.DRIVER_ZONE_ID IDM_GPU_COPY_D2D body
              SIZEOF_GPU_COPY_D2D (libvgpu.uproc (libvgpu_api.lib a)) cu)
    as [Hbuild Hsendable]; [done|done|done|by rewrite Hlenb|].
  rewrite take_ge in Hbuild, Hsendable by (by rewrite Hlenb).
  change (u16 IDM_GPU_COPY_D2D) with IDM_GPU_COPY_D2D in *.
  rewrite Hbuild. set (m := Build_idm_message _ _) in *.
  set (u1 := libvgpu.with_uio _ _ _).
  destruct (exchange_unanswered st u1 (bump_seq cu) cd m false)
    as (u' & Hrun & Hi & Hp & Hidle' & Hserved).
  - done.
  - done.
  - exact Hlink.
  - exact Hidle.
  - done.
  - done.
  - unfold handled_types. intros Hin. cbn in Hin.
    repeat (apply elem_of_cons in Hin as [Hin|Hin]; [discriminate|]).
    by apply elem_of_nil in Hin.
  - rewrite Hrun. cbn [mbind option_bind].
    eexists _, (with_io st (snd (malloc (proc st))) (libvgpu.ushared u')).
    split; [done|]. cbn [libvgpu_api.lib libvgpu_api.with_lib].
    split; [exact Hidle'|]. split; [done|]. split; [done|]. split; [done|].
    split; [done|]. eexists. split; [exact Hserved|].
    destruct Hidle as (Htx & _).
    destruct (idm_send_queue m [] (libvgpu.uproc u1) (bump_seq cu) (libvgpu.ushared u1))
      as (_ & Hq & _); try done.
    by destruct Hlink.
Qed.

(** X19.  [cuMemAlloc] end to end.  With the library initialised, the
    link idle, the daemon serving with a reachable table, the driver
    granting the allocation and memory for the messages and the table
    entry, [cuMemAlloc] returns [CUDA_SUCCESS] and stores the handle
    the daemon's counter held; the daemon called [cuMemAlloc] of the
    driver once, for [bytesize] bytes, and its table now resolves that
    handle, for the caller's zone, to the driver's pointer and
    [bytesize]; the link is idle again. *)
Theorem cuMemAlloc_returns_registered_handle (st : driver_state dev)
    (a : libvgpu_api.api_state) (cu cd : idm_connection)
    (bytesize ptr : Z) (d1 : dev) :
  libvgpu.initialized (libvgpu_api.lib a) = true →
  global_conn (libvgpu.uproc (libvgpu_api.lib a)) = Some cu →
  global_conn (proc st) = Some cd →
  linked cu cd → link_idle cu (libvgpu.ushared (libvgpu_api.lib a)) →
  mallocs_ok 2 (libvgpu.uproc (libvgpu_api.lib a)) → mallocs_ok 3 (proc st) →
  0 <= next_seq cu < 2 ^ 64 →
  table_reachable (table st) → next_handle (table st) < 2 ^ 64 - 1 →
  0 < bytesize < 2 ^ 64 →
  cuMemAlloc bytesize (device st) = (CUDA_SUCCESS, ptr, d1) → ptr ≠ 0 →
  ∃ a' st',
    libvgpu_api.cuMemAlloc (serving_peer st) true bytesize a
    = Some (libvgpu.CUDA_SUCCESS, Some (next_handle (table st)), a')
    ∧ link_idle cu (libvgpu.ushared (libvgpu_api.lib a'))
    ∧ (∃ w1, serve_once (with_io st (proc st) w1) = Some st')
    ∧ calls st' = calls st ++ [CallMemAlloc bytesize]
    ∧ device st' = d1
    ∧ handle_absent (table st) (next_handle (table st))
    ∧ handle_table_lookup (local_zone_id cu) (next_handle (table st)) (table st')
      = (ptr, Some bytesize).
Proof.
  intros Hinit Hcu Hcd Hlink Hidle Hmu Hmd Hseq Hreach Hroom Hsize Halloc Hptr.
  destruct (mallocs_ok_step 1 _ Hmu) as (Hmu1 & Hmu' & _).
  destruct (mallocs_ok_step 0 _ Hmu') as (Hmu2 & _ & _).
  destruct (mallocs_ok_step 2 _ Hmd) as (Hmd1 & Hmd' & Hcd1).
  destruct (mallocs_ok_step 1 _ Hmd') as (Hmd2 & Hmd'' & Hcd2).
  destruct (mallocs_ok_step 0 _ Hmd'') as (Hmd3 & _ & _).
  pose proof (table_reachable_inv _ Hreach) as (_ & Hnext & _).
  unfold libvgpu_api.cuMemAlloc, libvgpu_api.request_call. rewrite Hinit. cbn [negb orb].
  destruct (bytesize =? 0) eqn:E; branch; [lia|].
  set (body := encode_gpu_alloc _).
  assert (Hlenb : length body = 16%nat).
  { unfold body, encode_gpu_alloc. by rewrite !length_app, !length_encode_le. }
  destruct (built_sendable libvgpu.DRIVER_ZONE_ID IDM_GPU_ALLOC body
              SIZEOF_GPU_ALLOC (libvgpu.uproc (libvgpu_api.lib a)) cu)
    as [Hbuild Hsendable]; [done|done|done|by rewrite Hlenb|].
  rewrite take_ge in Hbuild, Hsendable by (by rewrite Hlenb).
  change (u16 IDM_GPU_ALLOC) with IDM_GPU_ALLOC in *.
  rewrite Hbuild. set (m := Build_idm_message _ _) in *.
  set (u1 := libvgpu.with_uio _ _ _).
  set (pd1 := snd (malloc (proc st))) in *.
  set (t1 := snd (fst (handle_table_insert (local_zone_id cu) ptr bytesize (table st) pd1))).
  set (st2 := λ w2 : world,
         with_proc (with_table (with_device (with_io st pd1 w2) d1 (CallMemAlloc bytesize))
                      t1) (snd (malloc pd1))).
  assert (Hread : read_le 0 8 (payload m) = Some bytesize).
  { unfold m, body, encode_gpu_alloc. cbn [payload alloc_size].
    rewrite read_le_app_here. f_equal. apply Z.mod_small.
    change (2 ^ (8 * Z.of_nat 8)) with (2 ^ 64). lia. }
  destruct (exchange_answered st u1 (bump_seq cu) cd m (next_handle (table st)) true st2)
    as (u' & Hrun & Hi & Hp & Hidle' & w2 & Hserved).
  - unfold u1. cbn [libvgpu.uproc libvgpu.with_uio]. done.
  - done.
  - exact Hlink.
  - exact Hidle.
  - done.
  - done.
  - lia.
  - unfold u1. cbn [libvgpu.uproc libvgpu.with_uio]. by rewrite malloc_set_conn.
  - done.
  - intros w2. split; [|split; [done|split]].
    + unfold dispatch. change (msg_type (header m) =? IDM_GPU_ALLOC) with true. cbn iota.
      fold pd1.
      rewrite (handle_gpu_alloc_success m (with_io st pd1 w2) bytesize ptr d1);
        [done|done|done|done|done|cbn [table with_io]; lia].
    + cbn [st2 proc with_proc]. by rewrite Hcd2, Hcd1.
    + done.
  - rewrite Hrun. cbn [mbind option_bind]. change (0 =? 0) with true. cbn iota.
    eexists _, _. split; [done|]. cbn [libvgpu_api.lib libvgpu_api.with_lib].
    split; [exact Hidle'|]. split; [eexists; exact Hserved|].
    destruct (send_response_ok_frame (src_zone (header m)) (seq_num (header m))
                (next_handle (table st)) None 0 (st2 w2)) as (-> & -> & ->).
    split; [done|]. split; [done|].
    destruct (insert_lookup_parts (local_zone_id cu) ptr bytesize (table st) pd1)
      as (_ & _ & Habs & Hlook & _); [done|done|done|done|].
    split; [done|]. exact Hlook.
Qed.

(** [handle_gpu_copy_h2d] on a request at offset 0 that passes the
    checks, when the driver copies. *)
Lemma handle_gpu_copy_h2d_success (m : idm_message) (st : driver_state dev)
    (h size ptr asize : Z) (d1 : dev) :
  let host_data := drop (Z.to_nat SIZEOF_GPU_COPY_H2D) (payload m) in
  let data := take (Z.to_nat size) host_data in
  read_le 0 8 (payload m) = Some h →
  read_le 8 8 (payload m) = Some 0 →
  read_le 16 8 (payload m) = Some size →
  handle_table_lookup (src_zone (header m)) h (table st) = (ptr, Some asize) →
  ptr ≠ 0 → 0 <= size <= asize → size < 2 ^ 64 →
  size <= Z.of_nat (length host_data) →
  cuMemcpyHtoD (u64 (ptr + 0)) data size (device st) = (CUDA_SUCCESS, d1) →
  handle_gpu_copy_h2d m st
  = Some (snd (send_response_ok (src_zone (header m)) (seq_num (header m)) 0 None 0
                 (with_device st d1 (CallMemcpyHtoD (u64 (ptr + 0)) data size)))).
Proof.
  intros host_data data Hh Ho Hs Hlook Hptr Hsize Hsize' Hdata Hcopy.
  unfold handle_gpu_copy_h2d. rewrite Hh, Ho, Hs. cbn [mbind option_bind].
  rewrite Hlook. destruct (ptr =? 0) eqn:E; branch; [done|].
  rewrite (u64_small (0 + size)) by lia.
  destruct (0 + size >? asize) eqn:E'; branch; [lia|].
  fold host_data. destruct (_ <? size) eqn:E''; branch; [lia|].
  fold data. rewrite Hcopy. done.
Qed.

(** X21.  [cuMemcpyHtoD] end to end.  With the library initialised, the
    link idle and the daemon serving, a copy of at most 4040 bytes to a
    handle that zone 2 owns, within the size of its allocation, makes
    the daemon call the driver's [cuMemcpyHtoD] once, at the pointer
    registered for the handle, with exactly the first [ByteCount] bytes
    of the caller's buffer; when the driver succeeds the call returns
    [CUDA_SUCCESS].  The table is unchanged and the caller's sequence
    counter is not advanced. *)
Theorem cuMemcpyHtoD_reaches_the_driver (st : driver_state dev)
    (a : libvgpu_api.api_state) (cu cd : idm_connection)
    (src : list byte) (ByteCount junk : Z) (e : handle_entry) (d1 : dev) :
  libvgpu.initialized (libvgpu_api.lib a) = true →
  global_conn (libvgpu.uproc (libvgpu_api.lib a)) = Some cu →
  global_conn (proc st) = Some cd →
  linked cu cd → link_idle cu (libvgpu.ushared (libvgpu_api.lib a)) →
  mallocs_ok 2 (libvgpu.uproc (libvgpu_api.lib a)) → mallocs_ok 2 (proc st) →
  table_reachable (table st) →
  e ∈ live_entries (table st) → entry_zone_id e = libvgpu.USER_ZONE_ID →
  0 < ByteCount <= entry_size e → ByteCount <= H2D_MAX_BYTES →
  ByteCount <= Z.of_nat (length src) →
  cuMemcpyHtoD (u64 (entry_ptr e + 0)) (take (Z.to_nat ByteCount) src) ByteCount (device st)
  = (CUDA_SUCCESS, d1) →
  ∃ a' st',
    libvgpu_api.cuMemcpyHtoD (serving_peer st) (entry_handle e) (Some src) ByteCount junk a
    = Some (libvgpu.CUDA_SUCCESS, a')
    ∧ link_idle cu (libvgpu.ushared (libvgpu_api.lib a'))
    ∧ global_conn (libvgpu.uproc (libvgpu_api.lib a')) = Some cu
    ∧ (∃ w1, serve_once (with_io st (proc st) w1) = Some st')
    ∧ calls st' = calls st ++ [CallMemcpyHtoD (u64 (entry_ptr e + 0))
                                 (take (Z.to_nat ByteCount) src) ByteCount]
    ∧ device st' = d1
    ∧ table st' = table st.
Proof.
  intros Hinit Hcu Hcd Hlink Hidle Hmu Hmd Hreach Hin Hzone Hn Hmax Hsrc Hcopy.
  destruct (mallocs_ok_step 1 _ Hmu) as (Hmu1 & Hmu' & Hcu1).
  destruct (mallocs_ok_step 0 _ Hmu') as (Hmu2 & _ & _).
  destruct (mallocs_ok_step 1 _ Hmd) as (Hmd1 & Hmd' & Hcd1).
  destruct (mallocs_ok_step 0 _ Hmd') as (Hmd2 & _ & _).
  pose proof (table_reachable_inv _ Hreach) as Hinv.
  pose proof Hinv as (_ & Hnext & _).
  destruct (table_inv_handles_below _ e Hinv Hin) as [Hh Hptr].
  assert (Unfold_sizes : SIZEOF_GPU_COPY_H2D = 24 ∧ H2D_MAX_BYTES = 4040) by done.
  destruct Unfold_sizes as (U1 & U2).
  set (m := libvgpu_api.h2d_message (entry_handle e) src ByteCount junk).
  assert (Hplen : payload_len (header m) = SIZEOF_GPU_COPY_H2D + ByteCount).
  { unfold m, libvgpu_api.h2d_message. cbn [header payload_len]. apply u32_small. lia. }
  assert (Hsendable : sendable m).
  { unfold sendable, idm_message_valid, idm_message_size, msg_wf. rewrite Hplen.
    unfold m at 1 2. cbn [libvgpu_api.h2d_message header magic version].
    rewrite !Z.eqb_refl. cbn [andb]. split.
    { apply Z.leb_le. unfold IDM_MAX_PAYLOAD_SIZE. lia. }
    split; [unfold SIZEOF_RING_ENTRY, SIZEOF_HEADER; lia|].
    apply h2d_message_length. lia. }
  destruct (h2d_message_fields (entry_handle e) src ByteCount junk)
    as (Hr1 & Hr2 & Hr3 & Hdata); [lia|lia|]. fold m in Hr1, Hr2, Hr3, Hdata.
  unfold libvgpu_api.cuMemcpyHtoD. rewrite Hinit. cbn [negb].
  destruct (entry_handle e =? 0) eqn:E1; branch; [lia|].
  destruct (ByteCount =? 0) eqn:E2; branch; [lia|]. cbn [orb].
  destruct (malloc (libvgpu.uproc (libvgpu_api.lib a))) as [ok p1] eqn:Hmalloc.
  cbn [fst snd] in *. subst ok. cbn [negb].
  rewrite (u64_small (SIZEOF_HEADER + SIZEOF_GPU_COPY_H2D + ByteCount))
    by (unfold SIZEOF_HEADER; lia).
  rewrite Z.ltb_irrefl. destruct (_ <? ByteCount) eqn:E3; branch; [lia|].
  fold m. set (u1 := libvgpu.with_uio _ _ _).
  set (pd1 := snd (malloc (proc st))) in *.
  set (call := CallMemcpyHtoD (u64 (entry_ptr e + 0)) (take (Z.to_nat ByteCount) src)
                 ByteCount).
  set (st2 := λ w2 : world, with_device (with_io st pd1 w2) d1 call).
  destruct (exchange_answered st u1 cu cd m 0 false st2)
    as (u' & Hrun & Hi & Hp & Hidle' & w2 & Hserved).
  - unfold u1. cbn [libvgpu.uproc libvgpu.with_uio]. congruence.
  - done.
  - done.
  - done.
  - done.
  - done.
  - done.
  - exact Hmu2.
  - done.
  - intros w2. split; [|split; [done|split]].
    + unfold dispatch.
      change (msg_type (header m) =? IDM_GPU_ALLOC) with false.
      change (msg_type (header m) =? IDM_GPU_FREE) with false.
      change (msg_type (header m) =? IDM_GPU_COPY_H2D) with true. cbn iota.
      fold pd1.
      rewrite (handle_gpu_copy_h2d_success m (with_io st pd1 w2) (entry_handle e)
                 ByteCount (entry_ptr e) (entry_size e) d1).
      * rewrite Hdata, take_take, Nat.min_id. done.
      * done.
      * done.
      * done.
      * cbn [table with_io]. change (src_zone (header m)) with libvgpu.USER_ZONE_ID.
        rewrite (owns_lookup (table st) libvgpu.USER_ZONE_ID e Hinv Hin).
        by rewrite Hzone, Z.eqb_refl.
      * done.
      * lia.
      * lia.
      * rewrite Hdata, length_take. lia.
      * rewrite Hdata, take_take, Nat.min_id. exact Hcopy.
    + cbn [st2 proc with_device with_io]. by rewrite Hcd1.
    + exact Hmd2.
  - rewrite Hrun. cbn [mbind option_bind].
    eexists _, _. split; [done|]. cbn [libvgpu_api.lib libvgpu_api.with_lib].
    split; [exact Hidle'|]. split; [done|]. split; [eexists; exact Hserved|].
    destruct (send_response_ok_frame (src_zone (header m)) (seq_num (header m))
                0 None 0 (st2 w2)) as (-> & -> & ->).
    done.
Qed.

(** [handle_gpu_free] on a handle the zone does not own, and on one it
    owns when the driver frees. *)
Lemma handle_gpu_free_unowned (m : idm_message) (st : driver_state dev) (h : Z) :
  read_le 0 8 (payload m) = Some h →
  ¬ owns (table st) (src_zone (header m)) h →
  handle_gpu_free m st
  = Some (snd (send_response_error (src_zone (header m)) (seq_num (header m))
                 IDM_ERROR_INVALID_HANDLE 0 "Invalid handle or permission denied" st)).
Proof.
  intros Hh Hun. unfold handle_gpu_free. rewrite Hh. cbn [mbind option_bind].
  rewrite handle_table_remove_unowned by done. cbn [Z.eqb].
  by rewrite with_table_same.
Qed.

Lemma handle_gpu_free_owned (m : idm_message) (st : driver_state dev) (h : Z)
    (e : handle_entry) (d1 : dev) :
  read_le 0 8 (payload m) = Some h →
  table_reachable (table st) →
  e ∈ live_entries (table st) → entry_handle e = h →
  entry_zone_id e = src_zone (header m) →
  cuMemFree (entry_ptr e) (device st) = (CUDA_SUCCESS, d1) →
  handle_gpu_free m st
  = Some (snd (send_response_ok (src_zone (header m)) (seq_num (header m)) 0 None 0
                 (with_device
                    (with_table st (snd (handle_table_remove (src_zone (header m)) h
                                           (table st))))
                    d1 (CallMemFree (entry_ptr e)))))
  ∧ handle_absent (snd (handle_table_remove (src_zone (header m)) h (table st))) h.
Proof.
  intros Hh Hreach Hin He Hz Hfree.
  destruct (remove_owner_parts (src_zone (header m)) h (table st) Hreach)
    as (Hptr & Hlook & Habs & _); [by exists e|].
  split; [|done].
  rewrite <- He, (owns_lookup (table st) _ e (table_reachable_inv _ Hreach) Hin) in Hlook.
  rewrite (proj2 (Z.eqb_eq _ _) Hz), He in Hlook. cbn [fst] in Hlook.
  unfold handle_gpu_free. rewrite Hh. cbn [mbind option_bind].
  destruct (handle_table_remove (src_zone (header m)) h (table st)) as [ptr t1].
  cbn [fst snd] in *. subst ptr.
  destruct (entry_ptr e =? 0) eqn:E; branch; [done|].
  change (device (with_table st t1)) with (device st). rewrite Hfree. done.
Qed.

(** X22.  [cuMemFree] end to end.  With the library initialised, the
    link idle and the daemon serving with a reachable table: for a
    handle the caller's zone owns, when the driver frees, the call
    returns [CUDA_SUCCESS], the daemon called the driver's [cuMemFree]
    once with the pointer registered for the handle, and the handle is
    gone from the table; for a non-null handle the zone does not own
    (never issued, already freed, or another zone's) the call returns
    [CUDA_ERROR_INVALID_HANDLE] and the daemon's table, device and
    calls are as before. *)
Theorem cuMemFree_frees_or_reports_invalid_handle (st : driver_state dev)
    (a : libvgpu_api.api_state) (cu cd : idm_connection) (h : Z) :
  libvgpu.initialized (libvgpu_api.lib a) = true →
  global_conn (libvgpu.uproc (libvgpu_api.lib a)) = Some cu →
  global_conn (proc st) = Some cd →
  linked cu cd → link_idle cu (libvgpu.ushared (libvgpu_api.lib a)) →
  mallocs_ok 2 (libvgpu.uproc (libvgpu_api.lib a)) → mallocs_ok 2 (proc st) →
  0 <= next_seq cu < 2 ^ 64 → 0 < h < 2 ^ 64 →
  table_reachable (table st) →
  (∀ e d1, e ∈ live_entries (table st) → entry_handle e = h →
     entry_zone_id e = local_zone_id cu →
     cuMemFree (entry_ptr e) (device st) = (CUDA_SUCCESS, d1) →
     ∃ a' st',
       libvgpu_api.cuMemFree (serving_peer st) h a = Some (libvgpu.CUDA_SUCCESS, a')
       ∧ link_idle cu (libvgpu.ushared (libvgpu_api.lib a'))
       ∧ (∃ w1, serve_once (with_io st (proc st) w1) = Some st')
       ∧ calls st' = calls st ++ [CallMemFree (entry_ptr e)]
       ∧ device st' = d1
       ∧ handle_absent (table st') h)
  ∧ (¬ owns (table st) (local_zone_id cu) h →
     ∃ a' st',
       libvgpu_api.cuMemFree (serving_peer st) h a
       = Some (libvgpu.CUDA_ERROR_INVALID_HANDLE, a')
       ∧ link_idle cu (libvgpu.ushared (libvgpu_api.lib a'))
       ∧ (∃ w1, serve_once (with_io st (proc st) w1) = Some st')
       ∧ table st' = table st ∧ device st' = device st ∧ calls st' = calls st).
Proof.
  intros Hinit Hcu Hcd Hlink Hidle Hmu Hmd Hseq Hh Hreach.
  destruct (mallocs_ok_step 1 _ Hmu) as (Hmu1 & Hmu' & _).
  destruct (mallocs_ok_step 0 _ Hmu') as (Hmu2 & _ & _).
  destruct (mallocs_ok_step 1 _ Hmd) as (Hmd1 & Hmd' & Hcd1).
  destruct (mallocs_ok_step 0 _ Hmd') as (Hmd2 & _ & _).
  set (body := encode_gpu_free {| free_handle := h |}).
  assert (Hlenb : length body = 8%nat) by apply length_encode_le.
  destruct (built_sendable libvgpu.DRIVER_ZONE_ID IDM_GPU_FREE body
              SIZEOF_GPU_FREE (libvgpu.uproc (libvgpu_api.lib a)) cu)
    as [Hbuild Hsendable]; [done|done|done|by rewrite Hlenb|].
  rewrite take_ge in Hbuild, Hsendable by (by rewrite Hlenb).
  change (u16 IDM_GPU_FREE) with IDM_GPU_FREE in *.
  set (m := Build_idm_message _ _) in *.
  set (pd1 := snd (malloc (proc st))) in *.
  assert (Hread : read_le 0 8 (payload m) = Some h).
  { unfold m, body, encode_gpu_free. cbn [payload free_handle].
    rewrite <- (app_nil_r (encode_le 8 h)), read_le_app_here. f_equal.
    apply Z.mod_small. change (2 ^ (8 * Z.of_nat 8)) with (2 ^ 64). lia. }
  assert (Hcall : ∀ peer, libvgpu_api.cuMemFree peer h a
            = '(result, _, a1) ←
                ('(result, handle_out, u1) ←
                   libvgpu.send_and_wait peer m false
                     (libvgpu.with_uio (libvgpu_api.lib a)
                        (set_conn (snd (malloc (libvgpu.uproc (libvgpu_api.lib a))))
                           (bump_seq cu))
                        (libvgpu.ushared (libvgpu_api.lib a)));
                 Some (result, handle_out, libvgpu_api.with_lib a u1));
              Some (result, a1)).
  { intros peer. unfold libvgpu_api.cuMemFree, libvgpu_api.request_call.
    rewrite Hinit. cbn [negb]. destruct (h =? 0) eqn:E; branch; [lia|].
    fold body. by rewrite Hbuild. }
  set (u1 := libvgpu.with_uio _ _ _) in Hcall.
  assert (Hu1 : fst (malloc (libvgpu.uproc u1)) = true).
  { unfold u1. cbn [libvgpu.uproc libvgpu.with_uio]. by rewrite malloc_set_conn. }
  split.
  - intros e d1 Hin He Hz Hfree.
    set (st2 := λ w2 : world,
           with_device
             (with_table (with_io st pd1 w2)
                (snd (handle_table_remove (local_zone_id cu) h (table st))))
             d1 (CallMemFree (entry_ptr e))).
    destruct (exchange_answered st u1 (bump_seq cu) cd m 0 false st2)
      as (u' & Hrun & Hi & Hp & Hidle' & w2 & Hserved);
      [done|done|exact Hlink|exact Hidle|done|done|done|done|done| |].
    { intros w2. split; [|split; [done|split]].
      - unfold dispatch.
        change (msg_type (header m) =? IDM_GPU_ALLOC) with false.
        change (msg_type (header m) =? IDM_GPU_FREE) with true. cbn iota. fold pd1.
        by destruct (handle_gpu_free_owned m (with_io st pd1 w2) h e d1) as [-> _].
      - cbn [st2 proc with_device with_table with_io]. by rewrite Hcd1.
      - exact Hmd2. }
    rewrite Hcall, Hrun. cbn [mbind option_bind].
    eexists _, _. split; [done|]. cbn [libvgpu_api.lib libvgpu_api.with_lib].
    split; [exact Hidle'|]. split; [eexists; exact Hserved|].
    destruct (send_response_ok_frame (src_zone (header m)) (seq_num (header m))
                0 None 0 (st2 w2)) as (-> & -> & ->).
    split; [done|]. split; [done|].
    by destruct (handle_gpu_free_owned m (with_io st pd1 w2) h e d1) as [_ Habs].
  - intros Hun.
    destruct (exchange_refused st u1 (bump_seq cu) cd m IDM_ERROR_INVALID_HANDLE 0
                "Invalid handle or permission denied" false (λ w2, with_io st pd1 w2))
      as (u' & Hrun & Hi & Hp & Hidle' & w2 & Hserved);
      [done|done|exact Hlink|exact Hidle|done|done|done|done|done| |].
    { intros w2. split; [|split; [done|split]].
      - unfold dispatch.
        change (msg_type (header m) =? IDM_GPU_ALLOC) with false.
        change (msg_type (header m) =? IDM_GPU_FREE) with true. cbn iota. fold pd1.
        by rewrite (handle_gpu_free_unowned m (with_io st pd1 w2) h).
      - cbn [proc with_io]. by rewrite Hcd1.
      - exact Hmd2. }
    rewrite Hcall, Hrun. cbn [mbind option_bind].
    eexists _, _. split; [done|]. cbn [libvgpu_api.lib libvgpu_api.with_lib].
    split; [exact Hidle'|]. split; [eexists; exact Hserved|].
    by destruct (send_response_error_frame (src_zone (header m)) (seq_num (header m))
                   IDM_ERROR_INVALID_HANDLE 0 "Invalid handle or permission denied"
                   (with_io st pd1 w2)) as (-> & -> & ->).
Qed.

(** X23.  [cuCtxSynchronize] end to end, and what becomes of a driver
    error.  With the library initialised, the link idle and the daemon
    serving, the daemon calls the driver's [cuCtxSynchronize] once.
    When the driver succeeds the call returns [CUDA_SUCCESS].  When the
    driver fails, with whatever code, the call returns
    [CUDA_ERROR_INVALID_VALUE]: the driver's code travels in the
    response but the library maps every [IDM_ERROR_CUDA_ERROR] to that
    one value. *)
Theorem cuCtxSynchronize_reports_driver_verdict (st : driver_state dev)
    (a : libvgpu_api.api_state) (cu cd : idm_connection) :
  libvgpu.initialized (libvgpu_api.lib a) = true →
  global_conn (libvgpu.uproc (libvgpu_api.lib a)) = Some cu →
  global_conn (proc st) = Some cd →
  linked cu cd → link_idle cu (libvgpu.ushared (libvgpu_api.lib a)) →
  mallocs_ok 2 (libvgpu.uproc (libvgpu_api.lib a)) → mallocs_ok 2 (proc st) →
  0 <= next_seq cu < 2 ^ 64 →
  let res := fst (cuCtxSynchronize (device st)) in
  ∃ a' st',
    libvgpu_api.cuCtxSynchronize (serving_peer st) a
    = Some (if res =? CUDA_SUCCESS then libvgpu.CUDA_SUCCESS
            else libvgpu.CUDA_ERROR_INVALID_VALUE, a')
    ∧ link_idle cu (libvgpu.ushared (libvgpu_api.lib a'))
    ∧ (∃ w1, serve_once (with_io st (proc st) w1) = Some st')
    ∧ calls st' = calls st ++ [CallCtxSynchronize]
    ∧ device st' = snd (cuCtxSynchronize (device st))
    ∧ table st' = table st.
Proof.
  intros Hinit Hcu Hcd Hlink Hidle Hmu Hmd Hseq res.
  destruct (mallocs_ok_step 1 _ Hmu) as (Hmu1 & Hmu' & _).
  destruct (mallocs_ok_step 0 _ Hmu') as (Hmu2 & _ & _).
  destruct (mallocs_ok_step 1 _ Hmd) as (Hmd1 & Hmd' & Hcd1).
  destruct (mallocs_ok_step 0 _ Hmd') as (Hmd2 & _ & _).
  set (body := encode_gpu_sync {| sync_flags := 0; sync_reserved := 0 |}).
  assert (Hlenb : length body = 8%nat) by done.
  destruct (built_sendable libvgpu.DRIVER_ZONE_ID IDM_GPU_SYNC body
              SIZEOF_GPU_SYNC (libvgpu.uproc (libvgpu_api.lib a)) cu)
    as [Hbuild Hsendable]; [done|done|done|by rewrite Hlenb|].
  rewrite take_ge in Hbuild, Hsendable by (by rewrite Hlenb).
  change (u16 IDM_GPU_SYNC) with IDM_GPU_SYNC in *.
  set (m := Build_idm_message _ _) in *.
  set (pd1 := snd (malloc (proc st))) in *.
  unfold libvgpu_api.cuCtxSynchronize, libvgpu_api.request_call.
  rewrite Hinit. cbn [negb]. fold body. rewrite Hbuild.
  set (u1 := libvgpu.with_uio _ _ _).
  assert (Hu1 : fst (malloc (libvgpu.uproc u1)) = true).
  { unfold u1. cbn [libvgpu.uproc libvgpu.with_uio]. by rewrite malloc_set_conn. }
  set (st2 := λ w2 : world,
         with_device (with_io st pd1 w2) (snd (cuCtxSynchronize (device st)))
           CallCtxSynchronize).
  assert (Hdisp : ∀ w2, dispatch m (with_io st pd1 w2)
            = if res =? CUDA_SUCCESS
              then Some (snd (send_response_ok (src_zone (header m)) (seq_num (header m))
                                0 None 0 (st2 w2)))
              else Some (snd (send_response_error (src_zone (header m))
                                (seq_num (header m)) IDM_ERROR_CUDA_ERROR res
                                "cuCtxSynchronize failed" (st2 w2)))).
  { intros w2. unfold dispatch, handle_gpu_sync.
    change (msg_type (header m) =? IDM_GPU_ALLOC) with false.
    change (msg_type (header m) =? IDM_GPU_FREE) with false.
    change (msg_type (header m) =? IDM_GPU_COPY_H2D) with false.
    change (msg_type (header m) =? IDM_GPU_COPY_D2H) with false.
    change (msg_type (header m) =? IDM_GPU_SYNC) with true. cbn iota.
    cbn [device with_io]. subst res st2. cbn beta.
    destruct (cuCtxSynchronize (device st)) as [res d1]. cbn [fst snd].
    by destruct (res =? CUDA_SUCCESS). }
  destruct (res =? CUDA_SUCCESS) eqn:E.
  - destruct (exchange_answered st u1 (bump_seq cu) cd m 0 false st2)
      as (u' & Hrun & Hi & Hp & Hidle' & w2 & Hserved);
      [done|done|exact Hlink|exact Hidle|done|done|done|done|done| |].
    { intros w2. split; [by rewrite Hdisp|]. split; [done|]. split; [|exact Hmd2].
      cbn [st2 proc with_device with_io]. by rewrite Hcd1. }
    rewrite Hrun. cbn [mbind option_bind].
    eexists _, _. split; [done|]. cbn [libvgpu_api.lib libvgpu_api.with_lib].
    split; [exact Hidle'|]. split; [eexists; exact Hserved|].
    by destruct (send_response_ok_frame (src_zone (header m)) (seq_num (header m))
                   0 None 0 (st2 w2)) as (-> & -> & ->).
  - destruct (exchange_refused st u1 (bump_seq cu) cd m IDM_ERROR_CUDA_ERROR res
                "cuCtxSynchronize failed" false st2)
      as (u' & Hrun & Hi & Hp & Hidle' & w2 & Hserved);
      [done|done|exact Hlink|exact Hidle|done|done|done|done|done| |].
    { intros w2. split; [by rewrite Hdisp|]. split; [done|]. split; [|exact Hmd2].
      cbn [st2 proc with_device with_io]. by rewrite Hcd1. }
    rewrite Hrun. cbn [mbind option_bind].
    eexists _, _. split; [done|]. cbn [libvgpu_api.lib libvgpu_api.with_lib].
    split; [exact Hidle'|]. split; [eexists; exact Hserved|].
    by destruct (send_response_error_frame (src_zone (header m)) (seq_num (header m))
                   IDM_ERROR_CUDA_ERROR res "cuCtxSynchronize failed" (st2 w2))
      as (-> & -> & ->).
Qed.

End Exchange.

(** X20.  [cuMemcpyHtoD] carries at most 4040 bytes.  With the library
    initialised, a non-null destination, a source that holds the
    [ByteCount] bytes and memory for the message, a call with
    4040 < ByteCount < 2^32 - 24 returns [CUDA_ERROR_INVALID_VALUE]
    whatever the peer does, and nothing is written to the shared
    memory: the message does not fit a ring slot (or, above 4 MiB - 24,
    is not valid) and [idm_send] refuses it.  For ByteCount <= 4040 the
    message is one [idm_send] accepts; it carries sequence number 1 and
    source zone 2 whatever the connection says, and the handler reads
    from it the destination handle, offset 0, [ByteCount] and the first
    [ByteCount] bytes of the source. *)
Theorem cuMemcpyHtoD_carries_one_slot (peer : nat → world → world)
    (a : libvgpu_api.api_state) (cu : idm_connection)
    (dstDevice : Z) (src : list byte) (ByteCount junk : Z) :
  libvgpu.initialized (libvgpu_api.lib a) = true →
  global_conn (libvgpu.uproc (libvgpu_api.lib a)) = Some cu →
  fst (malloc (libvgpu.uproc (libvgpu_api.lib a))) = true →
  0 < dstDevice < 2 ^ 64 → 0 < ByteCount < 2 ^ 32 - SIZEOF_GPU_COPY_H2D →
  ByteCount <= Z.of_nat (length src) →
  let m := libvgpu_api.h2d_message dstDevice src ByteCount junk in
  (H2D_MAX_BYTES < ByteCount →
     ∃ a', libvgpu_api.cuMemcpyHtoD peer dstDevice (Some src) ByteCount junk a
           = Some (libvgpu.CUDA_ERROR_INVALID_VALUE, a')
           ∧ libvgpu.ushared (libvgpu_api.lib a') = libvgpu.ushared (libvgpu_api.lib a))
  ∧ (ByteCount <= H2D_MAX_BYTES →
       sendable m
       ∧ libvgpu_api.cuMemcpyHtoD peer dstDevice (Some src) ByteCount junk a
         = '(result, _, u1) ←
             libvgpu.send_and_wait peer m false
               (libvgpu.with_uio (libvgpu_api.lib a)
                  (snd (malloc (libvgpu.uproc (libvgpu_api.lib a))))
                  (libvgpu.ushared (libvgpu_api.lib a)));
           Some (result, libvgpu_api.with_lib a u1))
  ∧ seq_num (header m) = 1 ∧ src_zone (header m) = libvgpu.USER_ZONE_ID
  ∧ read_le 0 8 (payload m) = Some dstDevice
  ∧ read_le 8 8 (payload m) = Some 0
  ∧ read_le 16 8 (payload m) = Some ByteCount
  ∧ drop (Z.to_nat SIZEOF_GPU_COPY_H2D) (payload m) = take (Z.to_nat ByteCount) src.
Proof.
  intros Hinit Hcu Hm Hdst Hn Hsrc m.
  assert (Unfold_sizes : SIZEOF_GPU_COPY_H2D = 24 ∧ SIZEOF_HEADER = 32
                         ∧ SIZEOF_RING_ENTRY = 4096 ∧ H2D_MAX_BYTES = 4040) by done.
  destruct Unfold_sizes as (U1 & U2 & U3 & U4).
  assert (Hplen : payload_len (header m) = SIZEOF_GPU_COPY_H2D + ByteCount).
  { unfold m, libvgpu_api.h2d_message. cbn [header payload_len]. apply u32_small. lia. }
  assert (Hcall : libvgpu_api.cuMemcpyHtoD peer dstDevice (Some src) ByteCount junk a
            = '(result, _, u1) ←
                libvgpu.send_and_wait peer m false
                  (libvgpu.with_uio (libvgpu_api.lib a)
                     (snd (malloc (libvgpu.uproc (libvgpu_api.lib a))))
                     (libvgpu.ushared (libvgpu_api.lib a)));
              Some (result, libvgpu_api.with_lib a u1)).
  { unfold libvgpu_api.cuMemcpyHtoD. rewrite Hinit. cbn [negb].
    destruct (dstDevice =? 0) eqn:E1; branch; [lia|].
    destruct (ByteCount =? 0) eqn:E2; branch; [lia|]. cbn [orb].
    destruct (malloc (libvgpu.uproc (libvgpu_api.lib a))) as [ok p1].
    cbn [fst snd] in *. subst ok. cbn [negb].
    rewrite (u64_small (SIZEOF_HEADER + SIZEOF_GPU_COPY_H2D + ByteCount)) by lia.
    rewrite Z.ltb_irrefl.
    destruct (_ <? ByteCount) eqn:E3; branch; [lia|]. done. }
  split; [|split].
  - intros Hbig. rewrite Hcall. unfold libvgpu.send_and_wait.
    assert (Hrefused : idm_send m (snd (malloc (libvgpu.uproc (libvgpu_api.lib a))))
                         (libvgpu.ushared (libvgpu_api.lib a))
                       = (- EINVAL, libvgpu.ushared (libvgpu_api.lib a))
                       ∨ idm_send m (snd (malloc (libvgpu.uproc (libvgpu_api.lib a))))
                           (libvgpu.ushared (libvgpu_api.lib a))
                         = (- ENOTCONN, libvgpu.ushared (libvgpu_api.lib a))).
    { unfold idm_send. rewrite malloc_conn, Hcu.
      destruct (negb (connected cu)); [by right|]. left.
      destruct (negb (idm_message_valid (header m))); [done|].
      unfold idm_message_size. rewrite Hplen.
      destruct (_ >? SIZEOF_RING_ENTRY) eqn:E; branch; [done|lia]. }
    cbn [libvgpu.uproc libvgpu.ushared libvgpu.with_uio].
    destruct Hrefused as [-> | ->]; cbn [mbind option_bind];
      (eexists; split; [done|done]).
  - intros Hfit. split; [|done].
    unfold sendable, idm_message_valid, idm_message_size, msg_wf. rewrite Hplen.
    unfold m at 1 2. cbn [libvgpu_api.h2d_message header magic version].
    rewrite !Z.eqb_refl. cbn [andb]. split.
    { apply Z.leb_le. unfold IDM_MAX_PAYLOAD_SIZE. lia. }
    split; [lia|]. apply h2d_message_length. lia.
  - split; [done|]. split; [done|]. apply h2d_message_fields; lia.
Qed.

Lemma linked_user_driver : linked user_conn driver_conn.
Proof. repeat split; try reflexivity; intros Heq; vm_compute in Heq; discriminate. Qed.

Lemma link_idle_fresh : link_idle user_conn fresh_world.
Proof. split; [apply holds_queue_zero|]. split; [apply holds_queue_zero|]. done. Qed.

Lemma cuMemcpyDtoD_is_never_answered_witness :
  ∃ a', libvgpu_api.cuMemcpyDtoD (serving_peer (daemon_state one_alloc_table fresh_world))
          1 1 4 app_api_state
        = Some (libvgpu.CUDA_ERROR_INVALID_VALUE, a').
Proof.
  destruct (cuMemcpyDtoD_is_never_answered (daemon_state one_alloc_table fresh_world)
              app_api_state user_conn driver_conn 1 1 4)
    as (a' & st' & Hrun & _);
    [reflexivity|reflexivity|reflexivity|apply linked_user_driver|apply link_idle_fresh
    |reflexivity|reflexivity|done|done|done|].
  exists a'. exact Hrun.
Defined.

Lemma cuMemAlloc_returns_registered_handle_witness :
  ∃ a', libvgpu_api.cuMemAlloc (serving_peer (daemon_state one_alloc_table fresh_world))
          true 64 app_api_state
        = Some (libvgpu.CUDA_SUCCESS, Some 2, a').
Proof.
  destruct (cuMemAlloc_returns_registered_handle
              (daemon_state one_alloc_table fresh_world) app_api_state
              user_conn driver_conn 64 8192
              {| stub_mem := stub_mem stub_start; stub_brk := 8256; stub_heap := [] |})
    as (a' & st' & Hrun & _).
  - reflexivity.
  - reflexivity.
  - reflexivity.
  - apply linked_user_driver.
  - apply link_idle_fresh.
  - intros i _. by destruct i.
  - intros i _. by destruct i.
  - done.
  - apply one_alloc_table_reachable.
  - reflexivity.
  - done.
  - reflexivity.
  - done.
  - exists a'. exact Hrun.
Defined.

Lemma cuMemcpyHtoD_carries_one_slot_witness :
  ∃ a', libvgpu_api.cuMemcpyHtoD (λ _ w, w) 1 (Some (replicate 5000 x01)) 5000 0
          app_api_state
        = Some (libvgpu.CUDA_ERROR_INVALID_VALUE, a').
Proof.
  destruct (cuMemcpyHtoD_carries_one_slot (λ _ w, w) app_api_state user_conn 1
              (replicate 5000 x01) 5000 0) as (Hbig & _).
  - reflexivity.
  - reflexivity.
  - reflexivity.
  - done.
  - done.
  - rewrite length_replicate. done.
  - destruct Hbig as (a' & Hrun & _); [done|]. exists a'. exact Hrun.
Defined.

Lemma cuMemcpyHtoD_reaches_the_driver_witness :
  ∃ a', libvgpu_api.cuMemcpyHtoD (serving_peer (daemon_state one_alloc_table fresh_world))
          1 (Some [x01; x02; x03; x04; x05]) 4 0 app_api_state
        = Some (libvgpu.CUDA_SUCCESS, a').
Proof.
  destruct (cuMemcpyHtoD_reaches_the_driver
              (daemon_state one_alloc_table fresh_world) app_api_state
              user_conn driver_conn [x01; x02; x03; x04; x05] 4 0
              (Build_handle_entry 1 2 4096 1024)
              (snd (cuMemcpyHtoD 4096 [x01; x02; x03; x04] 4 stub_start)))
    as (a' & st' & Hrun & _).
  - reflexivity.
  - reflexivity.
  - reflexivity.
  - apply linked_user_driver.
  - apply link_idle_fresh.
  - intros i _. by destruct i.
  - intros i _. by destruct i.
  - apply one_alloc_table_reachable.
  - apply list_elem_of_In. vm_compute. tauto.
  - reflexivity.
  - done.
  - done.
  - done.
  - reflexivity.
  - exists a'. exact Hrun.
Defined.

Lemma cuMemFree_frees_or_reports_invalid_handle_witness :
  (∃ a', libvgpu_api.cuMemFree (serving_peer (daemon_state one_alloc_table fresh_world))
           1 app_api_state
         = Some (libvgpu.CUDA_SUCCESS, a'))
  ∧ (∃ a', libvgpu_api.cuMemFree
             (serving_peer (daemon_state handle_table_init fresh_world)) 1 app_api_state
           = Some (libvgpu.CUDA_ERROR_INVALID_HANDLE, a')).
Proof.
  split.
  - destruct (cuMemFree_frees_or_reports_invalid_handle
                (daemon_state one_alloc_table fresh_world) app_api_state
                user_conn driver_conn 1) as [Hown _].
    + reflexivity.
    + reflexivity.
    + reflexivity.
    + apply linked_user_driver.
    + apply link_idle_fresh.
    + intros i _. by destruct i.
    + intros i _. by destruct i.
    + done.
    + done.
    + apply one_alloc_table_reachable.
    + destruct (Hown (Build_handle_entry 1 2 4096 1024) stub_start)
        as (a' & st' & Hrun & _).
      * apply list_elem_of_In. vm_compute. tauto.
      * reflexivity.
      * reflexivity.
      * reflexivity.
      * exists a'. exact Hrun.
  - destruct (cuMemFree_frees_or_reports_invalid_handle
                (daemon_state handle_table_init fresh_world) app_api_state
                user_conn driver_conn 1) as [_ Hforeign].
    + reflexivity.
    + reflexivity.
    + reflexivity.
    + apply linked_user_driver.
    + apply link_idle_fresh.
    + intros i _. by destruct i.
    + intros i _. by destruct i.
    + done.
    + done.
    + apply table_fresh.
    + destruct Hforeign as (a' & st' & Hrun & _).
      * intros (e & Hin & _). apply list_elem_of_In in Hin. vm_compute in Hin. done.
      * exists a'. exact Hrun.
Defined.

Lemma cuCtxSynchronize_reports_driver_verdict_witness :
  ∃ a', libvgpu_api.cuCtxSynchronize
          (serving_peer (daemon_state one_alloc_table fresh_world)) app_api_state
        = Some (libvgpu.CUDA_SUCCESS, a').
Proof.
  destruct (cuCtxSynchronize_reports_driver_verdict
              (daemon_state one_alloc_table fresh_world) app_api_state
              user_conn driver_conn) as (a' & st' & Hrun & _).
  - reflexivity.
  - reflexivity.
  - reflexivity.
  - apply linked_user_driver.
  - apply link_idle_fresh.
  - intros i _. by destruct i.
  - intros i _. by destruct i.
  - done.
  - exists a'. exact Hrun.
Defined.

(* ====================================================================== *)
(** * The entry points of libvgpu as a whole *)
(* ====================================================================== *)

Section ApiFacts.
Variable peer : nat → world → world.

Ltac in_list :=
  unfold wait_codes, result_codes;
  repeat first [apply list_elem_of_here | apply list_elem_of_further].

Lemma wait_codes_result_codes (r : Z) : r ∈ wait_codes → r ∈ result_codes.
Proof.
  unfold wait_codes. intros Hin.
  repeat (apply elem_of_cons in Hin as [->|Hin]; [in_list|]).
  by apply elem_of_nil in Hin.
Qed.

Lemma on_response_codes (req_seq : Z) (want_handle : bool) (resp : idm_message)
    (r : Z) (h : option Z) :
  libvgpu.on_response req_seq want_handle resp = Some (Some (r, h)) → r ∈ wait_codes.
Proof.
  unfold libvgpu.on_response.
  destruct (_ =? IDM_RESPONSE_OK).
  { destruct (read_le 0 8 _); [|done]. cbn [mbind option_bind].
    destruct (_ =? req_seq); [|done]. destruct want_handle.
    - destruct (read_le 8 8 _); [|done]. intros [= <- _]. in_list.
    - intros [= <- _]. in_list. }
  destruct (_ =? IDM_RESPONSE_ERROR); [|done].
  destruct (read_le 0 8 _); [|done]. cbn [mbind option_bind].
  destruct (_ =? req_seq); [|done].
  destruct (read_le 8 4 _) as [code|]; [|done]. cbn [mbind option_bind].
  destruct (code =? IDM_ERROR_OUT_OF_MEMORY); [intros [= <- _]; in_list|].
  destruct (code =? IDM_ERROR_INVALID_HANDLE); intros [= <- _]; in_list.
Qed.

Lemma wait_loop_result (left i : nat) (req_seq : Z) (want_handle : bool)
    (u u' : libvgpu.user_state) (r : Z) (h : option Z) :
  libvgpu.wait_loop peer left i req_seq want_handle u = Some (r, h, u') →
  r ∈ wait_codes ∧ libvgpu.initialized u' = libvgpu.initialized u.
Proof.
  revert i u. induction left as [|left IH]; intros i u; cbn [libvgpu.wait_loop].
  { intros [= <- _ <-]. split; [in_list|done]. }
  destruct (idm_recv 1000 _ _) as [[[[ret msg_out] p1] w1]|]; [|done].
  cbn [mbind option_bind].
  destruct (ret <? 0).
  { intros Hloop. by destruct (IH _ _ Hloop). }
  destruct msg_out as [resp|]; [|done].
  destruct (libvgpu.on_response req_seq want_handle resp) as [[[r' h']|]|] eqn:Hv; [| |done].
  - cbn [mbind option_bind]. intros [= <- <- <-]. split; [|done].
    by eapply on_response_codes.
  - cbn [mbind option_bind]. intros Hloop. by destruct (IH _ _ Hloop).
Qed.

Lemma send_and_wait_result (m : idm_message) (want_handle : bool)
    (u u' : libvgpu.user_state) (r : Z) (h : option Z) :
  libvgpu.send_and_wait peer m want_handle u = Some (r, h, u') →
  r ∈ wait_codes ∧ libvgpu.initialized u' = libvgpu.initialized u.
Proof.
  unfold libvgpu.send_and_wait.
  destruct (idm_send m (libvgpu.uproc u) (libvgpu.ushared u)) as [ret w1].
  destruct (ret <? 0).
  - intros [= <- _ <-]. split; [in_list|done].
  - intros Hloop. by destruct (wait_loop_result _ _ _ _ _ _ _ _ Hloop).
Qed.

Lemma request_call_result (type : Z) (body : list byte) (len : Z) (want_handle : bool)
    (a a' : libvgpu_api.api_state) (r : Z) (h : option Z) :
  libvgpu_api.request_call peer type body len want_handle a = Some (r, h, a') →
  r ∈ wait_codes
  ∧ libvgpu.initialized (libvgpu_api.lib a') = libvgpu.initialized (libvgpu_api.lib a)
  ∧ libvgpu_api.current_context a' = libvgpu_api.current_context a.
Proof.
  unfold libvgpu_api.request_call.
  destruct (idm_build_message _ _ _ _ _) as [[m|] p1].
  - destruct (libvgpu.send_and_wait peer m want_handle _) as [[[r' h'] u1]|] eqn:Hrun;
      [|done].
    cbn [mbind option_bind]. intros [= <- _ <-].
    by destruct (send_and_wait_result _ _ _ _ _ _ Hrun).
  - intros [= <- _ <-]. split; [in_list|done].
Qed.

(** X24.  The calls of libvgpu as a whole, all 21 entry points.
    Whatever the peer does, a call that returns, returns one of
    [CUDA_SUCCESS], [CUDA_ERROR_INVALID_VALUE],
    [CUDA_ERROR_OUT_OF_MEMORY], [CUDA_ERROR_NOT_INITIALIZED],
    [CUDA_ERROR_INVALID_CONTEXT] and [CUDA_ERROR_INVALID_HANDLE], each
    of which [cuGetErrorName] and [cuGetErrorString] know.  Before
    [cuInit] every call that tests [initialized] returns
    [CUDA_ERROR_NOT_INITIALIZED] and changes nothing, the shared memory
    included; these are all calls but [cuInit], the three memsets and
    the two error-text calls.  The memsets return [CUDA_SUCCESS]
    whether the library is initialised or not, and neither they nor
    the error-text calls change anything.  No call but [cuInit] sets
    [initialized] and no call clears it; no call but [cuCtxCreate],
    [cuCtxDestroy] and [cuCtxSetCurrent] changes the current context. *)
Theorem api_call_contract (c : api_call) (a : libvgpu_api.api_state) :
  (∀ r a', call_result peer c a = Some (r, a') →
     r ∈ result_codes
     ∧ (∃ name, libvgpu_api.cuGetErrorName r true = (libvgpu.CUDA_SUCCESS, Some name)
                ∧ libvgpu_api.error_names r = Some name)
     ∧ (∃ text, libvgpu_api.cuGetErrorString r true = (libvgpu.CUDA_SUCCESS, Some text)
                ∧ libvgpu_api.error_strings r = Some text)
     ∧ (libvgpu.initialized (libvgpu_api.lib a) = true →
        libvgpu.initialized (libvgpu_api.lib a') = true)
     ∧ ((∀ Flags, c ≠ CallCuInit Flags) →
        libvgpu.initialized (libvgpu_api.lib a') = libvgpu.initialized (libvgpu_api.lib a))
     ∧ (match c with
        | CallCuCtxCreate _ _ _ | CallCuCtxDestroy _ | CallCuCtxSetCurrent _ => True
        | _ => libvgpu_api.current_context a' = libvgpu_api.current_context a
        end))
  ∧ (libvgpu.initialized (libvgpu_api.lib a) = false → needs_init c = true →
     call_result peer c a = Some (libvgpu.CUDA_ERROR_NOT_INITIALIZED, a))
  ∧ (needs_init c = false → (∀ Flags, c ≠ CallCuInit Flags) →
     ∃ r, call_result peer c a = Some (r, a)
          ∧ match c with
            | CallCuGetErrorString _ pStr | CallCuGetErrorName _ pStr =>
              r = if pStr then libvgpu.CUDA_SUCCESS else libvgpu.CUDA_ERROR_INVALID_VALUE
            | _ => r = libvgpu.CUDA_SUCCESS
            end).
Proof.
  assert (Hnamed : ∀ r, r ∈ result_codes →
            r ∈ result_codes
            ∧ (∃ name, libvgpu_api.cuGetErrorName r true
                       = (libvgpu.CUDA_SUCCESS, Some name)
                       ∧ libvgpu_api.error_names r = Some name)
            ∧ (∃ text, libvgpu_api.cuGetErrorString r true
                       = (libvgpu.CUDA_SUCCESS, Some text)
                       ∧ libvgpu_api.error_strings r = Some text)).
  { intros r Hin. split; [done|]. unfold result_codes in Hin.
    repeat (apply elem_of_cons in Hin as [->|Hin];
            [split; eexists; split; reflexivity|]).
    by apply elem_of_nil in Hin. }
  assert (Hgo : ∀ r (P : Prop), r ∈ result_codes → P →
            r ∈ result_codes
            ∧ (∃ name, libvgpu_api.cuGetErrorName r true
                       = (libvgpu.CUDA_SUCCESS, Some name)
                       ∧ libvgpu_api.error_names r = Some name)
            ∧ (∃ text, libvgpu_api.cuGetErrorString r true
                       = (libvgpu.CUDA_SUCCESS, Some text)
                       ∧ libvgpu_api.error_strings r = Some text)
            ∧ P).
  { intros r P Hin HP. destruct (Hnamed r Hin) as (? & ? & ?). done. }
  split; [|split].
  - intros r a'. destruct c; cbn [call_result].
    + (* cuInit *)
      unfold libvgpu_api.cuInit.
      destruct (libvgpu.initialized (libvgpu_api.lib a)) eqn:Hi.
      { intros [= <- <-]. apply Hgo; [in_list|]. split; [done|]. split; [done|done]. }
      destruct (idm_init _ _ _ _ _) as [[[ret p1] w1]|]; [|done].
      cbn [mbind option_bind].
      destruct (ret <? 0); intros [= <- <-]; (apply Hgo; [in_list|]);
        (split; [done|]); (split; [|done]); intros Hne; by destruct (Hne Flags).
    + (* cuDriverGetVersion *)
      unfold libvgpu_api.cuDriverGetVersion.
      destruct (negb _); [intros [= <- <-]; apply Hgo; [in_list|done]|].
      destruct (negb _); intros [= <- <-]; (apply Hgo; [in_list|done]).
    + (* cuDeviceGet *)
      unfold libvgpu_api.cuDeviceGet.
      destruct (negb _); [intros [= <- <-]; apply Hgo; [in_list|done]|].
      destruct (_ || _); intros [= <- <-]; (apply Hgo; [in_list|done]).
    + (* cuDeviceGetCount *)
      unfold libvgpu_api.cuDeviceGetCount.
      destruct (negb _); [intros [= <- <-]; apply Hgo; [in_list|done]|].
      destruct (negb _); intros [= <- <-]; (apply Hgo; [in_list|done]).
    + (* cuDeviceGetName *)
      unfold libvgpu_api.cuDeviceGetName.
      destruct (negb _); [intros [= <- <-]; apply Hgo; [in_list|done]|].
      destruct (_ || _); intros [= <- <-]; (apply Hgo; [in_list|done]).
    + (* cuDeviceGetAttribute *)
      unfold libvgpu_api.cuDeviceGetAttribute.
      destruct (negb _); [intros [= <- <-]; apply Hgo; [in_list|done]|].
      destruct (_ || _); intros [= <- <-]; (apply Hgo; [in_list|done]).
    + (* cuCtxCreate *)
      unfold libvgpu_api.cuCtxCreate.
      destruct (negb _); [intros [= <- <-]; apply Hgo; [in_list|done]|].
      destruct (_ || _); intros [= <- <-]; (apply Hgo; [in_list|done]).
    + (* cuCtxDestroy *)
      unfold libvgpu_api.cuCtxDestroy.
      destruct (negb _); [intros [= <- <-]; apply Hgo; [in_list|done]|].
      destruct (negb _); intros [= <- <-]; (apply Hgo; [in_list|done]).
    + (* cuCtxSynchronize *)
      unfold libvgpu_api.cuCtxSynchronize.
      destruct (negb _); [intros [= <- <-]; apply Hgo; [in_list|done]|].
      destruct (libvgpu_api.request_call _ _ _ _ _ _) as [[[r' h'] a1]|] eqn:Hrun; [|done].
      cbn [mbind option_bind]. intros [= <- <-].
      destruct (request_call_result _ _ _ _ _ _ _ _ Hrun) as (Hr & Hi & Hctx).
      apply Hgo; [by apply wait_codes_result_codes|]. rewrite Hi. done.
    + (* cuCtxGetCurrent *)
      unfold libvgpu_api.cuCtxGetCurrent.
      destruct (negb _); [intros [= <- <-]; apply Hgo; [in_list|done]|].
      destruct (negb _); intros [= <- <-]; (apply Hgo; [in_list|done]).
    + (* cuCtxSetCurrent *)
      unfold libvgpu_api.cuCtxSetCurrent.
      destruct (negb _); intros [= <- <-]; (apply Hgo; [in_list|done]).
    + (* cuMemAlloc *)
      unfold libvgpu_api.cuMemAlloc.
      destruct (negb _); [intros [= <- <-]; apply Hgo; [in_list|done]|].
      destruct (_ || _); [intros [= <- <-]; apply Hgo; [in_list|done]|].
      destruct (libvgpu_api.request_call _ _ _ _ _ _) as [[[r' h'] a1]|] eqn:Hrun; [|done].
      cbn [mbind option_bind].
      destruct (request_call_result _ _ _ _ _ _ _ _ Hrun) as (Hr & Hi & Hctx).
      destruct (r' =? libvgpu.CUDA_SUCCESS); cbn [mbind option_bind];
        intros [= <- <-]; (apply Hgo; [by apply wait_codes_result_codes|]);
        rewrite Hi; done.
    + (* cuMemFree *)
      unfold libvgpu_api.cuMemFree.
      destruct (negb _); [intros [= <- <-]; apply Hgo; [in_list|done]|].
      destruct (_ =? 0); [intros [= <- <-]; apply Hgo; [in_list|done]|].
      destruct (libvgpu_api.request_call _ _ _ _ _ _) as [[[r' h'] a1]|] eqn:Hrun; [|done].
      cbn [mbind option_bind]. intros [= <- <-].
      destruct (request_call_result _ _ _ _ _ _ _ _ Hrun) as (Hr & Hi & Hctx).
      apply Hgo; [by apply wait_codes_result_codes|]. rewrite Hi. done.
    + (* cuMemcpyHtoD *)
      unfold libvgpu_api.cuMemcpyHtoD.
      destruct (negb _); [intros [= <- <-]; apply Hgo; [in_list|done]|].
      destruct srcHost as [src|]; [|intros [= <- <-]; apply Hgo; [in_list|done]].
      destruct (_ || _); [intros [= <- <-]; apply Hgo; [in_list|done]|].
      destruct (malloc _) as [ok p1].
      destruct (negb ok); [intros [= <- <-]; apply Hgo; [in_list|done]|].
      destruct (_ <? _); [done|]. destruct (_ <? _); [done|].
      destruct (libvgpu.send_and_wait _ _ _ _) as [[[r' h'] u1]|] eqn:Hrun; [|done].
      cbn [mbind option_bind]. intros [= <- <-].
      destruct (send_and_wait_result _ _ _ _ _ _ Hrun) as (Hr & Hi).
      apply Hgo; [by apply wait_codes_result_codes|].
      cbn [libvgpu_api.lib libvgpu_api.with_lib libvgpu_api.current_context].
      rewrite Hi. done.
    + (* cuMemcpyDtoH *)
      unfold libvgpu.cuMemcpyDtoH.
      destruct (negb _); [intros [= <- <-]; apply Hgo; [in_list|by destruct a as [[] ?]]|].
      destruct dstHost as [buf|];
        [|intros [= <- <-]; apply Hgo; [in_list|by destruct a as [[] ?]]].
      destruct (_ || _); [intros [= <- <-]; apply Hgo; [in_list|by destruct a as [[] ?]]|].
      destruct (idm_build_message _ _ _ _ _) as [[m|] p1];
        [|intros [= <- <-]; apply Hgo; [in_list|done]].
      destruct (libvgpu.send_and_wait _ _ _ _) as [[[r' h'] u1]|] eqn:Hrun; [|done].
      cbn [mbind option_bind].
      destruct (send_and_wait_result _ _ _ _ _ _ Hrun) as (Hr & Hi).
      destruct (r' =? libvgpu.CUDA_SUCCESS); cbn [mbind option_bind];
        intros [= <- <-]; (apply Hgo; [by apply wait_codes_result_codes|]);
        cbn [libvgpu_api.lib libvgpu_api.with_lib libvgpu_api.current_context];
        rewrite Hi; done.
    + (* cuMemcpyDtoD *)
      unfold libvgpu_api.cuMemcpyDtoD.
      destruct (negb _); [intros [= <- <-]; apply Hgo; [in_list|done]|].
      destruct (_ || _); [intros [= <- <-]; apply Hgo; [in_list|done]|].
      destruct (libvgpu_api.request_call _ _ _ _ _ _) as [[[r' h'] a1]|] eqn:Hrun; [|done].
      cbn [mbind option_bind]. intros [= <- <-].
      destruct (request_call_result _ _ _ _ _ _ _ _ Hrun) as (Hr & Hi & Hctx).
      apply Hgo; [by apply wait_codes_result_codes|]. rewrite Hi. done.
    + (* cuMemsetD8 *)
      intros [= <- <-]. apply Hgo; [in_list|done].
    + (* cuMemsetD16 *)
      intros [= <- <-]. apply Hgo; [in_list|done].
    + (* cuMemsetD32 *)
      intros [= <- <-]. apply Hgo; [in_list|done].
    + (* cuGetErrorString *)
      unfold libvgpu_api.cuGetErrorString.
      destruct (negb _); [intros [= <- <-]; apply Hgo; [in_list|done]|].
      destruct (_ || _); [intros [= <- <-]; apply Hgo; [in_list|done]|].
      destruct (libvgpu_api.error_strings _); intros [= <- <-];
        (apply Hgo; [in_list|done]).
    + (* cuGetErrorName *)
      unfold libvgpu_api.cuGetErrorName.
      destruct (negb _); [intros [= <- <-]; apply Hgo; [in_list|done]|].
      destruct (_ || _); [intros [= <- <-]; apply Hgo; [in_list|done]|].
      destruct (libvgpu_api.error_names _); intros [= <- <-];
        (apply Hgo; [in_list|done]).
  - intros Hi Hneeds. destruct c; try discriminate Hneeds; cbn [call_result].
    + unfold libvgpu_api.cuDriverGetVersion. by rewrite Hi.
    + unfold libvgpu_api.cuDeviceGet. by rewrite Hi.
    + unfold libvgpu_api.cuDeviceGetCount. by rewrite Hi.
    + unfold libvgpu_api.cuDeviceGetName. by rewrite Hi.
    + unfold libvgpu_api.cuDeviceGetAttribute. by rewrite Hi.
    + unfold libvgpu_api.cuCtxCreate. by rewrite Hi.
    + unfold libvgpu_api.cuCtxDestroy. by rewrite Hi.
    + unfold libvgpu_api.cuCtxSynchronize. by rewrite Hi.
    + unfold libvgpu_api.cuCtxGetCurrent. by rewrite Hi.
    + unfold libvgpu_api.cuCtxSetCurrent. by rewrite Hi.
    + unfold libvgpu_api.cuMemAlloc. by rewrite Hi.
    + unfold libvgpu_api.cuMemFree. by rewrite Hi.
    + unfold libvgpu_api.cuMemcpyHtoD. by rewrite Hi.
    + unfold libvgpu.cuMemcpyDtoH. rewrite Hi. cbn [negb mbind option_bind].
      by destruct a as [[] ?].
    + unfold libvgpu_api.cuMemcpyDtoD. by rewrite Hi.
  - intros Hneeds Hnot. destruct c; try discriminate Hneeds; cbn [call_result].
    + by destruct (Hnot Flags).
    + by eexists.
    + by eexists.
    + by eexists.
    + unfold libvgpu_api.cuGetErrorString. destruct pStr; cbn [negb fst].
      * eexists. split; [|reflexivity].
        destruct (_ || _); [done|]. by destruct (libvgpu_api.error_strings _).
      * by eexists.
    + unfold libvgpu_api.cuGetErrorName. destruct pStr; cbn [negb fst].
      * eexists. split; [|reflexivity].
        destruct (_ || _); [done|]. by destruct (libvgpu_api.error_names _).
      * by eexists.
Qed.

End ApiFacts.

Lemma api_call_contract_witness :
  call_result (λ _ w, w) (CallCuMemAlloc true 64)
    {| libvgpu_api.lib := {| libvgpu.initialized := false;
                             libvgpu.uproc := user_proc;
                             libvgpu.ushared := fresh_world |};
       libvgpu_api.current_context := 0 |}
  = Some (libvgpu.CUDA_ERROR_NOT_INITIALIZED,
          {| libvgpu_api.lib := {| libvgpu.initialized := false;
                                   libvgpu.uproc := user_proc;
                                   libvgpu.ushared := fresh_world |};
             libvgpu_api.current_context := 0 |})
  ∧ ∃ r, call_result (λ _ w, w) (CallCuMemsetD32 4096 0 16)
           {| libvgpu_api.lib := {| libvgpu.initialized := false;
                                    libvgpu.uproc := user_proc;
                                    libvgpu.ushared := fresh_world |};
              libvgpu_api.current_context := 0 |}
         = Some (r, {| libvgpu_api.lib := {| libvgpu.initialized := false;
                                             libvgpu.uproc := user_proc;
                                             libvgpu.ushared := fresh_world |};
                       libvgpu_api.current_context := 0 |})
         ∧ r = libvgpu.CUDA_SUCCESS.
Proof.
  split.
  - destruct (api_call_contract (λ _ w, w) (CallCuMemAlloc true 64)
                {| libvgpu_api.lib := {| libvgpu.initialized := false;
                                         libvgpu.uproc := user_proc;
                                         libvgpu.ushared := fresh_world |};
                   libvgpu_api.current_context := 0 |}) as (_ & Hbefore & _).
    apply Hbefore; reflexivity.
  - destruct (api_call_contract (λ _ w, w) (CallCuMemsetD32 4096 0 16)
                {| libvgpu_api.lib := {| libvgpu.initialized := false;
                                         libvgpu.uproc := user_proc;
                                         libvgpu.ushared := fresh_world |};
                   libvgpu_api.current_context := 0 |}) as (_ & _ & Hfree).
    apply Hfree; [reflexivity|discriminate].
Defined.

(** X25.  [cuInit] connects once.  On a library that is not
    initialised, in a process without a connection and with memory for
    one, [cuInit] returns [CUDA_SUCCESS] exactly when the operating
    system grants the calls of [init_shm], and
    [CUDA_ERROR_NOT_INITIALIZED] when it refuses one.  On success it
    sets [initialized] and leaves the process connected as the client
    of zone 2 towards zone 1 with sequence counter 1, and a second
    [cuInit] returns [CUDA_SUCCESS] and changes nothing; on failure the
    library stays uninitialised and the process without a connection.
    Either way it changes no ring and no semaphore count.  If the
    process already holds a connection of its own or the allocation
    fails, [cuInit] returns [CUDA_ERROR_NOT_INITIALIZED], the library
    stays uninitialised and the shared memory and the connection are
    as before. *)
Theorem cuInit_connects_once (Flags Flags' : Z) (a : libvgpu_api.api_state) :
  libvgpu.initialized (libvgpu_api.lib a) = false →
  let p := libvgpu.uproc (libvgpu_api.lib a) in
  let w := libvgpu.ushared (libvgpu_api.lib a) in
  (global_conn p = None → fst (malloc p) = true →
     ∃ r a1,
       libvgpu_api.cuInit Flags a = Some (r, a1)
       ∧ (r = libvgpu.CUDA_SUCCESS ∨ r = libvgpu.CUDA_ERROR_NOT_INITIALIZED)
       ∧ (r = libvgpu.CUDA_SUCCESS ↔ os_grants user_conn w)
       ∧ libvgpu.initialized (libvgpu_api.lib a1) = (r =? libvgpu.CUDA_SUCCESS)
       ∧ global_conn (libvgpu.uproc (libvgpu_api.lib a1))
         = (if r =? libvgpu.CUDA_SUCCESS then Some user_conn else None)
       ∧ (∀ k, get_ring (libvgpu.ushared (libvgpu_api.lib a1)) k = get_ring w k)
       ∧ (∀ n, sem_value (libvgpu.ushared (libvgpu_api.lib a1)) n = sem_value w n)
       ∧ libvgpu_api.current_context a1 = libvgpu_api.current_context a
       ∧ (r = libvgpu.CUDA_SUCCESS →
          libvgpu_api.cuInit Flags' a1 = Some (libvgpu.CUDA_SUCCESS, a1)))
  ∧ (global_conn p ≠ None ∨ fst (malloc p) = false →
     ∃ a1,
       libvgpu_api.cuInit Flags a = Some (libvgpu.CUDA_ERROR_NOT_INITIALIZED, a1)
       ∧ libvgpu.initialized (libvgpu_api.lib a1) = false
       ∧ libvgpu.ushared (libvgpu_api.lib a1) = w
       ∧ global_conn (libvgpu.uproc (libvgpu_api.lib a1)) = global_conn p).
Proof.
  intros Hi p w. unfold libvgpu_api.cuInit. rewrite Hi.
  destruct (idm_init_parts libvgpu.USER_ZONE_ID libvgpu.DRIVER_ZONE_ID false p w)
    as (Halready & Hnomem & Hok).
  fold p w. split.
  - intros Hc Hm.
    destruct (Hok Hc Hm) as (ret & w' & Hinit & Hret & Hiff & _ & Hsems & _ & Hrings & _);
      [discriminate | discriminate |].
    specialize (Hrings eq_refl). rewrite Hinit. cbn [mbind option_bind].
    change (Build_idm_connection libvgpu.USER_ZONE_ID libvgpu.DRIVER_ZONE_ID false 1 true)
      with user_conn in *.
    assert (Hp1 : global_conn (snd (malloc p)) = None) by (by rewrite malloc_conn).
    destruct Hret as [-> | ->].
    + change (0 <? 0) with false. change (0 =? 0) with true. cbn iota.
      eexists _, _. split; [reflexivity|].
      cbn [libvgpu_api.lib libvgpu_api.with_lib libvgpu.initialized
           libvgpu.uproc libvgpu.ushared libvgpu_api.current_context].
      split; [by left|]. split; [split; [intros _; by apply Hiff|done]|].
      split; [done|]. split; [done|]. split; [done|]. split; [done|].
      split; [done|]. intros _. unfold libvgpu_api.cuInit. done.
    + change (-1 <? 0) with true. change (-1 =? 0) with false. cbn iota.
      eexists _, _. split; [reflexivity|].
      cbn [libvgpu_api.lib libvgpu_api.with_lib libvgpu.initialized
           libvgpu.uproc libvgpu.ushared libvgpu_api.current_context].
      split; [by right|]. split.
      { split; [discriminate|]. intros Hg. apply Hiff in Hg. discriminate. }
      split; [done|]. split; [done|]. split; [done|]. split; [done|].
      split; [done|]. discriminate.
  - intros [Hc|Hm].
    + rewrite (Halready Hc). cbn [mbind option_bind].
      change (- EALREADY <? 0) with true. cbn iota. eexists. split; [reflexivity|].
      cbn [fst snd libvgpu_api.lib libvgpu_api.with_lib libvgpu.initialized
           libvgpu.uproc libvgpu.ushared]. done.
    + destruct (decide (global_conn p = None)) as [Hc|Hc].
      * rewrite (Hnomem Hc Hm). cbn [mbind option_bind].
        change (- ENOMEM <? 0) with true. cbn iota. eexists. split; [reflexivity|].
        cbn [fst snd libvgpu_api.lib libvgpu_api.with_lib libvgpu.initialized
             libvgpu.uproc libvgpu.ushared]. by rewrite malloc_conn.
      * rewrite (Halready Hc). cbn [mbind option_bind].
        change (- EALREADY <? 0) with true. cbn iota. eexists. split; [reflexivity|].
        cbn [fst snd libvgpu_api.lib libvgpu_api.with_lib libvgpu.initialized
             libvgpu.uproc libvgpu.ushared]. done.
Qed.

Lemma cuInit_connects_once_witness :
  (∃ a1,
     libvgpu_api.cuInit 0
       {| libvgpu_api.lib := {| libvgpu.initialized := false;
                                libvgpu.uproc := {| global_conn := None; heap := [] |};
                                libvgpu.ushared := fresh_world |};
          libvgpu_api.current_context := 0 |}
     = Some (libvgpu.CUDA_SUCCESS, a1)
     ∧ libvgpu.initialized (libvgpu_api.lib a1) = true
     ∧ global_conn (libvgpu.uproc (libvgpu_api.lib a1)) = Some user_conn
     ∧ libvgpu_api.cuInit 7 a1 = Some (libvgpu.CUDA_SUCCESS, a1))
  ∧ (∃ a1,
       libvgpu_api.cuInit 0
         {| libvgpu_api.lib := {| libvgpu.initialized := false;
                                  libvgpu.uproc := {| global_conn := None; heap := [] |};
                                  libvgpu.ushared := sem_refusing_world |};
            libvgpu_api.current_context := 0 |}
       = Some (libvgpu.CUDA_ERROR_NOT_INITIALIZED, a1)
       ∧ libvgpu.initialized (libvgpu_api.lib a1) = false
       ∧ global_conn (libvgpu.uproc (libvgpu_api.lib a1)) = None).
Proof.
  split.
  2: { destruct (cuInit_connects_once 0 7
                   {| libvgpu_api.lib :=
                        {| libvgpu.initialized := false;
                           libvgpu.uproc := {| global_conn := None; heap := [] |};
                           libvgpu.ushared := sem_refusing_world |};
                      libvgpu_api.current_context := 0 |}) as [Hok _]; [reflexivity|].
       destruct Hok as (r & a1 & Hinit & Hr & Hiff & Hon & Hconn & _);
         [reflexivity|reflexivity|].
       assert (r = libvgpu.CUDA_ERROR_NOT_INITIALIZED) as ->.
       { destruct Hr as [-> | ->]; [|done].
         destruct (sem_refusing_world_refuses user_conn); [by right|by apply Hiff]. }
       exists a1. split; [exact Hinit|]. split; [exact Hon|exact Hconn]. }
  destruct (cuInit_connects_once 0 7
              {| libvgpu_api.lib := {| libvgpu.initialized := false;
                                       libvgpu.uproc := {| global_conn := None; heap := [] |};
                                       libvgpu.ushared := fresh_world |};
                 libvgpu_api.current_context := 0 |}) as [Hok _]; [reflexivity|].
  destruct Hok as (r & a1 & Hinit & _ & Hiff & Hon & Hconn & _ & _ & _ & Hagain);
    [reflexivity|reflexivity|].
  assert (r = libvgpu.CUDA_SUCCESS) as ->.
  { apply Hiff. apply no_faults_grant; [reflexivity | discriminate | discriminate]. }
  exists a1. split; [exact Hinit|]. split; [exact Hon|]. split; [exact Hconn|].
  by apply Hagain.
Defined.

(** X26.  The life of a context.  On an initialised library
    [cuCtxCreate] succeeds for device 0 only, makes 0x1000 the current
    context and touches nothing else; [cuCtxDestroy] succeeds exactly
    for the current context and resets it to NULL, so that destroying
    the same context twice fails with [CUDA_ERROR_INVALID_CONTEXT]
    while destroying NULL when no context is current succeeds; and
    since [cuCtxSetCurrent] accepts any value, a context that was never
    created can be made current and then destroyed. *)
Theorem context_lifecycle (a : libvgpu_api.api_state) (flags : Z) :
  libvgpu.initialized (libvgpu_api.lib a) = true →
  let a1 := snd (libvgpu_api.cuCtxCreate true flags 0 a) in
  let a2 := snd (libvgpu_api.cuCtxDestroy 0x1000 a1) in
  libvgpu_api.cuCtxCreate true flags 0 a = (libvgpu.CUDA_SUCCESS, Some 0x1000, a1)
  ∧ libvgpu_api.lib a1 = libvgpu_api.lib a
  ∧ libvgpu_api.cuCtxGetCurrent true a1 = (libvgpu.CUDA_SUCCESS, Some 0x1000)
  ∧ (∀ dev, dev ≠ 0 →
       libvgpu_api.cuCtxCreate true flags dev a
       = (libvgpu.CUDA_ERROR_INVALID_VALUE, None, a))
  ∧ libvgpu_api.cuCtxDestroy 0x1000 a1 = (libvgpu.CUDA_SUCCESS, a2)
  ∧ libvgpu_api.cuCtxGetCurrent true a2 = (libvgpu.CUDA_SUCCESS, Some 0)
  ∧ libvgpu_api.cuCtxDestroy 0x1000 a2 = (libvgpu.CUDA_ERROR_INVALID_CONTEXT, a2)
  ∧ libvgpu_api.cuCtxDestroy 0 a2 = (libvgpu.CUDA_SUCCESS, a2)
  ∧ (∀ ctx, libvgpu_api.cuCtxDestroy ctx a
            = if ctx =? libvgpu_api.current_context a
              then (libvgpu.CUDA_SUCCESS, libvgpu_api.with_context a 0)
              else (libvgpu.CUDA_ERROR_INVALID_CONTEXT, a))
  ∧ (∀ ctx, libvgpu_api.cuCtxDestroy ctx (snd (libvgpu_api.cuCtxSetCurrent ctx a))
            = (libvgpu.CUDA_SUCCESS, libvgpu_api.with_context a 0)).
Proof.
  intros Hi a1 a2. subst a2 a1.
  unfold libvgpu_api.cuCtxCreate, libvgpu_api.cuCtxDestroy, libvgpu_api.cuCtxGetCurrent,
    libvgpu_api.cuCtxSetCurrent.
  rewrite Hi. cbn [negb orb]. change (0 <? 0) with false.
  change (0 >=? libvgpu_api.device_count) with false. cbn [orb snd fst].
  cbn [libvgpu_api.lib libvgpu_api.with_context libvgpu_api.current_context].
  rewrite Hi. cbn [negb].
  change (u64 (4096 + 0)) with 4096. change (4096 =? 4096) with true.
  change (4096 =? 0) with false. change (0 =? 0) with true. cbn [negb snd].
  cbn [libvgpu_api.lib libvgpu_api.with_context libvgpu_api.current_context].
  rewrite Hi. cbn [negb].
  split; [done|]. split; [done|]. split; [done|]. split.
  { intros dev Hdev. destruct (dev <? 0) eqn:E1; [done|].
    destruct (dev >=? libvgpu_api.device_count) eqn:E2; [done|].
    unfold libvgpu_api.device_count in E2. branch. lia. }
  split; [done|]. split; [done|]. split; [done|]. split; [done|]. split.
  { intros ctx. by destruct (ctx =? libvgpu_api.current_context a). }
  intros ctx. by rewrite Z.eqb_refl.
Qed.

Lemma context_lifecycle_witness :
  libvgpu_api.cuCtxDestroy 0x1000
    (snd (libvgpu_api.cuCtxDestroy 0x1000
            (snd (libvgpu_api.cuCtxCreate true 0 0 app_api_state))))
  = (libvgpu.CUDA_ERROR_INVALID_CONTEXT,
     snd (libvgpu_api.cuCtxDestroy 0x1000
            (snd (libvgpu_api.cuCtxCreate true 0 0 app_api_state)))).
Proof.
  destruct (context_lifecycle app_api_state 0) as (_ & _ & _ & _ & _ & _ & Htwice & _).
  - reflexivity.
  - exact Htwice.
Defined.

(** X27.  Start-up gives an idle link.  Let the daemon start in a
    process without a connection and with memory for one.  If the
    operating system refuses a call of [init_shm], or if [init_cuda]
    fails, [run_server] returns 1 before its loop, without a
    connection.  Otherwise the daemon reaches its loop with an empty,
    reachable table and the device as [init_cuda] left it; and when the
    application then calls [cuInit], finding memory, [cuInit] succeeds;
    the two connections are those of zones 1 and 2, each other's peer;
    and both rings are empty whatever the shared memory held before the
    daemon started.  The semaphore counts are not reset by either side,
    so the link is idle only if they were zero. *)
Theorem startup_gives_idle_link {dev : Type} `{CudaDriver dev} `{CudaSetup dev}
    (d : dev) (ps : process) (w : world) (a : libvgpu_api.api_state) (Flags : Z) :
  global_conn ps = None → fst (malloc ps) = true →
  (¬ os_grants driver_conn w →
     ∃ p1 w1, run_server_start d ps w = Some (Exited 1 d p1 w1)
              ∧ global_conn p1 = None)
  ∧ (os_grants driver_conn w → fst (init_cuda d) < 0 →
     ∃ p1 w1, run_server_start d ps w = Some (Exited 1 (snd (init_cuda d)) p1 w1)
              ∧ global_conn p1 = None)
  ∧ (os_grants driver_conn w → fst (init_cuda d) = 0 →
     libvgpu.initialized (libvgpu_api.lib a) = false →
     global_conn (libvgpu.uproc (libvgpu_api.lib a)) = None →
     fst (malloc (libvgpu.uproc (libvgpu_api.lib a))) = true →
     ∃ st a1,
       run_server_start d ps w = Some (Serving st)
       ∧ libvgpu_api.cuInit Flags
           (libvgpu_api.with_lib a
              (libvgpu.with_uio (libvgpu_api.lib a) (libvgpu.uproc (libvgpu_api.lib a))
                 (shared st)))
         = Some (libvgpu.CUDA_SUCCESS, a1)
       ∧ table st = handle_table_init ∧ table_reachable (table st)
       ∧ device st = snd (init_cuda d) ∧ calls st = []
       ∧ global_conn (proc st) = Some driver_conn
       ∧ libvgpu.initialized (libvgpu_api.lib a1) = true
       ∧ global_conn (libvgpu.uproc (libvgpu_api.lib a1)) = Some user_conn
       ∧ linked user_conn driver_conn
       ∧ holds_queue (get_ring (libvgpu.ushared (libvgpu_api.lib a1)) (tx_key user_conn)) []
       ∧ holds_queue (get_ring (libvgpu.ushared (libvgpu_api.lib a1)) (rx_key user_conn)) []
       ∧ (∀ n, sem_value (libvgpu.ushared (libvgpu_api.lib a1)) n = sem_value w n)
       ∧ (sem_value w (tx_sem user_conn) = O → sem_value w (rx_sem user_conn) = O →
          link_idle user_conn (libvgpu.ushared (libvgpu_api.lib a1)))).
Proof.
  intros Hps Hms.
  destruct (idm_init_parts 1 2 true ps w) as (_ & _ & Hserver).
  destruct (Hserver Hps Hms)
    as (ret & w1 & Hinit & Hret & Hiff & Hf1 & Hsems & _ & _ & Hzero);
    [discriminate | discriminate |]. clear Hserver.
  change (Build_idm_connection 1 2 true 1 true) with driver_conn in *.
  assert (Hp1 : global_conn (snd (malloc ps)) = None) by (by rewrite malloc_conn).
  split; [|split].
  - intros Hno. assert (ret = -1) as ->.
    { destruct Hret as [-> | ->]; [|done]. destruct Hno. by apply Hiff. }
    unfold run_server_start. rewrite Hinit. cbn [mbind option_bind].
    change (-1 <? 0) with true. change (-1 =? 0) with false. cbn iota.
    by eexists _, _.
  - intros Hg Hcuda. assert (ret = 0) as -> by (by apply Hiff).
    unfold run_server_start. rewrite Hinit. cbn [mbind option_bind].
    change (0 <? 0) with false. change (0 =? 0) with true. cbn iota.
    destruct (init_cuda d) as [r d1]. cbn [fst snd] in *.
    destruct (r <? 0) eqn:E; branch; [|lia].
    eexists _, _. split; [reflexivity|]. done.
  - intros Hg Hcuda Hi Hpu Hmu. assert (ret = 0) as -> by (by apply Hiff).
    change (0 =? 0) with true in Hinit. cbn iota in Hinit.
    destruct (Hzero eq_refl) as [Hz _].
    destruct (Hz ltac:(apply Hg)) as [Htx Hrx]. clear Hzero Hz.
    destruct (idm_init_parts libvgpu.USER_ZONE_ID libvgpu.DRIVER_ZONE_ID false
                (libvgpu.uproc (libvgpu_api.lib a)) w1) as (_ & _ & Hclient).
    destruct (Hclient Hpu Hmu)
      as (ret2 & w2 & Hcinit & _ & Hiff2 & _ & Hcsems & _ & Hcrings & _);
      [discriminate | discriminate |]. clear Hclient.
    change (Build_idm_connection libvgpu.USER_ZONE_ID libvgpu.DRIVER_ZONE_ID false 1 true)
      with user_conn in *.
    assert (Hg2 : os_grants user_conn w1).
    { unfold os_grants, shm_granted in *. rewrite Hf1.
      change (tx_key user_conn) with (rx_key driver_conn).
      change (rx_key user_conn) with (tx_key driver_conn).
      change (tx_sem user_conn) with (rx_sem driver_conn).
      change (rx_sem user_conn) with (tx_sem driver_conn). tauto. }
    assert (ret2 = 0) as -> by (by apply Hiff2).
    change (0 =? 0) with true in Hcinit. cbn iota in Hcinit.
    specialize (Hcrings eq_refl).
    assert (Hq1 : holds_queue (get_ring w2 (tx_key user_conn)) []).
    { rewrite Hcrings. change (tx_key user_conn) with (rx_key driver_conn).
      rewrite Hrx. apply holds_queue_zero. }
    assert (Hq2 : holds_queue (get_ring w2 (rx_key user_conn)) []).
    { rewrite Hcrings. change (rx_key user_conn) with (tx_key driver_conn).
      rewrite Htx. apply holds_queue_zero. }
    assert (Hs : ∀ n, sem_value w2 n = sem_value w n).
    { intros n. by rewrite Hcsems, Hsems. }
    destruct (init_cuda d) as [r d1] eqn:Hcuda'. cbn [fst snd] in *. subst r.
    eexists _, _. split.
    { unfold run_server_start. rewrite Hinit. cbn [mbind option_bind].
      change (0 <? 0) with false. cbn iota. rewrite Hcuda'.
      change (0 <? 0) with false. cbn iota. reflexivity. }
    cbn [shared table device calls proc].
    split.
    { unfold libvgpu_api.cuInit.
      cbn [libvgpu_api.lib libvgpu_api.with_lib libvgpu.initialized libvgpu.with_uio
           libvgpu.uproc libvgpu.ushared].
      rewrite Hi, Hcinit. cbn [mbind option_bind]. change (0 <? 0) with false. done. }
    cbn [libvgpu_api.lib libvgpu_api.with_lib libvgpu.initialized libvgpu.with_uio
         libvgpu.uproc libvgpu.ushared].
    split; [done|]. split; [apply table_fresh|]. split; [done|]. split; [done|].
    split; [done|]. split; [done|]. split; [done|].
    split.
    { repeat split; try reflexivity; intros Heq; vm_compute in Heq; discriminate. }
    split; [done|]. split; [done|]. split; [done|].
    intros Hz1 Hz2. unfold link_idle. rewrite !Hs. done.
Qed.

Lemma startup_gives_idle_link_witness :
  (∃ st a1,
     run_server_start stub_start {| global_conn := None; heap := [] |} fresh_world
     = Some (Serving st)
     ∧ libvgpu_api.cuInit 0
         {| libvgpu_api.lib := {| libvgpu.initialized := false;
                                  libvgpu.uproc := {| global_conn := None; heap := [] |};
                                  libvgpu.ushared := shared st |};
            libvgpu_api.current_context := 0 |}
       = Some (libvgpu.CUDA_SUCCESS, a1)
     ∧ link_idle user_conn (libvgpu.ushared (libvgpu_api.lib a1)))
  ∧ (∃ p1 w1,
       run_server_start stub_start {| global_conn := None; heap := [] |}
         sem_refusing_world
       = Some (Exited 1 stub_start p1 w1)
       ∧ global_conn p1 = None).
Proof.
  split.
  2: { destruct (startup_gives_idle_link stub_start
                   {| global_conn := None; heap := [] |} sem_refusing_world
                   {| libvgpu_api.lib :=
                        {| libvgpu.initialized := false;
                           libvgpu.uproc := {| global_conn := None; heap := [] |};
                           libvgpu.ushared := fresh_world |};
                      libvgpu_api.current_context := 0 |} 0)
         as (Hrefused & _); [reflexivity | reflexivity |].
       apply Hrefused. apply sem_refusing_world_refuses. by left. }
  destruct (startup_gives_idle_link stub_start {| global_conn := None; heap := [] |}
              fresh_world
              {| libvgpu_api.lib := {| libvgpu.initialized := false;
                                       libvgpu.uproc := {| global_conn := None; heap := [] |};
                                       libvgpu.ushared := fresh_world |};
                 libvgpu_api.current_context := 0 |} 0)
    as (_ & _ & Hserve); [reflexivity | reflexivity |].
  destruct Hserve
    as (st & a1 & Hstart & Hinit & _ & _ & _ & _ & _ & _ & _ & _ & _ & _ & _ & Hidle);
    [apply no_faults_grant; [reflexivity | discriminate | discriminate]
    | reflexivity | reflexivity | reflexivity | reflexivity |].
  exists st, a1. split; [exact Hstart|]. split; [exact Hinit|].
  apply Hidle; reflexivity.
Defined.
